(* ===== verification/_CoqProject ===== *)
-Q . S2P
Prelude.v
CLib.v
Machine.v
Kernels.v
FileIO.v
Pipes.v
Terminal.v
Curses.v
TermInfo.v
CursesPrograms.v
Processes.v
Environ.v
ExecPrograms.v
Attributes.v
Directories.v
Descriptors.v
SystemFiles.v
FileTransfer.v
HttpServer.v
SelectServer.v
Chat.v
Inet.v
NetInfo.v
MsgQueue.v
Fifo.v
IpcPrograms.v
Conc.v
Threads.v
ThreadRaces.v
ThreadData.v
Signals.v
Semaphores.v
ShmSetup.v
Devices.v
Tools.v
