(* ===== verification/Prelude.v ===== *)
(** * Verification of the programs of LinuxUnixDevelopment

    The repository holds the example programs of a book on programming Linux
    and Unix: small C programs in a directory per chapter, most of them alone,
    some as services of several programs that talk to each other.  This
    library models them and proves what makes them correct, or shows how they
    go wrong.

    ** The models

    A sequential program is a function in the monad [Machine.M]: it takes an
    environment and a state and gives an outcome and the next state.  The
    environment ([Machine.env]) holds the kernel, which is an arbitrary
    function from the history of the run to the answer of the next system
    call; the state holds that history, the standard input that is left,
    [errno] and the static variables.  An outcome is a value, an exit status,
    undefined behaviour, or [Running] when a loop has used up its fuel.
    Theorems are weakest preconditions ([Machine.wp]), proved with [wp_step];
    they are about total correctness: a theorem that says what a program
    returns excludes [Running] and undefined behaviour.  Kernels are restrained
    by contracts (type classes such as [ReadOk], [Stream], [Tty], [Disc],
    [Table], [Peer]) that state what the calls are documented to do;
    [Kernels.v] and the witnesses have concrete kernels that meet them.

    Programs of several threads, or of processes that share memory, are lists
    of atomic instructions for the interleaving machine of [Conc.v]: an
    instruction has the ways it can go on, none when it is blocked and several
    when the system may choose.  [all_runs] explores every interleaving of a
    finite program, and [all_runs_sound] turns what it computes into a
    statement about all reachable states and the end of all runs.  Programs
    that fork without sharing are trees of processes ([Processes.v]), for
    which [fork_runs] is proved once by induction.  The semaphore and
    shared-memory programs are step relations with any number of processes,
    with their invariants proved by induction on the steps.

    ** The files

    - [Prelude.v], [CLib.v]: lists and machine integers; strings, character
      arrays ([buf]), decimal text and address functions of the C library.
    - [Machine.v], [Kernels.v]: the machine, its logic, the contracts; concrete
      kernels.
    - [FileIO.v], [Descriptors.v], [Directories.v]: 02_Files (cpy_file.c and
      backward.c; dup_fd.c, write_file.c, write_vec.c, play_fd.c; directories,
      locks and the programs that wait).
    - [Attributes.v]: the programs of 03_Attributes and 04_ProcFs.
    - [Devices.v]: 05_Devices/cdrom.c.  [SystemFiles.v]: 06_SystemFiles.
    - [Processes.v], [Environ.v], [ExecPrograms.v]: 07_Processes (programs that
      fork, with 02_Files/trash.c; environment variables; programs that run
      others, and the small ones).
    - [Signals.v]: 08_Signals (sig_sync.c, sig.c, ping_pong.c).
    - [Pipes.v], [Fifo.v], [IpcPrograms.v], [MsgQueue.v], [Semaphores.v],
      [ShmSetup.v]: 09_IPC (word filter and pipes; the FIFO programs; mail,
      FIFOs and pipes of two processes; the message queue service; semaphores
      and shared memory as processes, and the set-up of the two programs).
    - [Conc.v]: the interleaving machine; [Threads.v], [ThreadRaces.v],
      [ThreadData.v]: 10_Threads (condition variables and semaphores: thread9
      to thread13; cancellation, once and races: thread3, 5, 6, 8, 14, 15, 18,
      19; data, results and signals: thread1, 2, 4, 17, 20).
    - [FileTransfer.v], [HttpServer.v], [SelectServer.v], [Chat.v], [Inet.v],
      [NetInfo.v]: 11_Network (the upload service with thserver.c;
      select/http_server.c; select/multi_server.c and client3.c; the talk over
      TCP and over local sockets; addr.c and udp; the databases of hosts and
      services, multicast and non_block.c).
    - [Terminal.v], [TermInfo.v], [Curses.v], [CursesPrograms.v]: 13_Terminal
      (terminal modes and rates; terminfo.c, terminfo2.c, my_tty.c, sende.c; the
      protocol of the curses library; cur2.c to cur15.c).
    - [Tools.v]: 17_Tools.

    A Module bears the name of the program, a definition the name of the C
    function; [main] of a program is [<program>_main], the body of a loop
    [<name>_body].

    ** What the theorems show

    - Services: a file arrives whole at the server ([upload_roundtrip]); the web
      server answers every request ([httpd_answers]), and its tokeniser agrees
      with a reference ([GetToken_reference]); the table of clients of the select
      server stays consistent ([multi_server_invariant]); the linked list of the
      message service implements a plain list, and its handlers and its client
      do what the protocol says ([mq_list_refines], [handle_login_logout],
      [client_session]); both sides of a talk follow the same dialog
      ([chat_session]); what goes into a FIFO comes out of it
      ([fifo_roundtrip]); a datagram is shown if it fits ([udp_delivers]); mail
      is handed to sendmail as typed ([popen2_mails]).
    - Concurrency: mutual exclusion and the handshake over shared memory for
      any number of processes ([critical_exclusion], [shm_handshake]), from the
      state that the set-up of the programs leaves ([server_setup_reports],
      [setup_agrees]); the threads with condition variables, semaphores,
      cancellation, pthread_once, memory of the heap and keys for every
      interleaving ([thread13_sums], [thread12_no_lost_wakeup],
      [thread15_protected], [once_is_once], [thread1_frees],
      [thread17_closes]), and interleavings that break the ones that race
      ([thread9_lost_wakeup], [thread14_races]); parent and child alternate by
      signals ([sig_sync_alternates]); handlers between any two statements
      ([ping_pong_pairs]); every run of a program that forks ends and writes
      what it should ([child4_prints], [child_memory], [trash_mixes]).
    - Files and processes: copies are whole for every split of reads and
      writes ([cpy_main_copies], [bw_main_backwards]); the word filter leaves
      none of its words and agrees with a reference by lines ([filter_clean],
      [filter_lines]); a file is written under its lock only ([sperre_locks]);
      errors are reported ([mychdir_reports]); permissions, directories,
      entries of the databases, tracks, variables and addresses
      ([my_stat_lists], [ftwalk_lists], [lookup_agrees], [play_cdrom_tracks],
      [set_put_agree], [addr_recombines]); arguments are handed on
      ([exec_child_runs], [prio_child_args]).
    - Terminal: the terminal gets its modes back on every path
      ([keystroke_restores]); the curses programs keep to the protocol of the
      library, whatever keys are pressed ([curses_programs_typed]); the ship
      stays in its field ([ship_stays_in_field]); both programs that ask the
      terminal database print the same ([terminfo_pages]).

    ** Conventions and bounds

    A character is its unsigned value, an array a list of cells of which some
    are indeterminate; reading an indeterminate cell or going out of bounds is
    undefined behaviour, and so is a null pointer for [printf].  An [int] is
    an integer whose overflow is checked where the program computes with
    input.  Output is not buffered, so [fflush] does nothing.  [malloc] is
    taken to succeed except where a program's own check is modelled.  A
    signal is delivered at a call, or, in [Signals.v], between two statements.
    Thread ids are the numbers of the threads from 1.  Condition variables have
    no wake-ups without a signal.  Fuel is an argument, and the theorems ask
    for more than the number of turns (of lines, messages, bytes or entries);
    servers that never end are described by their loop bodies or by
    invariants of every number of turns.  The explored thread programs are
    finite: loops with a fixed count are unrolled, and the number of explored
    rounds is larger than the longest run, which [all_runs_sound] checks.

    ** Not modelled

    - Code of libraries and of the system: what curses draws, what the terminal
      database, the resolver and the databases of users answer, the dynamic
      loader, floating-point text (a parameter of [Tools.Make.main]).
    - The branches for other systems than Linux ([__APPLE__]), and code that is
      switched off ([waitzero] in shm_header.h).
    - The copies of myequal and testlist under libraries/dynamic, which are
      those of libraries/static.
    - The flush of typed input by TCSAFLUSH, the buffering of output, and
      delays.

    Planned: the loops of the thread programs for any number of threads. *)
From Stdlib Require Export Ascii String ZArith Lia.
From stdpp Require Export prelude gmap strings.
Open Scope Z_scope.

(** ** Notation and automation *)
Create HintDb cdb discriminated.

(** [inv_all]: split conjunctions and existentials among the hypotheses. *)
Ltac inv_all :=
  repeat match goal with
  | H : _ ∧ _ |- _ => destruct H
  | H : ∃ _, _ |- _ => destruct H
  | H : Some _ = Some _ |- _ => injection H as H
  | H : (_, _) = (_, _) |- _ => injection H as ? ?
  end; subst.

(** ** Lists *)

(** The part of a list strictly before the first element satisfying [p],
    and the rest from that element on. *)
Fixpoint span_until {A} (p : A → bool) (l : list A) : list A * list A :=
  match l with
  | [] => ([], [])
  | x :: r => if p x then ([], l) else let '(a, b) := span_until p r in (x :: a, b)
  end.

Section span.
Context {A : Type} (p : A → bool).

Lemma span_until_app l : (span_until p l).1 ++ (span_until p l).2 = l.
Proof. induction l as [|x l IH]; simpl; [done|]. destruct (p x); [done|].
  destruct (span_until p l); simpl in *. by rewrite IH. Qed.

Lemma span_until_none l r :
  Forall (λ x, p x = false) l →
  (r = [] ∨ ∃ x r', r = x :: r' ∧ p x = true) →
  span_until p (l ++ r) = (l, r).
Proof.
  intros Hl Hr. induction Hl as [|x l Hx Hl IH]; simpl.
  - destruct Hr as [->|(x & r' & -> & Hx)]; simpl; [done|]. by rewrite Hx.
  - by rewrite Hx, IH.
Qed.

Lemma span_until_fst_no l : Forall (λ x, p x = false) (span_until p l).1.
Proof.
  induction l as [|x l IH]; simpl; [constructor|]. destruct (p x) eqn:E; [constructor|].
  destruct (span_until p l); simpl in *. by constructor.
Qed.

Lemma span_until_snd l :
  (span_until p l).2 = [] ∨ ∃ x r, (span_until p l).2 = x :: r ∧ p x = true.
Proof.
  induction l as [|x l IH]; simpl; [by left|]. destruct (p x) eqn:E; [eauto|].
  by destruct (span_until p l).
Qed.
End span.

Lemma Forall_not_elem {A} (P : A → Prop) l x : Forall P l → ¬ P x → x ∉ l.
Proof. rewrite Forall_forall. naive_solver. Qed.

Lemma concat_snoc {A} (ls : list (list A)) l : concat (ls ++ [l]) = concat ls ++ l.
Proof. by rewrite concat_app; simpl; rewrite app_nil_r. Qed.

(** ** Machine integers *)

(** Two's complement reduction to a signed [w]-bit integer. *)
Definition swrap (w : Z) (z : Z) : Z := (z + 2 ^ (w - 1)) mod 2 ^ w - 2 ^ (w - 1).
(** Reduction to an unsigned [w]-bit integer. *)
Definition uwrap (w : Z) (z : Z) : Z := z mod 2 ^ w.
(** The conversion to [int] (32 bits). *)
Abbreviation to_int := (swrap 32).
Definition INT_MIN : Z := -2147483648.
Definition INT_MAX : Z := 2147483647.

Lemma pow2_half w : 0 < w → 2 ^ w = 2 * 2 ^ (w - 1).
Proof. intros Hw. rewrite <- Z.pow_succ_r by lia. by replace (Z.succ (w - 1)) with w by lia. Qed.

Lemma swrap_id w z : 0 < w → - 2 ^ (w - 1) ≤ z < 2 ^ (w - 1) → swrap w z = z.
Proof.
  intros Hw Hz. unfold swrap. rewrite Z.mod_small; [lia|].
  pose proof (pow2_half w Hw). lia.
Qed.

Lemma swrap_range w z : 0 < w → - 2 ^ (w - 1) ≤ swrap w z < 2 ^ (w - 1).
Proof.
  intros Hw. unfold swrap.
  pose proof (pow2_half w Hw).
  pose proof (Z.mod_pos_bound (z + 2 ^ (w - 1)) (2 ^ w)) as Hb.
  assert (0 < 2 ^ w) by (apply Z.pow_pos_nonneg; lia). lia.
Qed.

Lemma uwrap_range w z : 0 ≤ w → 0 ≤ uwrap w z < 2 ^ w.
Proof. intros Hw. apply Z.mod_pos_bound, Z.pow_pos_nonneg; lia. Qed.
