(* ===== verification/CLib.v ===== *)
(** * The parts of the C library the programs use: strings, buffers, decimal text

    A [char] is modelled by its unsigned value, a [Z] in [0..255].  A character
    array is a [buf]: a list of cells, [None] for an indeterminate cell.  Every
    access checks the bounds of the array; an access outside of it, or the use
    of an indeterminate cell, has no result ([None]) and is undefined behaviour
    in the programs. *)
From S2P Require Import Prelude.

(** ** Character constants and string literals *)
Definition chr (a : ascii) : Z := Z.of_N (N_of_ascii a).
Definition str (s : string) : list Z := chr <$> list_ascii_of_string s.
Arguments str : simpl never.

Definition NUL : Z := 0.
Definition TAB : Z := 9.
Definition LF : Z := 10.
Definition CR : Z := 13.
Definition SPC : Z := 32.

(** A string literal that ends in a newline. *)
Definition line (s : string) : list Z := str s ++ [LF].
Arguments line : simpl never.

(** The double quote character. *)
Definition DQ : list Z := [34].

Definition nozero (l : list Z) : Prop := Forall (λ c, c ≠ 0) l.
#[export] Instance nozero_dec l : Decision (nozero l).
Proof. unfold nozero. apply _. Defined.

(** Decide a closed proposition by computation. *)
Ltac by_compute := apply (bool_decide_unpack _); vm_compute; exact I.

Definition is_char (c : Z) : Prop := 0 ≤ c < 256.
#[export] Instance is_char_dec c : Decision (is_char c).
Proof. unfold is_char. apply _. Defined.

(** The value of a plain [char] (signed on the targets of the repository). *)
Definition schar (c : Z) : Z := swrap 8 c.

Lemma nozero_app a b : nozero (a ++ b) ↔ nozero a ∧ nozero b.
Proof. unfold nozero. by rewrite Forall_app. Qed.
Lemma nozero_cons c l : nozero (c :: l) ↔ c ≠ 0 ∧ nozero l.
Proof. unfold nozero. by rewrite Forall_cons. Qed.

(** [isspace] in the C locale. *)
Definition isspace (c : Z) : bool := bool_decide (c = 32 ∨ 9 ≤ c ≤ 13).
Definition isdigit (c : Z) : bool := bool_decide (48 ≤ c ≤ 57).

(** ** Character arrays *)
Definition buf := list (option Z).
Definition uninit (n : nat) : buf := replicate n None.
Definition zeroed (n : nat) : buf := replicate n (Some 0).

Definition bget (b : buf) (i : Z) : option Z :=
  if decide (0 ≤ i) then mjoin (b !! Z.to_nat i) else None.
Definition bset (b : buf) (i : Z) (v : Z) : option buf :=
  if decide (0 ≤ i < Z.of_nat (length b)) then Some (<[Z.to_nat i := Some v]> b) else None.
(** [memcpy] of the bytes [l] into [b] from offset [off]. *)
Definition blit (b : buf) (off : nat) (l : list Z) : option buf :=
  if decide (off + length l ≤ length b)%nat
  then Some (take off b ++ (Some <$> l) ++ drop (off + length l) b) else None.
(** The C string that starts at cell 0. *)
Fixpoint cstr (b : buf) : option (list Z) :=
  match b with
  | [] => None
  | None :: _ => None
  | Some c :: r => if decide (c = 0) then Some [] else (cons c) <$> cstr r
  end.
Definition strcpy (b : buf) (s : list Z) : option buf := blit b 0 (s ++ [0]).
Definition strcat (b : buf) (s : list Z) : option buf :=
  d ← cstr b; blit b (length d) (s ++ [0]).
(** [strncat]: at most [n] characters of [s], then a terminator. *)
Definition strncat (b : buf) (s : list Z) (n : nat) : option buf := strcat b (take n s).
(** [sizeof] bytes of the array, as [write(fd, b, n)] sends them. *)
Fixpoint bytes_of (b : buf) (n : nat) {struct n} : option (list Z) :=
  match n, b with
  | O, _ => Some []
  | S n, Some c :: r => cons c <$> bytes_of r n
  | S _, _ => None
  end.

Lemma length_uninit n : length (uninit n) = n.
Proof. apply length_replicate. Qed.
Lemma length_zeroed n : length (zeroed n) = n.
Proof. apply length_replicate. Qed.

Lemma blit_length b off l b' : blit b off l = Some b' → length b' = length b.
Proof.
  unfold blit. intros H. case_decide; [|done]. injection H as <-.
  rewrite !length_app, length_fmap, length_take, length_drop. lia.
Qed.
Lemma blit_Some b off l :
  (off + length l ≤ length b)%nat →
  blit b off l = Some (take off b ++ (Some <$> l) ++ drop (off + length l) b).
Proof. intros. unfold blit. by rewrite decide_True. Qed.
Lemma blit_None b off l : (length b < off + length l)%nat → blit b off l = None.
Proof. intros. unfold blit. rewrite decide_False; [done|lia]. Qed.

Lemma bset_Some b i v :
  0 ≤ i < Z.of_nat (length b) → bset b i v = Some (<[Z.to_nat i := Some v]> b).
Proof. intros. unfold bset. by rewrite decide_True. Qed.
Lemma bset_None b i v : ¬ (0 ≤ i < Z.of_nat (length b)) → bset b i v = None.
Proof. intros. unfold bset. by rewrite decide_False. Qed.
Lemma bset_length b i v b' : bset b i v = Some b' → length b' = length b.
Proof. unfold bset. intros H. case_decide; [|done]. injection H as <-. apply length_insert. Qed.
Lemma bget_nat b (i : nat) c : b !! i = Some (Some c) → bget b (Z.of_nat i) = Some c.
Proof. intros H. unfold bget. rewrite decide_True by lia. by rewrite Nat2Z.id, H. Qed.

Lemma cstr_prefix s r : nozero s → cstr ((Some <$> s) ++ Some 0 :: r) = Some s.
Proof.
  induction 1 as [|c s Hc Hs IH]; csimpl; [done|]. rewrite decide_False by done.
  by rewrite IH.
Qed.
Lemma cstr_fmap s r : nozero s → cstr (Some <$> s ++ 0 :: r) = Some s.
Proof. intros H. rewrite fmap_app. by apply cstr_prefix. Qed.
Lemma cstr_stops d r : ∃ s, cstr ((Some <$> d) ++ Some 0 :: r) = Some s.
Proof.
  induction d as [|c d (s & IH)]; csimpl; [by eexists|]. case_decide; [by eexists|].
  rewrite IH. by eexists.
Qed.
Lemma cstr_nozero b s : cstr b = Some s → nozero s.
Proof.
  revert s. induction b as [|[c|] b IH]; csimpl; intros s H; try done.
  case_decide; [injection H as <-; constructor|].
  destruct (cstr b) as [t|]; simpl in H; [|done]. injection H as <-.
  constructor; [done|]. by apply IH.
Qed.
Lemma cstr_shape b s : cstr b = Some s → ∃ r, b = (Some <$> s) ++ Some 0 :: r.
Proof.
  revert s. induction b as [|[c|] b IH]; csimpl; intros s H; try done.
  case_decide as Hc; [injection H as <-; subst c; by exists b|].
  destruct (cstr b) as [t|] eqn:E; simpl in H; [|done]. injection H as <-.
  destruct (IH t eq_refl) as (r & ->). by exists r.
Qed.
Lemma cstr_length b s : cstr b = Some s → (length s < length b)%nat.
Proof.
  intros H. destruct (cstr_shape _ _ H) as (r & ->).
  rewrite length_app, length_fmap. csimpl. lia.
Qed.

Lemma blit0_cstr b s b' : nozero s → blit b 0 (s ++ [0]) = Some b' → cstr b' = Some s.
Proof.
  intros Hs H. unfold blit in H. case_decide; [|done]. injection H as <-. csimpl.
  rewrite fmap_app, <- (assoc_L (++)). csimpl. by apply cstr_prefix.
Qed.
Lemma strcpy_cstr b s b' : nozero s → strcpy b s = Some b' → cstr b' = Some s.
Proof. apply blit0_cstr. Qed.
Lemma strcpy_Some b s :
  (length s < length b)%nat → ∃ b', strcpy b s = Some b' ∧ length b' = length b.
Proof.
  intros H. unfold strcpy. eexists. split; [apply blit_Some; rewrite length_app; csimpl; lia|].
  rewrite !length_app, length_fmap, length_drop, !length_app; csimpl. lia.
Qed.
Lemma strcat_spec b d s b' :
  cstr b = Some d → nozero s → strcat b s = Some b' →
  cstr b' = Some (d ++ s) ∧ length b' = length b.
Proof.
  intros Hd Hs H. unfold strcat in H. rewrite Hd in H. simpl in H.
  split; [|by eapply blit_length].
  unfold blit in H. case_decide; [|done]. injection H as <-.
  destruct (cstr_shape _ _ Hd) as (r & ->).
  rewrite take_app_length' by (by rewrite length_fmap).
  rewrite fmap_app, <- (assoc_L (++)), (assoc_L (++)), <- fmap_app. csimpl.
  apply cstr_prefix, nozero_app. split; [|done]. eapply cstr_nozero, Hd.
Qed.
Lemma strcat_Some b d s :
  cstr b = Some d → (length d + length s < length b)%nat → ∃ b', strcat b s = Some b'.
Proof.
  intros Hd H. unfold strcat. rewrite Hd. csimpl. eexists. apply blit_Some.
  rewrite length_app. csimpl. lia.
Qed.
Lemma strcat_None b d s :
  cstr b = Some d → (length b ≤ length d + length s)%nat → strcat b s = None.
Proof.
  intros Hd H. unfold strcat. rewrite Hd. csimpl. apply blit_None.
  rewrite length_app. csimpl. lia.
Qed.
Lemma bytes_of_app l r : bytes_of ((Some <$> l) ++ r) (length l) = Some l.
Proof. induction l as [|c l IH]; csimpl; [done|]. by rewrite IH. Qed.

(** Copying [l] to the front of an array and terminating it. *)
Lemma blit_terminate b l : (length l < length b)%nat → ∃ b1 b2,
  blit b 0 l = Some b1 ∧ bset b1 (Z.of_nat (length l)) 0 = Some b2 ∧ length b1 = length b ∧ length b2 = length b ∧
  (∃ r, b2 = (Some <$> l) ++ Some 0 :: r) ∧ (nozero l → cstr b2 = Some l).
Proof.
  intros Hl. set (b1 := (Some <$> l) ++ drop (length l) b).
  assert (Hb1 : length b1 = length b) by (subst b1; rewrite length_app, length_fmap, length_drop; lia).
  assert (Hb2 : <[length l := Some 0]> b1 = (Some <$> l) ++ Some 0 :: drop (S (length l)) b).
  { subst b1. rewrite insert_app_r_alt by (rewrite length_fmap; lia). rewrite length_fmap, Nat.sub_diag. f_equal.
    destruct (drop (length l) b) as [|x r] eqn:E; [apply (f_equal length) in E; rewrite length_drop in E; simpl in E; lia|].
    cbn [insert list_insert]. f_equal. change (S (length l)) with (1 + length l)%nat. rewrite Nat.add_comm, <- drop_drop, E. done. }
  exists b1, (<[length l := Some 0]> b1). split_and!; try done.
  - by rewrite blit_Some by (simpl; lia).
  - rewrite bset_Some by lia. by rewrite Nat2Z.id.
  - by rewrite length_insert.
  - rewrite Hb2. eauto.
  - intros Hz. rewrite Hb2. by apply cstr_prefix.
Qed.

(** Indeterminate bytes cannot be sent. *)
Lemma bytes_of_short l r n : (length l < n)%nat → bytes_of ((Some <$> l) ++ None :: r) n = None.
Proof.
  revert n. induction l as [|c l IH]; intros [|n] Hn; csimpl; try (simpl in Hn; lia); [done|].
  rewrite IH; [done|]. simpl in Hn. lia.
Qed.

(** ** Pure string functions *)
Definition strchr (s : list Z) (c : Z) : option (list Z) :=
  match (span_until (λ x, bool_decide (x = c)) s).2 with [] => None | t => Some t end.
Definition strrchr (s : list Z) (c : Z) : option (list Z) :=
  let '(a, b) := span_until (λ x, bool_decide (x = c)) (reverse s) in
  match b with [] => None | _ => Some (c :: reverse a) end.
Fixpoint is_prefix (p s : list Z) : bool :=
  match p, s with
  | [], _ => true
  | x :: p, y :: s => bool_decide (x = y) && is_prefix p s
  | _, _ => false
  end.
(** [strstr]: the suffix of [s] that starts at the first occurrence of [p]. *)
Fixpoint strstr (s p : list Z) : option (list Z) :=
  if is_prefix p s then Some s else match s with [] => None | _ :: r => strstr r p end.

Lemma is_prefix_spec p s : is_prefix p s = true ↔ ∃ r, s = p ++ r.
Proof.
  revert s. induction p as [|x p IH]; intros s; simpl; [split; eauto|].
  destruct s as [|y s]; [split; [done|]; intros (r & ?); done|].
  rewrite andb_true_iff, bool_decide_eq_true, IH. split.
  - intros (-> & r & ->). by exists r.
  - intros (r & [= -> ->]). eauto.
Qed.
Lemma strstr_spec s p : (∃ t, strstr s p = Some t) ↔ ∃ a b, s = a ++ p ++ b.
Proof.
  split.
  - intros (t & H). revert t H. induction s as [|x s IH]; simpl; intros t H; case_match eqn:E; try done.
    + apply is_prefix_spec in E as (r & E). exists [], r. done.
    + apply is_prefix_spec in E as (r & E). exists [], r. done.
    + destruct (IH _ H) as (a & b & ->). by exists (x :: a), b.
  - intros (a & b & ->). induction a as [|x a IH]; simpl.
    + exists (p ++ b). destruct p as [|y p]; simpl; [by destruct b|].
      rewrite bool_decide_true by done. simpl.
      by rewrite (proj2 (is_prefix_spec p (p ++ b))) by eauto.
    + destruct p; simpl; [eauto|]. case_match; eauto.
Qed.

(** ** Decimal output and input *)
Fixpoint dig (fuel : nat) (n : Z) (acc : list Z) : list Z :=
  match fuel with
  | O => acc
  | S f => let acc := 48 + n mod 10 :: acc in if decide (n < 10) then acc else dig f (n / 10) acc
  end.
(** Enough steps for all the digits of [n]: one for each of its bits. *)
Definition dec_fuel (n : Z) : nat := S (Z.to_nat (Z.log2 n)).
(** The text [%d] prints. *)
Definition dec (z : Z) : list Z :=
  if decide (z < 0) then 45 :: dig (dec_fuel (- z)) (- z) [] else dig (dec_fuel z) z [].
(** [%2d]-style padding on the left, and [%-18s]-style padding on the right. *)
Definition pad_left (w : nat) (s : list Z) : list Z := replicate (w - length s) SPC ++ s.
Definition pad_right (w : nat) (s : list Z) : list Z := s ++ replicate (w - length s) SPC.

(** Value of the longest prefix of digits, and the rest. *)
Fixpoint scan_digits (acc : Z) (l : list Z) : Z * list Z :=
  match l with
  | c :: r => if isdigit c then scan_digits (acc * 10 + (c - 48)) r else (acc, l)
  | [] => (acc, [])
  end.
Fixpoint skip_space (l : list Z) : list Z :=
  match l with c :: r => if isspace c then skip_space r else l | [] => [] end.
Definition scan_sign (l : list Z) : Z * list Z :=
  match l with
  | c :: r => if decide (c = 45) then (-1, r) else if decide (c = 43) then (1, r) else (1, l)
  | [] => (1, [])
  end.
(** [scanf("%d")] on [l]: [Some (z, rest)], or [None] if nothing matches. *)
Definition scan_int (l : list Z) : option (Z * list Z) :=
  let '(sg, l1) := scan_sign (skip_space l) in
  match l1 with
  | c :: _ => if isdigit c then let '(v, r) := scan_digits 0 l1 in Some (sg * v, r) else None
  | [] => None
  end.
(** [scanf("%s")]: the next run of non-space characters. *)
Definition scan_word (l : list Z) : list Z * list Z := span_until isspace (skip_space l).

Definition no_digit_first (l : list Z) : Prop := ∀ c r, l = c :: r → isdigit c = false.

Lemma dig_app f n acc : dig f n acc = dig f n [] ++ acc.
Proof.
  revert n acc. induction f as [|f IH]; intros n acc; simpl; [done|].
  case_decide; [done|]. rewrite IH, (IH _ [_]). by rewrite <- (assoc_L (++)).
Qed.
Lemma scan_digits_app a l r :
  Forall (λ c, isdigit c = true) l →
  scan_digits a (l ++ r) = scan_digits (scan_digits a l).1 r.
Proof.
  intros Hl. revert a. induction Hl as [|c l Hc Hl IH]; intros a; simpl; [done|]. by rewrite Hc, IH.
Qed.
Lemma isdigit_mod n : isdigit (48 + n mod 10) = true.
Proof.
  unfold isdigit. apply bool_decide_eq_true. pose proof (Z.mod_pos_bound n 10). lia.
Qed.
Lemma dig_digits f n : 0 ≤ n → Forall (λ c, isdigit c = true) (dig f n []).
Proof.
  revert n. induction f as [|f IH]; intros n Hn; simpl; [constructor|].
  case_decide; [repeat constructor; apply isdigit_mod|].
  rewrite dig_app. apply Forall_app. split; [apply IH; apply Z.div_pos; lia|].
  repeat constructor. apply isdigit_mod.
Qed.
Lemma dig_nonempty f n acc : dig (S f) n acc ≠ [].
Proof. simpl. case_decide; [done|]. rewrite dig_app. by destruct (dig f (n / 10) []). Qed.

Lemma dec_fuel_enough n : 0 ≤ n → n < 2 ^ Z.of_nat (dec_fuel n).
Proof.
  intros Hn. unfold dec_fuel. rewrite Nat2Z.inj_succ, Z2Nat.id by apply Z.log2_nonneg.
  destruct (decide (n = 0)) as [->|]; [done|]. apply Z.log2_spec. lia.
Qed.

Lemma scan_dig f n : 0 ≤ n < 2 ^ Z.of_nat f → scan_digits 0 (dig f n []) = (n, []).
Proof.
  revert n. induction f as [|f IH]; intros n Hn.
  { simpl in *. replace n with 0 by lia. done. }
  simpl. rewrite Nat2Z.inj_succ, Z.pow_succ_r in Hn by lia. case_decide as Hd.
  - simpl. rewrite isdigit_mod. rewrite Z.mod_small by lia. simpl. f_equal. lia.
  - rewrite dig_app, scan_digits_app by (apply dig_digits, Z.div_pos; lia).
    rewrite IH; [|split; [apply Z.div_pos; lia|apply Z.div_lt_upper_bound; lia]].
    simpl. rewrite isdigit_mod. f_equal. pose proof (Z.div_mod n 10). lia.
Qed.
Lemma scan_digits_stop a r : no_digit_first r → scan_digits a r = (a, r).
Proof. destruct r as [|c r]; simpl; [done|]. intros H. by rewrite (H c r). Qed.

Lemma scan_dig_app f n r :
  0 ≤ n < 2 ^ Z.of_nat f → no_digit_first r → scan_digits 0 (dig f n [] ++ r) = (n, r).
Proof.
  intros Hn Hr. rewrite scan_digits_app by (apply dig_digits; lia).
  rewrite scan_dig by done. by apply scan_digits_stop.
Qed.

Lemma isdigit_nospace c : isdigit c = true → isspace c = false ∧ c ≠ 45 ∧ c ≠ 43 ∧ c ≠ 0.
Proof.
  unfold isdigit, isspace. rewrite bool_decide_eq_true, bool_decide_eq_false. lia.
Qed.

(** Reading back what [%d] printed. *)
Lemma scan_int_dec z r : no_digit_first r → scan_int (dec z ++ r) = Some (z, r).
Proof.
  intros Hr. unfold dec, scan_int. case_decide as Hz.
  - pose proof (dig_digits (dec_fuel (- z)) (- z) ltac:(lia)) as Hd.
    pose proof (dec_fuel_enough (- z) ltac:(lia)) as Hf.
    pose proof (dig_nonempty (Z.to_nat (Z.log2 (- z))) (- z) []) as Hne.
    fold (dec_fuel (- z)) in Hne.
    pose proof (scan_dig_app (dec_fuel (- z)) (- z) r ltac:(lia) Hr) as Hs.
    destruct (dig (dec_fuel (- z)) (- z) []) as [|c l]; [done|].
    apply Forall_cons in Hd as [Hc _]. simpl. rewrite Hc.
    simpl in Hs. rewrite Hc in Hs. rewrite Hs. f_equal. f_equal. lia.
  - pose proof (dig_digits (dec_fuel z) z ltac:(lia)) as Hd.
    pose proof (dec_fuel_enough z ltac:(lia)) as Hf.
    pose proof (dig_nonempty (Z.to_nat (Z.log2 z)) z []) as Hne.
    fold (dec_fuel z) in Hne.
    pose proof (scan_dig_app (dec_fuel z) z r ltac:(lia) Hr) as Hs.
    destruct (dig (dec_fuel z) z []) as [|c l]; [done|].
    apply Forall_cons in Hd as [Hc _].
    destruct (isdigit_nospace c Hc) as (Hsp & H45 & H43 & _).
    simpl. rewrite Hsp. unfold scan_sign. rewrite !decide_False by done.
    rewrite Hc. change (scan_digits 0 (c :: l ++ r)) with (scan_digits 0 ((c :: l) ++ r)).
    rewrite Hs. by rewrite Z.mul_1_l.
Qed.

Lemma dig_length f : ∀ n acc, (length (dig f n acc) ≤ f + length acc)%nat.
Proof.
  induction f as [|f IH]; intros n acc; simpl; [done|]. case_decide; simpl; [lia|].
  specialize (IH (n / 10) (48 + n mod 10 :: acc)). simpl in IH. lia.
Qed.
(** The text of an [int] is short. *)
Lemma dec_int_length z : INT_MIN ≤ z ≤ INT_MAX → (length (dec z) ≤ 33)%nat.
Proof.
  intros Hz. unfold INT_MIN, INT_MAX in Hz.
  assert (∀ n, 0 ≤ n ≤ 2147483648 → (dec_fuel n ≤ 32)%nat) as Hf.
  { intros n Hn. unfold dec_fuel. assert (Z.log2 n ≤ 31); [|lia].
    change 31 with (Z.log2 2147483648). apply Z.log2_le_mono. lia. }
  unfold dec. case_decide; cbn [length].
  - pose proof (dig_length (dec_fuel (- z)) (- z) []). specialize (Hf (- z) ltac:(lia)). cbn [length] in *. lia.
  - pose proof (dig_length (dec_fuel z) z []). specialize (Hf z ltac:(lia)). cbn [length] in *. lia.
Qed.
Lemma dec_nozero z : nozero (dec z).
Proof.
  assert (∀ f n, 0 ≤ n → nozero (dig f n [])) as H.
  { intros f n Hn. eapply Forall_impl; [by apply dig_digits|].
    intros c Hc. by apply isdigit_nospace in Hc as (_ & _ & _ & ?). }
  unfold dec. case_decide; [constructor; [done|]|]; apply H; lia.
Qed.

(** [%d] text has at least one character and no white space. *)
Lemma dec_no_space z : Forall (λ c, isspace c = false) (dec z).
Proof.
  assert (∀ f n, 0 ≤ n → Forall (λ c, isspace c = false) (dig f n [])) as H.
  { intros f n Hn. eapply Forall_impl; [by apply dig_digits|].
    intros c Hc. by apply isdigit_nospace in Hc as (? & _). }
  unfold dec. case_decide; [constructor; [done|]|]; apply H; lia.
Qed.

#[export] Hint Resolve dec_nozero : cdb.

(** ** Byte order and checked arithmetic *)

(** Swap the two, or the four, bytes of an unsigned integer (little-endian host). *)
Definition bswap16 (z : Z) : Z := Z.lor (Z.shiftl (Z.land z 0xFF) 8) (Z.land (Z.shiftr z 8) 0xFF).
Definition bswap32 (z : Z) : Z :=
  Z.lor (Z.lor (Z.shiftl (Z.land z 0xFF) 24) (Z.shiftl (Z.land (Z.shiftr z 8) 0xFF) 16))
        (Z.lor (Z.shiftl (Z.land (Z.shiftr z 16) 0xFF) 8) (Z.land (Z.shiftr z 24) 0xFF)).
Definition htons : Z → Z := bswap16.
Definition ntohs : Z → Z := bswap16.
Definition htonl : Z → Z := bswap32.
Definition ntohl : Z → Z := bswap32.
(** The dotted quad of an address in network byte order. *)
Definition inet_ntoa (a : Z) : list Z :=
  dec (Z.land a 0xff) ++ str "." ++ dec (Z.land (Z.shiftr a 8) 0xff) ++ str "." ++
  dec (Z.land (Z.shiftr a 16) 0xff) ++ str "." ++ dec (Z.land (Z.shiftr a 24) 0xff).

(** Addition of two [int]s: overflow is undefined. *)
Definition iadd (a b : Z) : option Z :=
  if decide (INT_MIN ≤ a + b ≤ INT_MAX) then Some (a + b) else None.

(** The same on [long] and [ssize_t] (64 bits). *)
Definition ladd (a b : Z) : option Z :=
  if decide (- 2 ^ 63 ≤ a + b < 2 ^ 63) then Some (a + b) else None.

(** ** Reading lines *)

(** What [fgets(s, n, f)] stores from the pending input [l]: at most [n - 1]
    characters, up to and including the first newline. *)
Fixpoint fgets_take (n : nat) (l : list Z) : list Z * list Z :=
  match n, l with
  | S n, c :: r => if decide (c = LF) then ([c], r)
                   else let '(a, b) := fgets_take n r in (c :: a, b)
  | _, _ => ([], l)
  end.

Lemma fgets_take_app n l : (fgets_take n l).1 ++ (fgets_take n l).2 = l.
Proof.
  revert l. induction n as [|n IH]; intros [|c l]; simpl; try done. case_decide; [by subst|].
  specialize (IH l). destruct (fgets_take n l). simpl in *. by rewrite IH.
Qed.
Lemma fgets_take_line body r : ∀ n, LF ∉ body → (length body < n)%nat →
  fgets_take n (body ++ LF :: r) = (body ++ [LF], r).
Proof.
  induction body as [|c body IH]; intros [|n] Hlf Hn; simpl in Hn; try lia; simpl; [done|].
  apply not_elem_of_cons in Hlf as [Hc Hlf]. rewrite decide_False by congruence.
  by rewrite IH by (done || lia).
Qed.
Lemma fgets_take_length n l : (length (fgets_take n l).1 ≤ n)%nat.
Proof.
  revert l. induction n as [|n IH]; intros [|c l]; simpl; try lia. case_decide; simpl; [lia|].
  specialize (IH l). destruct (fgets_take n l). simpl in *. lia.
Qed.
Lemma fgets_take_nonempty n l : (0 < n)%nat → l ≠ [] → (fgets_take n l).1 ≠ [].
Proof. destruct n, l; try done; [lia|]. intros _ _. simpl. case_decide; [done|]. by destruct (fgets_take n l). Qed.
