(* ===== verification/Machine.v ===== *)
(** * The abstract machine: outcomes, system calls, the effect monad, and its logic

    A program is a function of an environment ([env]: the kernel and the other
    processes, as an arbitrary function from the history of the run to the
    answer of the next system call) and of a state ([st]: the history so far,
    the bytes still unread on standard input, [errno], and the static variables
    of the program).  Its result is an [outcome] and the final state. *)
From S2P Require Import Prelude CLib.

(** ** Outcomes *)
Inductive outcome (A : Type) : Type :=
| Val (a : A)          (* returned [a] *)
| Exit (code : Z)      (* the process ended with exit status [code] *)
| Undef                (* undefined behaviour: the run has no meaning from here on *)
| Running.             (* a loop used up its fuel: the program is still running *)
Arguments Val {A} a.
Arguments Exit {A} code.
Arguments Undef {A}.
Arguments Running {A}.

Definition EXIT_SUCCESS : Z := 0.
Definition EXIT_FAILURE : Z := 1.

(** ** System calls and library calls that reach the kernel *)
Inductive stream := Stdout | Stderr.

Inductive call :=
(* files *)
| Copen (path : list Z) (flags mode : Z) | Cclose (fd : Z)
| Cread (fd n : Z) | Cwrite (fd : Z) (data : list Z) | Clseek (fd off whence : Z)
| Cpipe | Cdup (fd : Z) | Cdup2 (fd fd2 : Z) | Cfcntl (fd cmd arg : Z) | Cumask (m : Z)
| Clink (old new : list Z) | Csymlink (old new : list Z) | Creadlink (path : list Z) (n : Z) | Cutime (path : list Z) (atime mtime : Z)
| Cunlink (path : list Z) | Cmkfifo (path : list Z) (mode : Z) | Cstat (path : list Z)
| Cfopen (path mode : list Z) | Cfdopen (fd : Z) (mode : list Z) | Cfclose (fp : Z)
| Cfgets (fp n : Z) | Cfread (fp n : Z) | Cfputs (fp : Z) (data : list Z)
| Cpopen (cmd mode : list Z) | Cpclose (fp : Z)
| Copendir (path : list Z) | Creaddir (dp : Z) | Cclosedir (dp : Z)
(* processes and signals *)
| Cfork | Cgetpid | Cgetppid | Cwait | Cwaitpid (pid opts : Z) | Csleep (s : Z)
| Csetsid | Cchdir (path : list Z) | Csysconf (name : Z) | Csigaction (sig handler flags : Z)
| Calarm (s : Z) | Craise (sig : Z) | Cexec (path : list Z) (argv : list (list Z)) | Cexecve (path : list Z) (argv env : list (list Z))
| Cmalloc (n : Z) | Cfree (p : Z)
| Csyslog (msg : list Z) | Cpthread_detach | Cpthread_create (arg : Z)
(* sockets *)
| Csocket (domain type proto : Z) | Csetsockopt (fd level opt : Z)
| Cbind (fd addr port : Z) | Clisten (fd backlog : Z) | Caccept (fd : Z)
| Cconnect (fd addr port : Z) | Csend (fd : Z) (data : list Z) | Crecv (fd n : Z)
| Cselect (nfds : Z) (fds : list Z) | Cioctl (fd req : Z) (args : list Z)
| Csendto (fd : Z) (data : list Z) (addr port : Z) | Crecvfrom (fd n : Z)
| Cgethostbyname (name : list Z) | Cgethostbyaddr (addr : Z)
(* System V IPC *)
| Cmsgget (key flag : Z) | Cmsgsnd (id mtype : Z) (text : list Z) | Cmsgrcv (id n flag : Z)
| Cmsgctl (id cmd : Z) | Csemget (key n flag : Z) | Csemctl (id num cmd arg : Z)
| Csemop (id num op flag : Z) | Cshmget (key size flag : Z) | Cshmat (id : Z) | Cshmctl (id cmd : Z)
(* other functions of libraries: name, integer arguments, text *)
| Clib (fn : string) (args : list Z) (text : list Z)
(* terminal *)
| Cisatty (fd : Z) | Ctcgetattr (fd : Z) | Ctcsetattr (fd act : Z) (t : list Z)
| Cgetch | Ctime.

(** The answer to a call: its return value, the [errno] it leaves (0 if it
    does not touch it), the bytes it delivers, and further integers and
    strings (the fields of a structure it fills in). *)
Record ans := Ans { rv : Z; rerr : Z; rdata : list Z; rwords : list Z; rstrs : list (list Z) }.
Definition answer (v : Z) : ans := Ans v 0 [] [] [].
Definition answer_data (v : Z) (d : list Z) : ans := Ans v 0 d [] [].
Definition answer_err (e : Z) : ans := Ans (-1) e [] [] [].

Inductive event :=
| Sys (c : call) (a : ans)
| Put (f : stream) (data : list Z).

Record env := Env {
  kern : list event → call → ans;
  strerror : Z → list Z;                (* message of an errno value *)
  getenv : list Z → option (list Z);    (* the environment of the process *)
  inet_aton : list Z → option Z;        (* address in network byte order *)
  hstrerror : list event → list Z       (* message of the last resolver error *)
}.

(** ** The state and the monad *)
Section machine.
Context {G : Type}.

Record st := St { hist : list event; stdin : list Z; errno : Z; glob : G }.

Definition M (A : Type) : Type := env → st → outcome A * st.

Definition ret {A} (a : A) : M A := λ _ s, (Val a, s).
Definition bind {A B} (f : A → M B) (m : M A) : M B := λ e s,
  match m e s with
  | (Val a, s') => f a e s'
  | (Exit c, s') => (Exit c, s')
  | (Undef, s') => (Undef, s')
  | (Running, s') => (Running, s')
  end.

Definition log (ev : event) (s : st) : st := St (hist s ++ [ev]) (stdin s) (errno s) (glob s).
Definition set_errno (n : Z) (s : st) : st := St (hist s) (stdin s) n (glob s).
Definition set_stdin (l : list Z) (s : st) : st := St (hist s) l (errno s) (glob s).
Definition set_glob (g : G) (s : st) : st := St (hist s) (stdin s) (errno s) g.

(** A system call: the environment answers, the event is recorded, and
    [errno] takes the value the answer carries. *)
Definition after (c : call) (a : ans) (s : st) : st :=
  let s' := log (Sys c a) s in if decide (rerr a = 0) then s' else set_errno (rerr a) s'.
Definition sys (c : call) : M ans := λ e s, let a := kern e (hist s) c in (Val a, after c a s).

(** A call of a library function whose result is not an answer to look into. *)
Definition lib (fn : string) (args text : list Z) : M Z :=
  λ e s, let a := kern e (hist s) (Clib fn args text) in (Val (rv a), after (Clib fn args text) a s).

Definition exit {A} (code : Z) : M A := λ _ s, (Exit code, s).
Definition undef {A} : M A := λ _ s, (Undef, s).
Definition ask : M env := λ e s, (Val e, s).
Definition get_errno : M Z := λ _ s, (Val (errno s), s).
Definition get : M G := λ _ s, (Val (glob s), s).
Definition put (g : G) : M unit := λ _ s, (Val tt, set_glob g s).
(** An operation on memory: no result is undefined behaviour. *)
Definition mem {A} (o : option A) : M A := match o with Some a => ret a | None => undef end.

Definition output (f : stream) (data : list Z) : M unit := λ _ s, (Val tt, log (Put f data) s).
Definition printf (data : list Z) : M unit := output Stdout data.
Definition eprintf (data : list Z) : M unit := output Stderr data.
Definition perror (msg : list Z) : M unit := λ e s,
  (Val tt, log (Put Stderr (msg ++ str ": " ++ strerror e (errno s) ++ [LF])) s).
Definition herror (msg : list Z) : M unit := λ e s,
  (Val tt, log (Put Stderr (msg ++ str ": " ++ hstrerror e (hist s) ++ [LF])) s).
(** [strerror(errno)] *)
Definition errmsg : M (list Z) := λ e s, (Val (strerror e (errno s)), s).

(** [while]-style iteration: [inl] goes round again, [inr] leaves. *)
Fixpoint loop {L R} (fuel : nat) (body : L → M (L + R)) (l : L) : M R :=
  match fuel with
  | O => λ _ s, (Running, s)
  | S f => bind (λ x, match x with inl l' => loop f body l' | inr r => ret r end) (body l)
  end.
(** [for (i = a; i < a + n; ++i) f(i)] *)
Fixpoint for_range (n : nat) (a : Z) (f : Z → M unit) : M unit :=
  match n with
  | O => ret tt
  | S n => bind (λ _, for_range n (a + 1) f) (f a)
  end.

(** ** Standard input *)
Definition getchar : M Z := λ _ s,
  match stdin s with [] => (Val (-1), s) | c :: r => (Val c, set_stdin r s) end.
(** [fgets(_, n, stdin)]: [None] (a null pointer) at end of file. *)
Definition fgets_stdin (n : nat) : M (option (list Z)) := λ _ s,
  match stdin s with
  | [] => (Val None, s)
  | l => let '(a, b) := fgets_take (n - 1) l in (Val (Some a), set_stdin b s)
  end.
(** [scanf("%d", &x)]: [None] when nothing is stored; a value outside of
    [int] is undefined behaviour. *)
Definition scanf_d : M (option Z) := λ _ s,
  match scan_int (stdin s) with
  | Some (z, r) => if decide (INT_MIN ≤ z ≤ INT_MAX) then (Val (Some z), set_stdin r s) else (Undef, s)
  | None => (Val None, set_stdin (skip_space (stdin s)) s)
  end.
(** [scanf("%<w>s", b)]: [None] at end of file. *)
Definition scanf_s (w : nat) : M (option (list Z)) := λ _ s,
  let l := skip_space (stdin s) in
  let '(a, _) := span_until isspace l in
  match a with
  | [] => (Val None, set_stdin l s)
  | _ => (Val (Some (take w a)), set_stdin (drop (length (take w a)) l) s)
  end.

(** ** Weakest preconditions *)
Definition post (A : Type) : Type := outcome A → st → Prop.
Definition wp {A} (m : M A) (e : env) (s : st) (Q : post A) : Prop := Q (m e s).1 (m e s).2.

(** The postcondition of the first part of a sequence. *)
Definition bpost {A B} (K : A → st → Prop) (Q : post B) : post A := λ o s,
  match o with Val a => K a s | Exit c => Q (Exit c) s | Undef => Q Undef s | Running => Q Running s end.

Section rules.
Context (e : env).

Lemma wp_mono {A} (m : M A) s (P Q : post A) :
  wp m e s P → (∀ o s', P o s' → Q o s') → wp m e s Q.
Proof. unfold wp. auto. Qed.
Lemma wp_ret {A} (a : A) s (Q : post A) : Q (Val a) s → wp (ret a) e s Q.
Proof. done. Qed.
Lemma wp_bind {A B} (m : M A) (f : A → M B) s (Q : post B) :
  wp m e s (bpost (λ a s', wp (f a) e s' Q) Q) → wp (bind f m) e s Q.
Proof. unfold wp, bind, bpost. by destruct (m e s) as [[] ?]. Qed.
Lemma wp_sys c s (Q : post ans) :
  (∀ a, a = kern e (hist s) c → Q (Val a) (after c a s)) → wp (sys c) e s Q.
Proof. intros H. by apply H. Qed.
Lemma wp_lib fn args text s (Q : post Z) :
  (∀ a, a = kern e (hist s) (Clib fn args text) → Q (Val (rv a)) (after (Clib fn args text) a s)) →
  wp (lib fn args text) e s Q.
Proof. intros H. by apply H. Qed.
Lemma wp_output f d s (Q : post unit) : Q (Val tt) (log (Put f d) s) → wp (output f d) e s Q.
Proof. done. Qed.
Lemma wp_perror d s (Q : post unit) :
  Q (Val tt) (log (Put Stderr (d ++ str ": " ++ strerror e (errno s) ++ [LF])) s) →
  wp (perror d) e s Q.
Proof. done. Qed.
Lemma wp_herror d s (Q : post unit) :
  Q (Val tt) (log (Put Stderr (d ++ str ": " ++ hstrerror e (hist s) ++ [LF])) s) →
  wp (herror d) e s Q.
Proof. done. Qed.
Lemma wp_errmsg s (Q : post (list Z)) : Q (Val (strerror e (errno s))) s → wp errmsg e s Q.
Proof. done. Qed.
Lemma wp_exit {A} c s (Q : post A) : Q (Exit c) s → wp (exit c) e s Q.
Proof. done. Qed.
Lemma wp_undef {A} s (Q : post A) : Q Undef s → wp undef e s Q.
Proof. done. Qed.
Lemma wp_ask s (Q : post env) : Q (Val e) s → wp ask e s Q.
Proof. done. Qed.
Lemma wp_get_errno s (Q : post Z) : Q (Val (errno s)) s → wp get_errno e s Q.
Proof. done. Qed.
Lemma wp_get s (Q : post G) : Q (Val (glob s)) s → wp get e s Q.
Proof. done. Qed.
Lemma wp_put g s (Q : post unit) : Q (Val tt) (set_glob g s) → wp (put g) e s Q.
Proof. done. Qed.
Lemma wp_fgets_line n body r s (Q : post (option (list Z))) :
  stdin s = body ++ LF :: r → LF ∉ body → (length body + 1 < n)%nat →
  Q (Val (Some (body ++ [LF]))) (set_stdin r s) → wp (fgets_stdin n) e s Q.
Proof.
  intros Hs Hlf Hn HQ. unfold wp, fgets_stdin. rewrite Hs.
  pose proof (fgets_take_line body r (n - 1) Hlf ltac:(lia)) as E.
  destruct (body ++ LF :: r) as [|c l] eqn:Eb; [by destruct body|]. by rewrite E.
Qed.
Lemma wp_fgets_eof n s (Q : post (option (list Z))) :
  stdin s = [] → Q (Val None) s → wp (fgets_stdin n) e s Q.
Proof. intros Hs HQ. unfold wp, fgets_stdin. by rewrite Hs. Qed.
Lemma wp_mem {A} (o : option A) s (Q : post A) :
  match o with Some a => Q (Val a) s | None => Q Undef s end → wp (mem o) e s Q.
Proof. by destruct o. Qed.
Lemma wp_mem_Some {A} (a : A) s (Q : post A) : Q (Val a) s → wp (mem (Some a)) e s Q.
Proof. done. Qed.

(** One turn of a loop. *)
Lemma wp_loop_S {L R} f (body : L → M (L + R)) l s (Q : post R) :
  wp (body l) e s (bpost (λ x s', match x with inl l' => wp (loop f body l') e s' Q
                                           | inr r => Q (Val r) s' end) Q) →
  wp (loop (S f) body l) e s Q.
Proof.
  intros H. simpl. apply wp_bind. eapply wp_mono; [exact H|].
  intros [[]| | |] s'; simpl; auto.
Qed.

(** Total correctness: the invariant is kept, the measure decreases, and
    there is more fuel than the measure, so the loop is never left
    [Running]. *)
Lemma wp_loop_measure {L R} (body : L → M (L + R)) (Inv : L → st → Prop) (μ : L → st → nat)
    (Q : post R) :
  (∀ l s, Inv l s → wp (body l) e s
     (bpost (λ x s', match x with
                     | inl l' => Inv l' s' ∧ (μ l' s' < μ l s)%nat
                     | inr r => Q (Val r) s' end) Q)) →
  ∀ f l s, Inv l s → (μ l s < f)%nat → wp (loop f body l) e s Q.
Proof.
  intros Hb f. induction f as [|f IH]; intros l s Hi Hf; [lia|].
  apply wp_loop_S. eapply wp_mono; [by apply Hb|].
  intros [[l'|r]| | |] s'; simpl; try done. intros [? ?]. apply IH; [done|lia].
Qed.

(** Safety for every fuel: the invariant is kept as long as the loop runs. *)
Lemma wp_loop_safe {L R} (body : L → M (L + R)) (Inv : L → st → Prop) (Q : post R) :
  (∀ l s, Inv l s → Q Running s) →
  (∀ l s, Inv l s → wp (body l) e s
     (bpost (λ x s', match x with inl l' => Inv l' s' | inr r => Q (Val r) s' end) Q)) →
  ∀ f l s, Inv l s → wp (loop f body l) e s Q.
Proof.
  intros Hr Hb f. induction f as [|f IH]; intros l s Hi; [by eapply Hr|].
  apply wp_loop_S. eapply wp_mono; [by apply Hb|].
  intros [[l'|r]| | |] s'; simpl; try done. apply IH.
Qed.
End rules.
End machine.
Arguments st : clear implicits.
Arguments M : clear implicits.
Arguments post : clear implicits.

(** The [do]-notation of stdpp. *)
#[export] Instance M_ret G : MRet (M G) := λ A, ret.
#[export] Instance M_bind G : MBind (M G) := λ A B, bind.

(** ** The state after an operation *)
Section st_lemmas.
Context {G : Type}.
Implicit Types s : st G.

Lemma hist_log ev s : hist (log ev s) = hist s ++ [ev].
Proof. done. Qed.
Lemma stdin_log ev s : stdin (log ev s) = stdin s.
Proof. done. Qed.
Lemma glob_log ev s : glob (log ev s) = glob s.
Proof. done. Qed.
Lemma errno_log ev s : errno (log ev s) = errno s.
Proof. done. Qed.
Lemma hist_after c a s : hist (after c a s) = hist s ++ [Sys c a].
Proof. unfold after. by case_decide. Qed.
Lemma stdin_after c a s : stdin (after c a s) = stdin s.
Proof. unfold after. by case_decide. Qed.
Lemma glob_after c a s : glob (after c a s) = glob s.
Proof. unfold after. by case_decide. Qed.
Lemma errno_after c a s : rerr a ≠ 0 → errno (after c a s) = rerr a.
Proof. intros. unfold after. by rewrite decide_False. Qed.
Lemma hist_set_glob g s : hist (set_glob g s) = hist s.
Proof. done. Qed.
Lemma glob_set_glob g s : glob (set_glob g s) = g.
Proof. done. Qed.
Lemma stdin_set_glob g s : stdin (set_glob g s) = stdin s.
Proof. done. Qed.
Lemma hist_set_stdin l s : hist (set_stdin l s) = hist s.
Proof. done. Qed.
Lemma stdin_set_stdin l s : stdin (set_stdin l s) = l.
Proof. done. Qed.
Lemma glob_set_stdin l s : glob (set_stdin l s) = glob s.
Proof. done. Qed.
End st_lemmas.

Create Rewrite HintDb st_db.
#[export] Hint Rewrite @hist_log @stdin_log @glob_log @hist_after @stdin_after
  @glob_after @hist_set_glob @glob_set_glob @stdin_set_glob @hist_set_stdin @stdin_set_stdin
  @glob_set_stdin : st_db.
Ltac st_simpl := autorewrite with st_db in *.

#[global] Arguments loop {G L R} fuel body l : simpl never.
#[global] Opaque after log set_glob set_stdin set_errno.

(** ** Tactics for weakest preconditions *)

(** One step of the program logic, driven by the head of the program. *)
Ltac wp_step :=
  cbn [bpost];
  lazymatch goal with
  | |- wp (mbind _ _) _ _ _ => apply wp_bind
  | |- wp (bind _ _) _ _ _ => apply wp_bind
  | |- wp (mret _) _ _ _ => apply wp_ret
  | |- wp (ret _) _ _ _ => apply wp_ret
  | |- wp (sys _) _ _ _ => apply wp_sys; let a := fresh "a" in let H := fresh "Ha" in intros a H
  | |- wp (lib _ _ _) _ _ _ => apply wp_lib; let a := fresh "a" in let H := fresh "Ha" in intros a H
  | |- wp (printf _) _ _ _ => apply wp_output
  | |- wp (eprintf _) _ _ _ => apply wp_output
  | |- wp (output _ _) _ _ _ => apply wp_output
  | |- wp (perror _) _ _ _ => apply wp_perror
  | |- wp (herror _) _ _ _ => apply wp_herror
  | |- wp errmsg _ _ _ => apply wp_errmsg
  | |- wp (exit _) _ _ _ => apply wp_exit
  | |- wp undef _ _ _ => apply wp_undef
  | |- wp ask _ _ _ => apply wp_ask
  | |- wp get_errno _ _ _ => apply wp_get_errno
  | |- wp get _ _ _ => apply wp_get
  | |- wp (put _) _ _ _ => apply wp_put
  | |- wp (mem ?o) _ _ _ =>
      let o' := eval hnf in o in
      lazymatch o' with
      | Some ?x => change o with (Some x); apply wp_mem_Some
      | None => change o with o'; apply wp_mem
      end
  end; cbn [bpost].
Ltac wp_steps := repeat wp_step.
(** Also branch on the conditions of the program. *)
Ltac wp_if :=
  cbn [bpost];
  lazymatch goal with
  | |- wp (if decide ?P then _ else _) _ _ _ =>
      let H := fresh "Hif" in destruct (decide P) as [H|H]
  end.

(** ** What a history shows *)

(** The bytes printed on a stream. *)
Definition put_of (f : stream) (ev : event) : list Z :=
  match f, ev with
  | Stdout, Put Stdout d => d
  | Stderr, Put Stderr d => d
  | _, _ => []
  end.
Definition printed (f : stream) (h : list event) : list Z := concat (put_of f <$> h).
(** The bytes the kernel accepted on a descriptor ([write] and [send]), and
    the bytes it delivered ([read] and [recv]). *)
Definition sent_of (fd : Z) (ev : event) : list Z :=
  match ev with
  | Sys (Cwrite fd' d) a | Sys (Csend fd' d) a =>
      if decide (fd' = fd) then take (Z.to_nat (rv a)) d else []
  | _ => []
  end.
Definition sent (fd : Z) (h : list event) : list Z := concat (sent_of fd <$> h).
Definition got_of (fd : Z) (ev : event) : list Z :=
  match ev with
  | Sys (Cread fd' _) a | Sys (Crecv fd' _) a => if decide (fd' = fd) then rdata a else []
  | _ => []
  end.
Definition got (fd : Z) (h : list event) : list Z := concat (got_of fd <$> h).

(** Whether a descriptor has been closed. *)
Definition closed_of (fd : Z) (ev : event) : bool :=
  match ev with Sys (Cclose fd') _ => bool_decide (fd' = fd) | _ => false end.
Definition closed (fd : Z) (h : list event) : bool := existsb (closed_of fd) h.
(** [fd] is open and has delivered [pre] so far. *)
Definition reading (fd : Z) (h : list event) (pre : list Z) : Prop :=
  closed fd h = false ∧ got fd h = pre.

Lemma closed_app fd h1 h2 : closed fd (h1 ++ h2) = closed fd h1 || closed fd h2.
Proof. apply existsb_app. Qed.
Lemma closed_1 fd ev : closed fd [ev] = closed_of fd ev.
Proof. apply orb_false_r. Qed.
Lemma closed_here fd h a : closed fd (h ++ [Sys (Cclose fd) a]) = true.
Proof. rewrite closed_app, closed_1. simpl. by rewrite bool_decide_true, orb_true_r. Qed.
Lemma printed_app f h1 h2 : printed f (h1 ++ h2) = printed f h1 ++ printed f h2.
Proof. unfold printed. by rewrite fmap_app, concat_app. Qed.
Lemma sent_app fd h1 h2 : sent fd (h1 ++ h2) = sent fd h1 ++ sent fd h2.
Proof. unfold sent. by rewrite fmap_app, concat_app. Qed.
Lemma got_app fd h1 h2 : got fd (h1 ++ h2) = got fd h1 ++ got fd h2.
Proof. unfold got. by rewrite fmap_app, concat_app. Qed.
Lemma printed_1 f ev : printed f [ev] = put_of f ev.
Proof. apply app_nil_r. Qed.
Lemma sent_1 fd ev : sent fd [ev] = sent_of fd ev.
Proof. apply app_nil_r. Qed.
Lemma got_1 fd ev : got fd [ev] = got_of fd ev.
Proof. apply app_nil_r. Qed.
Lemma sent_of_write fd d a : sent_of fd (Sys (Cwrite fd d) a) = take (Z.to_nat (rv a)) d.
Proof. simpl. by rewrite decide_True. Qed.
Lemma sent_of_send fd d a : sent_of fd (Sys (Csend fd d) a) = take (Z.to_nat (rv a)) d.
Proof. simpl. by rewrite decide_True. Qed.
Lemma got_of_read fd n a : got_of fd (Sys (Cread fd n) a) = rdata a.
Proof. simpl. by rewrite decide_True. Qed.
Lemma got_of_recv fd n a : got_of fd (Sys (Crecv fd n) a) = rdata a.
Proof. simpl. by rewrite decide_True. Qed.

Create Rewrite HintDb hist_db.
#[export] Hint Rewrite closed_app closed_1 printed_app sent_app got_app printed_1 sent_1 got_1
  sent_of_write sent_of_send got_of_read got_of_recv : hist_db.
(** Normalise histories, and the projections of histories. *)
Ltac hist_simpl := st_simpl; autorewrite with hist_db in *; rewrite ?app_nil_r, <- ?app_assoc in *.

(** The same, with what each event shows computed. *)
Ltac hist_norm :=
  hist_simpl; cbn [put_of sent_of got_of closed_of] in *; rewrite ?app_nil_l, ?app_nil_r, ?orb_false_r in *.

(** Stretches of history in which only reads of [fd] happen. *)
Definition is_read (fd : Z) (ev : event) : Prop :=
  match ev with Sys (Cread fd' _) _ => fd' = fd | _ => False end.
Lemma is_read_open fd fd' h : Forall (is_read fd) h → closed fd' h = false.
Proof. intros H. induction H as [|[[]|] h Hev H IH]; done. Qed.
Lemma reading_app fd h1 h2 pre q :
  reading fd h1 pre → closed fd h2 = false → got fd h2 = q → reading fd (h1 ++ h2) (pre ++ q).
Proof. intros [H1 <-] H2 <-. split; [by rewrite closed_app, H1|apply got_app]. Qed.
Lemma reading_quiet fd h1 h2 pre :
  reading fd h1 pre → closed fd h2 = false → got fd h2 = [] → reading fd (h1 ++ h2) pre.
Proof. intros. rewrite <- (app_nil_r pre). by apply reading_app. Qed.
Lemma reading_extend fd h1 h2 q : reading fd h1 [] → reading fd h2 q → reading fd (h1 ++ h2) q.
Proof. intros ? []. by apply (reading_app fd h1 h2 []). Qed.
(** Events that neither read from [fd] nor close it. *)
Ltac reading_tac :=
  repeat first [rewrite hist_log | rewrite hist_after];
  repeat (apply reading_quiet; [|done|done]); done.
Lemma is_read_quiet fd h : Forall (is_read fd) h → ∀ f fd', printed f h = [] ∧ sent fd' h = [].
Proof.
  intros H f fd'. induction H as [|ev h Hev H [IH1 IH2]]; [done|].
  destruct ev as [[]|]; try done. split; [|exact IH2].
  unfold printed in *. csimpl. rewrite IH1. by destruct f.
Qed.

(** ** Documented behaviour of the kernel *)

(** [read] and [recv] deliver at most as many characters as asked for. *)
Class ReadOk (e : env) : Prop := {
  read_ok h fd n : let a := kern e h (Cread fd n) in
    rv a = -1 ∧ rdata a = [] ∨ 0 ≤ rv a ≤ n ∧ length (rdata a) = Z.to_nat (rv a);
  recv_ok h fd n : let a := kern e h (Crecv fd n) in
    rv a = -1 ∧ rdata a = [] ∨ 0 ≤ rv a ≤ n ∧ length (rdata a) = Z.to_nat (rv a)
}.
(** [write] and [send] accept a part of the data: all of it, less of it, or
    nothing ([-1]); on a blocking descriptor some progress is made. *)
Class WriteOk (e : env) : Prop := {
  write_ok h fd d : let a := kern e h (Cwrite fd d) in
    rv a = -1 ∨ 0 ≤ rv a ≤ Z.of_nat (length d) ∧ (d ≠ [] → 0 < rv a);
  send_ok h fd d : let a := kern e h (Csend fd d) in
    rv a = -1 ∨ 0 ≤ rv a ≤ Z.of_nat (length d) ∧ (d ≠ [] → 0 < rv a)
}.

(** An environment whose kernel is [k], with empty error messages and no
    environment variables. *)
Definition env_of (k : list event → call → ans) : env :=
  Env k (λ _, []) (λ _, None) (λ _, None) (λ _, []).
(** The initial state of a process. *)
Definition init {G} (g : G) (input : list Z) : st G := St [] input 0 g.

(** [data] arrives on [fd], as long as it is not closed, in pieces of the
    kernel's choice, then end of file. *)
Class Stream (e : env) (fd : Z) (data : list Z) : Prop :=
  stream_read h n :
    let a := kern e h (Cread fd n) in
    let rest := drop (length (got fd h)) data in
    0 < n → closed fd h = false → ∃ k, rdata a = take k rest ∧ rv a = Z.of_nat (length (rdata a)) ∧ Z.of_nat k ≤ n ∧
      (rest ≠ [] → (0 < k)%nat).
(** Every [write] on [fd] is accepted whole. *)
Class WholeWrites (e : env) (fd : Z) : Prop :=
  whole_write h d : rv (kern e h (Cwrite fd d)) = Z.of_nat (length d).

(** ** Constants of the system headers (Linux) *)
Definition STDIN_FILENO : Z := 0.
Definition STDOUT_FILENO : Z := 1.
Definition STDERR_FILENO : Z := 2.
Definition O_RDONLY : Z := 0.
Definition O_WRONLY : Z := 1.
Definition O_RDWR : Z := 2.
Definition O_ACCMODE : Z := 3.
Definition O_CREAT : Z := 0x40.
Definition O_EXCL : Z := 0x80.
Definition O_TRUNC : Z := 0x200.
Definition O_APPEND : Z := 0x400.
Definition O_NONBLOCK : Z := 0x800.
Definition S_IRWXU : Z := 0x1C0.
Definition S_IRUSR : Z := 0x100.
Definition S_IWUSR : Z := 0x80.
Definition S_IXUSR : Z := 0x40.
Definition S_IRGRP : Z := 0x20.
Definition S_IWGRP : Z := 0x10.
Definition S_IXGRP : Z := 0x8.
Definition S_IROTH : Z := 0x4.
Definition S_IWOTH : Z := 0x2.
Definition S_IXOTH : Z := 0x1.
Definition SEEK_SET : Z := 0.
Definition SEEK_CUR : Z := 1.
Definition SEEK_END : Z := 2.
Definition AF_INET : Z := 2.
Definition AF_LOCAL : Z := 1.
Definition SOCK_STREAM : Z := 1.
Definition SOCK_DGRAM : Z := 2.
Definition SOL_SOCKET : Z := 1.
Definition SO_REUSEADDR : Z := 2.
Definition SOMAXCONN : Z := 4096.
Definition INADDR_ANY : Z := 0.
Definition INADDR_NONE : Z := 0xFFFFFFFF.
Definition SIGHUP : Z := 1.
Definition SIGINT : Z := 2.
Definition SIGABRT : Z := 6.
Definition SIGFPE : Z := 8.
Definition SIGKILL : Z := 9.
Definition SIGUSR1 : Z := 10.
Definition SIGUSR2 : Z := 12.
Definition SIGALRM : Z := 14.
Definition SIGCHLD : Z := 17.
Definition SIG_DFL : Z := 0.
Definition SIG_IGN : Z := 1.
Definition SIG_ERR : Z := -1.
Definition SA_RESTART : Z := 0x10000000.
Definition EINTR : Z := 4.
Definition EBADF : Z := 9.
Definition EEXIST : Z := 17.
