(* ===== verification/Kernels.v ===== *)
(** * Concrete kernels that meet the contracts of [Machine]

    They instantiate the hypotheses of the theorems about programs: a kernel
    that serves fixed contents, accepts writes in pieces of a fixed size, and
    answers every other call by a given function. *)
From S2P Require Import Prelude CLib Machine.

Section stream_kernel.
Context (content : Z → list Z) (chunk : nat) (other : list event → call → ans).

Definition serve (h : list event) (fd n : Z) : ans :=
  if decide (n < 0) then answer_err 22
  else let d := take (Z.to_nat n) (drop (length (got fd h)) (content fd)) in
       answer_data (Z.of_nat (length d)) d.
Definition stream_kern (h : list event) (c : call) : ans :=
  match c with
  | Cread fd n | Crecv fd n => serve h fd n
  | Cwrite _ d | Csend _ d => answer (Z.of_nat (length d `min` chunk))
  | c => other h c
  end.
Definition stream_env : env := env_of stream_kern.

Lemma serve_ok h fd n : let a := serve h fd n in
  rv a = -1 ∧ rdata a = [] ∨ 0 ≤ rv a ≤ n ∧ length (rdata a) = Z.to_nat (rv a).
Proof.
  simpl. unfold serve. case_decide; [by left|]. right. simpl.
  rewrite length_take. split; lia.
Qed.
#[export] Instance stream_read : ReadOk stream_env.
Proof. split; intros; apply serve_ok. Qed.
Lemma stream_write : (0 < chunk)%nat → WriteOk stream_env.
Proof.
  intros Hc. split; intros h fd d; right; cbn -[Nat.min]; (split; [lia|]); intros Hd;
    pose proof (nil_length_inv d); destruct (length d); [naive_solver|lia|naive_solver|lia].
Qed.
Lemma stream_bounded h fd n :
  Z.of_nat (length (rdata (kern stream_env h (Cread fd n))))
  ≤ Z.of_nat (length (content fd)) - Z.of_nat (length (got fd h)) ∨
  rdata (kern stream_env h (Cread fd n)) = [].
Proof.
  simpl. unfold serve. case_decide; [by right|]. simpl.
  destruct (decide (length (content fd) ≤ length (got fd h))%nat).
  - right. by rewrite drop_ge, take_nil.
  - left. rewrite length_take, length_drop. lia.
Qed.
End stream_kernel.

(** A kernel that accepts every write whole, in an environment with a home
    directory. *)
Section whole_kernel.
Context (content : Z → list Z) (other : list event → call → ans) (home : list Z).

Definition whole_kern (h : list event) (c : call) : ans :=
  match c with
  | Cread fd n | Crecv fd n => serve content h fd n
  | Cwrite _ d | Csend _ d => answer (Z.of_nat (length d))
  | c => other h c
  end.
Definition whole_env : env :=
  Env whole_kern (λ _, []) (λ n, if decide (n = str "HOME") then Some home else None) (λ _, None) (λ _, []).

Lemma whole_stream fd : Stream whole_env fd (content fd).
Proof.
  intros h n a rest Hn _. exists (Z.to_nat n `min` length rest)%nat. subst a. simpl. unfold serve.
  rewrite decide_False by lia. simpl. subst rest. split_and!; [|done|lia|].
  - rewrite <- take_take. f_equal. by rewrite take_ge.
  - intros Hr. destruct (drop _ (content fd)); simpl; [done|lia].
Qed.
Lemma whole_writes fd : WholeWrites whole_env fd.
Proof. done. Qed.
End whole_kernel.
