(* ===== verification/FileIO.v ===== *)
(** * Copying and reversing files (02_Files: cpy_file.c, backward.c)

    The theorems hold for every kernel that respects the
    contracts [ReadOk], [WriteOk] of [Machine] or the contracts stated here. *)
From S2P Require Import Prelude CLib Machine Kernels.

(** The [i]th argument of [main]; reading beyond [argc] is undefined. *)
Definition arg {G} (argv : list (list Z)) (i : nat) : M G (list Z) := mem (argv !! i).

(** ** cpy_file.c *)
Module CpyFile.
Definition BLOCK_SIZE : nat := 64.
Definition cpy_mode : Z := Z.lor (Z.lor (Z.lor (Z.lor S_IRUSR S_IWUSR) S_IRGRP) S_IWGRP) S_IROTH.

(** [write2]: repeat [write] until all of [count] bytes are accepted. *)
Definition write2 (fuel : nat) (fd : Z) (buffer : buf) (count : Z) : M unit Z :=
  loop fuel (λ '(count, buffer),
    if decide (count > 0) then
      d ← mem (bytes_of buffer (Z.to_nat count));
      w ← sys (Cwrite fd d);
      if decide (rv w = -1) then mret (inr (-1))
      else mret (inl (uwrap 64 (count - rv w), drop (Z.to_nat (rv w)) buffer))
    else mret (inr 0)) (count, buffer).

Definition cpy_main (fuel : nat) (argv : list (list Z)) : M unit Z :=
  sys (Cumask 0);;
  if decide (length argv < 3)%nat then
    a0 ← arg argv 0;
    eprintf (str "> " ++ a0 ++ line " quelldatei zieldatei");;
    mret EXIT_FAILURE
  else
    a1 ← arg argv 1; fd_r ← sys (Copen a1 O_RDONLY 0);
    a2 ← arg argv 2;
    fd_w ← sys (Copen a2 (Z.lor (Z.lor O_WRONLY O_EXCL) O_CREAT) cpy_mode);
    if decide (rv fd_r = -1 ∨ rv fd_w = -1) then
      perror (str "Fehler bei open()");; mret EXIT_FAILURE
    else
      loop fuel (λ buffer,
        n ← sys (Cread (rv fd_r) (Z.of_nat BLOCK_SIZE));
        buffer ← mem (blit buffer 0 (rdata n));
        if decide (rv n > 0) then
          r ← write2 fuel (rv fd_w) buffer (rv n);
          (if decide (r > 0) then perror (str "Fehler bei write()") else mret ());;
          mret (inl buffer)
        else mret (inr EXIT_SUCCESS)) (uninit BLOCK_SIZE).

(** A stretch of history that consists of [write] calls on [fd]. *)
Definition is_write (fd : Z) (ev : event) : Prop :=
  match ev with Sys (Cwrite fd' _) _ => fd' = fd | _ => False end.
(** No [write] on [fd] failed. *)
Definition write_fine (fd : Z) (ev : event) : Prop :=
  match ev with Sys (Cwrite fd' _) a => fd' = fd → rv a ≠ -1 | _ => True end.

Lemma is_write_quiet fd h : Forall (is_write fd) h → ∀ f fd', printed f h = [] ∧ got fd' h = [].
Proof.
  intros H f fd'. induction H as [|ev h Hev H [IH1 IH2]]; [done|].
  destruct ev as [[]|]; try done. split; [|exact IH2].
  unfold printed in *. csimpl. rewrite IH1. by destruct f.
Qed.

Section proofs.
Context (e : env).

(** [write2] started on [data]: with more fuel than bytes it always
    returns, and what reached the descriptor is a prefix of [data]: all
    of it when the result is 0, and the result is -1 only after an error. *)
Lemma write2_ok {W : WriteOk e} fuel fd data rest s :
  (length data < fuel)%nat → Z.of_nat (length data) < 2 ^ 64 →
  wp (write2 fuel fd ((Some <$> data) ++ rest) (Z.of_nat (length data))) e s (λ o s',
    ∃ h, hist s' = hist s ++ h ∧ Forall (is_write fd) h ∧
      (o = Val 0 ∧ sent fd h = data ∨
       o = Val (-1) ∧ sent fd h `prefix_of` data ∧ ¬ Forall (write_fine fd) h)).
Proof.
  intros Hf Hmax. unfold write2.
  eapply (wp_loop_measure e _
    (λ l s', ∃ h q, data = sent fd h ++ q ∧ l = (Z.of_nat (length q), (Some <$> q) ++ rest) ∧
       hist s' = hist s ++ h ∧ Forall (is_write fd) h)
    (λ l _, Z.to_nat l.1)).
  2: { exists [], data. rewrite app_nil_r. repeat split; auto. }
  2: { simpl. lia. }
  intros l s1 (h & q & Hd & -> & Hh & Hw). wp_if.
  - rewrite Nat2Z.id, bytes_of_app. wp_steps.
    pose proof (write_ok (hist s1) fd q) as Hok. cbv zeta in Hok. rewrite <- Ha in Hok.
    assert (Hh' : hist (after (Cwrite fd q) a s1) = hist s ++ (h ++ [Sys (Cwrite fd q) a])).
    { hist_simpl. by rewrite Hh, <- app_assoc. }
    assert (Hw' : Forall (is_write fd) (h ++ [Sys (Cwrite fd q) a])).
    { apply Forall_app. split; [done|]. by repeat constructor. }
    wp_if; wp_steps.
    + exists (h ++ [Sys (Cwrite fd q) a]). split_and!; try done. right. split_and!; [done| |].
      * hist_simpl. rewrite Hif0, Hd. simpl. rewrite app_nil_r. by exists q.
      * rewrite Forall_app. intros [_ Hbad]. apply Forall_cons in Hbad as [Hbad _]. by apply Hbad.
    + destruct Hok as [|[Hk Hpos]]; [done|].
      assert (q ≠ []) as Hq by (intros ->; simpl in Hif; lia). specialize (Hpos Hq).
      apply (f_equal length) in Hd as Hlen. rewrite length_app in Hlen.
      unfold uwrap. rewrite Z.mod_small by lia. split; [|simpl; lia].
      exists (h ++ [Sys (Cwrite fd q) a]), (drop (Z.to_nat (rv a)) q). split_and!; [| |done..].
      * hist_simpl. by rewrite take_drop.
      * f_equal; [rewrite length_drop; lia|].
        rewrite drop_app_le by (rewrite length_fmap; lia). by rewrite fmap_drop.
  - wp_steps. destruct q; simpl in Hif; [|lia]. rewrite app_nil_r in Hd.
    exists h. split_and!; [done..|]. by left.
Qed.

(** The bytes the kernel ever delivers on [fd] are limited. *)
Definition bounded_source (fd size : Z) : Prop := ∀ h n,
  rdata (kern e h (Cread fd n)) = [] ∨
  Z.of_nat (length (rdata (kern e h (Cread fd n)))) ≤ size - Z.of_nat (length (got fd h)).

(** The outcome the program reports: success, whatever happened to the
    writes; and without a failed [write] the copy is complete. *)
Definition copied (fr fw : Z) (o : outcome Z) (s : st unit) : Prop :=
  o = Val EXIT_SUCCESS ∧ printed Stderr (hist s) = [] ∧
  (Forall (write_fine fw) (hist s) → sent fw (hist s) = got fr (hist s)) ∧
  ∃ h n a, hist s = h ++ [Sys (Cread fr n) a] ∧ rv a ≤ 0.

Lemma cpy_main_loop {R : ReadOk e} {W : WriteOk e} fuel fr fw size s :
  bounded_source fr size → 0 ≤ size → size + 65 < Z.of_nat fuel →
  printed Stderr (hist s) = [] → sent fw (hist s) = [] → got fr (hist s) = [] →
  ∀ buffer, length buffer = BLOCK_SIZE →
  wp (loop fuel (λ buffer,
      n ← sys (Cread fr (Z.of_nat BLOCK_SIZE));
      buffer ← mem (blit buffer 0 (rdata n));
      if decide (rv n > 0) then
        r ← write2 fuel fw buffer (rv n);
        (if decide (r > 0) then perror (str "Fehler bei write()") else mret ());;
        mret (inl buffer)
      else mret (inr EXIT_SUCCESS)) buffer) e s (copied fr fw).
Proof.
  intros Hsize Hpos Hf He0 Hs0 Hg0 buffer0 Hb0.
  eapply (wp_loop_measure e _
    (λ (b : buf) s', length b = BLOCK_SIZE ∧ printed Stderr (hist s') = [] ∧
       (Forall (write_fine fw) (hist s') → sent fw (hist s') = got fr (hist s')))
    (λ _ s', Z.to_nat (size - Z.of_nat (length (got fr (hist s')))))).
  2: { by rewrite Hs0, Hg0. }
  2: { rewrite Hg0. simpl. lia. }
  clear buffer0 Hb0 He0 Hs0 Hg0. intros buffer s1 (Hb & He & Hc).
  wp_step. wp_step.
  pose proof (read_ok (hist s1) fr (Z.of_nat BLOCK_SIZE)) as Hok. cbv zeta in Hok. rewrite <- Ha in Hok.
  pose proof (Hsize (hist s1) (Z.of_nat BLOCK_SIZE)) as Hsz. rewrite <- Ha in Hsz.
  assert (length (rdata a) ≤ BLOCK_SIZE)%nat as Hlen.
  { destruct Hok as [[_ ->]|[? ->]]; simpl; lia. }
  rewrite blit_Some by (rewrite Hb; done). wp_step. wp_step. wp_if.
  - destruct Hok as [[? _]|[Hk Hl]]; [lia|]. wp_step.
    replace (rv a) with (Z.of_nat (length (rdata a))) by lia. simpl (take 0 _ ++ _).
    eapply wp_mono; [apply write2_ok; unfold BLOCK_SIZE in *; lia|].
    intros o s2 (h & Hh & Hw & Ho).
    destruct (is_write_quiet fw h Hw Stderr fr) as [Hq1 Hq2].
    assert (Hinv : length ((Some <$> rdata a) ++ drop (0 + length (rdata a)) buffer) = BLOCK_SIZE).
    { rewrite length_app, length_fmap, length_drop, Hb. lia. }
    assert (Hp : printed Stderr (hist s2) = []).
    { rewrite Hh. hist_simpl. by rewrite He, Hq1. }
    assert (Hg : got fr (hist s2) = got fr (hist s1) ++ rdata a).
    { rewrite Hh. hist_simpl. by rewrite Hq2, app_nil_r. }
    assert (Hend : (length (got fr (hist s1)) < length (got fr (hist s2)))%nat).
    { rewrite Hg, length_app. lia. }
    assert (Hlim : Z.of_nat (length (got fr (hist s2))) ≤ size).
    { rewrite Hg, length_app. destruct Hsz as [Hsz|?]; [rewrite Hsz in Hl; simpl in Hl|]; lia. }
    destruct Ho as [[-> Hsent]|(-> & _ & Hbad)]; wp_steps; rewrite decide_False by lia; wp_steps.
    + split; [|lia]. split_and!; [done..|]. intros Hfine. rewrite Hg, Hh in *. hist_simpl.
      apply Forall_app in Hfine as [Hfine _].
      rewrite Hsent, Hc by done. done.
    + split; [|lia]. split_and!; [done..|]. intros Hfine. rewrite Hh in Hfine.
      apply Forall_app in Hfine as [_ Hfine]. done.
  - wp_steps. unfold copied. hist_simpl. split_and!; try done.
    + intros Hfine. apply Forall_app in Hfine as [Hfine _]. rewrite Hc by done. simpl.
      destruct Hok as [[_ ->]|[Hk Hl]]; [by rewrite app_nil_r|].
      destruct (rdata a); [by rewrite app_nil_r|simpl in *; lia].
    + exists (hist s1), (Z.of_nat BLOCK_SIZE), a. split; [done|lia].
Qed.
End proofs.


End CpyFile.

(** ** backward.c *)
Module Backward.
(** [bwread]: print the file behind [fd] from its last byte to its first. *)
Definition bwread_body (fd : Z) (nl : Z) : M unit (Z + Z * Z) :=
  a ← sys (Cread fd 1);
  if decide (rv a = 1) then
    ch ← mem (rdata a !! 0%nat);
    nl ← (if decide (ch = LF ∧ nl = 0) then mret (nl + 1) else printf [ch];; mret nl);
    p ← sys (Clseek fd (-2) SEEK_CUR);
    if decide (rv p < 0) then mret (inr (rv a, nl)) else mret (inl nl)
  else mret (inr (rv a, nl)).
Definition bwread (fuel : nat) (fd : Z) : M unit unit :=
  sys (Clseek fd (-1) SEEK_END);;
  '(r, nl) ← loop fuel (bwread_body fd) 0;
  (if decide (nl ≠ 0) then printf [LF] else mret ());;
  if decide (r = 0) then eprintf (line "EOF unerwartet ...")
  else if decide (r = -1) then perror (str "Fehler bei read()") else mret ().

Definition bw_main (fuel : nat) (argv : list (list Z)) : M unit Z :=
  if decide (length argv < 2)%nat then
    a0 ← arg argv 0; eprintf (str "Syntax: " ++ a0 ++ line " datei");; mret EXIT_FAILURE
  else
    a1 ← arg argv 1; fd ← sys (Copen a1 O_RDONLY 0);
    if decide (rv fd < 0) then perror (str "open");; mret EXIT_FAILURE
    else bwread fuel (rv fd);; mret EXIT_SUCCESS.

(** What the program means to print: the characters in reverse order, with
    the newline that ends the last line moved to the end of the output. *)
Definition backwards (content : list Z) : list Z :=
  let '(a, b) := span_until (λ c, bool_decide (c = LF)) (reverse content) in
  match b with [] => a | _ :: b => a ++ b ++ [LF] end.

(** The file offset of [fd] after the calls of a history ([lseek] reports
    the new offset; [read] advances it). *)
Definition move (fd : Z) (off : Z) (ev : event) : Z :=
  match ev with
  | Sys (Clseek fd' _ _) a => if decide (fd' = fd ∧ 0 ≤ rv a) then rv a else off
  | Sys (Cread fd' _) a => if decide (fd' = fd ∧ 0 ≤ rv a) then off + rv a else off
  | _ => off
  end.
Definition offset (fd : Z) (h : list event) : Z := foldl (move fd) 0 h.

(** A regular file with the given content is open on [fd]. *)
Class RegularFile (e : env) (fd : Z) (content : list Z) : Prop := {
  rf_end h k : rv (kern e h (Clseek fd k SEEK_END))
    = if decide (0 ≤ Z.of_nat (length content) + k) then Z.of_nat (length content) + k else -1;
  rf_cur h k : let off := offset fd h in
    rv (kern e h (Clseek fd k SEEK_CUR)) = if decide (0 ≤ off + k) then off + k else -1;
  rf_read h n : let off := offset fd h in
    let d := take (Z.to_nat n) (drop (Z.to_nat off) content) in
    rdata (kern e h (Cread fd n)) = d ∧ rv (kern e h (Cread fd n)) = Z.of_nat (length d)
}.

Lemma offset_snoc fd h ev : offset fd (h ++ [ev]) = move fd (offset fd h) ev.
Proof. unfold offset. by rewrite foldl_app. Qed.
Lemma move_put fd off f d : move fd off (Put f d) = off.
Proof. done. Qed.
Hint Rewrite offset_snoc move_put : hist_db.

(** The printing state of the loop: the first newline met is held back. *)
Definition emit (nl : Z) (c : Z) : list Z * Z := if decide (c = LF ∧ nl = 0) then ([], nl + 1) else ([c], nl).
Fixpoint emits (nl : Z) (l : list Z) : list Z * Z :=
  match l with
  | [] => ([], nl)
  | c :: r => let '(o, nl1) := emit nl c in let '(o', nl2) := emits nl1 r in (o ++ o', nl2)
  end.

Lemma emits_seen l : emits 1 l = (l, 1).
Proof.
  induction l as [|c l IH]; csimpl; [done|]. unfold emit. rewrite decide_False by lia.
  by rewrite IH.
Qed.
Lemma emits_backwards content :
  let '(o, nl) := emits 0 (reverse content) in
  o ++ (if decide (nl ≠ 0) then [LF] else []) = backwards content.
Proof.
  unfold backwards. generalize (reverse content) as l. induction l as [|c l IH]; csimpl; [done|].
  unfold emit. destruct (decide (c = LF)) as [->|Hc].
  - rewrite decide_True by done. rewrite bool_decide_true by done.
    change (0 + 1) with 1. rewrite emits_seen. by rewrite decide_True.
  - rewrite decide_False by tauto. rewrite bool_decide_false by done.
    destruct (emits 0 l) as [o nl]. destruct (span_until _ l) as [a [|x b]]; csimpl in *; by rewrite IH.
Qed.

Section proofs.
Context (e : env) (fd : Z) (content : list Z) {F : RegularFile e fd content}.

Lemma emit_ok nl c s :
  wp (if decide (c = LF ∧ nl = 0) then mret (nl + 1) else printf [c];; mret nl : M unit Z) e s
    (λ o s', o = Val (emit nl c).2 ∧ ∃ h, hist s' = hist s ++ h ∧
       printed Stdout h = (emit nl c).1 ∧ printed Stderr h = [] ∧ ∀ off, foldl (move fd) off h = off).
Proof.
  unfold emit. wp_if; wp_steps; (split; [done|]).
  - exists []. by rewrite app_nil_r.
  - exists [Put Stdout [c]]. by st_simpl.
Qed.

Lemma offset_app h1 h2 : offset fd (h1 ++ h2) = foldl (move fd) (offset fd h1) h2.
Proof. unfold offset. by rewrite foldl_app. Qed.

(** One turn prints (or holds back) the byte at the offset and moves to
    the byte before it; before the first byte it ends the loop. *)
Lemma bwread_body_ok p c suf nl s :
  content = p ++ c :: suf → offset fd (hist s) = Z.of_nat (length p) →
  wp (bwread_body fd nl) e s (λ o s', ∃ h, hist s' = hist s ++ h ∧
    printed Stdout h = (emit nl c).1 ∧ printed Stderr h = [] ∧
    (p = [] ∧ o = Val (inr (1, (emit nl c).2)) ∨
     p ≠ [] ∧ o = Val (inl (emit nl c).2) ∧ offset fd (hist s') = Z.of_nat (length p) - 1)).
Proof.
  intros Hc Ho. unfold bwread_body. wp_step. wp_step.
  destruct (rf_read (hist s) 1) as [Hd Hv]. rewrite <- Ha in Hd, Hv.
  rewrite Ho, Nat2Z.id, Hc, drop_app_length in Hd, Hv. simpl in Hd, Hv.
  rewrite decide_True, Hd by done. wp_steps.
  eapply wp_mono; [apply emit_ok|]. intros o s1 (-> & h & Hh & Hp1 & Hp2 & Hm).
  wp_step. wp_step.
  pose proof (rf_cur (hist s1) (-2)) as Hcur. cbv zeta in Hcur. rewrite <- Ha0 in Hcur.
  assert (Hoff : offset fd (hist s1) = Z.of_nat (length p) + 1).
  { rewrite Hh, offset_app, Hm. hist_simpl. rewrite Ho. simpl. rewrite Hv.
    by rewrite decide_True. }
  rewrite Hoff in Hcur.
  assert (Hh' : hist (after (Clseek fd (-2) SEEK_CUR) a0 s1) =
    hist s ++ ([Sys (Cread fd 1) a] ++ h ++ [Sys (Clseek fd (-2) SEEK_CUR) a0])).
  { rewrite hist_after, Hh, hist_after. by rewrite <- !app_assoc. }
  destruct p as [|c' p]; cbn [length] in Hcur, Hoff |- *.
  - rewrite decide_False in Hcur by lia. rewrite decide_True by lia. wp_steps.
    eexists. split_and!; [exact Hh'|..]; try (hist_simpl; rewrite ?Hp1, ?Hp2; by rewrite ?app_nil_r).
    left. by rewrite Hv.
  - rewrite decide_True in Hcur by lia. rewrite decide_False by lia. wp_steps.
    eexists. split_and!; [exact Hh'|..]; try (hist_simpl; rewrite ?Hp1, ?Hp2; by rewrite ?app_nil_r).
    right. split_and!; [done|done|]. rewrite hist_after, offset_snoc. simpl.
    rewrite decide_True by lia. lia.
Qed.

Lemma bwread_loop_ok p : ∀ fuel c suf nl s,
  content = p ++ c :: suf → offset fd (hist s) = Z.of_nat (length p) → (length p < fuel)%nat →
  wp (loop fuel (bwread_body fd) nl) e s (λ o s', ∃ h, hist s' = hist s ++ h ∧
    o = Val (1, (emits nl (c :: reverse p)).2) ∧
    printed Stdout h = (emits nl (c :: reverse p)).1 ∧ printed Stderr h = []).
Proof.
  induction p as [|c' p IH] using rev_ind; intros fuel c suf nl s Hc Ho Hf;
    (destruct fuel as [|fuel]; [lia|]); apply wp_loop_S;
    (eapply wp_mono; [by eapply bwread_body_ok|]);
    intros o s1 (h & Hh & H1 & H2 & [(Hp & ->)|(Hp & -> & Hoff)]); simpl; try done.
  - exists h. simpl. destruct (emit nl c) as [o' nl'] eqn:Ee. simpl in *.
    by rewrite app_nil_r.
  - by destruct p.
  - eapply wp_mono; [eapply (IH fuel c' (c :: suf))|].
    + by rewrite Hc, <- app_assoc.
    + rewrite Hoff, length_app. simpl. lia.
    + rewrite length_app in Hf. simpl in Hf. lia.
    + intros o s2 (h2 & Hh2 & -> & H3 & H4). exists (h ++ h2).
      rewrite Hh2, Hh. rewrite reverse_snoc. hist_simpl. rewrite H1, H2, H3, H4.
      simpl. destruct (emit nl c) as [o1 n1]. simpl. destruct (emit n1 c') as [o2 n2].
      by destruct (emits n2 (reverse p)).
Qed.

Lemma bwread_ok fuel s :
  content ≠ [] → (length content ≤ fuel)%nat →
  wp (bwread fuel fd) e s (λ o s', ∃ h, hist s' = hist s ++ h ∧ o = Val () ∧
    printed Stdout h = backwards content ∧ printed Stderr h = []).
Proof.
  intros Hne Hf. unfold bwread.
  destruct (exists_last Hne) as (p & c & Hcont).
  rewrite Hcont, length_app in Hf. simpl in Hf. wp_step. wp_step.
  pose proof (rf_end (hist s) (-1)) as Hend. rewrite <- Ha, Hcont, length_app in Hend.
  cbn [length] in Hend. rewrite decide_True in Hend by lia.
  wp_step. eapply wp_mono; [eapply (bwread_loop_ok p _ c [])|].
  - done.
  - rewrite hist_after, offset_snoc. simpl. rewrite decide_True by lia. lia.
  - lia.
  - intros o s1 (h & Hh & -> & H1 & H2). wp_steps.
    pose proof (emits_backwards content) as Hb. rewrite Hcont, reverse_snoc, <- Hcont in Hb.
    destruct (emits 0 (c :: reverse p)) as [o' nl]. simpl in H1 |- *.
    wp_if; wp_steps; [exists ([Sys (Clseek fd (-1) SEEK_END) a] ++ h ++ [Put Stdout [LF]])
                     |exists ([Sys (Clseek fd (-1) SEEK_END) a] ++ h)];
      (split; [rewrite ?hist_log, Hh, hist_after; by rewrite <- !app_assoc|]);
      (split; [done|]); hist_simpl; rewrite H1, H2; by rewrite <- Hb, ?app_nil_r.
Qed.
End proofs.

(** A kernel with one regular file, open on [fd]. *)
Definition file_kern (fd : Z) (content : list Z) (h : list event) (c : call) : ans :=
  let size := Z.of_nat (length content) in
  let seek p := if decide (0 ≤ p) then answer p else answer_err 22 in
  match c with
  | Copen _ _ _ => answer fd
  | Clseek _ k w => seek ((if decide (w = SEEK_END) then size else offset fd h) + k)
  | Cread _ n => let d := take (Z.to_nat n) (drop (Z.to_nat (offset fd h)) content) in
                 answer_data (Z.of_nat (length d)) d
  | _ => answer 0
  end.
#[export] Instance file_kern_ok fd content : RegularFile (env_of (file_kern fd content)) fd content.
Proof. split; intros; simpl; repeat case_decide; done. Qed.


End Backward.
