(* ===== verification/Pipes.v ===== *)
(** * 09_IPC: the word filter and the programs that feed it through a pipe

    [filter.c] replaces words on standard input, [popen1.c] pipes a file into
    it.  [pipe1.c], [pipe3.c] and [pipe3b.c] are parents and children joined
    by a pipe. *)
From S2P Require Import Prelude CLib Machine Kernels FileIO.

(** ** filter.c *)
Module Filter.
Definition MAX : nat := 255.
Definition filterwords : list (list Z) := [str "undo"; str "oder"; str "aber"; str "ein"].
Definition token : Z := SPC.
(** [strtok] with the single separator [token]: the next word of [s], and
    where the search goes on. *)
Definition strtok (s : list Z) : option (list Z * list Z) :=
  match (span_until (λ c, bool_decide (c ≠ token)) s).2 with
  | [] => None
  | t => let '(w, r) := span_until (λ c, bool_decide (c = token)) t in Some (w, tail r)
  end.
Definition x : Z := 120.
(** The inner loop over the filter words: [tmp] and [merker] are its variables. *)
Fixpoint try_words (ws : list (list Z)) (p : list Z) (tmp : buf) (merker : Z) : M unit (buf * Z) :=
  match ws with
  | [] => mret (tmp, merker)
  | w :: ws =>
      match strstr p w with
      | Some _ =>
          let len := length w in
          tmp ← mem (blit tmp 0 (replicate len x));
          tmp ← mem (bset tmp (Z.of_nat len) 0);
          t ← mem (cstr tmp);
          printf t;;
          printf [SPC];;
          try_words ws p tmp 1
      | None => try_words ws p tmp merker
      end
  end.
Definition output_body (q : option (list Z * list Z) * buf) : M unit (option (list Z * list Z) * buf + unit) :=
  match q with
  | (None, _) => mret (inr tt)
  | (Some (p, rest), tmp) =>
      '(tmp, merker) ← try_words filterwords p tmp 0;
      (if decide (merker = 0) then printf p;; printf [SPC] else mret ());;
      mret (inl (strtok rest, tmp))
  end.
Definition output (fuel : nat) (puffer : list Z) : M unit unit :=
  loop fuel output_body (strtok puffer, uninit 20).
Definition filter_body (fuel : nat) (pufferin : buf) : M unit (buf + Z) :=
  l ← fgets_stdin MAX;
  match l with
  | None => mret (inr EXIT_SUCCESS)
  | Some l =>
      pufferin ← mem (blit pufferin 0 (l ++ [0]));
      s ← mem (cstr pufferin);
      output fuel s;;
      mret (inl pufferin)
  end.
Definition filter_main (fuel : nat) : M unit Z := loop fuel (filter_body fuel) (uninit MAX).

(** *** What it is meant to print *)

(** The words of a text: the maximal pieces without a space. *)
Fixpoint split (s : list Z) : list (list Z) :=
  match s with
  | [] => [[]]
  | c :: r => if decide (c = token) then [] :: split r
              else match split r with w :: ws => (c :: w) :: ws | [] => [[c]] end
  end.
Definition words (s : list Z) : list (list Z) := base.filter (λ w, w ≠ []) (split s).
(** [w] occurs in [p]. *)
Definition occurs (w p : list Z) : Prop := ∃ a b, p = a ++ w ++ b.
#[export] Instance occurs_dec w p : Decision (occurs w p).
Proof.
  refine (match strstr p w as o return strstr p w = o → _ with Some t => λ E, left _ | None => λ E, right _ end eq_refl).
  - apply strstr_spec. eauto.
  - intros H. apply strstr_spec in H as (t & H). congruence.
Defined.
(** One mask for each filter word that occurs in [p], or [p] itself. *)
Definition mask (w : list Z) : list Z := replicate (length w) x.
Definition pieces (p : list Z) : list (list Z) :=
  match mask <$> base.filter (λ w, occurs w p) filterwords with [] => [p] | m => m end.
Definition spaced (ps : list (list Z)) : list Z := concat ((λ p, p ++ [SPC]) <$> ps).
Definition filtered (s : list Z) : list Z := spaced (words s ≫= pieces).
(** What [fgets] delivers, call by call. *)
Fixpoint chunks (fuel : nat) (l : list Z) : list (list Z) :=
  match fuel, l with
  | S f, _ :: _ => (fgets_take (MAX - 1) l).1 :: chunks f (fgets_take (MAX - 1) l).2
  | _, _ => []
  end.
Definition upto_nul (l : list Z) : list Z := (span_until (λ c, bool_decide (c = 0)) l).1.
Definition filter_text (input : list Z) : list Z :=
  concat ((λ l, filtered (upto_nul l)) <$> chunks (length input) input).

Lemma spaced_app a b : spaced (a ++ b) = spaced a ++ spaced b.
Proof. unfold spaced. by rewrite fmap_app, concat_app. Qed.
Lemma filtered_word s w r : words s = w :: words r → filtered s = spaced (pieces w) ++ filtered r.
Proof. intros H. unfold filtered. rewrite H. cbn [mbind list_bind]. apply spaced_app. Qed.
Lemma strstr_occurs p w : match strstr p w with Some _ => occurs w p | None => ¬ occurs w p end.
Proof.
  destruct (strstr p w) as [t|] eqn:E; [apply strstr_spec; eauto|].
  intros H. apply strstr_spec in H as (t & H). congruence.
Qed.

Lemma split_spaces a r : Forall (λ c, c = token) a → words (a ++ r) = words r.
Proof.
  intros H. induction H as [|c a -> H IH]; [done|]. unfold words in *. cbn [app split].
  rewrite decide_True by done. rewrite filter_cons_False by tauto. done.
Qed.
Lemma split_word w r : token ∉ w → (r = [] ∨ ∃ r', r = token :: r') →
  split (w ++ r) = w :: tail (split r).
Proof.
  intros Hw Hr. induction w as [|c w IH]; cbn [app split].
  - destruct Hr as [->|(r' & ->)]; [done|]. cbn [split]. by rewrite decide_True.
  - apply not_elem_of_cons in Hw as [Hc Hw]. rewrite decide_False by congruence. by rewrite IH.
Qed.
(** [strtok] finds the words one after the other. *)
Lemma strtok_words s :
  match strtok s with
  | None => words s = []
  | Some (w, r) => words s = w :: words r ∧ (length r < length s)%nat
  end.
Proof.
  unfold strtok.
  pose proof (span_until_app (λ c, bool_decide (c ≠ token)) s) as Hs.
  pose proof (span_until_fst_no (λ c, bool_decide (c ≠ token)) s) as Ha.
  pose proof (span_until_snd (λ c, bool_decide (c ≠ token)) s) as Hb.
  destruct (span_until _ s) as [a t]. cbn [fst snd] in *. subst s.
  assert (Ha' : Forall (λ c, c = token) a).
  { eapply Forall_impl; [exact Ha|]. intros c Hc%bool_decide_eq_false. by destruct (decide (c = token)). }
  rewrite split_spaces by done. destruct t as [|c t]; [done|].
  destruct Hb as [|(c' & t' & [= <- <-] & Hc%bool_decide_eq_true)]; [done|].
  pose proof (span_until_app (λ c, bool_decide (c = token)) (c :: t)) as Hs.
  pose proof (span_until_fst_no (λ c, bool_decide (c = token)) (c :: t)) as Hw.
  pose proof (span_until_snd (λ c, bool_decide (c = token)) (c :: t)) as Hr.
  destruct (span_until (λ c, bool_decide (c = token)) (c :: t)) as [w r]. cbn [fst snd] in *.
  assert (Hw' : token ∉ w).
  { intros Hin. rewrite Forall_forall in Hw. specialize (Hw _ Hin). by rewrite bool_decide_eq_false in Hw. }
  assert (Hne : w ≠ []).
  { intros ->. destruct Hr as [->|(c' & r' & -> & Hc'%bool_decide_eq_true)]; [done|]. cbn in Hs. by injection Hs as ->. }
  rewrite <- Hs. assert (Hr' : r = [] ∨ ∃ r', r = token :: r').
  { destruct Hr as [->|(c' & r' & -> & ->%bool_decide_eq_true)]; eauto. }
  split.
  - unfold words. rewrite split_word, filter_cons_True by done. f_equal.
    destruct Hr' as [->|(r' & ->)]; [done|]. cbn [split tail]. by rewrite decide_True.
  - rewrite !length_app. destruct w; [done|]. destruct r; cbn [length tail]; lia.
Qed.
Section proofs.
Context (e : env).
Notation out s := (printed Stdout (hist s)).

Lemma try_words_ok ws p : Forall (λ w, length w < 20)%nat ws →
  ∀ tmp m s (Q : post unit (buf * Z)), length tmp = 20%nat →
  (∀ tmp' s', length tmp' = 20%nat → stdin s' = stdin s →
     out s' = out s ++ spaced (mask <$> base.filter (λ w, occurs w p) ws) →
     Q (Val (tmp', if decide (base.filter (λ w, occurs w p) ws = []) then m else 1)) s') →
  wp (try_words ws p tmp m) e s Q.
Proof.
  intros Hws. induction Hws as [|w ws Hw Hws IH]; intros tmp m s Q Ht HQ; cbn [try_words].
  { wp_step. apply (HQ tmp s); try done. by rewrite app_nil_r. }
  pose proof (strstr_occurs p w) as Hp. destruct (strstr p w) as [t|].
  - rewrite filter_cons_True in HQ by done. cbv zeta.
    destruct (blit_terminate tmp (mask w)) as (b1 & b2 & E1 & E2 & _ & L2 & _ & Hc); [unfold mask; rewrite length_replicate; lia|].
    unfold mask in E1, E2. rewrite length_replicate in E2.
    wp_step. rewrite E1. do 2 wp_step. rewrite E2. do 2 wp_step. apply wp_mem. rewrite Hc by (by apply Forall_replicate).
    cbn [bpost]. do 4 wp_step. apply IH; [congruence|]. intros tmp' s' Ht' Hi Ho. 
    rewrite decide_False in HQ by done.
    specialize (HQ tmp' s' Ht' Hi). rewrite fmap_cons in HQ.
    assert (HQ' : Q (Val (tmp', 1)) s').
    { apply HQ. rewrite Ho. hist_norm. unfold spaced. cbn [fmap list_fmap concat]. by rewrite <- !app_assoc. }
    by case_decide.
  - rewrite filter_cons_False in HQ by done. by apply IH.
Qed.

Lemma output_ok s0 : ∀ fuel s (Q : post unit unit), (length s0 < fuel)%nat →
  (∀ s', stdin s' = stdin s → out s' = out s ++ filtered s0 → Q (Val tt) s') →
  wp (output fuel s0) e s Q.
Proof.
  intros fuel s Q Hf HQ. unfold output.
  eapply (wp_loop_measure e output_body (λ '(q, tmp) s', length tmp = 20%nat ∧ stdin s' = stdin s ∧
      ∃ r, q = strtok r ∧ out s' ++ filtered r = out s ++ filtered s0)
    (λ '(q, _) _, match q with None => 0%nat | Some (_, r) => S (length r) end)).
  2: { split; [done|]. split; [done|]. by exists s0. }
  2: { pose proof (strtok_words s0). destruct (strtok s0) as [[w r]|]; [|lia]. destruct H. lia. }
  intros [q tmp] s1 (Ht & Hi & r & -> & Ho). pose proof (strtok_words r) as Hw.
  destruct (strtok r) as [[p r']|]; cbn [output_body].
  - destruct Hw as [Hw Hlen]. rewrite (filtered_word _ _ _ Hw) in Ho.
    wp_step. apply try_words_ok; [by_compute|done|]. intros tmp' s2 Ht' Hi2 Ho2. cbn [bpost].
    wp_step. unfold pieces in Ho.
    destruct (base.filter (λ w, occurs w p) filterwords) as [|w ws] eqn:Ew.
    + rewrite decide_True by done. wp_steps. split.
      * split; [done|]. split; [st_simpl; congruence|]. exists r'. split; [done|].
        rewrite <- Ho. hist_norm. rewrite Ho2. unfold spaced. cbn. by rewrite !app_nil_r, <- !app_assoc.
      * pose proof (strtok_words r'). destruct (strtok r') as [[??]|]; [|lia]. destruct H. lia.
    + rewrite decide_False by done. wp_steps. split.
      * split; [done|]. split; [congruence|]. exists r'. split; [done|].
        rewrite <- Ho, Ho2, <- app_assoc. done.
      * pose proof (strtok_words r'). destruct (strtok r') as [[??]|]; [|lia]. destruct H. lia.
  - wp_step. apply HQ; [done|]. unfold filtered in Ho at 1. rewrite Hw in Ho. cbn in Ho. by rewrite app_nil_r in Ho.
Qed.

Lemma upto_nul_prefix l : ∃ r, l ++ [0] = upto_nul l ++ 0 :: r ∧ nozero (upto_nul l).
Proof.
  unfold upto_nul. pose proof (span_until_app (λ c, bool_decide (c = 0)) l) as Hl.
  pose proof (span_until_fst_no (λ c, bool_decide (c = 0)) l) as Hn.
  pose proof (span_until_snd (λ c, bool_decide (c = 0)) l) as Hs.
  destruct (span_until _ l) as [a b]. cbn [fst snd] in *. subst l.
  assert (nozero a) by (eapply Forall_impl; [exact Hn|]; by intros c Hc%bool_decide_eq_false).
  destruct Hs as [->|(c & r & -> & ->%bool_decide_eq_true)].
  - exists []. by rewrite app_nil_r.
  - exists (r ++ [0]). split; [by rewrite <- app_assoc|done].
Qed.

Lemma chunks_fuel f l : (length l ≤ f)%nat → chunks f l = chunks (length l) l.
Proof.
  revert l. induction f as [f IH] using lt_wf_ind. intros l Hl.
  destruct l as [|c l]; [by destruct f|]. destruct f as [|f]; [cbn in Hl; lia|].
  cbn [length] in *. cbn [chunks].
  pose proof (fgets_take_app (MAX - 1) (c :: l)) as Happ.
  pose proof (fgets_take_nonempty (MAX - 1) (c :: l) ltac:(unfold MAX; lia) ltac:(done)) as Hne.
  destruct (fgets_take (MAX - 1) (c :: l)) as [a b]. cbn [fst snd] in *. f_equal.
  apply (f_equal length) in Happ. rewrite length_app in Happ. cbn [length] in Happ.
  destruct a as [|? a]; [done|]. cbn [length] in Happ.
  rewrite (IH f) by lia. destruct (decide (f = length l)) as [->|]; [rewrite (IH (length l)) by lia; done|].
  by rewrite (IH (length l)) by lia.
Qed.

Lemma filter_text_step l : l ≠ [] →
  filter_text l = filtered (upto_nul (fgets_take (MAX - 1) l).1) ++ filter_text (fgets_take (MAX - 1) l).2.
Proof.
  intros Hl. unfold filter_text. destruct l as [|c l]; [done|]. cbn [length chunks].
  pose proof (fgets_take_app (MAX - 1) (c :: l)) as Happ.
  pose proof (fgets_take_nonempty (MAX - 1) (c :: l) ltac:(unfold MAX; lia) ltac:(done)) as Hne.
  destruct (fgets_take (MAX - 1) (c :: l)) as [a b]. cbn [fst snd fmap list_fmap concat] in *.
  rewrite (chunks_fuel (length l) b); [done|]. apply (f_equal length) in Happ. rewrite length_app in Happ.
  destruct a; [done|]. cbn [length] in Happ. lia.
Qed.

(** The whole program, on every input. *)
Lemma filter_ok : ∀ fuel s, (length (stdin s) + 255 < fuel)%nat →
  wp (filter_main fuel) e s (λ o s', o = Val EXIT_SUCCESS ∧ stdin s' = [] ∧ out s' = out s ++ filter_text (stdin s)).
Proof.
  intros fuel s Hf. unfold filter_main.
  eapply (wp_loop_measure e (filter_body fuel) (λ (b : buf) s', length b = MAX ∧ (length (stdin s') ≤ length (stdin s))%nat ∧
      out s' ++ filter_text (stdin s') = out s ++ filter_text (stdin s))
    (λ _ s', length (stdin s'))); [|done|lia].
  intros b s1 (Hb & Hle & Ho). unfold filter_body. wp_step.
  destruct (stdin s1) as [|c l] eqn:Es.
  - apply wp_fgets_eof; [done|]. cbn [bpost]. wp_step. split_and!; [done|done|]. by rewrite <- Ho, app_nil_r.
  - unfold wp at 1, fgets_stdin. rewrite Es. rewrite filter_text_step in Ho by done.
    pose proof (fgets_take_app (MAX - 1) (c :: l)) as Happ.
    pose proof (fgets_take_length (MAX - 1) (c :: l)) as Hl.
    pose proof (fgets_take_nonempty (MAX - 1) (c :: l) ltac:(unfold MAX; lia) ltac:(done)) as Hne.
    destruct (fgets_take (MAX - 1) (c :: l)) as [a r]. cbn [fst snd bpost] in *.
    assert (Hlen : (length r < length (c :: l))%nat).
    { rewrite <- Happ, length_app. destruct a; [done|]. cbn. lia. }
    destruct (upto_nul_prefix a) as (t & Et & Hz).
    wp_step. destruct (blit b 0 (a ++ [0])) as [b'|] eqn:Eb.
    2: { rewrite blit_Some in Eb by (rewrite Hb, length_app; unfold MAX in *; cbn [length]; lia). done. }
    assert (Hb' : length b' = MAX) by (rewrite <- Hb; by eapply blit_length).
    assert (Hc' : cstr b' = Some (upto_nul a)).
    { unfold blit in Eb. case_decide; [|done]. injection Eb as <-.
      rewrite Et, fmap_app, fmap_cons, <- app_assoc, <- app_comm_cons. by apply cstr_prefix. }
    wp_step. wp_step. apply wp_mem. rewrite Hc'. cbn [bpost]. wp_step. apply output_ok.
    { assert (length (upto_nul a) ≤ length a)%nat.
      { apply (f_equal length) in Et. rewrite !length_app in Et. cbn [length] in Et. lia. }
      unfold MAX in *. lia. }
    intros s2 Hi Ho2. cbn [bpost]. wp_step. st_simpl. rewrite Hi. cbn [length] in *. split; [|lia]. split_and!; [done|lia|].
    by rewrite Ho2, <- Ho, <- app_assoc.
Qed.
End proofs.


(** *** Nothing filtered gets through *)
Lemma occurs_spaced w ps : token ∉ w → w ≠ [] → occurs w (spaced ps) → Exists (occurs w) ps.
Proof.
  intros Hw Hne. induction ps as [|p ps IH]; intros (a & b & Hab).
  { cbn in Hab. destruct a, w; done. }
  assert (Hin : ∀ q r, w = q ++ r → token ∉ r) by (intros q r E Hr; apply Hw; rewrite E, elem_of_app; by right).
  unfold spaced in Hab. cbn [fmap list_fmap concat] in Hab. rewrite <- app_assoc in Hab. cbn [app] in Hab.
  apply app_eq_inv in Hab as [(k & -> & Hk)|(k & -> & Hk)].
  2: { apply Exists_cons. right. apply IH. destruct k as [|c k]; cbn in Hk.
       - destruct w as [|c w]; [done|]. injection Hk as <- _. exfalso. apply Hw. by left.
       - injection Hk as <- Hk. exists k, b. done. }
  apply app_eq_inv in Hk as [(k' & -> & Hk)|(k' & -> & Hk)].
  - apply Exists_cons. left. destruct k' as [|c k'].
    + exists a, []. by rewrite !app_nil_r.
    + injection Hk as <- _. exfalso. apply Hw. rewrite elem_of_app. right. by left.
  - apply Exists_cons. left. by exists a, k'.
Qed.

Lemma mask_clean w w' : w' ∈ filterwords → ¬ occurs w' (mask w).
Proof.
  intros Hw' (a & b & Hab). assert (Hx : Forall (λ c, c = x) (mask w)) by (by apply Forall_replicate).
  rewrite Hab, !Forall_app in Hx. destruct Hx as (_ & Hx & _). revert Hx.
  repeat (apply elem_of_cons in Hw' as [->|Hw']; [by inversion 1|]). by apply elem_of_nil in Hw'.
Qed.
Lemma pieces_clean p w : w ∈ filterwords → ¬ Exists (occurs w) (pieces p).
Proof.
  intros Hw H. unfold pieces in H.
  destruct (base.filter (λ w, occurs w p) filterwords) as [|w1 ws] eqn:Ef.
  - cbn in H. apply Exists_cons in H as [H|H]; [|by inversion H].
    assert (Hin : w ∈ base.filter (λ w, occurs w p) filterwords) by (by apply list_elem_of_filter).
    rewrite Ef in Hin. by apply elem_of_nil in Hin.
  - apply Exists_exists in H as (q & Hq & H).
    assert (Hq' : q ∈ mask <$> w1 :: ws) by exact Hq.
    apply list_elem_of_fmap in Hq' as (w' & -> & _). by apply (mask_clean w' w) in H.
Qed.
Lemma filter_text_clean input w : w ∈ filterwords → ¬ occurs w (filter_text input).
Proof.
  intros Hw H. assert (Ht : ∃ ws, filter_text input = spaced (ws ≫= pieces)).
  { unfold filter_text, filtered. induction (chunks _ _) as [|c cs (ws & IH)].
    - by exists [].
    - exists (words (upto_nul c) ++ ws). cbn [fmap list_fmap concat]. by rewrite IH, bind_app, spaced_app. }
  destruct Ht as (ws & Ht). rewrite Ht in H. apply occurs_spaced in H.
  - apply Exists_exists in H as (q & Hq & H). apply list_elem_of_bind in Hq as (p & Hq & _).
    apply (pieces_clean p w Hw). apply Exists_exists. eauto.
  - intros Hin. revert Hw. clear H. intros Hw.
    repeat (apply elem_of_cons in Hw as [->|Hw]; [revert Hin; by_compute|]). by apply elem_of_nil in Hw.
  - clear H. intros ->. revert Hw. by_compute.
Qed.

(** Lines that fit into the buffer arrive one by one. *)
Lemma filter_text_lines ls :
  Forall (λ l, LF ∉ l ∧ nozero l ∧ (length l < 254)%nat) ls →
  filter_text (concat ((λ l, l ++ [LF]) <$> ls)) = concat ((λ l, filtered (l ++ [LF])) <$> ls).
Proof.
  intros H. induction H as [|l ls (Hlf & Hz & Hl) H IH]; [done|]. cbn [fmap list_fmap concat].
  rewrite filter_text_step by (by destruct l). rewrite <- app_assoc. cbn [app].
  rewrite fgets_take_line by (done || (unfold MAX; lia)). cbn [fst snd]. rewrite IH. f_equal.
  unfold upto_nul. rewrite <- (app_nil_r (l ++ [LF])) at 1. rewrite span_until_none; [done| |by left].
  apply Forall_app. split; [|by repeat constructor]. eapply Forall_impl; [exact Hz|].
  intros c Hc. by apply bool_decide_eq_false.
Qed.

(** C11. filter.c ends on every input, and prints a text in which none of the
    filter words occurs, not even across two words, lines or calls of fgets. *)
Theorem filter_clean e fuel input : (length input + 255 < fuel)%nat →
  wp (filter_main fuel) e (init () input) (λ o s',
    o = Val EXIT_SUCCESS ∧ ∀ w, w ∈ filterwords → ¬ occurs w (printed Stdout (hist s'))).
Proof.
  intros Hf. eapply wp_mono; [by apply filter_ok|]. intros o s' (-> & _ & Ho). split; [done|].
  intros w Hw. rewrite Ho. by apply filter_text_clean.
Qed.

(** C24. On lines that fit into its buffer filter.c prints, line by line, each
    word of the line - one mask of x for each filter word in it, or else the
    word itself - followed by a space. *)
Theorem filter_lines e fuel ls :
  Forall (λ l, LF ∉ l ∧ nozero l ∧ (length l < 254)%nat) ls →
  (length (concat ((λ l, l ++ [LF]) <$> ls)) + 255 < fuel)%nat →
  wp (filter_main fuel) e (init () (concat ((λ l, l ++ [LF]) <$> ls))) (λ o s',
    o = Val EXIT_SUCCESS ∧ printed Stdout (hist s') = concat ((λ l, filtered (l ++ [LF])) <$> ls)).
Proof.
  intros Hls Hf. eapply wp_mono; [by apply filter_ok|]. intros o s' (-> & _ & Ho). split; [done|].
  rewrite Ho. by apply filter_text_lines.
Qed.

Definition demo_lines : list (list Z) := [str "ja oder  nein"; str "aber"].
Lemma filter_clean_witness :
  let s := filter_main 400 (env_of (λ _ _, answer 0)) (init () (str "un" ++ str "do")) in
  printed Stdout (hist s.2) = str "xxxx " ∧
  wp (filter_main 400) (env_of (λ _ _, answer 0)) (init () (str "undo")) (λ o s',
    o = Val EXIT_SUCCESS ∧ ∀ w, w ∈ filterwords → ¬ occurs w (printed Stdout (hist s'))).
Proof. split; [by vm_compute|]. apply filter_clean. vm_compute. lia. Defined.
Lemma filter_lines_witness :
  concat ((λ l, filtered (l ++ [LF])) <$> demo_lines) = str "ja xxxx xxx xxxx " ∧
  wp (filter_main 400) (env_of (λ _ _, answer 0)) (init () (concat ((λ l, l ++ [LF]) <$> demo_lines))) (λ o s',
    o = Val EXIT_SUCCESS ∧ printed Stdout (hist s') = concat ((λ l, filtered (l ++ [LF])) <$> demo_lines)).
Proof. split; [by vm_compute|]. apply filter_lines; [by_compute|vm_compute; lia]. Defined.
End Filter.

(** ** popen1.c *)
Module Popen1.
Definition PIPE_BUF : Z := 4096.
Definition MAX : Z := PIPE_BUF * 8.
(** [EXIT(s)] *)
Definition EXIT {A} (s : list Z) : M unit A := eprintf s;; exit EXIT_FAILURE.
Definition copy_body (file pipe_writer : Z) (puffer : buf) : M unit (buf + unit) :=
  a ← sys (Cfgets file MAX);
  if decide (rv a = 0) then mret (inr tt)
  else
    puffer ← mem (blit puffer 0 (rdata a ++ [0]));
    s ← mem (cstr puffer);
    r ← sys (Cfputs pipe_writer s);
    (if decide (rv r = -1) then EXIT (line "Fehler bie fputs() ...") else mret ());;
    mret (inl puffer).
Definition popen1_main (fuel : nat) (argv : list (list Z)) : M unit Z :=
  (if decide (length argv = 2%nat) then mret ()
   else a0 ← arg argv 0; eprintf (str "Usage: " ++ a0 ++ line " DateiZumLesen");; exit EXIT_FAILURE);;
  a1 ← arg argv 1;
  file ← sys (Cfopen a1 (str "r"));
  (if decide (rv file = 0) then EXIT (line "Fehler bei fopen() ...") else mret ());;
  pipe_writer ← sys (Cpopen (str "./filter") (str "w"));
  (if decide (rv pipe_writer = 0) then EXIT (line "Fehler bei popen ...") else mret ());;
  loop fuel (copy_body (rv file) (rv pipe_writer)) (uninit (Z.to_nat MAX));;
  sys (Cpclose (rv pipe_writer));;
  mret EXIT_SUCCESS.

(** What was read from a stream with [fgets], and put into one with [fputs]. *)
Definition fgot_of (fp : Z) (ev : event) : list Z :=
  match ev with Sys (Cfgets fp' _) a => if decide (fp' = fp) then rdata a else [] | _ => [] end.
Definition fgot (fp : Z) (h : list event) : list Z := concat (fgot_of fp <$> h).
Definition fput_of (fp : Z) (ev : event) : list Z :=
  match ev with Sys (Cfputs fp' d) a => if decide (fp' = fp) then d else [] | _ => [] end.
Definition fput (fp : Z) (h : list event) : list Z := concat (fput_of fp <$> h).
Lemma fgot_snoc fp h ev : fgot fp (h ++ [ev]) = fgot fp h ++ fgot_of fp ev.
Proof. unfold fgot. rewrite fmap_app, concat_app. cbn. by rewrite app_nil_r. Qed.
Lemma fput_snoc fp h ev : fput fp (h ++ [ev]) = fput fp h ++ fput_of fp ev.
Proof. unfold fput. rewrite fmap_app, concat_app. cbn. by rewrite app_nil_r. Qed.

(** [fgets] on the open file [fp] with contents [data] (0: end of file). *)
Class TextFile (e : env) (fp : Z) (data : list Z) : Prop :=
  file_fgets h n : kern e h (Cfgets fp n) =
    match drop (length (fgot fp h)) data with
    | [] => answer 0
    | r => Ans 1 0 (fgets_take (Z.to_nat (n - 1)) r).1 [] []
    end.

Section proofs.
Context (e : env) (fp pw : Z) (data : list Z) {T : TextFile e fp data}.
Context (Hz : nozero data) (Hput : ∀ h d, rv (kern e h (Cfputs pw d)) ≠ -1).

Lemma nozero_take_prefix n l : nozero l → nozero (fgets_take n l).1.
Proof. intros H. rewrite <- (fgets_take_app n l) in H. by apply nozero_app in H as [? _]. Qed.

Lemma copy_loop fuel s (Q : post unit unit) :
  (length data < fuel)%nat → fgot fp (hist s) = [] → fput pw (hist s) = [] →
  (∀ s', fput pw (hist s') = data → printed Stderr (hist s') = printed Stderr (hist s) → Q (Val tt) s') →
  wp (loop fuel (copy_body fp pw) (uninit (Z.to_nat MAX))) e s Q.
Proof.
  intros Hf Hg Hp HQ.
  eapply (wp_loop_measure e _ (λ (b : buf) s', length b = Z.to_nat MAX ∧ fgot fp (hist s') `prefix_of` data ∧
      fput pw (hist s') = fgot fp (hist s') ∧ printed Stderr (hist s') = printed Stderr (hist s))
    (λ _ s', (length data - length (fgot fp (hist s')))%nat)).
  2: { split; [apply length_uninit|]. rewrite Hg, Hp. split; [apply prefix_nil|done]. }
  2: { rewrite Hg. cbn. lia. }
  intros b s1 (Hb & [r Hr] & Hpg & He). unfold copy_body. wp_step. wp_step.
  rewrite file_fgets in Ha. rewrite Hr, drop_app_length in Ha.
  pose proof (fgets_take_length (Z.to_nat (MAX - 1)) r) as Hl.
  pose proof (fgets_take_app (Z.to_nat (MAX - 1)) r) as Happ.
  assert (Hzr : nozero r) by (rewrite Hr in Hz; by apply nozero_app in Hz as [_ ?]).
  pose proof (nozero_take_prefix (Z.to_nat (MAX - 1)) r Hzr) as Hzd.
  destruct (decide (r = [])) as [->|Hne].
  - rewrite Ha. rewrite decide_True by done. wp_step. apply HQ; hist_norm; [|done].
    rewrite fput_snoc. cbn. by rewrite app_nil_r, Hpg, Hr.
  - pose proof (fgets_take_nonempty (Z.to_nat (MAX - 1)) r ltac:(unfold MAX, PIPE_BUF; lia) Hne) as Hne2.
    assert (Hrv : rv a = 1) by (rewrite Ha; by destruct r).
    assert (Hrd : rdata a = (fgets_take (Z.to_nat (MAX - 1)) r).1) by (rewrite Ha; by destruct r). clear Ha.
    set (q := fgets_take (Z.to_nat (MAX - 1)) r) in *. clearbody q. destruct q as [d r2]. cbn [fst snd] in *.
    rewrite decide_False by (rewrite Hrv; done). rewrite Hrd.
    wp_step. destruct (blit b 0 (d ++ [0])) as [b'|] eqn:Eb.
    2: { rewrite blit_Some in Eb by (rewrite Hb, length_app; unfold MAX, PIPE_BUF in *; cbn [length]; lia). done. }
    assert (Hb' : length b' = length b) by (by eapply blit_length).
    assert (Hc' : cstr b' = Some d) by (by apply (blit0_cstr b)).
    wp_step. wp_step. apply wp_mem. rewrite Hc'. do 3 wp_step.
    rewrite decide_False by (rewrite Ha; apply Hput). wp_steps. 
    st_simpl. rewrite !fgot_snoc, !fput_snoc, !printed_app, !printed_1. cbn [fput_of fgot_of put_of].
    rewrite !decide_True, !app_nil_r, Hrd by done. split_and!; [congruence| |by rewrite Hpg|done|].
    + rewrite Hr, <- Happ. exists r2. by rewrite <- app_assoc.
    + rewrite Hr, <- Happ, !length_app. destruct d; [done|]. cbn. lia.
Qed.
End proofs.

(** popen1.c passes a text file without zero bytes on to filter.c, whole
    and in order, whatever its length and the length of its lines, and
    filter.c prints the filtered text. *)
Theorem popen1_filters e e2 fuel fuel2 a0 a1 fp pw data :
  TextFile e fp data → nozero data → fp ≠ 0 → pw ≠ 0 →
  (∀ h m, rv (kern e h (Cfopen a1 m)) = fp) → (∀ h c m, rv (kern e h (Cpopen c m)) = pw) →
  (∀ h d, rv (kern e h (Cfputs pw d)) ≠ -1) →
  (length data < fuel)%nat → (length data + 255 < fuel2)%nat →
  wp (popen1_main fuel [a0; a1]) e (init () []) (λ o s',
    o = Val EXIT_SUCCESS ∧ fput pw (hist s') = data ∧
    wp (Filter.filter_main fuel2) e2 (init () (fput pw (hist s'))) (λ o2 s2,
      o2 = Val EXIT_SUCCESS ∧ printed Stdout (hist s2) = Filter.filter_text data)).
Proof.
  intros HT Hz Hfp Hpw Hfo Hpo Hput Hf Hf2. unfold popen1_main, arg. wp_step. rewrite decide_True by done. do 5 wp_step.
  assert (Hr : rv a = fp) by (rewrite Ha; apply Hfo). wp_step. rewrite decide_False by congruence. do 3 wp_step.
  assert (Hr0 : rv a2 = pw) by (rewrite Ha0; apply Hpo). wp_step. rewrite decide_False by congruence. do 2 wp_step.
  rewrite Hr, Hr0. apply (copy_loop e fp pw data); try done.
  1,2: by st_simpl.
  - intros s' Hd _. wp_steps. st_simpl. rewrite fput_snoc. cbn [fput_of]. rewrite app_nil_r.
    split; [done|]. split; [done|]. rewrite Hd. eapply wp_mono; [by apply Filter.filter_ok|].
    intros o s2 (-> & _ & Ho). by split.
Qed.
(** A kernel whose open stream 5 holds [data] and whose pipe is 6. *)
Definition file_kern (data : list Z) (h : list event) (c : call) : ans :=
  match c with
  | Cfopen _ _ => answer 5
  | Cpopen _ _ => answer 6
  | Cfgets fp n => match drop (length (fgot fp h)) data with [] => answer 0 | r => Ans 1 0 (fgets_take (Z.to_nat (n - 1)) r).1 [] [] end
  | _ => answer 0
  end.
Lemma popen1_filters_witness :
  Filter.filter_text (line "das oder dies") = str "das xxxx dies" ++ [LF; SPC] ∧
  wp (popen1_main 100 [str "popen1"; str "text"]) (env_of (file_kern (line "das oder dies"))) (init () []) (λ o s',
    o = Val EXIT_SUCCESS ∧ fput 6 (hist s') = line "das oder dies" ∧
    wp (Filter.filter_main 400) (env_of (λ _ _, answer 0)) (init () (fput 6 (hist s'))) (λ o2 s2,
      o2 = Val EXIT_SUCCESS ∧ printed Stdout (hist s2) = Filter.filter_text (line "das oder dies"))).
Proof.
  split; [by vm_compute|]. apply (popen1_filters _ _ _ _ _ _ 5 6); try done; [by_compute|vm_compute; lia|vm_compute; lia].
Defined.
End Popen1.

(** ** pipe1.c *)
Module Pipe1.
Definition PIPE_BUF : Z := 4096.
Definition fail {A} (msg : list Z) : M unit A := perror msg;; exit EXIT_FAILURE.
(** Read once, and write that much: the count is negative when [read] failed. *)
Definition pass_on (from to : Z) : M unit unit :=
  n ← sys (Cread from PIPE_BUF);
  puffer ← mem (blit (uninit (Z.to_nat PIPE_BUF)) 0 (rdata n));
  d ← mem (if decide (rv n < 0) then None else bytes_of puffer (Z.to_nat (rv n)));
  w ← sys (Cwrite to d);
  if decide (rv w ≠ rv n) then fail (str "write()") else mret ().
Definition parent (pid fd0 fd1 file : Z) : M unit unit :=
  sys (Cclose fd0);;
  pass_on file fd1;;
  r ← sys (Cwaitpid pid 0);
  if decide (rv r < 0) then fail (str "waitpid()") else mret ().
Definition child (fd0 fd1 : Z) : M unit unit :=
  sys (Cclose fd1);;
  pass_on fd0 STDOUT_FILENO.
Definition pipe1_main (argv : list (list Z)) : M unit unit :=
  (if decide (length argv = 2%nat) then mret ()
   else a0 ← arg argv 0; printf (str "Usage: " ++ a0 ++ line " Datei");; exit EXIT_FAILURE);;
  a1 ← arg argv 1;
  fd1 ← sys (Copen a1 O_RDONLY 0);
  (if decide (rv fd1 < 0) then fail (str "open()") else mret ());;
  fd ← sys Cpipe;
  (if decide (rv fd < 0) then fail (str "pipe()") else mret ());;
  r ← mem (rwords fd !! 0%nat); w ← mem (rwords fd !! 1%nat);
  pid ← sys Cfork;
  (if decide (rv pid < 0) then fail (str "fork()")
   else if decide (rv pid > 0) then parent (rv pid) r w (rv fd1)
   else child r w);;
  exit EXIT_SUCCESS.

(** On a source that delivers [data] a part of it, at most PIPE_BUF bytes
    and not empty unless [data] is, is passed on; it may end with an error
    message only after a short write. *)
Lemma pass_on_ok e from to data s (Q : post unit unit) :
  Stream e from data → WriteOk e → reading from (hist s) [] →
  (∀ s' d, d `prefix_of` data → Z.of_nat (length d) ≤ PIPE_BUF → (data ≠ [] → d ≠ []) →
     (∃ h, hist s' = hist s ++ h ∧ sent to h = d) → Q (Val tt) s') →
  (∀ s', Q (Exit EXIT_FAILURE) s') →
  wp (pass_on from to) e s Q.
Proof.
  intros HS HW [Hc Hg] HQ HE. unfold pass_on. wp_step. wp_step.
  destruct (HS (hist s) PIPE_BUF) as (k & Hd & Hv & Hk & Hp); [done|done|].
  rewrite <- Ha in Hd, Hv. rewrite Hg in Hd, Hp. cbn [length drop] in Hd, Hp.
  assert (Hl : (length (rdata a) ≤ Z.to_nat PIPE_BUF)%nat) by (rewrite Hd, length_take; lia).
  wp_step. rewrite blit_Some by (rewrite length_uninit; lia). do 2 wp_step.
  rewrite decide_False by lia. rewrite Hv, Nat2Z.id. 
  apply wp_mem. rewrite take_0. cbn [app]. rewrite bytes_of_app. wp_steps. wp_if; unfold fail; wp_steps; [apply HE|].
  apply (HQ _ (rdata a)).
  - rewrite Hd. eexists. symmetry. apply take_drop.
  - lia.
  - rewrite Hd. intros Hne Hn. specialize (Hp Hne). destruct data, k; try done; lia.
  - st_simpl. eexists. rewrite <- app_assoc. split; [done|].
    hist_norm. rewrite take_ge by lia. done.
Qed.
End Pipe1.

(** ** pipe3.c and pipe3b.c *)
Module Pipe3.
Definition PIPE_BUF : nat := 4096.
Definition EXIT {A} (s : list Z) : M unit A := eprintf s;; exit EXIT_FAILURE.
Definition ERROR : Z := -1.
(** The program that takes over answers [Cexec] with its exit status. *)
Definition execl (path arg0 : list Z) : M unit unit :=
  r ← sys (Cexec path [arg0]);
  if decide (rv r = ERROR) then EXIT (line "Fehler bei execl() ...") else exit (rv r).
Definition parent (MAX : nat) (pid fd0 fd1 file : Z) : M unit Z :=
  sys (Cclose fd0);;
  p ← sys (Cfdopen fd1 (str "w"));
  (if decide (rv p = 0) then EXIT (line "Fehler bei fdopen() ...") else mret ());;
  a ← sys (Cfread file (Z.of_nat PIPE_BUF));
  puffer ← mem (blit (uninit MAX) 0 (rdata a));
  s ← mem (cstr puffer);
  sys (Cfputs (rv p) s);;
  sys (Cfclose (rv p));;
  r ← sys (Cwaitpid pid 0);
  (if decide (rv r = ERROR) then EXIT (line "Fehler bei waitpid() ...") else mret ());;
  exit EXIT_SUCCESS.
Definition child (path arg0 : list Z) (fd0 fd1 : Z) : M unit Z :=
  sys (Csleep 1);;
  sys (Cclose fd1);;
  (if decide (fd0 ≠ STDIN_FILENO) then
     r ← sys (Cdup2 fd0 STDIN_FILENO);
     (if decide (rv r ≠ STDIN_FILENO) then EXIT (line "Fehler bei dup2() ...") else mret ());;
     sys (Cclose fd0);; mret ()
   else mret ());;
  execl path arg0;;
  mret EXIT_SUCCESS.
Definition pipe3_with (MAX : nat) (path arg0 : list Z) (argv : list (list Z)) : M unit Z :=
  (if decide (length argv = 2%nat) then mret ()
   else a0 ← arg argv 0; eprintf (str "Usage: " ++ a0 ++ line " DateiZumLesen");; exit EXIT_FAILURE);;
  a1 ← arg argv 1;
  file ← sys (Cfopen a1 (str "r"));
  (if decide (rv file = 0) then EXIT (line "Fehler bei fopen() ...") else mret ());;
  fd ← sys Cpipe;
  (if decide (rv fd = ERROR) then EXIT (line "Fehler bei pipe() ...") else mret ());;
  r ← mem (rwords fd !! 0%nat); w ← mem (rwords fd !! 1%nat);
  pid ← sys Cfork;
  (if decide (rv pid = ERROR) then EXIT (line "Fehler bei fork() ...") else mret ());;
  if decide (rv pid > 0) then parent MAX (rv pid) r w (rv file) else child path arg0 r w.
Definition pipe3_main : list (list Z) → M unit Z := pipe3_with PIPE_BUF (str "/usr/bin/less") (str "less").
Definition pipe3b_main : list (list Z) → M unit Z := pipe3_with (PIPE_BUF * 8) (str "./filter") (str "filter").

(** A text without zero bytes is not terminated in the array, so what fputs
    sends is undefined: whether it fills the array or the rest is not initialised. *)
Lemma parent_undefined e MAX pid fd0 fd1 file s :
  rv (kern e (hist s ++ [Sys (Cclose fd0) (kern e (hist s) (Cclose fd0))]) (Cfdopen fd1 (str "w"))) ≠ 0 →
  (∀ h, let a := kern e h (Cfread file (Z.of_nat PIPE_BUF)) in nozero (rdata a) ∧ (length (rdata a) ≤ PIPE_BUF)%nat) →
  (PIPE_BUF ≤ MAX)%nat →
  wp (parent MAX pid fd0 fd1 file) e s (λ o _, o = Undef).
Proof.
  intros Ho Hr HM. unfold parent. do 4 wp_step. st_simpl. rewrite <- Ha in Ho. rewrite <- Ha0 in Ho.
  wp_step. rewrite decide_False by done. do 3 wp_step. destruct (Hr (hist (after (Cfdopen fd1 (str "w")) a0 (after (Cclose fd0) a s)))) as [Hz Hl].
  st_simpl. rewrite <- Ha1 in Hz, Hl. wp_step. rewrite blit_Some by (rewrite length_uninit; lia). wp_step.
  wp_step. rewrite take_0. cbn [app]. apply wp_mem.
  assert (Hc : ∀ d n, nozero d → cstr ((Some <$> d) ++ uninit n) = None).
  { intros d n H. induction H as [|c d Hc H IH]; [by destruct n|]. cbn. rewrite decide_False by done.
    change (list_fmap _ _ Some d) with (Some <$> d). by rewrite IH. }
  unfold uninit in *. rewrite drop_replicate. by rewrite (Hc _ _ Hz).
Qed.
End Pipe3.
