(* ===== verification/Terminal.v ===== *)
(** * 13_Terminal: programs that change the modes of the terminal

    [my_getch.c], [keystroke.c], [my_getpass.c], [my_eof.c], [baud.c] and
    [setbaud.c].  The modes of a terminal after a history are those of the
    last [tcsetattr] that succeeded; the contract [Tty] says that [tcgetattr]
    reports them. *)
From S2P Require Import Prelude CLib Machine Kernels FileIO.

(** ** struct termios *)
Record termios := Termios {
  c_iflag : Z; c_oflag : Z; c_cflag : Z; c_lflag : Z; c_ispeed : Z; c_ospeed : Z; c_cc : list Z }.
#[export] Instance termios_eq : EqDecision termios.
Proof. solve_decision. Defined.
Definition set_iflag v t := Termios v (c_oflag t) (c_cflag t) (c_lflag t) (c_ispeed t) (c_ospeed t) (c_cc t).
Definition set_oflag v t := Termios (c_iflag t) v (c_cflag t) (c_lflag t) (c_ispeed t) (c_ospeed t) (c_cc t).
Definition set_cflag v t := Termios (c_iflag t) (c_oflag t) v (c_lflag t) (c_ispeed t) (c_ospeed t) (c_cc t).
Definition set_lflag v t := Termios (c_iflag t) (c_oflag t) (c_cflag t) v (c_ispeed t) (c_ospeed t) (c_cc t).
Definition set_cc (i : nat) v t :=
  Termios (c_iflag t) (c_oflag t) (c_cflag t) (c_lflag t) (c_ispeed t) (c_ospeed t) (<[i := v]> (c_cc t)).
(** [cfgetispeed], [cfgetospeed], [cfsetispeed] and [cfsetospeed] (which return 0). *)
Definition cfgetispeed := c_ispeed.
Definition cfgetospeed := c_ospeed.
Definition cfsetispeed v t := Termios (c_iflag t) (c_oflag t) (c_cflag t) (c_lflag t) v (c_ospeed t) (c_cc t).
Definition cfsetospeed v t := Termios (c_iflag t) (c_oflag t) (c_cflag t) (c_lflag t) (c_ispeed t) v (c_cc t).

Definition to_words (t : termios) : list Z :=
  [c_iflag t; c_oflag t; c_cflag t; c_lflag t; c_ispeed t; c_ospeed t] ++ c_cc t.
Definition of_words (ws : list Z) : option termios :=
  match ws with
  | i :: o :: c :: l :: si :: so :: cc => Some (Termios i o c l si so cc)
  | _ => None
  end.
Lemma of_to_words t : of_words (to_words t) = Some t.
Proof. by destruct t. Qed.

(** Flags of <termios.h> (Linux). *)
Definition BRKINT : Z := 0x2.
Definition INPCK : Z := 0x10.
Definition ISTRIP : Z := 0x20.
Definition ICRNL : Z := 0x100.
Definition IXON : Z := 0x400.
Definition OPOST : Z := 0x1.
Definition CSIZE : Z := 0x30.
Definition CS8 : Z := 0x30.
Definition PARENB : Z := 0x100.
Definition ISIG : Z := 0x1.
Definition ICANON : Z := 0x2.
Definition ECHO : Z := 0x8.
Definition ECHONL : Z := 0x40.
Definition IEXTEN : Z := 0x8000.
Definition VEOF : nat := 4.
Definition VTIME : nat := 5.
Definition VMIN : nat := 6.
Definition TCSANOW : Z := 0.
Definition TCSAFLUSH : Z := 2.
Definition clear (v mask : Z) : Z := Z.land v (Z.lnot mask).

Section calls.
Context {G : Type}.
(** The structure is filled in when the call succeeds ([Some]). *)
Definition tcgetattr (fd : Z) : M G (Z * option termios) :=
  a ← sys (Ctcgetattr fd);
  if decide (rv a = 0) then t ← mem (of_words (rwords a)); mret (rv a, Some t) else mret (rv a, None).
Definition tcsetattr (fd act : Z) (t : termios) : M G Z :=
  a ← sys (Ctcsetattr fd act (to_words t)); mret (rv a).
End calls.

(** ** The terminal *)

(** The modes of [fd], which are [t0] at first. *)
Definition tty_step (fd : Z) (t : termios) (ev : event) : termios :=
  match ev with
  | Sys (Ctcsetattr fd' _ ws) a => if decide (fd' = fd ∧ rv a = 0) then default t (of_words ws) else t
  | _ => t
  end.
Definition tty (fd : Z) (t0 : termios) (h : list event) : termios := foldl (tty_step fd) t0 h.
Lemma tty_snoc fd t0 h ev : tty fd t0 (h ++ [ev]) = tty_step fd (tty fd t0 h) ev.
Proof. unfold tty. by rewrite foldl_app. Qed.
(** [tcgetattr] fails or reports the modes; going back to the original modes
    succeeds. *)
Class Tty (e : env) (fd : Z) (t0 : termios) : Prop := {
  tty_get h : let a := kern e h (Ctcgetattr fd) in
    rv a = -1 ∨ rv a = 0 ∧ rwords a = to_words (tty fd t0 h);
  tty_set h act t : let a := kern e h (Ctcsetattr fd act (to_words t)) in rv a = 0 ∨ rv a = -1;
  tty_back h act : rv (kern e h (Ctcsetattr fd act (to_words t0))) = 0 }.

Section rules.
Context {G : Type} (e : env) (fd : Z) (t0 : termios) {T : Tty e fd t0}.
Notation tty_of s := (tty fd t0 (hist s)).
Lemma wp_tcgetattr (s : st G) (Q : post G (Z * option termios)) :
  (∀ s', hist s' = hist s ++ [Sys (Ctcgetattr fd) (kern e (hist s) (Ctcgetattr fd))] → stdin s' = stdin s → glob s' = glob s →
     tty_of s' = tty_of s → Q (Val (-1, None)) s' ∧ Q (Val (0, Some (tty_of s))) s') →
  wp (tcgetattr fd) e s Q.
Proof.
  intros HQ. unfold tcgetattr. wp_step. wp_step. pose proof (tty_get (hist s)) as Hg. cbv zeta in Hg. rewrite <- Ha in *.
  destruct (HQ (after (Ctcgetattr fd) a s)) as [H1 H2].
  { by st_simpl. } { by st_simpl. } { by st_simpl. } { st_simpl. by rewrite tty_snoc. }
  destruct Hg as [Hv|[Hv Hw]]; rewrite Hv.
  - rewrite decide_False by done. by wp_step.
  - rewrite decide_True by done. rewrite Hw. wp_step. apply wp_mem. rewrite of_to_words. cbn [bpost]. by wp_step.
Qed.
Lemma wp_tcsetattr act t (s : st G) (Q : post G Z) :
  (∀ s' a, hist s' = hist s ++ [Sys (Ctcsetattr fd act (to_words t)) a] → stdin s' = stdin s → glob s' = glob s →
     (rv a = -1 ∧ tty_of s' = tty_of s ∨ rv a = 0 ∧ tty_of s' = t) → (t = t0 → rv a = 0) → Q (Val (rv a)) s') →
  wp (tcsetattr fd act t) e s Q.
Proof.
  intros HQ. unfold tcsetattr. wp_step. wp_step. pose proof (tty_set (hist s) act t) as Hs. cbv zeta in Hs. rewrite <- Ha in *.
  wp_step. apply HQ; try by st_simpl.
  - st_simpl. rewrite tty_snoc. unfold tty_step. rewrite of_to_words. destruct Hs as [Hs|Hs]; rewrite Hs.
    + right. by rewrite decide_True.
    + left. split; [done|]. rewrite decide_False; [done|]. intros [_ ?]. done.
  - intros ->. rewrite Ha. apply tty_back.
Qed.
End rules.

(** A terminal on which both calls always succeed. *)
Definition willing (e : env) (fd : Z) (t0 : termios) : Prop :=
  (∀ h, rv (kern e h (Ctcgetattr fd)) = 0 ∧ rwords (kern e h (Ctcgetattr fd)) = to_words (tty fd t0 h)) ∧
  (∀ h act t, rv (kern e h (Ctcsetattr fd act (to_words t))) = 0).
Section willing.
Context {G : Type} (e : env) (fd : Z) (t0 : termios) (W : willing e fd t0).
Lemma willing_get (s : st G) (Q : post G (Z * option termios)) :
  (∀ s' a, hist s' = hist s ++ [Sys (Ctcgetattr fd) a] → stdin s' = stdin s → glob s' = glob s →
     tty fd t0 (hist s') = tty fd t0 (hist s) → Q (Val (0, Some (tty fd t0 (hist s)))) s') → wp (tcgetattr fd) e s Q.
Proof.
  intros HQ. unfold tcgetattr. wp_step. wp_step. destruct W as [Hg _]. destruct (Hg (hist s)) as [Hv Hw].
  rewrite <- Ha in *. rewrite decide_True by done. rewrite Hv, Hw. wp_step. apply wp_mem. rewrite of_to_words. cbn [bpost].
  wp_step. apply (HQ _ a); st_simpl; [done..|]. by rewrite tty_snoc.
Qed.
Lemma willing_set act t (s : st G) (Q : post G Z) :
  (∀ s' a, hist s' = hist s ++ [Sys (Ctcsetattr fd act (to_words t)) a] → stdin s' = stdin s → glob s' = glob s →
     tty fd t0 (hist s') = t → Q (Val 0) s') → wp (tcsetattr fd act t) e s Q.
Proof.
  intros HQ. unfold tcsetattr. wp_step. wp_step. destruct W as [_ Hs].
  assert (Hv : rv a = 0) by (rewrite Ha; apply Hs). rewrite Hv. wp_step. apply (HQ _ a); try by st_simpl.
  st_simpl. rewrite tty_snoc. unfold tty_step. by rewrite decide_True, of_to_words.
Qed.
End willing.

(** ** my_getch.c *)
Module MyGetch.
(** The static variables. *)
Record vars := Vars { new_io : termios; old_io : termios }.
Definition zero_io : termios := Termios 0 0 0 0 0 0 (replicate 32 0).
(** The changes to the modes, in the order of the source. *)
Definition raw_modes (io : termios) : termios :=
  let io := set_iflag (clear (c_iflag io) (Z.lor (Z.lor (Z.lor (Z.lor BRKINT ICRNL) INPCK) ISTRIP) IXON)) io in
  let io := set_oflag (clear (c_oflag io) OPOST) io in
  let io := set_cflag (clear (c_cflag io) (Z.lor CSIZE PARENB)) io in
  let io := set_lflag (clear (c_lflag io) (Z.lor (Z.lor (Z.lor ECHO ICANON) IEXTEN) ISIG)) io in
  let io := set_cflag (Z.lor (c_cflag io) CS8) io in
  let io := set_cc VMIN 1 io in
  set_cc VTIME 0 io.
Definition raw (fd : Z) : M vars Z :=
  '(r, t) ← tcgetattr fd;
  g ← get;
  put (Vars (new_io g) (default (old_io g) t));;
  if decide (r = -1) then mret (-1)
  else
    g ← get;
    put (Vars (raw_modes (old_io g)) (old_io g));;
    g ← get;
    r ← tcsetattr fd TCSAFLUSH (new_io g);
    if decide (r = -1) then mret (-1) else mret 0.
Definition getch : M vars Z :=
  r ← raw STDIN_FILENO;
  if decide (r = -1) then printf (line "Fehler bei raw()");; exit EXIT_FAILURE
  else
    c ← getchar;
    g ← get;
    tcsetattr STDIN_FILENO TCSANOW (old_io g);;
    mret c.
Definition q : Z := 113.
Definition char (c : Z) : list Z := [uwrap 8 c].
Definition getch_body (_ : unit) : M vars (unit + unit) :=
  zeichen ← getch;
  if decide (zeichen = q) then mret (inr tt)
  else printf (str "'" ++ char zeichen ++ line "' != 'q'");; mret (inl tt).
Definition getch_main (fuel : nat) : M vars Z :=
  printf (line "Warte auf 'q' um das Programm zu beenden");;
  loop fuel getch_body tt;;
  printf (str "'" ++ char q ++ line "' == 'q'");;
  printf (line "ENDE");;
  mret EXIT_SUCCESS.

(** Reading characters one by one, without echo, signals or translation. *)
Definition raw_mode (t : termios) : Prop :=
  Z.land (c_lflag t) (Z.lor (Z.lor ECHO ICANON) ISIG) = 0 ∧ Z.land (c_oflag t) OPOST = 0 ∧ c_cc t !! VMIN = Some 1.
Lemma clear_land v mask m : Z.land mask m = m → Z.land (clear v mask) m = 0.
Proof.
  intros <-. unfold clear. apply Z.bits_inj'. intros n Hn. rewrite !Z.land_spec, Z.lnot_spec, Z.bits_0 by done.
  by destruct (Z.testbit v n), (Z.testbit mask n).
Qed.
Lemma raw_modes_raw t : (VMIN < length (c_cc t))%nat → raw_mode (raw_modes t).
Proof.
  intros Hl. unfold raw_mode, raw_modes. cbn [set_iflag set_oflag set_cflag set_lflag set_cc c_lflag c_oflag c_cc].
  split; [by apply clear_land|]. split; [by apply clear_land|].
  rewrite list_lookup_insert_ne by done. by rewrite list_lookup_insert_eq.
Qed.

Section proofs.
Context (e : env) (t0 : termios) {T : Tty e STDIN_FILENO t0}.
Notation tty_of s := (tty STDIN_FILENO t0 (hist s)).
Notation out s := (printed Stdout (hist s)).

(** [raw] fails and changes nothing, or sets the modes [raw_modes] and keeps
    the original ones in [old_io]. *)
Lemma raw_ok s (Q : post vars Z) :
  tty_of s = t0 →
  (∀ s' r, out s' = out s → stdin s' = stdin s →
     (r = -1 ∧ tty_of s' = t0 ∨ r = 0 ∧ tty_of s' = raw_modes t0 ∧ old_io (glob s') = t0) → Q (Val r) s') →
  wp (raw STDIN_FILENO) e s Q.
Proof.
  intros Ht HQ. unfold raw. wp_step. apply (wp_tcgetattr e _ t0).
  intros s1 Hh1 Hi1 _ Ht1. assert (Ho1 : out s1 = out s) by (rewrite Hh1; hist_norm; done).
  split; cbn [bpost default].
  - wp_steps. rewrite decide_True by done. wp_steps. apply HQ; st_simpl; [done..|]. left. split; [done|congruence].
  - do 4 wp_step. rewrite decide_False by done. do 7 wp_step. st_simpl. cbn [new_io old_io].
    rewrite Ht. apply (wp_tcsetattr e _ t0). intros s2 a Hh2 Hi2 Hg2 H2 _. cbn [bpost]. st_simpl.
    assert (Ho2 : out s2 = out s) by (rewrite Hh2; hist_norm; done).
    destruct H2 as [[-> H2]|[-> H2]]; wp_if; try done; wp_step; apply HQ; try congruence.
    + left. split; [done|]. st_simpl. congruence.
    + right. by rewrite Hg2.
Qed.

(** [getch] ends the program, or reads one character in these modes and goes
    back to the original ones. *)
Lemma getch_ok s (Q : post vars Z) :
  tty_of s = t0 →
  (∀ s', tty_of s' = t0 → Q (Exit EXIT_FAILURE) s') →
  (∀ s', tty_of s' = t0 → out s' = out s → stdin s' = tail (stdin s) → Q (Val (default (-1) (head (stdin s)))) s') →
  wp getch e s Q.
Proof.
  intros Ht HE HQ. unfold getch. wp_step. apply raw_ok; [done|]. intros s1 r Ho1 Hi1 H1. cbn [bpost].
  wp_if; [wp_steps; apply HE|].
  - st_simpl. rewrite tty_snoc. cbn [tty_step]. destruct H1 as [[_ H1]|(-> & _)]; [done|done].
  - destruct H1 as [[-> _]|(-> & H1 & Hg)]; [done|]. wp_step.
    assert (Hc : ∃ s2, getchar e s1 = (Val (default (-1) (head (stdin s))), s2) ∧ hist s2 = hist s1 ∧
       stdin s2 = tail (stdin s) ∧ glob s2 = glob s1).
    { unfold getchar. rewrite <- Hi1. destruct (stdin s1) as [|c l] eqn:E; eexists; (split; [done|]); st_simpl; done. }
    destruct Hc as (s2 & Hc & Hh2 & Hi2 & Hg2). unfold wp at 1. rewrite Hc. cbn [fst snd bpost].
    wp_steps. rewrite Hg2, Hg. apply (wp_tcsetattr e _ t0). intros s3 a Hh3 Hi3 _ H3 Hback. cbn [bpost]. wp_step.
    specialize (Hback eq_refl). destruct H3 as [[? _]|[_ H3]]; [lia|]. apply HQ; [done| |congruence].
    rewrite Hh3. hist_norm. by rewrite Hh2.
Qed.

(** However many keys are pressed before q, my_getch.c leaves the terminal
    in the modes it found; it consumes the input up to q, reports each
    character and ends, or it ends with an error when the modes cannot be set. *)
Theorem getch_restores fuel keys rest :
  q ∉ keys → (length keys < fuel)%nat →
  wp (getch_main fuel) e (init (Vars zero_io zero_io) (keys ++ q :: rest)) (λ o s',
    tty_of s' = t0 ∧
    (o = Exit EXIT_FAILURE ∨
     o = Val EXIT_SUCCESS ∧ stdin s' = rest ∧
     out s' = line "Warte auf 'q' um das Programm zu beenden" ++
       concat ((λ c, str "'" ++ char c ++ line "' != 'q'") <$> keys) ++ line "'q' == 'q'" ++ line "ENDE")).
Proof.
  intros Hq Hf. unfold getch_main. do 3 wp_step.
  set (hd := line "Warte auf 'q' um das Programm zu beenden").
  eapply (wp_loop_measure e _ (λ (_ : unit) s', tty_of s' = t0 ∧ ∃ d k, keys = d ++ k ∧ stdin s' = k ++ q :: rest ∧
      out s' = hd ++ concat ((λ c, str "'" ++ char c ++ line "' != 'q'") <$> d))
    (λ _ s', (length (stdin s') - S (length rest))%nat)).
  2: { split; [done|]. exists [], keys. split; [done|]. split; [done|]. by rewrite app_nil_r. }
  2: { st_simpl. cbn [stdin init]. rewrite length_app. cbn [length]. lia. }
  intros [] s1 (Ht & d & k & Hk & Hi & Ho). unfold getch_body. wp_step. apply getch_ok; [done|intros s' H; cbn [bpost]; by auto|].
  intros s2 Ht2 Ho2 Hi2. cbn [bpost]. rewrite Hi in Hi2 |- *. destruct k as [|c k]; cbn [app head tail default id] in *.
  - rewrite decide_True by done. wp_steps. hist_norm. split; [|right].
    + rewrite app_assoc, !tty_snoc. done.
    + split; [done|]. split; [done|]. by rewrite Ho2, Ho, Hk, <- !app_assoc.
  - subst keys. cbn [id]. rewrite decide_False by (intros ->; apply Hq; rewrite elem_of_app; right; by left).
    wp_steps. st_simpl. rewrite tty_snoc, Hi2. split.
    + split; [done|]. exists (d ++ [c]), k. split; [by rewrite <- app_assoc|]. split; [done|].
      hist_norm. rewrite Ho2, Ho, fmap_app, concat_app. cbn [fmap list_fmap concat]. by rewrite app_nil_r, <- !app_assoc.
    + cbn [app length]. rewrite !length_app. cbn [length]. lia.
Qed.
End proofs.

(** A terminal that accepts every mode. *)
Definition tty_kern (t0 : termios) (other : list event → call → ans) (h : list event) (c : call) : ans :=
  match c with
  | Ctcgetattr fd => Ans 0 0 [] (to_words (tty fd t0 h)) []
  | Ctcsetattr _ _ _ => answer 0
  | c => other h c
  end.
Definition cooked : termios := Termios 0x500 0x5 0xbf 0x8a3b 15 15 (replicate 32 0).
Lemma tty_kern_ok t0 other fd : Tty (env_of (tty_kern t0 other)) fd t0.
Proof. split; intros; cbn; auto. Qed.

Lemma getch_restores_witness :
  let e := env_of (tty_kern cooked (λ _ _, answer 0)) in
  (getch_main 10 e (init (Vars zero_io zero_io) (str "abqz"))).1 = Val EXIT_SUCCESS ∧
  wp (getch_main 10) e (init (Vars zero_io zero_io) (str "ab" ++ q :: str "z")) (λ o s',
    tty STDIN_FILENO cooked (hist s') = cooked ∧
    (o = Exit EXIT_FAILURE ∨
     o = Val EXIT_SUCCESS ∧ stdin s' = str "z" ∧
     printed Stdout (hist s') = line "Warte auf 'q' um das Programm zu beenden" ++
       concat ((λ c, str "'" ++ char c ++ line "' != 'q'") <$> str "ab") ++ line "'q' == 'q'" ++ line "ENDE")).
Proof.
  split; [by vm_compute|].
  apply (getch_restores _ cooked (T := tty_kern_ok cooked _ STDIN_FILENO)); [by_compute|vm_compute; lia].
Defined.
End MyGetch.

(** ** keystroke.c *)
Module Keystroke.
(** The static variable [BACKUP_TTY] is the state. *)
Definition raw_flags : Z := Z.lor (Z.lor ECHO ICANON) ISIG.
Definition key_modes (t : termios) : termios := set_cc VMIN 1 (set_lflag (clear (c_lflag t) raw_flags) t).
Definition new_tty (fd : Z) : M termios Z :=
  '(r, t) ← tcgetattr fd;
  g ← get;
  put (default g t);;
  if decide (r = -1) then mret (-1)
  else
    BACKUP_TTY ← get;
    r ← tcsetattr fd TCSAFLUSH (key_modes BACKUP_TTY);
    if decide (r = -1) then mret (-1) else mret 0.
Definition restore_tty (fd : Z) : M termios Z :=
  BACKUP_TTY ← get;
  r ← tcsetattr fd TCSAFLUSH BACKUP_TTY;
  if decide (r = -1) then mret (-1) else mret 0.
(** The escape sequences and the names printed for them. *)
Definition keys : list (list Z * list Z) :=
  [(str "[[A", line "F1"); (str "[[B", line "F2"); (str "[C", line "->"); (str "[D", line "<-"); (str "[B", line "V");
   (str "[A", line "^"); (str "[1~", line "Pos 1"); (str "[6~", line "Pg Dwn"); (str "[5~", line "Pg Up")].
Fixpoint print_key (ks : list (list Z * list Z)) (s : list Z) : M termios unit :=
  match ks with
  | [] => mret ()
  | (k, name) :: ks => (if decide (s = k) then printf name else mret ());; print_key ks s
  end.
Definition ESC : Z := 27.
Definition q : Z := 113.
(** [%d] and [%c] of the (signed) [char] [c]. *)
Definition show (c : Z) : list Z :=
  if decide (schar c < 32 ∨ schar c = 127) then dec (schar c) ++ [LF] else [c; LF].
Definition key_body (buffer : buf) : M termios (buf + unit) :=
  a ← sys (Cread STDIN_FILENO 1);
  (if decide (rv a < 1) then
     printf (line "Fehler bei read()");; restore_tty STDIN_FILENO;; exit EXIT_FAILURE
   else mret ());;
  c ← mem (head (rdata a));
  buffer ←
    (if decide (c = ESC) then
       rd ← sys (Cread STDIN_FILENO 4);
       buffer ← mem (blit buffer 0 (rdata rd));
       buffer ← mem (bset buffer (rv rd) 0);
       s ← mem (cstr buffer);
       print_key keys s;;
       mret buffer
     else printf (show c);; mret buffer);
  if decide (c = q) then mret (inr tt) else mret (inl buffer).
Definition keystroke_main (fuel : nat) : M termios Z :=
  r ← new_tty STDIN_FILENO;
  (if decide (r = -1) then printf (line "Fehler bei new_tty()");; exit EXIT_FAILURE else mret ());;
  loop fuel key_body (uninit 10);;
  restore_tty STDIN_FILENO;;
  mret EXIT_SUCCESS.

Section proofs.
Context (e : env) (t0 : termios) {T : Tty e STDIN_FILENO t0} {R : ReadOk e}.
Notation tty_of s := (tty STDIN_FILENO t0 (hist s)).

(** Every read so far found the terminal without echo, lines and signals. *)
Definition reads_raw (h : list event) : Prop := ∀ h1 n a h2,
  h = h1 ++ Sys (Cread STDIN_FILENO n) a :: h2 → Z.land (c_lflag (tty STDIN_FILENO t0 h1)) raw_flags = 0.
Lemma reads_raw_snoc h ev : reads_raw h →
  (∀ n a, ev = Sys (Cread STDIN_FILENO n) a → Z.land (c_lflag (tty STDIN_FILENO t0 h)) raw_flags = 0) →
  reads_raw (h ++ [ev]).
Proof.
  intros Hh Hev h1 n a h2 E. destruct h2 as [|ev' h2 _] using rev_ind.
  - apply app_inj_tail in E as [-> ->]. by eapply Hev.
  - rewrite app_comm_cons, app_assoc in E. apply app_inj_tail in E as [-> _]. by eapply Hh.
Qed.
Lemma key_modes_raw t : Z.land (c_lflag (key_modes t)) raw_flags = 0.
Proof. by apply MyGetch.clear_land. Qed.
Lemma reads_raw_nil : reads_raw [].
Proof. intros h1 n a h2 E. by destruct h1. Qed.

(** The modes are set, and the original ones are kept. *)
Definition ready (s : st termios) : Prop :=
  reads_raw (hist s) ∧ tty_of s = key_modes t0 ∧ glob s = t0.
Definition back (s : st termios) : Prop := reads_raw (hist s) ∧ tty_of s = t0.

Lemma ready_log ev s : ready s → (∀ c a, ev ≠ Sys c a) → ready (log ev s).
Proof.
  intros (Hr & Ht & Hg) Hev. split; [|split; [|by st_simpl]]; st_simpl.
  - apply reads_raw_snoc; [done|]. intros n a ->. by edestruct Hev.
  - rewrite tty_snoc. destruct ev; [by edestruct Hev|]. done.
Qed.
Lemma ready_read n a s : ready s → ready (after (Cread STDIN_FILENO n) a s).
Proof.
  intros (Hr & Ht & Hg). split; [|split; [|by st_simpl]]; st_simpl.
  - apply reads_raw_snoc; [done|]. intros _ _ _. rewrite Ht. apply key_modes_raw.
  - by rewrite tty_snoc.
Qed.
Lemma ready_print_key ks str0 s (Q : post termios unit) :
  ready s → (∀ s', ready s' → Q (Val tt) s') → wp (print_key ks str0) e s Q.
Proof.
  revert s. induction ks as [|[k name] ks IH]; intros s Hs HQ; cbn [print_key].
  - wp_step. by apply HQ.
  - wp_step. wp_if; wp_step; (apply IH; [|done]); [by apply ready_log|done].
Qed.
Lemma wp_restore s (Q : post termios Z) :
  ready s → (∀ s', back s' → Q (Val 0) s') → wp (restore_tty STDIN_FILENO) e s Q.
Proof.
  intros (Hr & Ht & Hg) HQ. unfold restore_tty. do 3 wp_step. rewrite Hg. apply (wp_tcsetattr e _ t0).
  intros s' a Hh _ _ H Hb. specialize (Hb eq_refl). cbn [bpost]. rewrite Hb, decide_False by done. wp_step.
  destruct H as [[? _]|[_ H]]; [lia|]. apply HQ. split; [|done]. rewrite Hh. by apply reads_raw_snoc.
Qed.

(** One turn: the loop goes on or stops in the same modes; the program ends
    only after going back; it is undefined only when the read after ESC fails. *)
Lemma key_body_ok buffer s :
  ready s → length buffer = 10%nat →
  wp (key_body buffer) e s (λ o s',
    match o with
    | Val (inl b) => ready s' ∧ length b = 10%nat
    | Val (inr _) => ready s'
    | Exit c => c = EXIT_FAILURE ∧ back s'
    | Undef => reads_raw (hist s') ∧ ∃ h a, hist s' = h ++ [Sys (Cread STDIN_FILENO 4) a] ∧ rv a = -1
    | Running => False
    end).
Proof.
  intros Hs Hb. unfold key_body. do 2 wp_step. pose proof (read_ok (hist s) STDIN_FILENO 1) as Hr. cbv zeta in Hr. rewrite <- Ha in Hr.
  apply (ready_read 1 a) in Hs. generalize dependent (after (Cread STDIN_FILENO 1) a s). intros s1 Hs. clear s Ha.
  wp_step. wp_if.
  { do 3 wp_step. apply wp_restore; [by apply ready_log|]. intros s' Hs'. cbn [bpost]. by wp_step. }
  do 2 wp_step. destruct Hr as [[? _]|[Hr Hl]]; [lia|]. destruct (rdata a) as [|c [|? ?]]; cbn [length] in Hl; try lia.
  cbn [head]. wp_step. wp_step. wp_if.
  - do 2 wp_step. pose proof (read_ok (hist s1) STDIN_FILENO 4) as Hr4. cbv zeta in Hr4. rewrite <- Ha in Hr4.
    assert (Hh : hist (after (Cread STDIN_FILENO 4) a0 s1) = hist s1 ++ [Sys (Cread STDIN_FILENO 4) a0]) by (by st_simpl).
    apply (ready_read 4 a0) in Hs. generalize dependent (after (Cread STDIN_FILENO 4) a0 s1). intros s2 Hs Hh. clear Ha.
    assert (Hl4 : (length (rdata a0) ≤ 4)%nat) by (destruct Hr4 as [[_ ->]|[? ->]]; cbn; lia).
    destruct (blit_terminate buffer (rdata a0)) as (b1 & b2 & E1 & E2 & L1 & L2 & [rest Hb2] & _); [lia|].
    wp_step. rewrite E1. do 2 wp_step. destruct Hr4 as [[Hv _]|[Hv Hd]].
    { rewrite bset_None by lia. apply wp_mem. cbn [bpost]. destruct Hs as [Hr0 _]. rewrite Hh in *. eauto. }
    rewrite <- (Z2Nat.id (rv a0)), <- Hd by lia. rewrite E2. do 2 wp_step.
    destruct (cstr_stops (rdata a0) rest) as (t & Hc). apply wp_mem. rewrite Hb2, Hc. cbn [bpost]. wp_step.
    apply ready_print_key; [done|]. intros s3 Hs3. cbn [bpost]. wp_step. rewrite decide_False by (subst c; done).
    wp_step. split; [done|]. rewrite <- Hb2. congruence.
  - do 3 wp_step. wp_if; wp_step; [by apply ready_log|]. split; [by apply ready_log|done].
Qed.

(** C13. Whatever keys are pressed, keystroke.c reads them only while the
    terminal is without echo, line editing and signals, and restores the
    modes before it ends, also after an error.  The one exception is a read
    error after ESC, where the terminator is stored outside of the buffer. *)
Theorem keystroke_restores fuel :
  wp (keystroke_main fuel) e (init MyGetch.zero_io []) (λ o s',
    reads_raw (hist s') ∧
    match o with
    | Val _ | Exit _ => tty_of s' = t0
    | Undef => ∃ h a, hist s' = h ++ [Sys (Cread STDIN_FILENO 4) a] ∧ rv a = -1
    | Running => tty_of s' = key_modes t0
    end).
Proof.
  unfold keystroke_main, new_tty. wp_step. wp_step. apply (wp_tcgetattr e _ t0).
  intros s1 Hh1 _ Hg1 Ht1. change (hist (init MyGetch.zero_io [])) with (@nil event) in *.
  assert (Hr1 : reads_raw (hist s1)).
  { rewrite Hh1. apply (reads_raw_snoc []); [apply reads_raw_nil|done]. }
  split; cbn [bpost].
  { do 4 wp_step. rewrite decide_True by done. wp_step. wp_step. rewrite decide_True by done. wp_steps.
    split; st_simpl; [by apply reads_raw_snoc|]. by rewrite tty_snoc, Ht1. }
  do 4 wp_step. rewrite decide_False by done. do 3 wp_step. st_simpl. cbn [default].
  apply (wp_tcsetattr e _ t0). intros s2 a Hh2 _ Hg2 H2 _. cbn [bpost]. st_simpl.
  assert (Hr2 : reads_raw (hist s2)) by (rewrite Hh2; by apply reads_raw_snoc).
  destruct H2 as [[-> H2]|[-> H2]].
  { rewrite decide_True by done. wp_step. wp_step. rewrite decide_True by done. wp_steps. st_simpl.
    split; [by apply reads_raw_snoc|]. by rewrite tty_snoc, H2. }
  rewrite decide_False by done. wp_step. wp_step. rewrite decide_False by done. do 2 wp_step.
  apply (wp_loop_safe e key_body (λ b s, ready s ∧ length b = 10%nat)).
  - by intros b s [(? & ? & _) _].
  - intros b s [Hs Hb]. eapply wp_mono; [by apply key_body_ok|].
    intros [[b'|[]]|c| |] s' H'; cbn [bpost]; try done.
    + wp_step. apply wp_restore; [done|]. intros s3 [? ?]. cbn [bpost]. by wp_step.
    + by destruct H' as (_ & ? & ?).
  - split; [|apply length_uninit]. by split_and!.
Qed.
End proofs.

(** An unknown sequence, x, CTRL-A and q. *)
Definition demo_keys (fd : Z) : list Z := [ESC] ++ str "[9~~x" ++ [1; q].
Definition demo_kern : list event → call → ans :=
  MyGetch.tty_kern MyGetch.cooked (λ h c, match c with Cread fd n | Crecv fd n => serve demo_keys h fd n | _ => answer 0 end).

#[export] Instance demo_reads : ReadOk (env_of demo_kern).
Proof. split; intros h fd n; apply serve_ok. Qed.
Lemma keystroke_restores_witness :
  printed Stdout (hist (keystroke_main 5 (env_of demo_kern) (init MyGetch.zero_io [])).2) =
    line "x" ++ line "1" ++ line "q" ∧
  wp (keystroke_main 5) (env_of demo_kern) (init MyGetch.zero_io []) (λ o s',
    reads_raw MyGetch.cooked (hist s') ∧
    match o with
    | Val _ | Exit _ => tty STDIN_FILENO MyGetch.cooked (hist s') = MyGetch.cooked
    | Undef => ∃ h a, hist s' = h ++ [Sys (Cread STDIN_FILENO 4) a] ∧ rv a = -1
    | Running => tty STDIN_FILENO MyGetch.cooked (hist s') = key_modes MyGetch.cooked
    end).
Proof.
  split; [by vm_compute|].
  apply (keystroke_restores _ MyGetch.cooked (T := MyGetch.tty_kern_ok MyGetch.cooked _ STDIN_FILENO)).
Defined.
End Keystroke.

(** ** my_getpass.c *)
Module MyGetpass.
Definition PASS : nat := 8.
(** The static array [passwort] is the state. *)
Definition my_getpass : M buf buf :=
  '(r, origstate) ← tcgetattr 0;
  (if decide (r ≠ 0) then printf (line "tcgetattr() failed") else mret ());;
  origstate ← mem origstate;
  let changedstate := set_lflag (clear (c_lflag origstate) ECHO) origstate in
  let changedstate := set_lflag (Z.lor (c_lflag changedstate) ECHONL) changedstate in
  r ← tcsetattr 0 TCSANOW changedstate;
  (if decide (r ≠ 0) then printf (line "tcsetattr() failed") else mret ());;
  '(_, teststate) ← tcgetattr 0;
  teststate ← mem teststate;
  (if decide (Z.land (c_lflag teststate) ECHO ≠ 0) then printf (line "ECHO-Flag konnte nicht abgeschaltet werden") else mret ());;
  (if decide (Z.land (c_lflag teststate) ECHONL = 0) then printf (line "ECHONL-Flag konnte nicht eingeschaltet werden") else mret ());;
  printf (str "Passwort eingeben: ");;
  l ← fgets_stdin PASS;
  passwort ← get;
  (match l with Some l => passwort ← mem (blit passwort 0 (l ++ [0])); put passwort | None => mret () end);;
  r ← tcsetattr 0 TCSANOW origstate;
  (if decide (r ≠ 0) then printf (str "tcsetattr() failed") else mret ());;
  get.
Definition getpass_main : M buf Z :=
  ptr ← my_getpass;
  s ← mem (cstr ptr);
  printf (str "Ihre Eingabe war: " ++ s ++ [LF]);;
  mret EXIT_SUCCESS.

(** The modes in which the password is typed. *)
Definition pass_modes (t : termios) : termios := set_lflag (Z.lor (clear (c_lflag t) ECHO) ECHONL) t.
Lemma pass_modes_quiet t : Z.land (c_lflag (pass_modes t)) ECHO = 0 ∧ Z.land (c_lflag (pass_modes t)) ECHONL = ECHONL.
Proof.
  unfold pass_modes. cbn [set_lflag c_lflag]. split.
  - rewrite Z.land_lor_distr_l. unfold clear. rewrite <- Z.land_assoc. change (Z.land (Z.lnot ECHO) ECHO) with 0.
    by rewrite Z.land_0_r.
  - rewrite Z.land_lor_distr_l, Z.land_diag. apply Z.bits_inj'. intros n Hn. rewrite Z.lor_spec, Z.land_spec.
    by destruct (Z.testbit _ n), (Z.testbit ECHONL n).
Qed.

Section proofs.
Context (e : env) (t0 : termios).
Notation tty_of s := (tty 0 t0 (hist s)).
(** The end of the program: back to the original modes, and the report. *)
Lemma getpass_tail p s (Q : post buf Z) :
  willing e 0 t0 → cstr (glob s) = Some p →
  (∀ s' a, hist s' = hist s ++ [Sys (Ctcsetattr 0 TCSANOW (to_words t0)) a; Put Stdout (str "Ihre Eingabe war: " ++ p ++ [LF])] →
     stdin s' = stdin s → tty_of s' = t0 → Q (Val EXIT_SUCCESS) s') →
  wp (r ← tcsetattr 0 TCSANOW t0; (if decide (r ≠ 0) then printf (str "tcsetattr() failed") else mret ());; get) e s
    (bpost (λ ptr s', wp (s ← mem (cstr ptr); printf (str "Ihre Eingabe war: " ++ s ++ [LF]);; mret EXIT_SUCCESS) e s' Q) Q).
Proof.
  intros HW Hc HQ. wp_step. apply (willing_set _ _ _ HW). intros s6 b6 Hh6 Hi6 Hg6 Ht6. cbn [bpost].
  wp_steps. rewrite decide_False by tauto. wp_steps. rewrite Hg6. apply wp_mem. rewrite Hc. wp_steps.
  apply (HQ _ b6); st_simpl; [by rewrite Hh6, <- app_assoc|done|by rewrite tty_snoc].
Qed.
(** What [fgets] leaves in the array. *)
Lemma getpass_read {A} (rest : M buf A) s (Q : post buf A) : nozero (stdin s) → glob s = zeroed PASS →
  (∀ s', hist s' = hist s → stdin s' = (fgets_take 7 (stdin s)).2 → cstr (glob s') = Some (fgets_take 7 (stdin s)).1 → wp rest e s' Q) →
  wp (fgets_stdin PASS) e s (bpost (λ l s', wp (passwort ← get;
      (match l with Some l => passwort ← mem (blit passwort 0 (l ++ [0])); put passwort | None => mret () end);; rest) e s' Q) Q).
Proof.
  intros Hz Hg HQ. unfold wp at 1, fgets_stdin. change (PASS - 1)%nat with 7%nat.
  destruct (stdin s) as [|c l] eqn:E; cbn [fst snd bpost].
  - wp_steps. apply HQ; [done|by rewrite E|by rewrite Hg].
  - pose proof (fgets_take_app 7 (c :: l)) as Happ. pose proof (fgets_take_length 7 (c :: l)) as Hl.
    destruct (fgets_take 7 (c :: l)) as [x y]. cbn [fst snd bpost] in *. wp_steps. st_simpl. rewrite Hg.
    destruct (blit (zeroed PASS) 0 (x ++ [0])) as [b|] eqn:Eb.
    2: { rewrite blit_Some in Eb; [done|]. rewrite length_app, length_zeroed. cbn. unfold PASS. lia. }
    wp_steps. apply HQ; st_simpl; [done..|]. rewrite <- Happ in Hz. apply nozero_app in Hz as [Hz _].
    by apply (blit0_cstr (zeroed PASS)).
Qed.

(** On such a terminal my_getpass.c switches the echo off, prompts, reads
    the password - its first seven characters, with the newline when that
    comes earlier - switches the echo on again and prints what it read.  At
    the end of the input the password is empty. *)
Theorem getpass_restores input :
  willing e 0 t0 → nozero input →
  wp getpass_main e (init (zeroed PASS) input) (λ o s',
    o = Val EXIT_SUCCESS ∧ tty_of s' = t0 ∧ stdin s' = (fgets_take 7 input).2 ∧
    ∃ a1 a2 a3 a4, hist s' =
      [Sys (Ctcgetattr 0) a1; Sys (Ctcsetattr 0 TCSANOW (to_words (pass_modes t0))) a2; Sys (Ctcgetattr 0) a3;
       Put Stdout (str "Passwort eingeben: "); Sys (Ctcsetattr 0 TCSANOW (to_words t0)) a4;
       Put Stdout (str "Ihre Eingabe war: " ++ (fgets_take 7 input).1 ++ [LF])]).
Proof.
  intros HW Hz. unfold getpass_main, my_getpass. do 2 wp_step. apply (willing_get _ _ _ HW).
  intros s1 b1 Hh1 Hi1 Hg1 Ht1. change (tty_of (init (zeroed PASS) input)) with t0 in *. cbn [bpost].
  wp_steps. rewrite decide_False by tauto. wp_steps.
  assert (Hm : set_lflag (Z.lor (c_lflag (set_lflag (clear (c_lflag t0) ECHO) t0)) ECHONL)
    (set_lflag (clear (c_lflag t0) ECHO) t0) = pass_modes t0) by done.
  rewrite Hm. apply (willing_set _ _ _ HW). intros s2 b2 Hh2 Hi2 Hg2 Ht2. cbn [bpost].
  wp_steps. rewrite decide_False by tauto. wp_steps. apply (willing_get _ _ _ HW).
  intros s3 b3 Hh3 Hi3 Hg3 Ht3. rewrite Ht2 in *. destruct (pass_modes_quiet t0) as [Hq1 Hq2]. cbn [bpost].
  wp_steps. rewrite Hq1. rewrite decide_False by tauto. wp_steps. rewrite Hq2, decide_False by done. wp_steps.
  apply getpass_read.
  { by rewrite stdin_log, Hi3, Hi2, Hi1. }
  { by rewrite glob_log, Hg3, Hg2, Hg1. }
  intros s4 Hh4 Hi4 Hc4. rewrite stdin_log, Hi3, Hi2, Hi1 in *. cbn [stdin init] in *.
  eapply getpass_tail; [done..|]. intros s5 b5 Hh5 Hi5 Ht5. split; [done|]. split; [done|]. split; [congruence|].
  exists b1, b2, b3, b5. by rewrite Hh5, Hh4, hist_log, Hh3, Hh2, Hh1.
Qed.
End proofs.

Lemma tty_kern_willing t0 other fd : willing (env_of (MyGetch.tty_kern t0 other)) fd t0.
Proof. done. Qed.
Lemma getpass_restores_witness :
  (fgets_take 7 (str "geheimnis" ++ [LF])).1 = str "geheimn" ∧
  wp getpass_main (env_of (MyGetch.tty_kern MyGetch.cooked (λ _ _, answer 0))) (init (zeroed PASS) (line "geheimnis")) (λ o s',
    o = Val EXIT_SUCCESS ∧ tty 0 MyGetch.cooked (hist s') = MyGetch.cooked ∧ stdin s' = (fgets_take 7 (line "geheimnis")).2 ∧
    ∃ a1 a2 a3 a4, hist s' =
      [Sys (Ctcgetattr 0) a1; Sys (Ctcsetattr 0 TCSANOW (to_words (pass_modes MyGetch.cooked))) a2; Sys (Ctcgetattr 0) a3;
       Put Stdout (str "Passwort eingeben: "); Sys (Ctcsetattr 0 TCSANOW (to_words MyGetch.cooked)) a4;
       Put Stdout (str "Ihre Eingabe war: " ++ (fgets_take 7 (line "geheimnis")).1 ++ [LF])]).
Proof. split; [by vm_compute|]. apply getpass_restores; [apply tty_kern_willing|by_compute]. Defined.
End MyGetpass.

(** ** my_eof.c *)
Module MyEof.
Definition error (what : list Z) : M unit unit :=
  m ← errmsg; printf (str "Fehler bei " ++ what ++ str "(): " ++ m ++ [LF]);; exit EXIT_FAILURE.
Definition copy_body (_ : unit) : M unit (unit + unit) :=
  c ← getchar;
  if decide (c ≠ -1) then printf (MyGetch.char c);; mret (inl tt) else mret (inr tt).
Definition eof_main (fuel : nat) : M unit Z :=
  '(r, term) ← tcgetattr STDIN_FILENO;
  (if decide (r < 0) then error (str "tcgetattr") else mret ());;
  term ← mem term;
  let term := set_cc VEOF 27 term in
  r ← tcsetattr STDIN_FILENO TCSAFLUSH term;
  (if decide (r < 0) then error (str "tcsetattr") else mret ());;
  printf (line "Eingabe machen (mit ESC abbrechen)");;
  loop fuel copy_body tt;;
  mret EXIT_SUCCESS.

(** The input is copied, and the changed terminal mode stays behind. *)
Lemma eof_copies e t0 fuel input :
  willing e STDIN_FILENO t0 → Forall is_char input → (length input < fuel)%nat →
  wp (eof_main fuel) e (init () input) (λ o s',
    o = Val EXIT_SUCCESS ∧ printed Stdout (hist s') = line "Eingabe machen (mit ESC abbrechen)" ++ input ∧
    tty STDIN_FILENO t0 (hist s') = set_cc VEOF 27 t0).
Proof.
  intros HW Hc Hf. unfold eof_main. wp_step. apply (willing_get _ _ _ HW).
  intros s1 b1 Hh1 Hi1 _ Ht1. cbn [bpost]. change (tty STDIN_FILENO t0 (hist (init () input))) with t0 in *.
  wp_step. rewrite decide_False by lia. wp_steps. apply (willing_set _ _ _ HW). intros s2 b2 Hh2 Hi2 _ Ht2. cbn [bpost].
  wp_step. rewrite decide_False by lia. wp_steps.
  set (hd := line "Eingabe machen (mit ESC abbrechen)").
  apply (wp_loop_measure e copy_body (λ _ s', tty STDIN_FILENO t0 (hist s') = set_cc VEOF 27 t0 ∧ Forall is_char (stdin s') ∧
      printed Stdout (hist s') ++ stdin s' = hd ++ input) (λ _ s', length (stdin s'))).
  2: { st_simpl. rewrite tty_snoc, Hi2, Hi1. split; [done|]. split; [done|].
       rewrite printed_app, Hh2, Hh1, !printed_app. by rewrite !printed_1. }
  2: { st_simpl. by rewrite Hi2, Hi1. }
  intros [] s3 (Ht & Hch & Ho). unfold copy_body. wp_step. unfold wp at 1, getchar.
  destruct (stdin s3) as [|c l] eqn:E; cbn [fst snd bpost].
  - rewrite decide_False by tauto. wp_steps. rewrite app_nil_r in Ho. done.
  - apply Forall_cons in Hch as [Hc1 Hch]. unfold is_char in Hc1. rewrite decide_True by lia. wp_steps. st_simpl.
    rewrite tty_snoc. split; [|cbn; lia]. split; [done|]. split; [done|].
    rewrite printed_app, printed_1, <- app_assoc, <- Ho. unfold MyGetch.char, uwrap. cbn. by rewrite Z.mod_small by lia.
Qed.
End MyEof.

(** ** baud.c and setbaud.c *)
Module Baud.
(** [B##i] and [i]: the constants of <termios.h> and the rates. *)
Definition speed_to_values_array : list (Z * Z) :=
  [(0, 0); (1, 50); (2, 75); (3, 110); (4, 134); (5, 150); (6, 200); (7, 300); (8, 600); (9, 1200); (10, 1800); (11, 2400);
   (12, 4800); (13, 9600); (14, 19200); (15, 38400); (0x1001, 57600); (0x1002, 115200); (0x1003, 230400)].
Definition B115200 : Z := 0x1002.
Definition SIZE : nat := length speed_to_values_array.
(** The loop from [i] with [n] turns left; reading behind the array is undefined. *)
Fixpoint search (n i : nat) (baud : Z) : option Z :=
  match n with
  | O => Some (-1)
  | S n => p ← speed_to_values_array !! i;
           if decide (baud = p.1) then Some p.2 else search n (S i) baud
  end.
Definition baudrate_wert (baud : Z) : option Z := search (S SIZE) 0 baud.

Definition baud_main (argv : list (list Z)) : M unit Z :=
  (if decide (length argv ≠ 2%nat) then
     a0 ← arg argv 0; printf (str "Usage: " ++ a0 ++ line " Geraetepfad");; exit EXIT_FAILURE else mret ());;
  a1 ← arg argv 1;
  fd ← sys (Copen a1 (Z.lor O_RDWR O_NONBLOCK) 0);
  (if decide (rv fd = -1) then perror (str "fopen()");; exit EXIT_FAILURE else mret ());;
  r ← sys (Cisatty (rv fd));
  (if decide (rv r = 0) then printf (a1 ++ line " ist kein TTY");; exit EXIT_FAILURE else mret ());;
  '(r, terminal) ← tcgetattr (rv fd);
  (if decide (r = -1) then printf (line "Fehler bei tcgetattr()");; exit EXIT_FAILURE else mret ());;
  terminal ← mem terminal;
  baud_input ← mem (baudrate_wert (cfgetispeed terminal));
  (if decide (baud_input = -1) then printf (line "Fehler bei baud_input ...");; exit EXIT_FAILURE else mret ());;
  baud_output ← mem (baudrate_wert (cfgetospeed terminal));
  (if decide (baud_output = -1) then printf (line "Fehler bei baud_output ...");; exit EXIT_FAILURE else mret ());;
  printf (str "Eingabe-Baudrate: " ++ dec baud_input ++ [LF]);;
  printf (str "Ausgabe-Baudrate: " ++ dec baud_output ++ [LF]);;
  mret EXIT_SUCCESS.

(** setbaud.c: [fehler_exit] prints the formatted message. *)
Definition fehler_exit {A} (msg : list Z) : M unit A := printf msg;; exit EXIT_FAILURE.
(** Both rates of [terminal], printed. *)
Definition print_rates (terminal : termios) : M unit unit :=
  baud_input ← mem (baudrate_wert (cfgetispeed terminal));
  (if decide (baud_input = -1) then fehler_exit (line "Fehler bei baud_input ...") else mret ());;
  baud_output ← mem (baudrate_wert (cfgetospeed terminal));
  (if decide (baud_output = -1) then fehler_exit (line "Fehler bei baud_output ...") else mret ());;
  printf (str "Eingabe-Baudrate: " ++ dec baud_input ++ [LF]);;
  printf (str "Ausgabe-Baudrate: " ++ dec baud_output ++ [LF]).
Definition setbaud_main (argv : list (list Z)) : M unit Z :=
  (if decide (length argv ≠ 2%nat) then
     a0 ← arg argv 0; printf (str "Usage: " ++ a0 ++ line " Geraetepfad");; exit EXIT_FAILURE else mret ());;
  a1 ← arg argv 1;
  fd ← sys (Copen a1 (Z.lor O_RDWR O_NONBLOCK) 0);
  (if decide (rv fd = -1) then fehler_exit (str "Fehler bei fopen() kann " ++ a1 ++ str " nicht oeffnen") else mret ());;
  r ← sys (Cisatty (rv fd));
  (if decide (rv r = 0) then fehler_exit (a1 ++ line " ist kein TTY") else mret ());;
  '(r, terminal) ← tcgetattr (rv fd);
  (if decide (r = -1) then fehler_exit (line "Fehler bei tcgetattr()") else mret ());;
  terminal ← mem terminal;
  print_rates terminal;;
  let terminal := cfsetispeed B115200 terminal in
  let terminal := cfsetospeed B115200 terminal in
  r ← tcsetattr (rv fd) TCSAFLUSH terminal;
  (if decide (r = -1) then fehler_exit (line "Fehler bei tcsetattr ...") else mret ());;
  '(r, t) ← tcgetattr (rv fd);
  (if decide (r = -1) then fehler_exit (line "Fehler bei tcgetattr ...") else mret ());;
  terminal ← mem t;
  print_rates terminal;;
  mret EXIT_SUCCESS.

(** The search finds exactly the rates of the table; for every other value it
    reads behind the array, so it never returns -1. *)
Lemma baudrate_wert_spec b v : baudrate_wert b = Some v ↔ (b, v) ∈ speed_to_values_array.
Proof.
  split.
  - unfold baudrate_wert, SIZE. cbn. repeat (case_decide; [intros [= <-]; subst b; by_compute|]). done.
  - intros H. repeat (apply elem_of_cons in H as [[= -> ->]|H]; [by vm_compute|]). by apply elem_of_nil in H.
Qed.

Section proofs.
Context (e : env) (fd : Z) (t0 : termios) (W : willing e fd t0).
Definition rates (vi vo : Z) : list Z :=
  (str "Eingabe-Baudrate: " ++ dec vi ++ [LF]) ++ str "Ausgabe-Baudrate: " ++ dec vo ++ [LF].
Lemma rate_not_error b v : (b, v) ∈ speed_to_values_array → v ≠ -1.
Proof.
  assert (H : Forall (λ p : Z * Z, p.2 ≠ -1) speed_to_values_array) by by_compute.
  rewrite Forall_forall in H. apply (H (b, v)).
Qed.
Lemma print_rates_ok t vi vo s (Q : post unit unit) :
  (c_ispeed t, vi) ∈ speed_to_values_array → (c_ospeed t, vo) ∈ speed_to_values_array →
  (∀ s', printed Stdout (hist s') = printed Stdout (hist s) ++ rates vi vo →
     tty fd t0 (hist s') = tty fd t0 (hist s) → Q (Val tt) s') →
  wp (print_rates t) e s Q.
Proof.
  intros Hi Ho HQ. pose proof (rate_not_error _ _ Hi). pose proof (rate_not_error _ _ Ho).
  apply baudrate_wert_spec in Hi, Ho. unfold print_rates. wp_step. apply wp_mem. unfold cfgetispeed. rewrite Hi. cbn [bpost].
  wp_step. rewrite decide_False by done. do 2 wp_step. apply wp_mem. unfold cfgetospeed. rewrite Ho. cbn [bpost].
  wp_step. rewrite decide_False by done. wp_steps. apply HQ; st_simpl.
  - rewrite !printed_app, !printed_1. cbn [put_of]. unfold rates. by rewrite !app_assoc.
  - by rewrite !tty_snoc.
Qed.

(** On a terminal whose rates are in its table setbaud.c prints these,
    sets both to 115200, and reports the new rates as read back. *)
Theorem setbaud_rates a0 a1 vi vo :
  fd ≠ -1 → rv (kern e [] (Copen a1 (Z.lor O_RDWR O_NONBLOCK) 0)) = fd → (∀ h, rv (kern e h (Cisatty fd)) ≠ 0) →
  (c_ispeed t0, vi) ∈ speed_to_values_array → (c_ospeed t0, vo) ∈ speed_to_values_array →
  wp (setbaud_main [a0; a1]) e (init () []) (λ o s',
    o = Val EXIT_SUCCESS ∧ printed Stdout (hist s') = rates vi vo ++ rates 115200 115200 ∧
    tty fd t0 (hist s') = cfsetospeed B115200 (cfsetispeed B115200 t0)).
Proof.
  intros Hfd Hopen Htty Hi Ho. unfold setbaud_main, arg. wp_step. rewrite decide_False by tauto. wp_steps.
  cbn [hist init] in Ha. rewrite <- Ha in Hopen. rewrite decide_False by congruence. wp_steps.
  rewrite Hopen in *. rewrite decide_False by (rewrite Ha0; apply Htty). wp_steps.
  apply (willing_get _ _ _ W). intros s1 b1 Hh1 _ _ Ht1. cbn [bpost].
  assert (H0 : tty fd t0 (hist (after (Cisatty fd) a2 (after (Copen a1 (Z.lor O_RDWR O_NONBLOCK) 0) a (init () [])))) = t0)
    by (st_simpl; by rewrite !tty_snoc).
  assert (Hp1 : printed Stdout (hist s1) = []) by (rewrite Hh1; st_simpl; by rewrite !printed_app, !printed_1).
  rewrite H0 in *. wp_steps. rewrite decide_False by done. wp_steps.
  apply (print_rates_ok t0 vi vo); [done..|]. intros s2 Ho2 Ht2. cbn [bpost]. wp_steps.
  apply (willing_set _ _ _ W). intros s3 b3 Hh3 _ _ Ht3. cbn [bpost].
  wp_steps. rewrite decide_False by done. wp_steps. apply (willing_get _ _ _ W). intros s4 b4 Hh4 _ _ Ht4. rewrite Ht3 in *. cbn [bpost].
  wp_steps. rewrite decide_False by done. wp_steps.
  apply (print_rates_ok _ 115200 115200); [by_compute..|]. intros s5 Ho5 Ht5. cbn [bpost]. wp_steps.
  split; [done|]. split; [|by rewrite Ht5, Ht4].
  rewrite Ho5, Hh4, Hh3, !printed_app, !printed_1, Ho2, Hp1. cbn [put_of app]. by rewrite !app_nil_r.
Qed.
End proofs.

Lemma setbaud_rates_witness :
  wp (setbaud_main [str "setbaud"; str "/dev/tty"])
    (env_of (MyGetch.tty_kern MyGetch.cooked (λ _ c, match c with Copen _ _ _ => answer 3 | Cisatty _ => answer 1 | _ => answer 0 end)))
    (init () []) (λ o s',
    o = Val EXIT_SUCCESS ∧ printed Stdout (hist s') = rates 38400 38400 ++ rates 115200 115200 ∧
    tty 3 MyGetch.cooked (hist s') = cfsetospeed B115200 (cfsetispeed B115200 MyGetch.cooked)).
Proof. apply setbaud_rates; [by apply MyGetpass.tty_kern_willing|done..|by_compute|by_compute]. Defined.
End Baud.
