(* ===== verification/Curses.v ===== *)
(** * 13_Terminal: the programs that draw with curses

    [cur2.c] to [cur15.c].  The calls of the curses library are recorded as
    [Clib]; a window is its address, [stdscr] is 0.  What the library asks of
    its callers is a protocol ([screen]): nothing is drawn outside of
    [initscr] and [endwin], and no window is used that does not exist or has
    been deleted.  [typed] is a type system for this protocol, with a rule for
    each construct of the programs; a typed program keeps to the protocol
    whatever keys are pressed, and leaves the terminal in its normal mode when
    it ends. *)
From S2P Require Import Prelude CLib Machine FileIO.

(** ** Constants of curses.h *)
Definition stdscr : Z := 0.
Definition OK : Z := 0.
Definition KEY_DOWN : Z := 258.
Definition KEY_UP : Z := 259.
Definition KEY_LEFT : Z := 260.
Definition KEY_RIGHT : Z := 261.
Definition KEY_MOUSE : Z := 409.
Definition TRUE : Z := 1.
(** The line drawing characters, by the letters of the alternate character set. *)
Definition ACS (c : string) : Z := 0x400000 + default 0 (head (str c)).
Definition COLOR_PAIR (n : Z) : Z := Z.shiftl n 8.
Definition A_UNDERLINE : Z := 0x20000.
Definition A_DIM : Z := 0x100000.
Definition A_BOLD : Z := 0x200000.
Definition BUTTON1_RELEASED : Z := 1.
Definition BUTTON1_PRESSED : Z := 2.
Definition BUTTON1_CLICKED : Z := 4.

Abbreviation M := (Machine.M unit).
(** A call for its effect only. *)
Definition cur (fn : string) (args text : list Z) : M unit := lib fn args text;; mret ().
(** Integers that a macro such as [getyx] or a structure delivers. *)
Definition two (fn : string) (args : list Z) : M (Z * Z) :=
  a ← sys (Clib fn args []);
  y ← mem (rwords a !! 0%nat);
  x ← mem (rwords a !! 1%nat);
  mret (y, x).
(** [for (i = a; i < a + n; ++i)] with a condition on the screen only. *)
Abbreviation for_ := (for_range).

(** ** The protocol *)

(** [None]: outside of [initscr] and [endwin]; [Some ws]: inside, with the
    windows [ws]. *)
Abbreviation screen := (option (gset Z)).
Definition window_fns : list string :=
  ["keypad"; "wrefresh"; "wgetch"; "wattrset"; "box"; "mvwprintw"; "mvwaddch"; "mvwin"; "touchwin"; "delwin"; "dupwin";
   "getbegyx"; "getyx"; "wenclose"; "scrollok"; "scroll"]%string.
Definition known (w : Z) (ws : gset Z) : bool := bool_decide (w = stdscr ∨ w ∈ ws).
(** What a call does to the screen; no result: the protocol forbids it. *)
Definition lib_step (fn : string) (args : list Z) (r : Z) (x : screen) : option screen :=
  match x with
  | None => if decide (fn = "initscr"%string) then Some (Some ∅) else None
  | Some ws =>
      if decide (fn = "initscr"%string) then None
      else if decide (fn = "endwin"%string) then Some None
      else if decide (fn ∈ window_fns) then
        match args with
        | w :: _ =>
            if known w ws then
              if decide (fn = "delwin"%string) then (if decide (w = stdscr) then None else Some (Some (ws ∖ {[w]})))
              else if decide (fn = "dupwin"%string) then Some (Some ({[r]} ∪ ws))
              else Some (Some ws)
            else None
        | [] => None
        end
      else if decide (fn = "newwin"%string) then Some (Some ({[r]} ∪ ws))
      else Some (Some ws)
  end.
(** Functions that are not of curses may be called anywhere. *)
Definition other_fns : list string := ["srand"; "rand"]%string.
Definition ev_step (ev : event) (x : screen) : option screen :=
  match ev with
  | Sys (Clib fn args _) a => if decide (fn ∈ other_fns) then Some x else lib_step fn args (rv a) x
  | _ => Some x
  end.
(** The screen after a history, if the history keeps to the protocol. *)
Definition screen_of (h : list event) : option screen :=
  foldl (λ o ev, x ← o; ev_step ev x) (Some None) h.
Lemma screen_of_snoc h ev : screen_of (h ++ [ev]) = (x ← screen_of h; ev_step ev x).
Proof. unfold screen_of. by rewrite foldl_app. Qed.

(** What curses guarantees: a new window is none of those that exist, and the
    macros deliver two numbers. *)
Class CursesLib (e : env) : Prop := {
  lib_window h fn args text ws : fn = "newwin"%string ∨ fn = "dupwin"%string → screen_of h = Some (Some ws) →
    let r := rv (kern e h (Clib fn args text)) in r ≠ stdscr ∧ r ∉ ws;
  lib_two h fn args : fn = "getyx"%string ∨ fn = "getbegyx"%string ∨ fn = "getmouse"%string →
    ∃ y x b, rwords (kern e h (Clib fn args [])) = [y; x; b]
}.

(** ** Types *)

(** [typed P m Q]: started on a screen in [P], the program [m] keeps to the
    protocol, gives a value and a screen in [Q], and ends the process only
    outside of curses. *)
Definition safe {A} (Q : A → screen → Prop) : post unit A := λ o s,
  match o with
  | Val a => ∃ x, screen_of (hist s) = Some x ∧ Q a x
  | Exit _ => screen_of (hist s) = Some None
  | Undef => False
  | Running => is_Some (screen_of (hist s))
  end.
Section types.
Context (e : env).
Definition typed {A} (P : screen → Prop) (m : M A) (Q : A → screen → Prop) : Prop :=
  ∀ s x, screen_of (hist s) = Some x → P x → wp m e s (safe Q).

Lemma typed_ret {A} P (a : A) Q : (∀ x, P x → Q a x) → typed P (mret a) Q.
Proof. intros H s x Hs Hx. apply wp_ret. exists x. auto. Qed.
Lemma typed_bind {A B} P (m : M A) R (f : A → M B) Q :
  typed P m R → (∀ a, typed (R a) (f a) Q) → typed P (m ≫= f) Q.
Proof.
  intros Hm Hf s x Hs Hx. apply wp_bind. eapply wp_mono; [by eapply Hm|].
  intros [a| | |] s' H; simpl in *; try done. destruct H as (y & Hy & HR). by eapply Hf.
Qed.
(** A fact that the precondition brings along. *)
Lemma typed_pure {A} (φ : Prop) P (m : M A) Q : (φ → typed P m Q) → typed (λ x, φ ∧ P x) m Q.
Proof. intros H s x Hs [? Hx]. by eapply H. Qed.
Lemma typed_weaken {A} (P P' : screen → Prop) (m : M A) (Q Q' : A → screen → Prop) :
  typed P m Q → (∀ x, P' x → P x) → (∀ a x, Q a x → Q' a x) → typed P' m Q'.
Proof.
  intros Hm HP HQ s x Hs Hx. eapply wp_mono; [eapply Hm; eauto|].
  intros [a| | |] s' H; simpl in *; try done. destruct H as (y & Hy & HR). eauto.
Qed.
Lemma typed_exit {A} P c Q : (∀ x, P x → x = None) → typed P (exit c : M A) Q.
Proof. intros H s x Hs Hx. apply wp_exit. simpl. by rewrite Hs, (H x). Qed.
Lemma typed_if {A} P (C : Prop) `{Decision C} (m1 m2 : M A) Q :
  (C → typed P m1 Q) → (¬ C → typed P m2 Q) → typed P (if decide C then m1 else m2) Q.
Proof. intros. case_decide; auto. Qed.
Lemma typed_output P f d Q : (∀ x, P x → Q () x) → typed P (output f d) Q.
Proof. intros H s x Hs Hx. apply wp_output. exists x. rewrite hist_log, screen_of_snoc, Hs. eauto. Qed.
Lemma typed_loop {L R} (P : L → screen → Prop) (body : L → M (L + R)) Q :
  (∀ l, typed (P l) (body l) (λ r x, match r with inl l' => P l' x | inr v => Q v x end)) →
  ∀ fuel l, typed (P l) (loop fuel body l) Q.
Proof.
  intros Hb fuel l s x Hs Hx.
  apply (wp_loop_safe e body (λ l s, ∃ x, screen_of (hist s) = Some x ∧ P l x)).
  - intros l' s' (y & Hy & _). by eexists.
  - intros l' s' (y & Hy & HP). eapply wp_mono; [by eapply Hb|]. by intros [[l''|r]| | |] s'' H.
  - by exists x.
Qed.
Lemma typed_for P (f : Z → M unit) : (∀ i, typed P (f i) (λ _, P)) → ∀ n a, typed P (for_range n a f) (λ _, P).
Proof.
  intros Hf n. induction n as [|n IH]; intros a; cbn [for_range]; [by apply typed_ret|].
  apply (typed_bind _ _ (λ _, P)); [apply Hf|]. intros []. apply IH.
Qed.

(** *** Calls of the library *)
Lemma screen_call (s : st unit) x y fn args text a :
  screen_of (hist s) = Some x → ev_step (Sys (Clib fn args text) a) x = Some y →
  screen_of (hist (after (Clib fn args text) a s)) = Some y.
Proof. intros Hs Hy. by rewrite hist_after, screen_of_snoc, Hs. Qed.
Lemma typed_lib P fn args text Q :
  (∀ x, P x → ∀ h r, screen_of h = Some x → r = rv (kern e h (Clib fn args text)) →
     ∃ y, ev_step (Sys (Clib fn args text) (answer r)) x = Some y ∧ Q r y) →
  typed P (lib fn args text) Q.
Proof.
  intros H s x Hs Hx. apply wp_lib. intros a ->. destruct (H x Hx (hist s) _ Hs eq_refl) as (y & Hy & HQ).
  exists y. split; [|done]. by eapply screen_call.
Qed.
Lemma typed_cur P fn args text (Q : unit → screen → Prop) :
  (∀ x, P x → ∀ r, ∃ y, ev_step (Sys (Clib fn args text) (answer r)) x = Some y ∧ Q () y) →
  typed P (cur fn args text) Q.
Proof.
  intros H. unfold cur. eapply (typed_bind _ _ (λ _, Q ())); [|intros _; by apply typed_ret].
  apply typed_lib. intros x Hx h r _ _. by apply H.
Qed.

(** *** Screens with certain windows *)

(** Inside of curses, with at least the windows [ws]. *)
Definition has (ws : gset Z) (x : screen) : Prop := ∃ live, x = Some live ∧ ws ⊆ live ∧ stdscr ∉ live.
Definition off (x : screen) : Prop := x = None.

Definition plain (fn : string) : bool :=
  bool_decide (fn ∉ window_fns ∧ fn ∉ ["initscr"; "endwin"; "newwin"]%string).
Lemma plain_step fn args text a live : plain fn = true → ev_step (Sys (Clib fn args text) a) (Some live) = Some (Some live).
Proof.
  intros [H1 H2]%bool_decide_eq_true. cbn [ev_step]. case_decide; [done|]. unfold lib_step.
  rewrite !elem_of_cons in H2. rewrite !decide_False by tauto. done.
Qed.
Definition on_window (fn : string) : bool := bool_decide (fn ∈ window_fns ∧ fn ∉ ["delwin"; "dupwin"]%string).
Lemma window_step fn w args text a live :
  on_window fn = true → w = stdscr ∨ w ∈ live → ev_step (Sys (Clib fn (w :: args) text) a) (Some live) = Some (Some live).
Proof.
  intros [H1 H2]%bool_decide_eq_true Hw. cbn [ev_step]. case_decide; [done|].
  assert (Hk : known w live = true) by by apply bool_decide_eq_true.
  assert (fn ≠ "initscr"%string ∧ fn ≠ "endwin"%string) as [E1 E2].
  { split; intros ->; revert H1; by_compute. }
  unfold lib_step. rewrite !elem_of_cons in H2. rewrite (decide_False (P := fn = "initscr"%string)) by done.
  rewrite (decide_False (P := fn = "endwin"%string)) by done. rewrite (decide_True (P := fn ∈ window_fns)) by done.
  rewrite Hk, !decide_False by tauto. done.
Qed.

Lemma t_plain ws fn args text : plain fn = true → typed (has ws) (lib fn args text) (λ _, has ws).
Proof.
  intros Hf. apply typed_lib. intros x (live & -> & Hw) h r _ _. exists (Some live). split; [by apply plain_step|by exists live].
Qed.
Lemma t_window ws fn w args text : on_window fn = true → w = stdscr ∨ w ∈ ws →
  typed (has ws) (lib fn (w :: args) text) (λ _, has ws).
Proof.
  intros Hf Hin. apply typed_lib. intros x (live & -> & Hs & Hw) h r _ _. exists (Some live).
  split; [apply window_step; [done|]|by exists live]. destruct Hin; [by left|right; set_solver].
Qed.
Lemma t_cur ws fn args text : typed (has ws) (lib fn args text) (λ _, has ws) → typed (has ws) (cur fn args text) (λ _, has ws).
Proof. intros H. eapply typed_bind; [exact H|]. intros ?. by apply typed_ret. Qed.
Lemma t_init args text : typed off (cur "initscr" args text) (λ _, has ∅).
Proof. apply typed_cur. intros x -> r. exists (Some ∅). split; [done|]. exists ∅. set_solver. Qed.
Lemma t_end ws args text : typed (has ws) (cur "endwin" args text) (λ _, off).
Proof. apply typed_cur. intros x (live & -> & _) r. by exists None. Qed.
Lemma t_del ws w text : w ∈ ws → typed (has ws) (cur "delwin" [w] text) (λ _, has (ws ∖ {[w]})).
Proof.
  intros Hin. apply typed_cur. intros x (live & -> & Hs & Hw) r.
  assert (known w live = true) as Hk by (apply bool_decide_eq_true; right; set_solver).
  assert (w ≠ stdscr) as Hne by (intros ->; set_solver).
  exists (Some (live ∖ {[w]})). split; [|eexists; split; [done|]; set_solver]. cbn [ev_step]. rewrite decide_False by by_compute.
  unfold lib_step. rewrite decide_False, decide_False, decide_True by by_compute. rewrite Hk, decide_True, decide_False by done. done.
Qed.
(** Functions that are not of curses leave the screen alone. *)
Lemma t_other P fn args text : bool_decide (fn ∈ other_fns) = true → typed P (cur fn args text) (λ _, P).
Proof.
  intros Hf%bool_decide_eq_true. apply typed_cur. intros x Hx r. exists x. split; [|done]. cbn [ev_step]. by rewrite decide_True.
Qed.
(** A loop that keeps the windows [ws]. *)
Lemma t_loop {L R} ws (body : L → M (L + R)) fuel l :
  (∀ l, typed (has ws) (body l) (λ _, has ws)) → typed (has ws) (loop fuel body l) (λ _, has ws).
Proof.
  intros H. apply (typed_loop (λ _, has ws)). intros l'. eapply typed_weaken; [apply H|done|].
  by intros [l''|r] x Hx.
Qed.
(** A loop that is never left. *)
Lemma t_forever {L R} ws (body : L → M (L + R)) fuel l :
  (∀ l, typed (has ws) (body l) (λ r x, has ws x ∧ ∃ l', r = inl l')) → typed (has ws) (loop fuel body l) (λ _ _, False).
Proof.
  intros H. apply (typed_loop (λ _, has ws)). intros l'. eapply typed_weaken; [apply H|done|].
  by intros [l''|r] x [Hx [? ?]].
Qed.

Context {CL : CursesLib e}.
Lemma t_new ws args text : typed (has ws) (lib "newwin" args text) (λ w x, (w ≠ stdscr ∧ w ∉ ws) ∧ has ({[w]} ∪ ws) x).
Proof.
  apply typed_lib. intros x (live & -> & Hs & Hw) h r Hh ->.
  destruct (lib_window h "newwin" args text live) as [H1 H2]; [by left|done|].
  eexists. split; [done|]. split; [set_solver|]. eexists. split; [done|]. set_solver.
Qed.
Lemma t_dup ws w text : w ∈ ws → typed (has ws) (lib "dupwin" [w] text) (λ v x, (v ≠ stdscr ∧ v ∉ ws) ∧ has ({[v]} ∪ ws) x).
Proof.
  intros Hin. apply typed_lib. intros x (live & -> & Hs & Hw) h r Hh ->.
  destruct (lib_window h "dupwin" [w] text live) as [H1 H2]; [by right|done|].
  assert (known w live = true) as Hk by (apply bool_decide_eq_true; right; set_solver).
  exists (Some ({[rv (kern e h (Clib "dupwin" [w] text))]} ∪ live)).
  split; [|split; [set_solver|]; eexists; split; [done|]; set_solver]. cbn [ev_step]. rewrite decide_False by by_compute.
  unfold lib_step. rewrite decide_False, decide_False, decide_True by by_compute. rewrite Hk, decide_False, decide_True by by_compute. done.
Qed.
End types.
