(* ===== verification/TermInfo.v ===== *)
(** * 13_Terminal: the terminal database and terminal names

    [terminfo.c], [terminfo2.c], [my_tty.c] and [sende.c].  The database is
    the environment's: [tigetflag] and [tigetnum] are answered with a number,
    [tigetstr] with a pointer (0 is the null pointer, -1 the answer for a name
    that is not a string capability) and the string behind it. *)
From S2P Require Import Prelude CLib Machine FileIO.

Abbreviation M := (Machine.M unit).
(** The string behind a pointer an answer holds; none behind a null pointer
    or an invalid one. *)
Definition deref (a : ans) : option (list Z) := if decide (rv a = 0 ∨ rv a = -1) then None else Some (rdata a).

Module Info.
Definition CAPS : nat := 4.
Definition boolcaps : list (list Z) := [str "am"; str "bm"; str "bce"; str "km"].
Definition numcaps : list (list Z) := [str "cols"; str "lines"; str "colors"; str "pairs"].
Definition strcaps : list (list Z) := [str "cup"; str "kf2"; str "flash"; str "hpa"].
Definition setup : M unit :=
  ret ← lib "setupterm" [0; 0; 0] [];
  if decide (ret ≠ 0) then perror (str "setupterm()");; exit EXIT_FAILURE else mret ().
(** [for (i = 0; i < CAPS; ++i)] over one of the arrays *)
Definition for_caps (caps : list (list Z)) (f : Z → list Z → M unit) : M unit :=
  for_range CAPS 0 (λ i, c ← mem (caps !! Z.to_nat i); f i c).
Definition missing (c : list Z) : list Z := c ++ line " wird nicht unterstuetzt".
Definition flag_line (c : list Z) (ret : Z) : list Z := if decide (ret = -1) then missing c else c ++ line " wird unterstuetzt".
Definition num_line (c : list Z) (ret : Z) : list Z := if decide (ret = -1) then missing c else c ++ str " ist " ++ dec ret ++ [LF].
(** [&buf[1]] of an empty string is behind its end. *)
Definition str_line (c : list Z) (buf : ans) : option (list Z) :=
  if decide (rv buf = 0) then Some (missing c)
  else b ← deref buf; match b with _ :: r => Some (c ++ str " ist \E" ++ r ++ [LF]) | [] => None end.
Definition terminfo_main : M Z :=
  setup;;
  for_caps boolcaps (λ _ c, ret ← lib "tigetflag" [] c; printf (flag_line c ret));;
  printf [LF];;
  for_caps numcaps (λ _ c, ret ← lib "tigetnum" [] c; printf (num_line c ret));;
  printf [LF];;
  for_caps strcaps (λ _ c, buf ← sys (Clib "tigetstr" [] c); t ← mem (str_line c buf); printf t);;
  mret EXIT_SUCCESS.
End Info.

Module Info2.
Import Info.
(** [putp] of the string behind a pointer *)
Definition putp (p : ans) : M unit := lib "putp" [rv p] (rdata p);; mret ().
Definition clrscr : M unit := ptr ← sys (Clib "tigetstr" [] (str "clear")); putp ptr.
Definition mvcursor (zeile spalte : Z) : M unit :=
  cap ← sys (Clib "tigetstr" [] (str "cup"));
  p ← sys (Clib "tparm" [rv cap; zeile; spalte] (rdata cap));
  putp p.
Definition myflash : M unit := flash ← sys (Clib "tigetstr" [] (str "flash")); putp flash;; putp flash.
Definition weiter : list Z := line "Weiter mit ENTER".
Definition terminfo2_main : M Z :=
  setup;;
  clrscr;;
  for_caps boolcaps (λ i c, ret ← lib "tigetflag" [] c; mvcursor (i + 2) 10;; printf (flag_line c ret));;
  mvcursor 10 10;; printf weiter;; getchar;; clrscr;;
  for_caps numcaps (λ i c, ret ← lib "tigetnum" [] c; mvcursor (i + 2) 10;; printf (num_line c ret));;
  mvcursor 10 10;; printf weiter;; getchar;; clrscr;;
  for_caps strcaps (λ i c, buf ← sys (Clib "tigetstr" [] c); mvcursor (i + 2) 10;; t ← mem (str_line c buf); printf t);;
  mvcursor 10 10;; printf weiter;; getchar;; myflash;; clrscr;;
  mret EXIT_SUCCESS.
End Info2.

Module Tty.
Definition my_tty_main : M Z :=
  ptr ← sys (Clib "ctermid" [] []);
  (if decide (rv ptr ≠ 0) then t ← mem (deref ptr); printf (str "Kontrollterminal-Name = " ++ t ++ [LF])
   else printf (line "Konnte Terminal nicht ermitteln"));;
  mret EXIT_SUCCESS.
Definition sende_main (argv : list (list Z)) : M Z :=
  name ← sys (Clib "ttyname" [0] []);
  t ← mem (deref name); text ← arg argv 1;
  printf (str "Nachricht von Terminal " ++ t ++ [LF] ++ text);;
  mret EXIT_SUCCESS.
End Tty.

(** ** Theorems *)
Module Pages.
Import Info Info2.
Section env.
Context (e : env) (flag num : list Z → Z) (text : list Z → ans).
(** The terminal database answers by the name of the capability. *)
Record database : Prop := {
  db_setup h : rv (kern e h (Clib "setupterm" [0; 0; 0] [])) = 0;
  db_flag h c : rv (kern e h (Clib "tigetflag" [] c)) = flag c;
  db_num h c : rv (kern e h (Clib "tigetnum" [] c)) = num c;
  db_text h c : kern e h (Clib "tigetstr" [] c) = text c }.
Context (D : database).

(** [m] prints [d] and comes to its end. *)
Definition prints {A} (m : M A) (d : list Z) : Prop :=
  ∀ s, wp m e s (λ o s', (∃ a, o = Val a) ∧ printed Stdout (hist s') = printed Stdout (hist s) ++ d).
Lemma prints_bind {A B} (m : M A) (f : A → M B) d1 d2 : prints m d1 → (∀ a, prints (f a) d2) → prints (m ≫= f) (d1 ++ d2).
Proof.
  intros Hm Hf s. apply wp_bind. eapply wp_mono; [exact (Hm s)|]. intros o s' [[a ->] H1]. cbn [bpost].
  eapply wp_mono; [exact (Hf a s')|]. intros o s'' [Ho H2]. split; [done|]. by rewrite H2, H1, <- app_assoc.
Qed.
Lemma prints_ret {A} (a : A) : prints (mret a) [].
Proof. intros s. wp_steps. split; [by eexists|by rewrite app_nil_r]. Qed.
Lemma prints_printf d : prints (printf d) d.
Proof. intros s. wp_steps. split; [by eexists|]. by hist_norm. Qed.
Lemma prints_sys {A} c (f : ans → M A) d : (∀ h, prints (f (kern e h c)) d) → prints (sys c ≫= f) d.
Proof.
  intros Hf s. wp_steps. subst a. eapply wp_mono; [apply Hf|]. intros o s' [Ho H]. split; [done|]. rewrite H. by hist_norm.
Qed.
Lemma prints_lib {A} fn a t (f : Z → M A) d : (∀ h, prints (f (rv (kern e h (Clib fn a t)))) d) → prints (lib fn a t ≫= f) d.
Proof.
  intros Hf s. apply wp_bind, wp_lib. intros r ->. cbn [bpost]. eapply wp_mono; [apply Hf|]. intros o s' [Ho H]. split; [done|]. rewrite H. by hist_norm.
Qed.
Lemma prints_quiet {A B} (m : M A) (f : A → M B) d : prints m [] → (∀ a, prints (f a) d) → prints (m ≫= f) d.
Proof. apply (prints_bind m f [] d). Qed.
Lemma prints_mem {A B} (a : A) (f : A → M B) d : prints (f a) d → prints (mem (Some a) ≫= f) d.
Proof. intros H s. apply wp_bind, wp_mem_Some. apply H. Qed.
Lemma prints_getchar : prints getchar [].
Proof. intros s. unfold wp, getchar. rewrite app_nil_r. by destruct (stdin s); (split; [eexists|]). Qed.
Lemma prints_putp p : prints (putp p) [].
Proof. apply prints_lib. intros h. apply prints_ret. Qed.
Lemma prints_mvcursor a b : prints (mvcursor a b) [].
Proof. apply prints_sys. intros h. apply prints_sys. intros h'. apply prints_putp. Qed.
Lemma prints_clrscr : prints clrscr [].
Proof. apply prints_sys. intros h. apply prints_putp. Qed.
Lemma prints_myflash : prints myflash [].
Proof. apply prints_sys. intros h. apply prints_quiet; [apply prints_putp|intros _; apply prints_putp]. Qed.
Lemma prints_setup : prints setup [].
Proof. apply prints_lib. intros h. rewrite (db_setup D), decide_False by lia. apply prints_ret. Qed.
(** One page: a line for each capability. *)
Lemma prints_caps caps f ls : length caps = CAPS → length ls = CAPS →
  (∀ i c d, caps !! i = Some c → ls !! i = Some d → prints (f (Z.of_nat i) c) d) → prints (for_caps caps f) (concat ls).
Proof.
  unfold CAPS. intros Hc Hl Hf. destruct caps as [|c0 [|c1 [|c2 [|c3 [|]]]]]; try done. destruct ls as [|l0 [|l1 [|l2 [|l3 [|]]]]]; try done.
  unfold for_caps. cbn [for_range CAPS concat].
  repeat (apply prints_bind; [|intros _]); [apply (Hf 0%nat)|apply (Hf 1%nat)|apply (Hf 2%nat)|apply (Hf 3%nat)|apply prints_ret]; done.
Qed.
(** A line of a page is the answer of the database, whatever is done before it is printed. *)
Ltac page D :=
  apply prints_caps; [done|done|]; intros i c d Hc Hd; rewrite list_lookup_fmap, Hc in Hd; injection Hd as <-;
  apply prints_lib; intros h; rewrite ?(db_flag D), ?(db_num D); repeat (apply prints_quiet; [apply prints_mvcursor|intros _]); apply prints_printf.
Lemma text_page (g : Z → ans → list Z → M unit) ls :
  (∀ i c d, str_line c (text c) = Some d → prints (g i (text c) c) d) → mapM (λ c, str_line c (text c)) strcaps = Some ls →
  prints (for_caps strcaps (λ i c, buf ← sys (Clib "tigetstr" [] c); g i buf c)) (concat ls).
Proof.
  intros Hg Hls. apply mapM_Some in Hls. pose proof (Forall2_length _ _ _ Hls) as Hlen. apply prints_caps; [done|done|].
  intros i c d Hc Hd. pose proof (Forall2_lookup_lr _ _ _ _ _ _ Hls Hc Hd) as Ht.
  apply prints_sys. intros h. rewrite (db_text D). by apply Hg.
Qed.

(** The three pages. *)
Definition page1 : list Z := concat ((λ c, flag_line c (flag c)) <$> boolcaps).
Definition page2 : list Z := concat ((λ c, num_line c (num c)) <$> numcaps).
Lemma terminfo_prints ls : mapM (λ c, str_line c (text c)) strcaps = Some ls →
  prints terminfo_main (page1 ++ [LF] ++ page2 ++ [LF] ++ concat ls).
Proof.
  intros Hls. unfold terminfo_main. apply prints_quiet; [apply prints_setup|intros _].
  apply prints_bind; [page D|intros _]. apply prints_bind; [apply prints_printf|intros _].
  apply prints_bind; [page D|intros _]. apply prints_bind; [apply prints_printf|intros _].
  rewrite <- (app_nil_r (concat ls)). apply prints_bind; [|intros _; apply prints_ret].
  apply (text_page (λ _ buf c, t ← mem (str_line c buf); printf t)); [|done].
  intros _ c d Hd. rewrite Hd. apply prints_mem, prints_printf.
Qed.
Lemma terminfo2_prints ls : mapM (λ c, str_line c (text c)) strcaps = Some ls →
  prints terminfo2_main (page1 ++ weiter ++ page2 ++ weiter ++ concat ls ++ weiter).
Proof.
  intros Hls. unfold terminfo2_main. apply prints_quiet; [apply prints_setup|intros _]. apply prints_quiet; [apply prints_clrscr|intros _].
  apply prints_bind; [page D|intros _]. apply prints_quiet; [apply prints_mvcursor|intros _]. apply prints_bind; [apply prints_printf|intros _].
  apply prints_quiet; [apply prints_getchar|intros _]. apply prints_quiet; [apply prints_clrscr|intros _].
  apply prints_bind; [page D|intros _]. apply prints_quiet; [apply prints_mvcursor|intros _]. apply prints_bind; [apply prints_printf|intros _].
  apply prints_quiet; [apply prints_getchar|intros _]. apply prints_quiet; [apply prints_clrscr|intros _].
  apply prints_bind.
  { apply (text_page (λ i buf c, mvcursor (i + 2) 10;; t ← mem (str_line c buf); printf t)); [|done].
    intros i c d Hd. rewrite Hd. apply prints_quiet; [apply prints_mvcursor|intros _]. apply prints_mem, prints_printf. }
  intros _.
  apply prints_quiet; [apply prints_mvcursor|intros _]. rewrite <- (app_nil_r weiter). apply prints_bind; [apply prints_printf|intros _].
  apply prints_quiet; [apply prints_getchar|intros _]. apply prints_quiet; [apply prints_myflash|intros _]. apply prints_quiet; [apply prints_clrscr|intros _].
  apply prints_ret.
Qed.
End env.

(** terminfo.c prints what the database says of the twelve capabilities,
    and terminfo2.c, which moves the cursor and waits for a key between the
    pages, prints the same lines. *)
Theorem terminfo_pages e flag num text ls inp : database e flag num text → mapM (λ c, str_line c (text c)) strcaps = Some ls →
  wp terminfo_main e (init () inp) (λ o s, (∃ a, o = Val a) ∧ printed Stdout (hist s) = page1 flag ++ [LF] ++ page2 num ++ [LF] ++ concat ls) ∧
  wp terminfo2_main e (init () inp) (λ o s, (∃ a, o = Val a) ∧ printed Stdout (hist s) = page1 flag ++ weiter ++ page2 num ++ weiter ++ concat ls ++ weiter).
Proof.
  intros D Hls. split; [exact (terminfo_prints e flag num text D ls Hls (init () inp))|exact (terminfo2_prints e flag num text D ls Hls (init () inp))].
Qed.
(** A terminal without colours. *)
Definition e_db : env := Env (λ _ c, match c with
  | Clib "tigetnum" _ n => answer (if decide (n = str "cols") then 80 else -1)
  | Clib "tigetstr" _ _ => answer_data 7 (27 :: str "[x")
  | _ => answer 0 end) (λ _, []) (λ _, None) (λ _, None) (λ _, []).
Lemma terminfo_pages_witness :
  wp terminfo_main e_db (init () []) (λ o s, (∃ a, o = Val a) ∧ printed Stdout (hist s) =
    page1 (λ _, 0) ++ [LF] ++ page2 (λ n, if decide (n = str "cols") then 80 else -1) ++ [LF] ++ concat ((λ c, c ++ str " ist \E[x" ++ [LF]) <$> strcaps)).
Proof.
  apply (terminfo_pages e_db (λ _, 0) (λ n, if decide (n = str "cols") then 80 else -1) (λ _, answer_data 7 (27 :: str "[x")) _ []).
  - split; done.
  - reflexivity.
Defined.
(** A capability that the terminal does not have is answered with 0, and
    terminfo.c says that it is supported. *)
Lemma absent_flag_supported c : flag_line c 0 = c ++ line " wird unterstuetzt".
Proof. done. Qed.
End Pages.

Module Names.
Import Tty.
(** sende.c prints through a null pointer when its input is not a terminal, or
    when it has no argument. *)
Lemma sende_undefined e argv inp : rv (kern e [] (Clib "ttyname" [0] [])) = 0 ∨ (length argv ≤ 1)%nat →
  (sende_main argv e (init () inp)).1 = Undef.
Proof.
  intros H. change (wp (sende_main argv) e (init () inp) (λ o _, o = Undef)). unfold sende_main. wp_steps. unfold deref.
  case_decide as Hd; [by wp_steps|]. destruct H as [H|H]; [subst a; cbn in Hd; tauto|]. wp_steps. unfold arg.
  rewrite lookup_ge_None_2 by done. by wp_steps.
Qed.
Lemma sende_prints e prog text rest t s : kern e (hist s) (Clib "ttyname" [0] []) = answer_data 1 t →
  wp (sende_main (prog :: text :: rest)) e s (λ o s', o = Val EXIT_SUCCESS ∧
    printed Stdout (hist s') = printed Stdout (hist s) ++ str "Nachricht von Terminal " ++ t ++ [LF] ++ text).
Proof.
  intros H. unfold sende_main. wp_steps. subst a. rewrite H. unfold arg. wp_steps. split; [done|]. by hist_norm.
Qed.
End Names.
