(* ===== verification/CursesPrograms.v ===== *)
(** * 13_Terminal: the curses programs and their types

    The definitions of [cur2.c] to [cur15.c], and the theorem that each of
    them is typed in the sense of [Curses.v]. *)
From S2P Require Import Prelude CLib Machine FileIO Curses.

Definition getch : M Z := lib "getch" [] [].
Definition printw (text : list Z) : M unit := cur "printw" [] text.
Definition mvprintw (y x : Z) (text : list Z) : M unit := cur "mvprintw" [y; x] text.
Definition addch (c : Z) : M unit := cur "addch" [c] [].
Definition mvaddch (y x c : Z) : M unit := cur "mvaddch" [y; x; c] [].
Definition initscr : M unit := cur "initscr" [] [].
Definition endwin : M unit := cur "endwin" [] [].
Definition noecho : M unit := cur "noecho" [] [].
Definition refresh : M unit := cur "refresh" [] [].
Definition clear : M unit := cur "clear" [] [].
Definition halfdelay (n : Z) : M unit := cur "halfdelay" [n] [].
Definition keypad (w : Z) : M unit := cur "keypad" [w; TRUE] [].
Definition scrollok (w : Z) : M unit := cur "scrollok" [w; TRUE] [].
Definition attrset (a : Z) : M unit := cur "attrset" [a] [].
Definition init_pair (i f b : Z) : M unit := cur "init_pair" [i; f; b] [].
Definition touchwin (w : Z) : M unit := cur "touchwin" [w] [].
Definition wrefresh (w : Z) : M unit := cur "wrefresh" [w] [].
Definition wgetch (w : Z) : M Z := lib "wgetch" [w] [].
Definition mvwin (w y x : Z) : M unit := cur "mvwin" [w; y; x] [].
Definition delwin (w : Z) : M unit := cur "delwin" [w] [].
Definition mvwprintw (w y x : Z) (text : list Z) : M unit := cur "mvwprintw" [w; y; x] text.
Definition mvwaddch (w y x c : Z) : M unit := cur "mvwaddch" [w; y; x; c] [].
Definition wattrset (w a : Z) : M unit := cur "wattrset" [w; a] [].
(** A key, by its character. *)
Definition key (c : string) : Z := default 0 (head (str c)).

(** ** cur2.c *)
Module Cur2.
Definition key_text (c : Z) : list Z :=
  if decide (c = KEY_DOWN) then str "KEY_DOWN : " ++ dec c ++ [LF]
  else if decide (c = KEY_UP) then str "KEY_UP : " ++ dec c ++ [LF]
  else if decide (c = KEY_LEFT) then str "KEY_LEFT : " ++ dec c ++ [LF]
  else if decide (c = KEY_RIGHT) then str "KEY_RIGHT : " ++ dec c ++ [LF]
  else str "Tastaturcode : " ++ dec c ++ [LF].
Definition cur2_body (u : unit) : M (unit + unit) :=
  c ← getch;
  if decide (c = key "q") then mret (inr ()) else printw (key_text c);; mret (inl ()).
Definition cur2_main (fuel : nat) : M Z :=
  initscr;; keypad stdscr;; noecho;;
  loop fuel cur2_body ();;
  endwin;; mret 0.
End Cur2.

(** ** cur3.c and cur4.c *)
Module Cur34.
Definition MAX : nat := 100.
(** [getnstr(string, MAX)]: the line that was typed, and a terminator. *)
Definition getnstr (fn : string) (args : list Z) (string : buf) : M buf :=
  a ← sys (Clib fn (args ++ [Z.of_nat MAX]) []);
  mem (blit string 0 (rdata a ++ [0])).
Definition cur3_main : M Z :=
  initscr;;
  printw (str "Bitte Eingabe machen : ");;
  string ← getnstr "getnstr" [] (uninit MAX);
  mvprintw 5 10 (str "Eingabe machen : ");;
  string2 ← getnstr "mvgetnstr" [5; 30] (uninit MAX);
  endwin;;
  s ← mem (cstr string); printf (str "Die 1. Eingabe lautet: " ++ s ++ [LF]);;
  s ← mem (cstr string2); printf (str "Die 2. Eingabe lautet: " ++ s ++ [LF]);;
  mret 0.
Definition string3 : list Z := line "Dies ist der neue String3".
Definition cur4_main : M Z :=
  initscr;;
  printw (str "Bitte Eingabe machen : ");;
  string ← getnstr "getnstr" [] (uninit MAX);
  mvprintw 3 0 (str "Eingabe für 2. String machen : ");;
  string2 ← getnstr "getnstr" [] (uninit MAX);
  s ← mem (cstr string); mvprintw 7 20 (str "String ist gleich: " ++ s ++ [LF]);;
  mvprintw 8 20 (line "Diese Zeile wird mit deleteln() gelöscht");;
  s ← mem (cstr string2); mvprintw 7 20 (str "String 2 ist gleich: " ++ s ++ [LF]);;
  mvprintw 14 20 (str "Weiter mit TASTE");;
  noecho;;
  getch;;
  cur "move" [8; 20] [];;
  cur "deleteln" [] [];;
  noecho;;
  getch;;
  cur "move" [8; 20] [];;
  cur "insertln" [] [];;
  mvprintw 8 20 string3;;
  getch;;
  clear;; refresh;;
  mvprintw 12 38 (str "ENDE");;
  halfdelay 20;;
  getch;;
  endwin;; mret 0.
End Cur34.

(** ** cur5.c and cur6.c *)
Module Cur56.
Definition hline : M unit := for_range 20 0 (λ _, addch (ACS "q")).
Definition column (j : Z) : M unit :=
  if decide (j = 0) then addch (ACS "x")
  else if decide (j = 21) then addch (ACS "x");; addch LF
  else addch SPC.
Definition cur5_main : M Z :=
  initscr;;
  addch (ACS "l");; hline;; addch (ACS "k");; addch LF;;
  for_range 10 0 (λ _, for_range 22 0 column);;
  addch (ACS "m");; hline;; addch (ACS "j");; addch LF;;
  mvprintw 5 7 (str "<TASTE>");;
  getch;;
  endwin;; mret 0.
Definition cur6_main : M Z :=
  initscr;;
  mvprintw 5 5 (str "Diese Zeile enthaelt einen Fehhler");;
  mvprintw 6 5 (str "Taste druecken fuer Korrektur");;
  getch;;
  cur "mvdelch" [5; 34] [];;
  mvprintw 7 5 (str "Fehler wurde korrigiert! Bitte Taste druecken!");;
  getch;;
  endwin;; mret 0.
End Cur56.

(** ** cur7.c, cur8.c and cur9.c *)
Module Scroll.
Definition wait_line (text : list Z) (i : Z) : M unit :=
  printw (dec i ++ text ++ [LF]);; halfdelay 2;; getch;; mret ().
Definition ohne : list Z := str ": Ohne Funktion scrollok()".
Definition mit : list Z := str ": Mit Funktion scrollok()".
(** What the three have in common: thirty lines, then thirty with scrolling. *)
Definition twice (step : list Z → Z → M unit) : M Z :=
  for_range 30 0 (step ohne);;
  clear;; refresh;;
  scrollok stdscr;;
  for_range 30 0 (step mit);;
  getch;;
  endwin;; mret 0.
Definition cur7_main : M Z := initscr;; twice wait_line.
Definition cur8_main : M Z := initscr;; cur "setscrreg" [5; 10] [];; twice wait_line.
Definition yx_line (text : list Z) (i : Z) : M unit :=
  '(y, x) ← two "getyx" [stdscr];
  printw (dec i ++ str ". (" ++ dec y ++ str "/" ++ dec x ++ str ")" ++ text ++ [LF]);; halfdelay 2;; getch;; mret ().
Definition cur9_main : M Z := initscr;; cur "setscrreg" [0; 10] [];; twice yx_line.
End Scroll.

(** ** cur10.c and cur11.c *)
Module Ship.
Definition QUIT : Z := 113.
Definition LEFT : Z := 260.
Definition RIGHT : Z := 261.
Definition print_raumschiff (x : Z) : M unit :=
  cur "mvdelch" [9; x + 2] [];; cur "mvdelch" [9; x + 1] [];; cur "mvdelch" [9; x] [];;
  cur "mvdelch" [9; x - 1] [];; cur "mvdelch" [9; x - 2] [];;
  mvaddch 10 (x - 1) (ACS "m");; mvaddch 10 (x + 1) (ACS "j");; mvaddch 10 x (ACS "w").
(** The switch: the position after a key. *)
Definition steer (x c : Z) : Z :=
  if decide (c = LEFT) then (if decide (x < 1) then 79 else x - 1)
  else if decide (c = RIGHT) then (if decide (x > 79) then 1 else x + 1)
  else x.
Definition help : list Z :=
  str "'q' druecken fuer Quit | " ++ str "Taste fuer Start | " ++ str "<- nach links -> nach rechts".
Definition star (x : Z) (i : Z) : M unit :=
  zufall ← lib "rand" [] [];
  mvaddch 20 (Z.rem zufall 79) (key "*");;
  mvprintw 0 0 help;;
  mvprintw 1 0 (str "Position Raumschiff " ++ dec x).
(** One turn of the loop; the state is [x] and [c]. *)
Definition fly (star : Z → Z → M unit) (print : Z → M unit) (xc : Z * Z) : M (Z * Z + Z) :=
  let '(x, c) := xc in
  if decide (c = QUIT) then mret (inr x)
  else
    cur "scrl" [1] [];;
    for_range 5 0 (star x);;
    c ← getch;
    halfdelay 3;;
    print (steer x c);;
    mret (inl (steer x c, c)).
Definition cur10_main (fuel : nat) : M Z :=
  cur "srand" [79] [];;
  initscr;; keypad stdscr;; noecho;; scrollok stdscr;;
  cur "scroll" [stdscr] [];;
  loop fuel (fly star print_raumschiff) (40, 0);;
  endwin;; mret 0.

(** cur11.c: the same in colours. *)
Definition COLOR_BLACK : Z := 0.
Definition COLOR_RED : Z := 1.
Definition COLOR_YELLOW : Z := 3.
Definition COLOR_BLUE : Z := 4.
Definition print_raumschiff2 (x : Z) : M unit :=
  cur "mvdelch" [9; x + 2] [];; cur "mvdelch" [9; x + 1] [];; cur "mvdelch" [9; x] [];;
  cur "mvdelch" [9; x - 1] [];; cur "mvdelch" [9; x - 2] [];;
  attrset (Z.lor A_BOLD (COLOR_PAIR 2));;
  mvaddch 10 (x - 1) (ACS "m");; mvaddch 10 (x + 1) (ACS "j");;
  attrset (Z.lor A_BOLD (COLOR_PAIR 3));;
  mvaddch 10 x (ACS "w").
Definition star2 (x : Z) (i : Z) : M unit :=
  zufall ← lib "rand" [] [];
  attrset (Z.lor A_DIM (COLOR_PAIR 1));;
  mvaddch 20 (Z.rem zufall 79) (key "*");;
  attrset (Z.lor (Z.lor A_UNDERLINE A_BOLD) (COLOR_PAIR 4));;
  mvprintw 0 0 help;;
  mvprintw 1 0 (str "Position Raumschiff " ++ dec x).
Definition has_colors : M Z := lib "has_colors" [] [].
Definition cur11_main (fuel : nat) : M Z :=
  cur "srand" [79] [];;
  initscr;;
  r ← has_colors;
  (if decide (r = TRUE) then cur "start_color" [] [] else exit EXIT_FAILURE);;
  keypad stdscr;; noecho;; scrollok stdscr;;
  cur "scroll" [stdscr] [];;
  init_pair 1 COLOR_YELLOW COLOR_BLACK;; init_pair 2 COLOR_RED COLOR_RED;;
  init_pair 3 COLOR_BLUE COLOR_BLACK;; init_pair 4 COLOR_BLACK COLOR_BLUE;;
  loop fuel (fly star2 print_raumschiff2) (40, 0);;
  endwin;; mret 0.
End Ship.

(** ** cur12.c *)
Module Windows.
Definition rot : Z := 1.
Definition gruen : Z := 2.
Definition blau : Z := 4.
Definition weiss : Z := 7.
Definition show_all_pairs : M unit :=
  mvprintw 1 1 (line "Darstellung aller Farbpaare: ");;
  r ← Ship.has_colors;
  (if decide (r = TRUE) then
     cur "start_color" [] [];;
     for_range 8 0 (λ k, for_range 8 0 (λ farbe2,
       let farbe1 := weiss - k in let i := 1 + 8 * k + farbe2 in
       init_pair i farbe1 farbe2;; attrset (COLOR_PAIR i);; printw (str " " ++ dec i ++ str " ")))
   else mret ());;
  noecho;;
  getch;; mret ().
Definition create_new_window (zeilen spalten hinterg vorderg begin_y begin_x : Z) (text : list Z) (text_y text_x : Z) : M Z :=
  neues_fenster ← lib "newwin" [zeilen; spalten; begin_y; begin_x] [];
  init_pair 1 hinterg vorderg;;
  wattrset neues_fenster (COLOR_PAIR 1);;
  cur "box" [neues_fenster; ACS "x"; ACS "q"] [];;
  mvwprintw neues_fenster text_y text_x text;;
  mret neues_fenster.
Definition show (w : Z) : M unit := wrefresh w;; wgetch w;; mret ().
Definition cur12_main : M Z :=
  initscr;;
  cur "raw" [] [];; keypad stdscr;;
  r ← Ship.has_colors;
  (if decide (r = TRUE) then cur "start_color" [] [] else mret ());;
  show_all_pairs;;
  clear;; refresh;;
  fenster1 ← create_new_window 11 50 blau weiss 0 0 (str "Hallo Welt") 5 20;
  keypad fenster1;; show fenster1;;
  fenster2 ← create_new_window 10 50 rot gruen 11 30 (str "Fenster 2") 1 1;
  keypad fenster2;; show fenster2;;
  mvwprintw fenster1 5 5 (str "Wir verschieben Fenster 2 mit mvwin()");; show fenster1;;
  '(y, x) ← two "getbegyx" [fenster2];
  touchwin stdscr;; refresh;;
  mvwin fenster2 (y + 3) (x - 20);;
  touchwin fenster1;; wrefresh fenster1;; show fenster2;;
  mvwprintw fenster1 5 5 (str "Wir loeschen Fenster 2 mit delwin()");; show fenster1;;
  delwin fenster2;;
  touchwin stdscr;; refresh;;
  mvwin fenster1 0 0;; show fenster1;;
  mvwprintw fenster1 5 5 (str "Wir kopieren dieses Fenster mit dupwin()");; show fenster1;;
  fenster2 ← lib "dupwin" [fenster1] [];
  mvwin fenster2 12 0;; show fenster2;;
  mvwprintw fenster1 5 1 (str "Fenster 1 wird nun geloescht");; show fenster1;;
  delwin fenster1;;
  touchwin stdscr;; refresh;;
  touchwin fenster2;; show fenster2;;
  attrset (COLOR_PAIR 0);;
  mvprintw 1 1 (str "Nun wird das letzte Fenster auch beendet");; refresh;;
  wgetch fenster2;; delwin fenster2;;
  touchwin stdscr;; refresh;;
  mvprintw 1 1 (str "Jetzt ist nur nach das stdscr Fenster in Betrieb");;
  getch;;
  endwin;; mret 0.
End Windows.

(** ** cur13.c, cur14.c and cur15.c *)
Module Mouse.
Record MEVENT := { pos_y : Z; pos_x : Z; bstate : Z }.
(** [getmouse(&pos) == OK] *)
Definition getmouse : M (option MEVENT) :=
  a ← sys (Clib "getmouse" [] []);
  if decide (rv a = OK) then
    y ← mem (rwords a !! 0%nat); x ← mem (rwords a !! 1%nat); b ← mem (rwords a !! 2%nat);
    mret (Some {| pos_y := y; pos_x := x; bstate := b |})
  else mret None.
Definition wenclose (w : Z) (pos : MEVENT) : M unit := cur "wenclose" [w; pos_y pos; pos_x pos] [].
Definition yx (pos : MEVENT) : list Z := str "y = " ++ pad_left 2 (dec (pos_y pos)) ++ str " x = " ++ pad_left 2 (dec (pos_x pos)).
Definition cur13_body (u : unit) : M (unit + Z) :=
  button ← wgetch stdscr;
  (if decide (button = KEY_MOUSE) then
     pos ← getmouse;
     match pos with
     | Some pos => wenclose stdscr pos;; mvwprintw stdscr 1 0 (yx pos)
     | None => mret ()
     end
   else mret ());;
  wrefresh stdscr;;
  mret (inl ()).
Definition cur13_main (fuel : nat) : M Z :=
  initscr;; noecho;; keypad stdscr;;
  cur "mousemask" [BUTTON1_PRESSED] [];;
  loop fuel cur13_body ().
Definition all_buttons : Z := Z.lor (Z.lor BUTTON1_RELEASED BUTTON1_PRESSED) BUTTON1_CLICKED.
Definition cur14_body (u : unit) : M (unit + Z) :=
  button ← wgetch stdscr;
  clear;;
  (if decide (button = KEY_MOUSE) then
     pos ← getmouse;
     match pos with
     | Some pos =>
         (if decide (bstate pos = BUTTON1_PRESSED) then
            wenclose stdscr pos;; mvwprintw stdscr 1 0 (str "Linke Maustaste gedrueckt: " ++ yx pos) else mret ());;
         (if decide (bstate pos = BUTTON1_RELEASED) then
            cur "mouseinterval" [1] [];;
            wenclose stdscr pos;; mvwprintw stdscr 2 0 (str "Linke Maustaste losgelassen: " ++ yx pos) else mret ())
     | None => mret ()
     end
   else mret ());;
  wrefresh stdscr;;
  mret (inl ()).
Definition cur14_main (fuel : nat) : M Z :=
  initscr;; noecho;; keypad stdscr;;
  cur "mousemask" [all_buttons] [];;
  loop fuel cur14_body ().

(** cur15.c: the variable [size], the place of the last click, and [fenster]. *)
Definition MAXSIZE : Z := 1.
Definition MINSIZE : Z := 0.
Record maxi := { size : Z; y_click : Z; x_click : Z; fenster : Z }.
Definition where_clicked (win : Z) (s : maxi) (pos : MEVENT) : M maxi :=
  '(y_click2, x_click2) ← two "getbegyx" [fenster s];
  cur "mouseinterval" [1] [];;
  wenclose win pos;;
  let s := {| size := size s; y_click := pos_y pos; x_click := pos_x pos; fenster := fenster s |} in
  if decide (y_click s = y_click2 ∧ x_click s = x_click2) then
    endwin;; exit EXIT_FAILURE
  else if decide (y_click s = y_click2 ∧ (x_click s = x_click2 + 39 ∨ x_click s = x_click2 + 78)) then
    touchwin stdscr;;
    refresh;;
    if decide (size s = MINSIZE) then
      delwin (fenster s);; mret {| size := MAXSIZE; y_click := y_click s; x_click := x_click s; fenster := fenster s |}
    else if decide (size s = MAXSIZE) then
      delwin (fenster s);; mret {| size := MINSIZE; y_click := y_click s; x_click := x_click s; fenster := fenster s |}
    else mret s
  else mret s.
Definition move_win_to (s : maxi) (win : Z) : M unit :=
  touchwin stdscr;; wrefresh stdscr;;
  mvwin win (y_click s + 1) (x_click s + 1);;
  touchwin win;; wrefresh win.
Definition create_window (zeilen spalten hinterg vorderg begin_y begin_x : Z) : M Z :=
  neues_fenster ← lib "newwin" [zeilen; spalten; begin_y; begin_x] [];
  init_pair 1 hinterg vorderg;;
  wattrset neues_fenster (COLOR_PAIR 1);;
  cur "box" [neues_fenster; ACS "x"; ACS "q"] [];;
  mret neues_fenster.
(** The two buttons in the frame and the two lines of text. *)
Definition decorate (f m y1 y2 x : Z) : M unit :=
  wattrset f (COLOR_PAIR 2);;
  mvwaddch f 0 0 (key "S");; mvwaddch f 0 m (key "M");;
  wattrset f (COLOR_PAIR 0);;
  mvwprintw f y1 x (str "S=Fenster schliessen");;
  mvwprintw f y2 x (str "M=Fenster maximieren");;
  wrefresh f.
Definition with_fenster (s : maxi) (f : Z) : maxi :=
  {| size := size s; y_click := y_click s; x_click := x_click s; fenster := f |}.
Definition cur15_body (s : maxi) : M (maxi + Z) :=
  button ← wgetch stdscr;
  if decide (button = KEY_MOUSE) then
    pos ← getmouse;
    match pos with
    | Some pos =>
        s ← where_clicked stdscr s pos;
        if decide (size s = MAXSIZE) then
          f ← create_window 24 79 Ship.COLOR_RED Ship.COLOR_BLUE 0 0;
          decorate f 78 10 14 30;;
          mret (inl (with_fenster s f))
        else if decide (size s = MINSIZE) then
          f ← create_window 10 40 Ship.COLOR_RED Ship.COLOR_BLUE 5 15;
          init_pair 2 Ship.COLOR_BLACK Ship.COLOR_YELLOW;;
          decorate f 39 2 6 10;;
          move_win_to s f;;
          mret (inl (with_fenster s f))
        else mret (inl s)
    | None => mret (inl s)
    end
  else mret (inl s).
Definition cur15_main (fuel : nat) : M Z :=
  initscr;;
  r ← Ship.has_colors;
  (if decide (r = TRUE) then cur "start_color" [] [] else mret ());;
  noecho;; keypad stdscr;;
  cur "mousemask" [all_buttons] [];;
  f ← create_window 10 40 Ship.COLOR_RED Ship.COLOR_BLUE 5 15;
  init_pair 2 Ship.COLOR_BLACK Ship.COLOR_YELLOW;;
  decorate f 39 2 6 10;;
  loop fuel cur15_body {| size := MINSIZE; y_click := 0; x_click := 0; fenster := f |}.
End Mouse.

(** ** Typing *)

(** One call: the rule that fits its name. *)
Ltac ty_call :=
  lazymatch goal with
  | |- typed _ _ (cur "initscr" _ _) _ => apply t_init
  | |- typed _ _ (cur "endwin" _ _) _ => apply t_end
  | |- typed _ _ (cur "srand" _ _) _ => apply t_other; reflexivity
  | |- typed _ _ (cur "delwin" _ _) _ => apply t_del; set_solver
  | |- typed _ _ (cur _ _ _) _ =>
      apply t_cur; first [apply t_plain; reflexivity | apply t_window; [reflexivity|first [by left|right; set_solver]]]
  | |- typed ?e _ (lib "newwin" _ _) _ => apply (t_new e)
  | |- typed ?e _ (lib "dupwin" _ _) _ => apply (t_dup e); set_solver
  | |- typed _ _ (lib _ _ _) _ => first [apply t_plain; reflexivity | apply t_window; [reflexivity|first [by left|right; set_solver]]]
  | |- typed _ (has ?ws) (for_range _ _ _) _ => apply (typed_for _ (has ws)); intros ?
  | _ => eassumption
  end.
Ltac ty_unfold :=
  unfold getch, printw, mvprintw, addch, mvaddch, initscr, endwin, noecho, refresh, clear, halfdelay, keypad, scrollok,
    attrset, init_pair, touchwin, wrefresh, wgetch, mvwin, delwin, mvwprintw, mvwaddch, wattrset, Ship.has_colors in *.
(** One construct of a program; a conditional in the middle of a program leaves
    the screen as it is. *)
Ltac ty_step :=
  cbn beta iota;
  lazymatch goal with
  | |- typed _ (λ x, _ ∧ _) _ _ => apply typed_pure; intros
  | |- typed _ _ (mret _) _ => apply typed_ret; let x := fresh "x" in intros x Hx
  | |- typed _ (has ?ws) (mbind _ (if _ then _ else _)) _ => apply (typed_bind _ _ _ (λ _, has ws)); [|intros ?]
  | |- typed _ (has ?ws) (mbind _ (match _ with Some _ => _ | None => _ end)) _ => apply (typed_bind _ _ _ (λ _, has ws)); [|intros ?]
  | |- typed _ (has ?ws) (mbind _ (mbind _ _)) _ => apply (typed_bind _ _ _ (λ _, has ws)); [|intros ?]
  | |- typed _ (has ?ws) (mbind _ (for_range _ _ _)) _ => apply (typed_bind _ _ _ (λ _, has ws)); [|intros ?]
  | |- typed _ _ (mbind _ _) _ => eapply typed_bind; [solve [ty_call]|intros ?]
  | |- typed _ _ (if decide _ then _ else _) _ => apply typed_if; intros
  | |- typed _ _ (match ?o with Some _ => _ | None => _ end) _ => destruct o
  | |- typed _ _ _ _ => ty_call
  end.
Ltac ty := ty_unfold; repeat ty_step; try lazymatch goal with |- typed _ _ _ _ => fail | _ => done end.

Section typing.
Context (e : env) {CL : CursesLib e}.

Lemma t_two ws fn w : fn = "getyx"%string ∨ fn = "getbegyx"%string → w = stdscr ∨ w ∈ ws →
  typed e (has ws) (two fn [w]) (λ _, has ws).
Proof.
  intros Hfn Hw s x Hs Hx. unfold two. wp_steps. destruct (lib_two (hist s) fn [w]) as (y & z & b & E); [tauto|].
  rewrite <- Ha in E. rewrite E. wp_steps. exists x. split; [|done]. destruct Hx as (live & -> & Hl & _).
  eapply screen_call; [done|]. apply window_step; [by destruct Hfn as [-> | ->]|]. destruct Hw; [by left|right; set_solver].
Qed.
Lemma t_getmouse ws : typed e (has ws) Mouse.getmouse (λ _, has ws).
Proof.
  intros s x Hs Hx. unfold Mouse.getmouse. wp_steps. destruct (lib_two (hist s) "getmouse" []) as (y & z & b & E); [tauto|].
  rewrite <- Ha in E. assert (screen_of (hist (after (Clib "getmouse" [] []) a s)) = Some x) as Hx'.
  { destruct Hx as (live & -> & _). eapply screen_call; [done|]. by apply plain_step. }
  case_decide; wp_steps; [rewrite E; wp_steps|]; by exists x.
Qed.

Lemma cur2_typed fuel : typed e off (Cur2.cur2_main fuel) (λ _, off).
Proof.
  unfold Cur2.cur2_main. ty. eapply typed_bind; [apply t_loop; intros []; unfold Cur2.cur2_body; ty|intros ?].
  ty.
Qed.
Lemma cur5_typed : typed e off Cur56.cur5_main (λ _, off).
Proof. unfold Cur56.cur5_main, Cur56.hline, Cur56.column. ty. Qed.
Lemma cur6_typed : typed e off Cur56.cur6_main (λ _, off).
Proof. unfold Cur56.cur6_main. ty. Qed.
Lemma wait_line_typed text i : typed e (has ∅) (Scroll.wait_line text i) (λ _, has ∅).
Proof. unfold Scroll.wait_line. ty. Qed.
Lemma yx_line_typed text i : typed e (has ∅) (Scroll.yx_line text i) (λ _, has ∅).
Proof. unfold Scroll.yx_line. eapply typed_bind; [apply t_two; [by left|by left]|intros [y x]]. ty. Qed.
Lemma twice_typed step : (∀ t i, typed e (has ∅) (step t i) (λ _, has ∅)) → typed e (has ∅) (Scroll.twice step) (λ _, off).
Proof. intros H. unfold Scroll.twice. ty; apply H. Qed.
Lemma cur7_typed : typed e off Scroll.cur7_main (λ _, off).
Proof. unfold Scroll.cur7_main. ty. apply twice_typed, wait_line_typed. Qed.
Lemma cur8_typed : typed e off Scroll.cur8_main (λ _, off).
Proof. unfold Scroll.cur8_main. ty. apply twice_typed, wait_line_typed. Qed.
Lemma cur9_typed : typed e off Scroll.cur9_main (λ _, off).
Proof. unfold Scroll.cur9_main. ty. apply twice_typed, yx_line_typed. Qed.
Lemma fly_typed star print xc : (∀ x i, typed e (has ∅) (star x i) (λ _, has ∅)) → (∀ x, typed e (has ∅) (print x) (λ _, has ∅)) →
  typed e (has ∅) (Ship.fly star print xc) (λ _, has ∅).
Proof. intros Hs Hp. destruct xc as [x c]. unfold Ship.fly. ty; try apply Hs. eapply typed_bind; [apply Hp|intros ?]. ty. Qed.
Lemma cur10_typed fuel : typed e off (Ship.cur10_main fuel) (λ _, off).
Proof.
  unfold Ship.cur10_main. ty. eapply typed_bind; [apply t_loop; intros; apply fly_typed; intros|intros ?].
  - unfold Ship.star. ty.
  - unfold Ship.print_raumschiff. ty.
  - ty.
Qed.
Lemma cur13_typed fuel : typed e off (Mouse.cur13_main fuel) (λ _ _, False).
Proof.
  unfold Mouse.cur13_main. ty. apply t_forever. intros []. unfold Mouse.cur13_body, Mouse.wenclose. ty.
  - eapply typed_bind; [apply t_getmouse|intros [pos|]]; ty.
  - eauto.
Qed.
Lemma cur14_typed fuel : typed e off (Mouse.cur14_main fuel) (λ _ _, False).
Proof.
  unfold Mouse.cur14_main. ty. apply t_forever. intros []. unfold Mouse.cur14_body, Mouse.wenclose. ty.
  - eapply typed_bind; [apply t_getmouse|intros [pos|]]; ty.
  - eauto.
Qed.
(** A window that is created is new. *)
Definition fresh_in (ws : gset Z) (w : Z) (x : screen) : Prop := (w ≠ stdscr ∧ w ∉ ws) ∧ has ({[w]} ∪ ws) x.
Lemma create_typed ws a b c d f g t y x :
  typed e (has ws) (Windows.create_new_window a b c d f g t y x) (fresh_in ws).
Proof. unfold Windows.create_new_window, fresh_in. ty. Qed.
Lemma create2_typed ws a b c d f g :
  typed e (has ws) (Mouse.create_window a b c d f g) (fresh_in ws).
Proof. unfold Mouse.create_window, fresh_in. ty. Qed.
Lemma pairs_typed ws : typed e (has ws) Windows.show_all_pairs (λ _, has ws).
Proof. unfold Windows.show_all_pairs. ty. Qed.
Lemma cur12_typed : typed e off Windows.cur12_main (λ _, off).
Proof.
  unfold Windows.cur12_main, Windows.show. ty. eapply typed_bind; [apply pairs_typed|intros ?]. ty.
  eapply typed_bind; [apply create_typed|intros f1]. unfold fresh_in. ty.
  eapply typed_bind; [apply create_typed|intros f2]. unfold fresh_in. ty.
  eapply typed_bind; [apply t_two; [by right|right; set_solver]|intros [y x]]. ty.
Qed.

(** [cur15]: [size] is 0 or 1, and the window exists when the mouse is asked. *)
Definition sized (s : Mouse.maxi) : Prop := Mouse.size s = Mouse.MINSIZE ∨ Mouse.size s = Mouse.MAXSIZE.
Definition maxi_ok (s : Mouse.maxi) (x : screen) : Prop := sized s ∧ has {[Mouse.fenster s]} x.
Lemma has_less ws ws' x : ws' ⊆ ws → has ws x → has ws' x.
Proof. intros Hs (live & -> & H & H0). exists live. set_solver. Qed.
Lemma where_typed s pos : sized s →
  typed e (has {[Mouse.fenster s]}) (Mouse.where_clicked stdscr s pos) (λ s' x, sized s' ∧ has ∅ x).
Proof.
  intros Hz. unfold Mouse.where_clicked, Mouse.wenclose.
  eapply typed_bind; [apply t_two; [by right|right; set_solver]|intros [y x]]. cbn [Mouse.fenster Mouse.size Mouse.y_click Mouse.x_click].
  ty; first
  [ apply typed_exit; by intros
  | split; [by left + by right + done|eapply has_less; [|done]; set_solver] ].
Qed.
Lemma decorate_typed ws f m y1 y2 x : f ∈ ws → typed e (has ws) (Mouse.decorate f m y1 y2 x) (λ _, has ws).
Proof. intros Hf. unfold Mouse.decorate. ty. Qed.
Lemma cur15_body_typed s : typed e (maxi_ok s) (Mouse.cur15_body s) (λ r x, match r with inl s' => maxi_ok s' x | inr _ => False end).
Proof.
  unfold maxi_ok at 1. apply typed_pure. intros Hz. unfold Mouse.cur15_body. ty.
  eapply typed_bind; [apply t_getmouse|intros [pos|]]; [|ty].
  eapply typed_bind; [by apply where_typed|intros s']. cbn beta. apply typed_pure. intros Hz'.
  ty.
  - eapply typed_bind; [apply create2_typed|intros f]. unfold fresh_in. ty.
    eapply typed_bind; [apply decorate_typed; set_solver|intros ?]. ty. split; [by right|]. eapply has_less; [|done]. set_solver.
  - eapply typed_bind; [apply create2_typed|intros f]. unfold fresh_in. ty.
    eapply typed_bind; [apply decorate_typed; set_solver|intros ?]. unfold Mouse.move_win_to. ty.
    split; [by left|]. eapply has_less; [|done]. set_solver.
  - destruct Hz'; congruence.
Qed.
Lemma cur15_typed fuel : typed e off (Mouse.cur15_main fuel) (λ _ _, False).
Proof.
  unfold Mouse.cur15_main. ty. eapply typed_bind; [apply create2_typed|intros f]. unfold fresh_in. ty.
  eapply typed_bind; [apply decorate_typed; set_solver|intros ?].
  eapply typed_weaken; [apply (typed_loop e maxi_ok); intros s; apply cur15_body_typed| |done].
  intros x Hx. split; [by left|]. eapply has_less; [|done]. set_solver.
Qed.

(** The lines that are typed at [getnstr] are shorter than the buffer. *)
Class ShortLines : Prop :=
  short_line h fn args : (length (rdata (kern e h (Clib fn args []))) < Cur34.MAX)%nat.
Lemma getnstr_typed {SL : ShortLines} ws fn args : plain fn = true →
  typed e (has ws) (Cur34.getnstr fn args (uninit Cur34.MAX)) (λ b x, is_Some (cstr b) ∧ has ws x).
Proof.
  intros Hf s x Hs Hx. unfold Cur34.getnstr. wp_steps. pose proof (short_line (hist s) fn (args ++ [Z.of_nat Cur34.MAX])) as Hl.
  rewrite <- Ha in Hl.
  rewrite blit_Some by (rewrite length_app; unfold uninit; rewrite length_replicate; simpl; lia).
  wp_steps. exists x. split; [|split; [|done]].
  - destruct Hx as (live & -> & _). eapply screen_call; [done|]. by apply plain_step.
  - rewrite take_0, app_nil_l, fmap_app, <- app_assoc. destruct (cstr_stops (rdata a) (drop (0 + length (rdata a ++ [0])) (uninit Cur34.MAX))) as [l El].
    exists l. done.
Qed.
Lemma typed_mem {A} (P : screen → Prop) (o : option A) : is_Some o → typed e P (mem o) (λ _, P).
Proof. intros [a ->] s x Hs Hx. apply wp_mem_Some. by exists x. Qed.
Lemma typed_printf (P : screen → Prop) d : typed e P (printf d) (λ _, P).
Proof. by apply typed_output. Qed.
Ltac ty_line := eapply typed_bind; [apply getnstr_typed; reflexivity|intros ?; cbn beta; apply typed_pure; intros ?].
Ltac ty_mem := eapply typed_bind; [by apply typed_mem|intros ?].
Lemma cur3_typed {SL : ShortLines} : typed e off Cur34.cur3_main (λ _, off).
Proof.
  unfold Cur34.cur3_main. ty. ty_line. ty. ty_line. ty. ty_mem.
  eapply typed_bind; [apply typed_printf|intros ?]. ty_mem. eapply typed_bind; [apply typed_printf|intros ?]. ty.
Qed.
Lemma cur4_typed {SL : ShortLines} : typed e off Cur34.cur4_main (λ _, off).
Proof. unfold Cur34.cur4_main. ty. ty_line. ty. ty_line. ty_mem. ty. ty_mem. ty. Qed.
(** A line of as many characters as the program asks for overruns the buffer. *)
Lemma getnstr_overruns s fn args :
  length (rdata (kern e (hist s) (Clib fn (args ++ [Z.of_nat Cur34.MAX]) []))) = Cur34.MAX →
  wp (Cur34.getnstr fn args (uninit Cur34.MAX)) e s (λ o _, o = Undef).
Proof.
  intros Hl. unfold Cur34.getnstr. wp_steps. rewrite <- Ha in Hl.
  rewrite blit_None by (rewrite length_app; unfold uninit; rewrite length_replicate; simpl; lia). by apply wp_undef.
Qed.

(** A terminal with colours. *)
Class Colors : Prop := colors h : rv (kern e h (Clib "has_colors" [] [])) = TRUE.
Lemma colors_typed {CO : Colors} ws : typed e (has ws) Ship.has_colors (λ r x, r = TRUE ∧ has ws x).
Proof.
  apply typed_lib. intros x (live & -> & Hx) h r _ ->. exists (Some live). split; [by apply plain_step|].
  split; [apply colors|by exists live].
Qed.
Lemma cur11_typed {CO : Colors} fuel : typed e off (Ship.cur11_main fuel) (λ _, off).
Proof.
  unfold Ship.cur11_main. do 2 (ty_unfold; ty_step). eapply typed_bind; [apply colors_typed|intros r]. cbn beta. apply typed_pure. intros ->.
  rewrite decide_True by done. ty.
  eapply typed_bind; [apply t_loop; intros; apply fly_typed; intros|intros ?].
  - unfold Ship.star2. ty.
  - unfold Ship.print_raumschiff2. ty.
  - ty.
Qed.
(** Without colours [cur11] leaves the process inside of curses. *)
Lemma cur11_abandons fuel s : screen_of (hist s) = Some None → (∀ h, rv (kern e h (Clib "has_colors" [] [])) = 0) →
  wp (Ship.cur11_main fuel) e s (λ o s', o = Exit EXIT_FAILURE ∧ screen_of (hist s') = Some (Some ∅)).
Proof.
  intros Hs Hc. unfold Ship.cur11_main, initscr, cur, Ship.has_colors. wp_steps. subst.
  rewrite Hc, decide_False by done. wp_steps. split; [done|]. st_simpl. rewrite !screen_of_snoc, Hs. reflexivity.
Qed.
End typing.

(** ** Where the ship is drawn *)

Definition drawing_fns : list string := ["mvdelch"; "mvaddch"; "mvprintw"]%string.
(** A drawing call in the rows 0 to 20 and the columns -2 to 82. *)
Definition in_field (ev : event) : Prop :=
  match ev with
  | Sys (Clib fn (y :: x :: _) _) _ => fn ∈ drawing_fns → 0 ≤ y ≤ 20 ∧ -2 ≤ x ≤ 82
  | _ => True
  end.
Definition steered (x : Z) : Prop := 0 ≤ x ≤ 80.
Lemma steer_stays x c : steered x → steered (Ship.steer x c).
Proof. unfold steered, Ship.steer, Ship.LEFT, Ship.RIGHT. intros H. repeat case_decide; lia. Qed.
(** The numbers of [rand]. *)
Class RandOk (e : env) : Prop := rand_pos h : 0 ≤ rv (kern e h (Clib "rand" [] [])).
Section field.
Context (e : env) {RO : RandOk e}.
(** Every drawing call of [m] is in the field. *)
Definition drawn {A} (m : M A) (Q : A → Prop) : Prop :=
  ∀ s, Forall in_field (hist s) → wp m e s (λ o s', Forall in_field (hist s') ∧ match o with Val a => Q a | Running => True | _ => False end).
Lemma drawn_ret {A} (a : A) (Q : A → Prop) : Q a → drawn (mret a) Q.
Proof. intros HQ s H. by apply wp_ret. Qed.
Lemma drawn_bind {A B} (m : M A) (f : A → M B) (P : A → Prop) (Q : B → Prop) :
  drawn m P → (∀ a, P a → drawn (f a) Q) → drawn (m ≫= f) Q.
Proof.
  intros Hm Hf s H. apply wp_bind. eapply wp_mono; [by apply Hm|].
  intros [a| | |] s' [H1 H2]; try done. by apply Hf.
Qed.
Lemma drawn_lib fn args text : (∀ a, in_field (Sys (Clib fn args text) a)) →
  drawn (lib fn args text) (λ r, ∃ h, r = rv (kern e h (Clib fn args text))).
Proof.
  intros Hf s H. apply wp_lib. intros a ->. split; [|by eexists].
  rewrite hist_after. apply Forall_app. split; [done|]. by apply Forall_singleton.
Qed.
Lemma drawn_any fn args text : (∀ a, in_field (Sys (Clib fn args text) a)) → drawn (lib fn args text) (λ _, True).
Proof. intros Hf s H. eapply wp_mono; [by apply drawn_lib|]. by intros [a| | |] s' [? ?]. Qed.
Lemma drawn_cur fn args text : (∀ a, in_field (Sys (Clib fn args text) a)) → drawn (cur fn args text) (λ _, True).
Proof. intros Hf. eapply drawn_bind; [by apply drawn_any|intros ? _]. by apply drawn_ret. Qed.
Lemma drawn_for n (f : Z → M unit) a : (∀ i, drawn (f i) (λ _, True)) → drawn (for_range n a f) (λ _, True).
Proof.
  intros Hf. revert a. induction n as [|n IH]; intros a; cbn [for_range]; [by apply drawn_ret|].
  eapply drawn_bind; [apply Hf|intros ? _]. apply IH.
Qed.
Lemma drawn_loop {L R} (P : L → Prop) (Q : R → Prop) body :
  (∀ l, P l → drawn (body l) (λ r, match r with inl l' => P l' | inr v => Q v end)) →
  ∀ fuel l, P l → drawn (loop fuel body l) Q.
Proof.
  intros Hb fuel l Hl s Hs. apply (wp_loop_safe e body (λ l s, Forall in_field (hist s) ∧ P l)); [| |done].
  - intros l' s' [? ?]. done.
  - intros l' s' [Hs' HP]. eapply wp_mono; [by apply Hb|]. by intros [[l''|r]| | |] s'' [? ?].
Qed.
End field.

Ltac drawn_event :=
  let H := fresh in
  intros ?; cbn [in_field]; first [exact I | intros H; first [exfalso; revert H; by_compute | unfold steered in *; lia]].
Ltac drawn_step :=
  cbn beta iota;
  lazymatch goal with
  | |- drawn _ (mret _) _ => apply drawn_ret
  | |- drawn _ (mbind _ _) _ => eapply drawn_bind; [|intros ? ?]
  | |- drawn _ (cur _ _ _) _ => apply drawn_cur; drawn_event
  | |- drawn _ (lib "rand" _ _) _ => apply drawn_lib; drawn_event
  | |- drawn _ (lib _ _ _) _ => apply drawn_any; drawn_event
  | |- drawn _ (for_range _ _ _) _ => apply drawn_for; intros ?
  end.
Ltac drawn := ty_unfold; repeat drawn_step.
Section ship.
Context (e : env) {RO : RandOk e}.
Lemma star_drawn x i : drawn e (Ship.star x i) (λ _, True).
Proof.
  unfold Ship.star. ty_unfold. eapply drawn_bind; [apply drawn_lib; drawn_event|].
  intros z [h ->]. pose proof (rand_pos h) as Hr. revert Hr. generalize (rv (kern e h (Clib "rand" [] []))). intros z Hz.
  pose proof (Z.rem_bound_pos z 79). drawn.
Qed.
Lemma print_drawn x : steered x → drawn e (Ship.print_raumschiff x) (λ _, True).
Proof. intros Hx. unfold Ship.print_raumschiff. drawn. Qed.
Lemma fly_drawn xc : steered xc.1 →
  drawn e (Ship.fly Ship.star Ship.print_raumschiff xc) (λ r, match r with inl xc' => steered xc'.1 | inr x => steered x end).
Proof.
  destruct xc as [x c]. intros Hx. unfold Ship.fly. case_decide; [by apply drawn_ret|].
  drawn; [apply star_drawn|apply print_drawn; by apply steer_stays|by apply steer_stays].
Qed.

(** Forty times right, and the ship is in column 80, one behind the last of a
    screen with 80 columns. *)
Lemma ship_leaves_screen : foldl Ship.steer 40 (replicate 40 Ship.RIGHT) = 80.
Proof. reflexivity. Qed.

(** C31. However the keys are pressed, the ship of [cur10] stays in the
    columns 0 to 80, and every character that is drawn or deleted is in the
    rows 0 to 20 and the columns -2 to 82. *)
Theorem ship_stays_in_field fuel :
  drawn e (Ship.cur10_main fuel) (λ r, r = 0).
Proof.
  unfold Ship.cur10_main. drawn; [|done].
  by apply (drawn_loop e (λ xc, steered xc.1) steered); [apply fly_drawn|].
Qed.
End ship.

(** ** All programs *)


(** A terminal with colours and any number of windows, whose user types [key]. *)
Section terminal.
Context (key : Z).
Definition live_windows (h : list event) : gset Z := default ∅ (default None (screen_of h)).
Definition new_window (h : list event) : Z := 1 + set_fold Z.max 0 (live_windows h).
Definition curses_kern (h : list event) (c : call) : ans :=
  match c with
  | Clib fn _ _ =>
      if decide (fn = "newwin"%string ∨ fn = "dupwin"%string) then answer (new_window h)
      else if decide (fn ∈ ["getyx"; "getbegyx"; "getmouse"]%string) then Ans OK 0 [] [5; 15; BUTTON1_PRESSED] []
      else if decide (fn = "has_colors"%string) then answer TRUE
      else if decide (fn ∈ ["getch"; "wgetch"]%string) then answer key
      else answer OK
  | _ => answer OK
  end.
Definition curses_env : env := env_of curses_kern.
Lemma new_window_max (ws : gset Z) : 0 ≤ set_fold Z.max 0 ws ∧ ∀ w, w ∈ ws → w ≤ set_fold Z.max 0 ws.
Proof.
  apply (set_fold_ind_L (λ m (X : gset Z), 0 ≤ m ∧ ∀ w, w ∈ X → w ≤ m)); [set_solver|].
  intros w X m Hw [H1 H2]. split; [lia|]. intros v [->%elem_of_singleton|Hv]%elem_of_union; [lia|]. specialize (H2 v Hv). lia.
Qed.
#[export] Instance curses_lib_ok : CursesLib curses_env.
Proof.
  split.
  - intros h fn args text ws Hfn Hs r. subst r. cbn [kern curses_env env_of curses_kern]. rewrite decide_True by done.
    cbn [rv answer]. unfold new_window. replace (live_windows h) with ws by (unfold live_windows; by rewrite Hs).
    destruct (new_window_max ws) as [H1 H2]. unfold stdscr. split; [lia|]. intros Hin. specialize (H2 _ Hin). lia.
  - intros h fn args Hfn. exists 5, 15, BUTTON1_PRESSED. by destruct Hfn as [-> |[-> | ->]].
Qed.
#[export] Instance curses_short : ShortLines curses_env.
Proof. intros h fn args. cbn [kern curses_env env_of curses_kern]. repeat case_decide; unfold Cur34.MAX; simpl; lia. Qed.
#[export] Instance curses_colors : Colors curses_env.
Proof. intros h. reflexivity. Qed.
#[export] Instance curses_rand : RandOk curses_env.
Proof. intros h. done. Qed.
End terminal.

Lemma ship_stays_in_field_witness : drawn (curses_env 260) (Ship.cur10_main 100) (λ r, r = 0).
Proof. apply (ship_stays_in_field (curses_env 260)). Defined.
