(* ===== verification/Processes.v ===== *)
(** * 07_Processes: programs that fork

    A program is a tree of what its processes do ([proc]), with a branch for
    each fork that fails; a configuration is the list of the live processes and
    the log of what they wrote, and the system may run the processes in any
    order and let forks fail.  [fork_runs] shows that every run ends, that it
    never gets stuck, and that it writes, in some order, what the tree
    prescribes.  [wait.c] is a program of the sequential machine.
    Memory is copied by fork: each process has variables of its own. *)
From S2P Require Import Prelude CLib Machine FileIO.

(** ** Processes *)

(** What is written may depend on [getpid], [getppid] and the variables. *)
Definition text (V : Type) : Type := V → Z → Z → list Z.
Inductive proc (V : Type) : Type :=
| Finish                                         (* the process ends *)
| Out (to : nat) (f : text V) (k : proc V)       (* write to the open file [to] *)
| Set_ (f : V → V) (k : proc V)                  (* assign to variables *)
| Fork (child parent failed : proc V)            (* what the child, the parent, and after an error the caller does *)
| Wait (k : proc V).                             (* wait for the only child *)
Arguments Finish {V}.
Arguments Out {V} to f k.
Arguments Set_ {V} f k.
Arguments Fork {V} child parent failed.
Arguments Wait {V} k.

Section fork.
Context {V : Type} (failing : bool).    (* whether a fork can fail *)

(** What one write left in the log, its text with the variables filled in. *)
Record entry := Entry { file : nat; writer : Z; parent_of : Z; fmt : Z → Z → list Z }.
Definition bytes (x : entry) : list Z := fmt x (writer x) (parent_of x).
Record process := Process { pid : Z; ppid : Z; code : proc V; vals : V }.
Record conf := Conf { procs : list process; written : list entry }.

(** The children of a process that ends become children of process 1. *)
Definition init_pid : Z := 1.
Definition reparent (p : Z) (r : process) : process :=
  if decide (ppid r = p) then Process (pid r) init_pid (code r) (vals r) else r.

Inductive step : conf → conf → Prop :=
| step_out ps w i p q o f k v :
    ps !! i = Some (Process p q (Out o f k) v) →
    step (Conf ps w) (Conf (<[i := Process p q k v]> ps) (w ++ [Entry o p q (f v)]))
| step_set ps w i p q f k v :
    ps !! i = Some (Process p q (Set_ f k) v) →
    step (Conf ps w) (Conf (<[i := Process p q k (f v)]> ps) w)
| step_fork ps w i p q c k f v n :
    ps !! i = Some (Process p q (Fork c k f) v) → init_pid < n → n ∉ pid <$> ps →
    step (Conf ps w) (Conf (<[i := Process p q k v]> ps ++ [Process n p c v]) w)
| step_fails ps w i p q c k f v :
    ps !! i = Some (Process p q (Fork c k f) v) → failing = true →
    step (Conf ps w) (Conf (<[i := Process p q f v]> ps) w)
| step_wait ps w i p q k v :
    ps !! i = Some (Process p q (Wait k) v) → p ∉ ppid <$> ps →
    step (Conf ps w) (Conf (<[i := Process p q k v]> ps) w)
| step_end ps w i p q v :
    ps !! i = Some (Process p q Finish v) →
    step (Conf ps w) (Conf (reparent p <$> delete i ps) w).

Definition start (p : proc V) (v : V) : conf := Conf [Process 2 init_pid p v] [].

(** What a process and its descendants can write, and how many steps they take at most. *)
Fixpoint texts (p : proc V) (v : V) : list (list (nat * (Z → Z → list Z))) :=
  match p with
  | Finish => [[]]
  | Out o f k => cons (o, f v) <$> texts k v
  | Set_ f k => texts k (f v)
  | Fork c k f => (t1 ← texts k v; t2 ← texts c v; [t1 ++ t2]) ++ (if failing then texts f v else [])
  | Wait k => texts k v
  end.
Fixpoint steps (p : proc V) : nat :=
  match p with
  | Finish => 1
  | Out _ _ k | Set_ _ k | Wait k => S (steps k)
  | Fork c k f => S (max (steps k + steps c) (steps f))
  end.
Fixpoint to_come (ps : list process) : list (list (nat * (Z → Z → list Z))) :=
  match ps with [] => [[]] | r :: ps => t1 ← texts (code r) (vals r); t2 ← to_come ps; [t1 ++ t2] end.
Definition todo (ps : list process) : nat := sum_list_with (λ r, steps (code r)) ps.
Definition done (w : list entry) : list (nat * (Z → Z → list Z)) := (λ x, (file x, fmt x)) <$> w.

Lemma split_at (ps : list process) i r : ps !! i = Some r →
  ∃ a b, ps = a ++ r :: b ∧ length a = i ∧ (∀ r', <[i := r']> ps = a ++ r' :: b) ∧ delete i ps = a ++ b.
Proof.
  intros H. apply list_elem_of_split_length in H as (a & b & -> & ->). exists a, b. split_and!; try done.
  - intros r'. by rewrite insert_app_r_alt, Nat.sub_diag by lia.
  - by rewrite delete_middle.
Qed.
Lemma reparent_texts p ps : to_come (reparent p <$> ps) = to_come ps.
Proof. induction ps as [|r ps IH]; [done|]. cbn. rewrite IH. unfold reparent. by case_decide. Qed.
Lemma reparent_todo p ps : todo (reparent p <$> ps) = todo ps.
Proof. induction ps as [|r ps IH]; [done|]. cbn. unfold todo in IH. rewrite IH. unfold reparent. by case_decide. Qed.
Lemma elem_of_product {A} (l1 l2 : list (list A)) t :
  t ∈ (t1 ← l1; t2 ← l2; [t1 ++ t2]) ↔ ∃ t1 t2, t1 ∈ l1 ∧ t2 ∈ l2 ∧ t = t1 ++ t2.
Proof.
  rewrite list_elem_of_bind. split.
  - intros (t1 & H & H1). apply list_elem_of_bind in H as (t2 & ->%list_elem_of_singleton & H2). eauto.
  - intros (t1 & t2 & H1 & H2 & ->). exists t1. split; [|done]. apply list_elem_of_bind. exists t2. by split; [apply list_elem_of_singleton|].
Qed.
Lemma to_come_cons r b t : t ∈ to_come (r :: b) ↔ ∃ t1 t2, t1 ∈ texts (code r) (vals r) ∧ t2 ∈ to_come b ∧ t = t1 ++ t2.
Proof. apply elem_of_product. Qed.
Lemma to_come_app a b t : t ∈ to_come (a ++ b) ↔ ∃ t1 t2, t1 ∈ to_come a ∧ t2 ∈ to_come b ∧ t = t1 ++ t2.
Proof.
  revert t. induction a as [|r a IH]; intros t.
  - split; [by intros H; exists [], t; repeat split; [apply list_elem_of_singleton|]|]. by intros (t1 & t2 & ->%list_elem_of_singleton & H & ->).
  - rewrite <- app_comm_cons, to_come_cons. setoid_rewrite to_come_cons. setoid_rewrite IH. split.
    + intros (t1 & t2 & H1 & (t3 & t4 & H3 & H4 & ->) & ->). exists (t1 ++ t3), t4. rewrite <- app_assoc. naive_solver.
    + intros (t1 & t2 & (t3 & t4 & H3 & H4 & ->) & H2 & ->). exists t3, (t4 ++ t2). rewrite <- app_assoc. naive_solver.
Qed.
Lemma todo_app a b : todo (a ++ b) = (todo a + todo b)%nat.
Proof. apply sum_list_with_app. Qed.

Lemma todo_cons r b : todo (r :: b) = (steps (code r) + todo b)%nat.
Proof. done. Qed.

Lemma todo_nil : todo [] = 0%nat.
Proof. done. Qed.

(** What can be written after a step could be written before it ... *)
Definition explains (w : list entry) (ps : list process) (w' : list entry) (ps' : list process) : Prop :=
  ∀ t', t' ∈ to_come ps' → ∃ t, t ∈ to_come ps ∧ done w' ++ t' ≡ₚ done w ++ t.
(** ... when this is so of the one process that takes it. *)
Lemma explains_one w a b r r' l :
  (∀ t', t' ∈ texts (code r') (vals r') → l ++ t' ∈ texts (code r) (vals r)) →
  ∀ w', done w' = done w ++ l → explains w (a ++ r :: b) w' (a ++ r' :: b).
Proof.
  intros Ht w' Hw t' (t1 & t2 & H1 & (t3 & t4 & H3 & H4 & ->)%to_come_cons & ->)%to_come_app.
  exists (t1 ++ (l ++ t3) ++ t4). split.
  - apply to_come_app. exists t1, ((l ++ t3) ++ t4). split; [done|]. split; [|done]. apply to_come_cons. exists (l ++ t3), t4. auto.
  - rewrite Hw, <- !app_assoc. apply Permutation_app_head. rewrite !app_assoc. do 2 apply Permutation_app_tail. apply Permutation_app_comm.
Qed.
(** Nothing is lost, and every step brings the end nearer. *)
Lemma step_texts c c' : step c c' →
  explains (written c) (procs c) (written c') (procs c') ∧ (todo (procs c') < todo (procs c))%nat.
Proof.
  destruct 1 as [ps w i p q o f k v H|ps w i p q f k v H|ps w i p q c k f v n H _ _|ps w i p q c k f v H Hfl|ps w i p q k v H _|ps w i p q v H]; cbn [procs written];
    destruct (split_at _ _ _ H) as (a & b & -> & _ & Hi & Hd); rewrite ?Hi, ?Hd; clear H Hi Hd;
    rewrite ?reparent_todo, ?todo_app, ?todo_cons, ?todo_nil; cbn [code vals steps]; (split; [|lia]).
  - apply (explains_one w a b _ _ [(o, f v)]); [|unfold done; by rewrite fmap_app]. intros t Ht. cbn. by apply list_elem_of_fmap_2.
  - apply (explains_one w a b _ _ []); [done|by rewrite app_nil_r].
  - intros t'. rewrite <- app_assoc, <- app_comm_cons. intros (t1 & t2 & H1 & (t3 & t4 & H3 & (t5 & t6 & H5 & (t7 & t8 & H7 & ->%list_elem_of_singleton & ->)%to_come_cons & ->)%to_come_app & ->)%to_come_cons & ->)%to_come_app.
    exists (t1 ++ (t3 ++ t7) ++ t5). split.
    + apply to_come_app. exists t1, ((t3 ++ t7) ++ t5). split; [done|]. split; [|done]. apply to_come_cons. exists (t3 ++ t7), t5.
      split; [|done]. cbn [code vals texts]. apply elem_of_app. left. apply elem_of_product. eauto.
    + rewrite app_nil_r, <- !app_assoc. do 3 apply Permutation_app_head. apply Permutation_app_comm.
  - apply (explains_one w a b _ _ []); [|by rewrite app_nil_r]. intros t Ht. cbn [code vals texts app]. rewrite Hfl. apply elem_of_app. by right.
  - apply (explains_one w a b _ _ []); [done|by rewrite app_nil_r].
  - intros t'. rewrite reparent_texts. intros (t1 & t2 & H1 & H2 & ->)%to_come_app. exists (t1 ++ t2). split; [|done].
    apply to_come_app. exists t1, t2. split; [done|]. split; [|done]. apply to_come_cons. exists [], t2. split; [by apply list_elem_of_singleton|done].
Qed.

(** Parents come before their children, and have not ended. *)
Definition ids (ps : list process) : list (Z * Z) := (λ r, (pid r, ppid r)) <$> ps.
Record orderly (l : list (Z * Z)) : Prop := {
  orderly_last i j x y : l !! i = Some x → l !! j = Some y → (i ≤ j)%nat → x.2 ≠ y.1;
  orderly_live x : x ∈ l → x.2 = init_pid ∨ x.2 ∈ l.*1;
  orderly_pids x : x ∈ l → init_pid < x.1 }.

Lemma ids_insert ps i r r' :
  ps !! i = Some r → pid r' = pid r → ppid r' = ppid r → ids (<[i := r']> ps) = ids ps.
Proof.
  intros Hi Hp Hq. unfold ids. rewrite list_fmap_insert, Hp, Hq. apply list_insert_id. by rewrite list_lookup_fmap, Hi.
Qed.
Lemma orderly_fork l i p q n :
  l !! i = Some (p, q) → init_pid < n → n ∉ l.*1 → orderly l → orderly (l ++ [(n, p)]).
Proof.
  intros Hi Hn Hf [H1 H2 H3].
  assert (Hp : p ∈ l.*1) by (apply list_elem_of_fmap; exists (p, q); split; [done|by eapply list_elem_of_lookup_2]).
  assert (Hpn : p ≠ n) by (intros ->; done).
  assert (Hln : ∀ x, x ∈ l → x.2 ≠ n).
  { intros x Hx E. destruct (H2 x Hx) as [E'|E']; [lia|]. by rewrite E in E'. }
  split.
  - intros j k x y Hj Hk Hjk. apply lookup_app_Some in Hj as [Hj|[Hge Hj]]; apply lookup_app_Some in Hk as [Hk|[Hge' Hk]].
    + by eapply H1.
    + apply list_lookup_singleton_Some in Hk as [_ <-]. apply Hln. by eapply list_elem_of_lookup_2.
    + apply lookup_lt_Some in Hk. lia.
    + apply list_lookup_singleton_Some in Hj as [_ <-], Hk as [_ <-]. done.
  - intros x Hx. rewrite fmap_app, elem_of_app. apply elem_of_app in Hx as [Hx| ->%list_elem_of_singleton].
    + destruct (H2 x Hx); auto.
    + auto.
  - intros x [Hx| ->%list_elem_of_singleton]%elem_of_app; [by apply H3|done].
Qed.
Definition rp (p : Z) (x : Z * Z) : Z * Z := if decide (x.2 = p) then (x.1, init_pid) else x.
Lemma orderly_end l i p q : l !! i = Some (p, q) → orderly l → orderly (rp p <$> delete i l).
Proof.
  intros Hi [H1 H2 H3]. assert (Hr : ∀ x, (rp p x).1 = x.1) by (intros x; unfold rp; by case_decide).
  assert (Hlk : ∀ j x, delete i l !! j = Some x → ∃ j', l !! j' = Some x ∧ j' = if decide (j < i)%nat then j else S j).
  { intros j x Hx. case_decide; [rewrite list_lookup_delete_lt in Hx by lia|rewrite list_lookup_delete_ge in Hx by lia]; eauto. }
  assert (Hel : ∀ x, x ∈ delete i l → x ∈ l).
  { intros x [j Hj]%list_elem_of_lookup. apply Hlk in Hj as (j' & Hj & _). by eapply list_elem_of_lookup_2. }
  split.
  - intros j k x y Hj Hk Hjk. rewrite list_lookup_fmap in Hj, Hk.
    destruct (delete i l !! j) as [x'|] eqn:Ej; [|done]. destruct (delete i l !! k) as [y'|] eqn:Ek; [|done].
    injection Hj as <-. injection Hk as <-. rewrite Hr. apply Hlk in Ej as (j' & Hj & ->), Ek as (k' & Hk & ->).
    assert (Hy : init_pid < y'.1) by (apply H3; by eapply list_elem_of_lookup_2).
    unfold rp. destruct (decide (x'.2 = p)); cbn [snd]; [lia|]. eapply H1; [exact Hj|exact Hk|]. clear Hj Hk. repeat case_decide; lia.
  - intros x (x' & -> & Hx)%list_elem_of_fmap. unfold rp at 1 2. case_decide as Hp; [by left|].
    destruct (H2 x' (Hel _ Hx)) as [H|H]; [by left|right]. apply list_elem_of_fmap in H as (y & Hy & Hin).
    rewrite <- list_fmap_compose. apply list_elem_of_fmap. exists y. split; [by unfold compose; rewrite Hr|].
    apply list_elem_of_split_length in Hi as (a & b & -> & ->). rewrite delete_middle.
    rewrite elem_of_app, elem_of_cons in *. destruct Hin as [?|[->|?]]; auto. by rewrite Hy in Hp.
  - intros x (x' & -> & Hx)%list_elem_of_fmap. rewrite Hr. auto.
Qed.
Lemma step_orderly c c' : step c c' → orderly (ids (procs c)) → orderly (ids (procs c')).
Proof.
  destruct 1 as [ps w i p q o f k v H|ps w i p q f k v H|ps w i p q c k f v n H Hn Hf|ps w i p q c k f v H _|ps w i p q k v H _|ps w i p q v H]; cbn [procs]; intros Ho.
  1,2,4,5: by rewrite (ids_insert _ _ _ _ H).
  - unfold ids. rewrite fmap_app. fold (ids (<[i := Process p q k v]> ps)). rewrite (ids_insert _ _ _ _ H) by done.
    apply (orderly_fork _ i p q); [unfold ids; by rewrite list_lookup_fmap, H|done| |done].
    unfold ids. by rewrite <- list_fmap_compose.
  - assert (E : ids (reparent p <$> delete i ps) = rp p <$> delete i (ids ps)).
    { destruct (split_at _ _ _ H) as (a & b & E & Hl & _ & Hd).
      assert (Ed : delete i (ids ps) = ids (a ++ b)).
      { unfold ids. rewrite E, !fmap_app, fmap_cons, <- Hl, <- (length_fmap (λ r, (pid r, ppid r)) a). apply delete_middle. }
      rewrite Ed, Hd. unfold ids. rewrite <- !list_fmap_compose.
      apply list_fmap_ext. intros j r _. unfold compose, reparent, rp. cbn [snd]. by case_decide. }
    rewrite E. apply (orderly_end _ _ p q); [unfold ids; by rewrite list_lookup_fmap, H|done].
Qed.
(** As long as a process lives, some process can go on: the youngest has no children. *)
Lemma orderly_progress c : orderly (ids (procs c)) → procs c ≠ [] → ∃ c', step c c'.
Proof.
  destruct c as [ps w]. cbn [procs]. intros Ho Hne. destruct ps as [|r ps _] using rev_ind; [done|]. clear Hne.
  assert (Hl : (ps ++ [r]) !! length ps = Some r) by (by apply list_lookup_middle).
  destruct r as [p q [|o f k|f k|c k f|k] v].
  - eexists. by eapply step_end.
  - eexists. by eapply step_out.
  - eexists. by eapply step_set.
  - set (n := foldr Z.max 1 (pid <$> ps ++ [Process p q (Fork c k f) v]) + 1).
    assert (Hn : ∀ l, (1 ≤ foldr Z.max 1 l) ∧ ∀ x, x ∈ l → x ≤ foldr Z.max 1 l).
    { induction l as [|y l [IH1 IH2]]; cbn [foldr]; [split; [done|]; by intros x ?%elem_of_nil|].
      split; [lia|]. intros x [->|Hx]%elem_of_cons; [lia|]. specialize (IH2 _ Hx). lia. }
    destruct (Hn (pid <$> ps ++ [Process p q (Fork c k f) v])) as [Hn1 Hn2].
    eexists. eapply (step_fork _ _ _ _ _ _ _ _ _ n); [done|unfold init_pid; lia|]. intros Hin. apply Hn2 in Hin. lia.
  - eexists. eapply step_wait; [done|]. intros Hin. apply list_elem_of_fmap in Hin as (r & Hr & [j Hj]%list_elem_of_lookup).
    eapply (orderly_last _ Ho j (length ps) (pid r, ppid r) (p, q)); [| |apply lookup_lt_Some in Hj; rewrite length_app in Hj; cbn in Hj; lia|done].
    + unfold ids. by rewrite list_lookup_fmap, Hj.
    + unfold ids. by rewrite list_lookup_fmap, Hl.
Qed.

Lemma start_orderly p v : orderly (ids (procs (start p v))).
Proof.
  split.
  - intros i j x y [_ <-]%list_lookup_singleton_Some [_ <-]%list_lookup_singleton_Some _. done.
  - intros x ->%list_elem_of_singleton. by left.
  - intros x ->%list_elem_of_singleton. done.
Qed.
Lemma runs_texts k c0 c : nsteps step k c0 c → orderly (ids (procs c0)) →
  explains (written c0) (procs c0) (written c) (procs c) ∧ (k + todo (procs c) ≤ todo (procs c0))%nat ∧ orderly (ids (procs c)).
Proof.
  induction 1 as [c|k c1 c2 c3 Hs Hn IH]; intros Ho; [split; [intros t; eauto|done]|].
  destruct (step_texts _ _ Hs) as [Hp Ht]. destruct IH as (Hp' & Ht' & Ho'); [by eapply step_orderly|].
  split; [|split; [lia|done]]. intros t' (t & Hin & E)%Hp'. apply Hp in Hin as (t0 & Hin & E0). exists t0. split; [done|]. by rewrite E, E0.
Qed.

(** Of a program that forks: in whatever order its processes run, every
    run has at most [steps p] steps, a step is possible as long as a process
    lives, and when none does the program has written exactly texts of
    the tree, those of each process with the memory it inherited. *)
Theorem fork_runs (p : proc V) (v : V) k c :
  nsteps step k (start p v) c →
  (k ≤ steps p)%nat ∧ (procs c ≠ [] → ∃ c', step c c') ∧
  (procs c = [] → ∃ t, t ∈ texts p v ∧ (λ x, (file x, fmt x)) <$> written c ≡ₚ t).
Proof.
  intros H. destruct (runs_texts _ _ _ H (start_orderly p v)) as (Hp & Ht & Ho). cbn in Ht.
  split; [unfold todo in Ht; cbn in Ht; lia|]. split; [by apply orderly_progress|].
  intros E. rewrite E in Hp. destruct (Hp []) as (t & (t1 & t2 & H1 & ->%list_elem_of_singleton & ->)%to_come_cons & Hd); [by apply list_elem_of_singleton|].
  exists t1. split; [done|]. cbn in Hd. by rewrite !app_nil_r in Hd.
Qed.
End fork.
Arguments conf : clear implicits.
Arguments process : clear implicits.

(** In whatever order the processes run: every run ends within [n] steps, it
    never gets stuck, and when it is complete [ok] holds of what was written. *)
Definition all_runs {V} (failing : bool) (p : proc V) (v : V) (n : nat) (ok : list entry → Prop) : Prop := ∀ k c,
  nsteps (step failing) k (start p v) c →
  (k ≤ n)%nat ∧ (procs c ≠ [] → ∃ c', step failing c c') ∧ (procs c = [] → ok (written c)).
Lemma all_runs_texts {V} fl (p : proc V) v n (ok : list entry → Prop) :
  (steps p ≤ n)%nat → (∀ w t, t ∈ texts fl p v → (λ x, (file x, fmt x)) <$> w ≡ₚ t → ok w) → all_runs fl p v n ok.
Proof.
  intros Hn Hok k c H. destruct (fork_runs fl p v k c H) as (Hk & Hp & Ht). split; [lia|]. split; [done|].
  intros (t & Hin & E)%Ht. by eapply Hok.
Qed.
(** Such runs exist. *)
Lemma complete_exists {V} fl (p : proc V) v : ∃ c, rtc (step fl) (start p v) c ∧ procs c = [].
Proof.
  assert (H : ∀ n c, rtc (step fl) (start p v) c → orderly (ids (procs c)) → todo (procs c) = n →
    ∃ c', rtc (step fl) (start p v) c' ∧ procs c' = []).
  { induction n as [n IH] using lt_wf_ind. intros c Hr Ho Hn.
    destruct (decide (procs c = [])) as [E|E]; [by exists c|].
    destruct (orderly_progress fl c Ho E) as [c' Hs]. destruct (step_texts _ _ _ Hs) as [_ Ht].
    apply (IH (todo (procs c'))) with c'; [lia|by eapply rtc_r|by eapply step_orderly|done]. }
  eapply (H _ (start p v)); [done|apply start_orderly|done].
Qed.

(** ** child4.c *)
Module Child4.
Definition say (s : string) (k : proc unit) : proc unit := Out 1 (λ _ _ _, line s) k.
Definition log_line : text unit := λ _ pid ppid, str "PID: " ++ dec pid ++ str " PPID: " ++ dec ppid ++ [LF].
(** Each [fork] is followed by the same code in both processes, and by the
    same code where it fails. *)
Definition third : proc unit := Out 1 log_line Finish.
Definition second : proc unit := say "3. fork()" (Fork third third third).
Definition first : proc unit := say "2. fork()" (Fork second second second).
Definition main : proc unit := say "1. fork()" (Fork first first first).

(** The lines: [a] times the second, [b] times the third, [c] reports of ids. *)
Definition counts (a b c : nat) : list (nat * (Z → Z → list Z)) :=
  replicate a (1%nat, λ _ _, line "2. fork()") ++ replicate b (1%nat, λ _ _, line "3. fork()") ++ replicate c (1%nat, log_line ()).
Lemma counts_app a b c a' b' c' : counts a b c ++ counts a' b' c' ≡ₚ counts (a + a') (b + b') (c + c').
Proof. unfold counts. rewrite !replicate_add. solve_Permutation. Qed.
Lemma counts_2 a b c t : t ≡ₚ counts a b c → (1%nat, λ _ _, line "2. fork()") :: t ≡ₚ counts (S a) b c.
Proof. apply perm_skip. Qed.
Lemma counts_3 b c t : t ≡ₚ counts 0 b c → (1%nat, λ _ _, line "3. fork()") :: t ≡ₚ counts 0 (S b) c.
Proof. apply perm_skip. Qed.
(** After a fork: what both processes write, or what the caller writes alone. *)
Lemma fork_texts fl (p : proc unit) t : t ∈ texts fl (Fork p p p) () →
  (∃ t1 t2, t1 ∈ texts fl p () ∧ t2 ∈ texts fl p () ∧ t = t1 ++ t2) ∨ fl = true ∧ t ∈ texts fl p ().
Proof. cbn [texts]. intros [H|H]%elem_of_app; [left; by apply elem_of_product|]. destruct fl; [by right|by apply elem_of_nil in H]. Qed.
Lemma third_texts fl t : t ∈ texts fl third () → t ≡ₚ counts 0 0 1.
Proof. intros ->%list_elem_of_singleton. reflexivity. Qed.
Lemma second_texts fl t : t ∈ texts fl second () → ∃ c, t ≡ₚ counts 0 1 c ∧ (1 ≤ c ≤ 2 ∧ (fl = false → c = 2))%nat.
Proof.
  intros (t0 & -> & H)%list_elem_of_fmap. apply fork_texts in H as [(t1 & t2 & H1%third_texts & H2%third_texts & ->)|[-> H%third_texts]].
  - exists 2%nat. split; [apply counts_3; by rewrite H1, H2, counts_app|lia].
  - exists 1%nat. split; [by apply counts_3|split; [lia|done]].
Qed.
Lemma first_texts fl t : t ∈ texts fl first () → ∃ b c, t ≡ₚ counts 1 b c ∧ (1 ≤ b ≤ 2 ∧ b ≤ c ≤ 2 * b ∧ (fl = false → b = 2 ∧ c = 4))%nat.
Proof.
  intros (t0 & -> & H)%list_elem_of_fmap. apply fork_texts in H as [(t1 & t2 & (c1 & H1 & ?)%second_texts & (c2 & H2 & ?)%second_texts & ->)|[-> (c & H & ?)%second_texts]].
  - exists 2%nat, (c1 + c2)%nat. split; [apply counts_2; by rewrite H1, H2, counts_app|naive_solver lia].
  - exists 1%nat, c. split; [by apply counts_2|split_and!; first [done|lia]].
Qed.

(** C26. In every run of child4.c, of at most 31 steps, the first line appears
    once, the second [a], the third [b] times, and [c] processes report their
    ids: twice, four times and eight when every fork succeeds, and when forks
    fail each number is at least the one before and at most twice that. *)
Theorem child4_prints failing : all_runs failing main () 31 (λ w, ∃ a b c,
  (λ x, (file x, fmt x)) <$> w ≡ₚ (1%nat, λ _ _, line "1. fork()") ::
    replicate a (1%nat, λ _ _, line "2. fork()") ++ replicate b (1%nat, λ _ _, line "3. fork()") ++ replicate c (1%nat, log_line ()) ∧
  (1 ≤ a ≤ 2 ∧ a ≤ b ≤ 2 * a ∧ b ≤ c ≤ 2 * b ∧ (failing = false → a = 2 ∧ b = 4 ∧ c = 8))%nat).
Proof.
  apply all_runs_texts; [vm_compute; lia|]. intros w t (t0 & -> & H)%list_elem_of_fmap Hw.
  apply fork_texts in H as [(t1 & t2 & (b1 & c1 & H1 & ?)%first_texts & (b2 & c2 & H2 & ?)%first_texts & ->)|[-> (b & c & H & ?)%first_texts]].
  - exists 2%nat, (b1 + b2)%nat, (c1 + c2)%nat. split; [|naive_solver lia]. rewrite Hw, H1, H2. apply perm_skip. apply counts_app.
  - exists 1%nat, b, c. split; [|split_and!; first [done|lia]]. rewrite Hw, H. done.
Qed.
End Child4.

(** ** waise.c *)
Module Waise.
(** The parent ends first when the child sleeps longer; the model leaves the
    order open. *)
Definition im_kind (k : proc unit) : proc unit :=
  Out 1 (λ _ pid _, str "--- Im Kindprozess (" ++ dec pid ++ line ") ---")
  (Out 1 (λ _ _ ppid, str "Elternprozess: " ++ dec ppid ++ [LF]) k).
Definition waise_main : proc unit :=
  Fork (im_kind (im_kind Finish))
       (Out 1 (λ _ pid _, str "--- Im Elternprozess (" ++ dec pid ++ line ") ---")
       (Out 1 (λ _ _ _, line "--- Elternprozess endet vorzeitig ---") Finish))
       (Out 1 (λ _ _ _, str "Fehler bei fork()") Finish).
End Waise.

(** ** child.c, child2.c and child3.c *)
Module Child.
(** The variables are [global_var] and [lokal_var]; their addresses are the
    same in both processes, since fork copies the address space. *)
Section child.
Context (addr_global addr_lokal : list Z).
Notation vars := (Z * Z)%type.
Definition start_vars : vars := (1, 1).
Definition print_vars (k : proc vars) : proc vars :=
  Out 1 (λ v _ _, str "global_var = " ++ dec v.1 ++ str "; Speicheradresse: " ++ addr_global ++ [LF])
  (Out 1 (λ v _ _, str "lokal_var  = " ++ dec v.2 ++ str "; Speicheradresse: " ++ addr_lokal ++ [LF]) k).
Definition say (s : string) (k : proc vars) : proc vars := Out 1 (λ _ _ _, line s) k.
Definition incr (k : proc vars) : proc vars := Set_ (λ v, (v.1 + 1, v.2)) (Set_ (λ v, (v.1, v.2 + 1)) k).
Definition child_main : proc vars :=
  Fork (say "--- Im Kindprocess ---" (print_vars (incr (say "--- Im Kindprocess ---" (print_vars Finish)))))
       (say "--- Im Elternprozess ---" (print_vars (say "--- Im Elternprozess ---" (print_vars Finish))))
       (say "Fehler bei fork()" Finish).
(** child2.c differs in the calls of fflush, which have no effect on unbuffered output. *)
Definition child2_main : proc vars := child_main.
(** child3.c: the child forks once more. *)
Definition say_pid (s : string) (k : proc vars) : proc vars :=
  Out 1 (λ _ pid _, str "--- Im " ++ str s ++ str " (" ++ dec pid ++ line ") ---") k.
Definition kind_kind : proc vars := say_pid "Kind-Kindprocess" (print_vars Finish).
Definition child3_main : proc vars :=
  Fork (say_pid "Kindprocess" (print_vars (incr (Fork kind_kind kind_kind (say "Fehler bei fork() (2)" Finish)))))
       (say_pid "Elternprozess" (print_vars Finish))
       (say "Fehler bei fork()" Finish).

(** What a process prints with the values [g] and [l]. *)
Definition values (g l : Z) : list (nat * (Z → Z → list Z)) :=
  [(1%nat, λ _ _, str "global_var = " ++ dec g ++ str "; Speicheradresse: " ++ addr_global ++ [LF]);
   (1%nat, λ _ _, str "lokal_var  = " ++ dec l ++ str "; Speicheradresse: " ++ addr_lokal ++ [LF])].
Definition headline (s : string) : nat * (Z → Z → list Z) := (1%nat, λ _ _, line s).
Definition headline_pid (s : string) : nat * (Z → Z → list Z) :=
  (1%nat, λ pid _, str "--- Im " ++ str s ++ str " (" ++ dec pid ++ line ") ---").

(** The increments of a child are its own: in every run the child of
    child.c prints 1 and 1, then 2 and 2, and its parent 1 and 1 both times,
    unless the fork fails, which is all that is printed then;
    in child3.c the two processes that go on after the second fork both print
    2 and 2. *)
Theorem child_memory failing :
  all_runs failing child_main start_vars 20 (λ w, let l := (λ x, (file x, fmt x)) <$> w in l ≡ₚ
    (headline "--- Im Elternprozess ---" :: values 1 1 ++ headline "--- Im Elternprozess ---" :: values 1 1) ++
    headline "--- Im Kindprocess ---" :: values 1 1 ++ headline "--- Im Kindprocess ---" :: values 2 2
    ∨ failing = true ∧ l ≡ₚ [headline "Fehler bei fork()"]) ∧
  all_runs failing child3_main start_vars 20 (λ w, let l := (λ x, (file x, fmt x)) <$> w in l ≡ₚ
    (headline_pid "Elternprozess" :: values 1 1) ++ (headline_pid "Kindprocess" :: values 1 1) ++
    (headline_pid "Kind-Kindprocess" :: values 2 2) ++ (headline_pid "Kind-Kindprocess" :: values 2 2)
    ∨ failing = true ∧ (l ≡ₚ [headline "Fehler bei fork()"] ∨ l ≡ₚ
    (headline_pid "Elternprozess" :: values 1 1) ++ (headline_pid "Kindprocess" :: values 1 1) ++ [headline "Fehler bei fork() (2)"])).
Proof.
  split; (apply all_runs_texts; [vm_compute; lia|]); intros w t Ht Hw; cbv zeta; rewrite Hw; destruct failing;
    repeat (apply elem_of_cons in Ht as [->|Ht]; [first [by left|right; split; [done|done || by (left + right)]]|]); by apply elem_of_nil in Ht.
Qed.
End child.

End Child.

(** ** trash.c (02_Files) *)
Module Trash.
(** Both processes write to the file they opened before the fork, with one
    common offset, and to standard output. *)
Definition fd : nat := 3.
Definition put (to : nat) (s : list Z) (k : proc unit) : proc unit := Out to (λ _ _ _, s) k.
Fixpoint ten (n : nat) (s : list Z) (k : proc unit) : proc unit :=
  match n with O => k | S n => put fd s (put 1 s (ten n s k)) end.
(** Whether [open] succeeds, and otherwise, or when [fork] fails, the message of [errno]. *)
Definition trash_main (opened : bool) (message : list Z) : proc unit :=
  if opened then
    Fork (ten 10 (str "X") Finish) (ten 10 (str "x") (Wait (put 1 [LF] Finish)))
         (put 2 (str "fork(): " ++ message ++ [LF]) Finish)
  else put 2 (str "open(): " ++ message ++ [LF]) Finish.

(** What the entries of the log put into [to]. *)
Definition contents (to : nat) (w : list entry) : list Z := concat (bytes <$> filter (λ x, file x = to) w).

(** The texts of this program do not depend on who writes them. *)
Lemma contents_texts to (w : list entry) (l : list (nat * list Z)) :
  (λ x, (file x, fmt x)) <$> w ≡ₚ (λ p, (p.1, λ _ _, p.2)) <$> l →
  contents to w ≡ₚ concat ((filter (λ p, p.1 = to) l).*2).
Proof.
  intros H. assert (Hc : Forall (λ x, bytes x = fmt x 0 0) w).
  { apply Forall_forall. intros x Hx. assert (Hin : (file x, fmt x) ∈ (λ x, (file x, fmt x)) <$> w) by (apply list_elem_of_fmap; eauto).
    rewrite H in Hin. apply list_elem_of_fmap in Hin as (p & [= _ E] & _). unfold bytes. by rewrite E. }
  assert (E1 : contents to w = concat ((λ p : nat * (Z → Z → list Z), p.2 0 0) <$> filter (λ p, p.1 = to) ((λ x, (file x, fmt x)) <$> w))).
  { clear H. unfold contents. induction Hc as [|x w Hx Hc IH]; [done|]. rewrite fmap_cons, !filter_cons. cbn [fst].
    case_decide; [|done]. rewrite !fmap_cons. cbn [concat snd]. by rewrite IH, Hx. }
  rewrite E1, H. clear. induction l as [|p l IH]; [done|]. rewrite fmap_cons, !filter_cons. cbn [fst].
  case_decide; [|done]. rewrite !fmap_cons. cbn [concat snd]. by rewrite IH.
Qed.

(** In every run of trash.c the two processes together put ten x and ten X
    into the file, and on standard output these and a newline; when a fork
    fails nothing is written but the message. *)
Theorem trash_mixes failing message : all_runs failing (trash_main true message) () 50 (λ w,
  contents fd w ≡ₚ replicate 10 120 ++ replicate 10 88 ∧ contents 1 w ≡ₚ [LF] ++ replicate 10 120 ++ replicate 10 88 ∧ contents 2 w ≡ₚ []
  ∨ failing = true ∧ contents fd w ≡ₚ [] ∧ contents 1 w ≡ₚ [] ∧ contents 2 w ≡ₚ str "fork(): " ++ message ++ [LF]).
Proof.
  apply all_runs_texts; [vm_compute; lia|]. intros w t [Ht|Ht]%elem_of_app H.
  - left. set (l := concat (replicate 10 [(fd, str "x"); (1%nat, str "x")]) ++ [(1%nat, [LF])] ++ concat (replicate 10 [(fd, str "X"); (1%nat, str "X")])).
    assert (Hl : (λ x, (file x, fmt x)) <$> w ≡ₚ (λ p, (p.1, λ _ _, p.2)) <$> l) by (apply list_elem_of_singleton in Ht as ->; exact H).
    split_and!; rewrite (contents_texts _ _ _ Hl); by_compute.
  - destruct failing; [|by apply elem_of_nil in Ht]. right. apply list_elem_of_singleton in Ht as ->.
    pose proof (contents_texts fd w [(2%nat, str "fork(): " ++ message ++ [LF])] H) as E3.
    pose proof (contents_texts 1 w [(2%nat, str "fork(): " ++ message ++ [LF])] H) as E1.
    pose proof (contents_texts 2 w [(2%nat, str "fork(): " ++ message ++ [LF])] H) as E2.
    change (contents 2 w ≡ₚ (str "fork(): " ++ message ++ [LF]) ++ []) in E2. rewrite app_nil_r in E2. done.
Qed.
End Trash.

(** ** wait.c *)
Module Wait_.
(** The macros of <sys/wait.h>. *)
Definition WIFEXITED (s : Z) : bool := bool_decide (Z.land s 0x7f = 0).
Definition WEXITSTATUS (s : Z) : Z := Z.shiftr (Z.land s 0xff00) 8.
Definition WTERMSIG (s : Z) : Z := Z.land s 0x7f.
Definition WIFSIGNALED (s : Z) : bool := bool_decide (0 < Z.shiftr (swrap 8 (Z.land s 0x7f + 1)) 1).
Definition WCOREDUMP (s : Z) : bool := bool_decide (Z.land s 0x80 ≠ 0).
Definition WIFSTOPPED (s : Z) : bool := bool_decide (Z.land s 0xff = 0x7f).
Definition WSTOPSIG : Z → Z := WEXITSTATUS.

Definition child_status (status : Z) : M unit unit :=
  if WIFEXITED status then printf (str "Kind normal beendet mit Return-Wert " ++ dec (WEXITSTATUS status) ++ [LF])
  else if WIFSIGNALED status then
    printf (str "Kind mit Signal-Nr beendet " ++ dec (WTERMSIG status) ++ [LF]);;
    printf (str "Core-Dump " ++ (if WCOREDUMP status then str "yes" else str "no") ++ [LF])
  else if WIFSTOPPED status then
    printf (str "Kind wurde angehalten mit Signal-Nr " ++ dec (WSTOPSIG status) ++ [LF])
  else mret ().
(** [abort]: what comes after the signal does not matter. *)
Definition abort {A} : M unit A := sys (Craise SIGABRT);; exit 134.
Definition wait_main : M unit Z :=
  pid ← sys Cfork;
  if decide (rv pid = -1) then perror (str "Fehler bei fork()");; mret EXIT_FAILURE
  else if decide (rv pid = 0) then
    printf (line "--- Im Kindprozess ---");;
    printf (line "Wie den Prozess beenden?");;
    printf (line "- 1 - WIFEXITED (normal)");;
    printf (line "- 2 - WIFSIGNALED (abnormal)");;
    printf (str "Auswahl: ");;
    e ← scanf_d;
    e ← mem e;
    (if decide (e = 1) then exit 66
     else if decide (e = 2) then abort
     else printf (str "Was? ->" ++ dec e ++ line "<- ???"));;
    mret EXIT_SUCCESS
  else
    w ← sys Cwait;
    if decide (rv w ≠ rv pid) then perror (str "wait()");; mret EXIT_FAILURE
    else
      status ← mem (head (rwords w));
      child_status status;;
      mret EXIT_SUCCESS.

(** How a process ended or was stopped, the status the kernel encodes it in,
    and what child_status is to print about it. *)
Inductive ending := Exited (code : Z) | Killed (sig : Z) (core : bool) | Stopped (sig : Z).
Definition status_of (x : ending) : Z :=
  match x with
  | Exited c => Z.shiftl (Z.land c 0xff) 8
  | Killed s core => Z.lor s (if core then 0x80 else 0)
  | Stopped s => Z.lor (Z.shiftl s 8) 0x7f
  end.
Definition report (x : ending) : list Z :=
  match x with
  | Exited c => str "Kind normal beendet mit Return-Wert " ++ dec (c mod 256) ++ [LF]
  | Killed s core => str "Kind mit Signal-Nr beendet " ++ dec s ++ [LF] ++ str "Core-Dump " ++ (if core then str "yes" else str "no") ++ [LF]
  | Stopped s => str "Kind wurde angehalten mit Signal-Nr " ++ dec s ++ [LF]
  end.
(** Signals are numbered from 1 to 64. *)
Definition possible (x : ending) : Prop :=
  match x with Exited _ => True | Killed s _ | Stopped s => 1 ≤ s ≤ 64 end.

(** Decide a claim about a small range by trying all numbers. *)
Lemma small_cases (p : Z → bool) a n : forallb p (seqZ a n) = true → ∀ z, a ≤ z < a + n → p z = true.
Proof. rewrite forallb_forall. intros H z Hz. apply H, list_elem_of_In. by apply elem_of_seqZ. Qed.
Definition exited_ok (z : Z) : bool := WIFEXITED (Z.shiftl z 8) && (WEXITSTATUS (Z.shiftl z 8) =? z).
Definition killed_ok (core : bool) (s : Z) : bool :=
  let st := status_of (Killed s core) in
  negb (WIFEXITED st) && WIFSIGNALED st && (WTERMSIG st =? s) && eqb (WCOREDUMP st) core.
Definition stopped_ok (s : Z) : bool :=
  let st := status_of (Stopped s) in
  negb (WIFEXITED st) && negb (WIFSIGNALED st) && WIFSTOPPED st && (WSTOPSIG st =? s).
Lemma exited_all : forallb exited_ok (seqZ 0 256) = true.
Proof. vm_compute. reflexivity. Qed.
Lemma killed_all core : forallb (killed_ok core) (seqZ 1 64) = true.
Proof. destruct core; vm_compute; reflexivity. Qed.
Lemma stopped_all : forallb stopped_ok (seqZ 1 64) = true.
Proof. vm_compute. reflexivity. Qed.

Lemma exited_status c : WIFEXITED (status_of (Exited c)) = true ∧ WEXITSTATUS (status_of (Exited c)) = c mod 256.
Proof.
  cbn [status_of]. change 0xff with (Z.ones 8). rewrite Z.land_ones by done. change (2 ^ 8) with 256.
  pose proof (Z.mod_pos_bound c 256 ltac:(done)) as Hb.
  pose proof (small_cases _ _ _ exited_all (c mod 256) Hb) as H.
  unfold exited_ok in H. by rewrite andb_true_iff, Z.eqb_eq in H.
Qed.
Lemma killed_status s core : 1 ≤ s ≤ 64 →
  let st := status_of (Killed s core) in
  WIFEXITED st = false ∧ WIFSIGNALED st = true ∧ WTERMSIG st = s ∧ WCOREDUMP st = core.
Proof.
  intros Hs. pose proof (small_cases _ _ _ (killed_all core) s ltac:(lia)) as H. unfold killed_ok in H. cbv zeta in *.
  rewrite !andb_true_iff, negb_true_iff, Z.eqb_eq, eqb_true_iff in H. tauto.
Qed.
Lemma stopped_status s : 1 ≤ s ≤ 64 →
  let st := status_of (Stopped s) in
  WIFEXITED st = false ∧ WIFSIGNALED st = false ∧ WIFSTOPPED st = true ∧ WSTOPSIG st = s.
Proof.
  intros Hs. pose proof (small_cases _ _ _ stopped_all s ltac:(lia)) as H. unfold stopped_ok in H. cbv zeta in *.
  rewrite !andb_true_iff, !negb_true_iff, Z.eqb_eq in H. tauto.
Qed.
Lemma child_status_ok e x s (Q : post unit unit) : possible x →
  (∀ s', printed Stdout (hist s') = printed Stdout (hist s) ++ report x → Q (Val tt) s') →
  wp (child_status (status_of x)) e s Q.
Proof.
  intros Hx HQ. unfold child_status. destruct x as [c|n core|n]; cbn [possible report] in *.
  - destruct (exited_status c) as [-> ->]. wp_step. apply HQ. st_simpl. by rewrite printed_app, printed_1.
  - destruct (killed_status n core Hx) as (-> & -> & -> & ->). wp_steps. apply HQ. st_simpl.
    rewrite !printed_app, !printed_1, <- app_assoc. cbn [put_of]. by rewrite <- !app_assoc.
  - destruct (stopped_status n Hx) as (-> & -> & -> & ->). wp_step. apply HQ. st_simpl. by rewrite printed_app, printed_1.
Qed.

(** How a run ended. *)
Definition raised (ev : event) : bool := match ev with Sys (Craise s) _ => bool_decide (s = SIGABRT) | _ => false end.
Definition ending_of (r : outcome Z * st unit) : option ending :=
  if existsb raised (hist r.2) then Some (Killed SIGABRT true)
  else match r.1 with Val c | Exit c => Some (Exited c) | _ => None end.

Definition choice (z : Z) : ending :=
  if decide (z = 1) then Exited 66 else if decide (z = 2) then Killed SIGABRT true else Exited 0.
Lemma child_ends e z rest : INT_MIN ≤ z ≤ INT_MAX → no_digit_first rest → rv (kern e [] Cfork) = 0 →
  wp wait_main e (init () (dec z ++ rest)) (λ o s', ending_of (o, s') = Some (choice z)).
Proof.
  intros Hz Hr Hf. unfold wait_main. wp_steps. cbn [hist init] in Ha. rewrite <- Ha in Hf.
  rewrite decide_False by lia. rewrite decide_True by done. wp_steps.
  unfold wp at 1, scanf_d. st_simpl. cbn [stdin init]. rewrite scan_int_dec, decide_True by done. cbn [fst snd bpost].
  wp_steps. unfold choice. wp_if; [|wp_if]; unfold abort; wp_steps; unfold ending_of; cbn [fst snd]; st_simpl;
    rewrite ?decide_True, ?decide_False by done; [done|done|].
  done.
Qed.

Definition fork_kern (pid : Z) (x : ending) (_ : list event) (c : call) : ans :=
  match c with Cfork => answer pid | Cwait => Ans pid 0 [] [status_of x] [] | _ => answer 0 end.
End Wait_.

(** ** waitpid.c *)
Module Waitpid.
Definition WNOHANG : Z := 1.
Definition waitpid_main : M unit Z :=
  pid ← sys Cfork;
  if decide (rv pid = -1) then perror (str "Fehler bei fork()");; mret EXIT_FAILURE
  else if decide (rv pid = 0) then
    printf (line "--- Im Kindprozess ---");; sys (Csleep 5);; printf (line "--- Kindprozess ist fertig ---");;
    mret EXIT_SUCCESS
  else
    r ← sys (Cwaitpid (rv pid) WNOHANG);
    if decide (rv r ≠ 0) then perror (str "waitpid()");; mret EXIT_FAILURE
    else printf (line "--- Elternprozess blockiert nicht ---");; mret EXIT_SUCCESS.
End Waitpid.

(** ** daemon.c *)
Module Daemon.
Definition OPEN_MAX : Z := 4.
Definition handle_signal (sig_nr handler : Z) : M unit Z :=
  a ← sys (Csigaction sig_nr handler SA_RESTART);
  if decide (rv a < 0) then mret SIG_ERR else mem (head (rwords a)).
(** [for (i = n; i > 0; --i) close(i)] *)
Fixpoint close_down (n : nat) : M unit unit :=
  match n with O => mret () | S m => sys (Cclose (Z.of_nat n));; close_down m end.
Definition start_deamon (log_name : list Z) : M unit unit :=
  pid ← sys Cfork;
  (if decide (rv pid ≠ 0) then exit EXIT_FAILURE else mret ());;
  r ← sys Csetsid;
  (if decide (rv r < 0) then printf (log_name ++ line " kann nicht Sessionfuehrer werden!");; exit EXIT_FAILURE else mret ());;
  handle_signal SIGHUP SIG_IGN;;
  pid ← sys Cfork;
  (if decide (rv pid ≠ 0) then exit EXIT_FAILURE else mret ());;
  sys (Cchdir (str "/"));;
  sys (Cumask 0);;
  n ← sys (Csysconf OPEN_MAX);
  close_down (Z.to_nat (rv n)).
(** The log is opened and closed without an effect of its own. *)
Definition daemon_main : M unit Z :=
  start_deamon (str "meinDeamon");;
  sys (Csyslog (line "Daemon gestartet ..."));;
  sys (Csleep 15);;
  sys (Csyslog (str "Daemon laeuft " ++ dec 15 ++ line " sek"));;
  sys (Csyslog (line "Daemon hat sich beendet"));;
  mret EXIT_SUCCESS.

Definition logged_of (ev : event) : list Z := match ev with Sys (Csyslog m) _ => m | _ => [] end.
Definition logged (h : list event) : list Z := concat (logged_of <$> h).
Lemma logged_snoc h ev : logged (h ++ [ev]) = logged h ++ logged_of ev.
Proof. unfold logged. rewrite fmap_app, concat_app. cbn. by rewrite app_nil_r. Qed.
(** Every descriptor up to [n] is closed, except 0. *)
Lemma close_down_ok e n : ∀ s (Q : post unit unit),
  (∀ s', logged (hist s') = logged (hist s) → (∀ fd, closed fd (hist s') = closed fd (hist s) || bool_decide (1 ≤ fd ≤ Z.of_nat n)) → Q (Val tt) s') →
  wp (close_down n) e s Q.
Proof.
  induction n as [|n IH]; intros s Q HQ; cbn [close_down].
  - wp_step. apply HQ; [done|]. intros fd. rewrite bool_decide_false by lia. by rewrite orb_false_r.
  - do 2 wp_step. apply IH. intros s' Hl Hc. apply HQ; st_simpl.
    + by rewrite Hl, logged_snoc, app_nil_r.
    + intros fd. rewrite Hc, closed_app, closed_1. cbn [closed_of]. rewrite <- orb_assoc. f_equal.
      destruct (decide (fd = Z.of_nat (S n))) as [->|Hne].
      * rewrite (bool_decide_true (Z.of_nat (S n) = _)) by done. cbn [orb]. symmetry. apply bool_decide_true. lia.
      * rewrite (bool_decide_false (Z.of_nat (S n) = fd)) by done. apply bool_decide_ext. lia.
Qed.

Lemma handle_signal_ok e sig_nr handler s (Q : post unit Z) :
  (∀ h, rv (kern e h (Csigaction sig_nr handler SA_RESTART)) = -1 ∨ rwords (kern e h (Csigaction sig_nr handler SA_RESTART)) ≠ []) →
  (∀ s' v a, hist s' = hist s ++ [Sys (Csigaction sig_nr handler SA_RESTART) a] → Q (Val v) s') →
  wp (handle_signal sig_nr handler) e s Q.
Proof.
  intros Hk HQ. unfold handle_signal. do 2 wp_step. specialize (Hk (hist s)). rewrite <- Ha in Hk.
  wp_if; [wp_step|]; [|apply wp_mem; destruct (rwords a) as [|w ws]; [destruct Hk; [lia|done]|cbn [head]]].
  all: apply (HQ _ _ a); by st_simpl.
Qed.

(** In the process that is its own child twice over daemon.c ends with
    success, has the three messages in the log, in this order, and has closed
    every descriptor from 1 to OPEN_MAX, but not standard input. *)
Theorem daemon_runs e n :
  (∀ h, rv (kern e h Cfork) = 0) → (∀ h, 0 ≤ rv (kern e h Csetsid)) →
  (∀ h a b c, rv (kern e h (Csigaction a b c)) = -1 ∨ rwords (kern e h (Csigaction a b c)) ≠ []) →
  (∀ h, rv (kern e h (Csysconf OPEN_MAX)) = n) →
  wp daemon_main e (init () []) (λ o s',
    o = Val EXIT_SUCCESS ∧
    logged (hist s') = line "Daemon gestartet ..." ++ line "Daemon laeuft 15 sek" ++ line "Daemon hat sich beendet" ∧
    ∀ fd, closed fd (hist s') = bool_decide (1 ≤ fd ≤ n)).
Proof.
  intros Hf Hs Hsa Hn. unfold daemon_main, start_deamon. wp_steps.
  assert (Hr : rv a = 0) by (rewrite Ha; apply Hf). rewrite decide_False by lia. wp_steps.
  assert (Hr0 : 0 ≤ rv a0) by (rewrite Ha0; apply Hs). rewrite decide_False by lia. wp_steps.
  apply handle_signal_ok; [intros h; apply Hsa|]. intros s1 v b1 Hh1. cbn [bpost]. wp_steps.
  assert (Hr1 : rv a1 = 0) by (rewrite Ha1; apply Hf). rewrite decide_False by lia. wp_steps.
  assert (Hr4 : rv a4 = n) by (rewrite Ha4; apply Hn). rewrite Hr4. apply close_down_ok. intros s2 Hl Hc. wp_steps. split; [done|]. st_simpl.
  split.
  - rewrite !logged_snoc, Hl, !logged_snoc, Hh1. st_simpl. vm_compute. reflexivity.
  - intros fd. rewrite !closed_app, !closed_1, Hc, Hh1. st_simpl.
    cbn [closed_of]. rewrite !orb_false_r. apply bool_decide_ext. lia.
Qed.
Definition daemon_kern (_ : list event) (c : call) : ans :=
  match c with Csysconf _ => answer 1024 | Csigaction _ _ _ => Ans 0 0 [] [0] [] | _ => answer 0 end.
Lemma daemon_runs_witness :
  wp daemon_main (env_of daemon_kern) (init () []) (λ o s',
    o = Val EXIT_SUCCESS ∧
    logged (hist s') = line "Daemon gestartet ..." ++ line "Daemon laeuft 15 sek" ++ line "Daemon hat sich beendet" ∧
    ∀ fd, closed fd (hist s') = bool_decide (1 ≤ fd ≤ 1024)).
Proof. by apply daemon_runs; auto. Defined.
End Daemon.
