(* ===== verification/Environ.v ===== *)
(** * 07_Processes: the environment variables of a process

    [get_env.c], [set_env.c], [put_env.c], [unset_env.c], [environ1.c] and
    [environ2.c].  The environment is the array of strings [environ] without
    its null pointer, and [getenv], [setenv], [putenv] and [unsetenv] of the C
    library are modelled on it.  The abstract specification is a finite map from
    names to values ([as_map]). *)
From S2P Require Import Prelude CLib Machine.

(** ** The C library *)
Abbreviation environment := (list (list Z)).
Definition EQ : Z := 61.
Definition entry_of (n e : list Z) : bool := is_prefix (n ++ [EQ]) e.
Fixpoint getenv (n : list Z) (env : environment) : option (list Z) :=
  match env with
  | [] => None
  | e :: r => if entry_of n e then Some (drop (length n + 1) e) else getenv n r
  end.
(** The entry of a name is replaced in place; a new one comes last. *)
Fixpoint set_entry (n s : list Z) (env : environment) : environment :=
  match env with
  | [] => [s]
  | e :: r => if entry_of n e then s :: r else e :: set_entry n s r
  end.
(** [None]: the name is empty or has an equals sign ([EINVAL]). *)
Definition setenv (n v : list Z) (overwrite : Z) (env : environment) : option environment :=
  if decide (n = [] ∨ EQ ∈ n) then None
  else if decide (overwrite = 0 ∧ is_Some (getenv n env)) then Some env
  else Some (set_entry n (n ++ EQ :: v) env).
Fixpoint unsetenv (n : list Z) (env : environment) : environment :=
  match env with
  | [] => []
  | e :: r => if entry_of n e then unsetenv n r else e :: unsetenv n r
  end.
Definition putenv (s : list Z) (env : environment) : environment :=
  match strchr s EQ with
  | Some _ => set_entry (span_until (λ c, bool_decide (c = EQ)) s).1 s env
  | None => unsetenv s env
  end.

(** ** The programs *)
Definition MAX : nat := 255.
(** [scanf("%254s", name)]; its result is not looked at. *)
Definition scan_name : M environment buf :=
  l ← scanf_s 254;
  match l with Some l => mem (strcpy (uninit MAX) l) | None => mret (uninit MAX) end.
(** [printf("... %s\n", getenv(name))]: a null pointer is undefined behaviour. *)
Definition show_value (text : list Z) (name : list Z) : M environment unit :=
  env ← get;
  v ← mem (getenv name env);
  printf (text ++ v ++ [LF]).
Definition ask_name : M environment (list Z) :=
  printf (str "Umgebungsvariable: ");;
  name ← scan_name;
  n ← mem (cstr name);
  show_value (str "Wert        : ") n;;
  mret n.
Definition ask_value : M environment (list Z) :=
  printf (str "Wert aendern/setzen: ");;
  neu_wert ← scan_name;
  mem (cstr neu_wert).
Definition show_new (n : list Z) : M environment unit := show_value (str "Neuer Wert (" ++ n ++ str "): ") n.

Module GetEnv.
Definition get_env_main : M environment Z :=
  ask_name;;
  mret EXIT_SUCCESS.
End GetEnv.

Module SetEnv.
Definition OVERWRITE : Z := 1.
Definition set_env_main : M environment Z :=
  n ← ask_name;
  v ← ask_value;
  env ← get;
  (match setenv n v OVERWRITE env with
   | Some env => put env
   | None => printf (line "Konnte neuen Wert nicht setzen")
   end);;
  show_new n;;
  mret EXIT_SUCCESS.
End SetEnv.

Module PutEnv.
(** [strdup] is assumed to find memory. *)
Definition put_env (name wert : list Z) : M environment Z :=
  buffer ← mem (strcpy (zeroed (MAX + MAX)) name);
  buffer ← mem (strcat buffer (str "="));
  buffer ← mem (strcat buffer wert);
  s ← mem (cstr buffer);
  env ← get;
  put (putenv s env);;
  mret 0.
Definition put_env_main : M environment Z :=
  n ← ask_name;
  v ← ask_value;
  r ← put_env n v;
  (if decide (r ≠ 0) then printf (line "Konnte neuen Wert nicht setzen") else mret ());;
  show_new n;;
  mret EXIT_SUCCESS.
End PutEnv.

Module UnsetEnv.
Definition unset_env_main : M environment Z :=
  n ← ask_name;
  env ← get;
  put (unsetenv n env);;
  show_new n;;
  mret EXIT_SUCCESS.
End UnsetEnv.

Module Environ12.
(** [environ[i]] is a null pointer behind the last entry. *)
Definition environ1_body (environ : environment) (i : nat) : M environment (nat + unit) :=
  match environ !! i with
  | Some e => printf (e ++ [LF]);; mret (inl (S i))
  | None => mret (inr ())
  end.
Definition environ1_main (fuel : nat) : M environment Z :=
  environ ← get;
  loop fuel (environ1_body environ) 0%nat;;
  mret EXIT_SUCCESS.
(** [envp] is a pointer into the array: what is left of it. *)
Definition environ2_body (envp : environment) : M environment (environment + unit) :=
  match envp with
  | e :: r => printf (e ++ [LF]);; mret (inl r)
  | [] => mret (inr ())
  end.
Definition environ2_main (fuel : nat) : M environment Z :=
  envp ← get;
  loop fuel environ2_body envp;;
  mret EXIT_SUCCESS.
End Environ12.

(** ** The specification: a map from names to values *)
Definition split_entry (e : list Z) : option (list Z * list Z) :=
  let '(n, r) := span_until (λ c, bool_decide (c = EQ)) e in
  match r with [] => None | _ :: v => Some (n, v) end.
Definition as_map (env : environment) : gmap (list Z) (list Z) :=
  foldr (λ e m, match split_entry e with Some (n, v) => <[n:=v]> m | None => m end) ∅ env.

Arguments as_map : simpl never.
Lemma as_map_cons e env :
  as_map (e :: env) = match split_entry e with Some (n, v) => <[n:=v]> (as_map env) | None => as_map env end.
Proof. done. Qed.

Lemma split_entry_app n v : EQ ∉ n → split_entry (n ++ EQ :: v) = Some (n, v).
Proof.
  intros Hn. unfold split_entry. rewrite (span_until_none _ n (EQ :: v)); [done| |right; by exists EQ, v].
  apply Forall_forall. intros c Hc. apply bool_decide_false. by intros ->.
Qed.
Lemma entry_of_spec n e : EQ ∉ n → entry_of n e = true ↔ ∃ v, e = n ++ EQ :: v ∧ split_entry e = Some (n, v).
Proof.
  intros Hn. unfold entry_of. rewrite is_prefix_spec. split.
  - intros [v ->]. exists v. rewrite <- app_assoc. split; [done|]. by apply split_entry_app.
  - intros (v & -> & _). exists v. by rewrite <- app_assoc.
Qed.
Lemma entry_of_other n e n' v : EQ ∉ n → entry_of n e = false → split_entry e = Some (n', v) → n' ≠ n.
Proof.
  intros Hn He Hs ->. apply not_true_iff_false in He. apply He, entry_of_spec; [done|]. exists v. split; [|done].
  unfold split_entry in Hs. pose proof (span_until_app (λ c, bool_decide (c = EQ)) e) as Ha.
  pose proof (span_until_snd (λ c, bool_decide (c = EQ)) e) as Hp.
  destruct (span_until _ e) as [a [|x b]]; [done|]. injection Hs as -> ->. cbn in *.
  destruct Hp as [|(? & ? & E & Hx)]; [done|]. injection E as -> ->. apply bool_decide_eq_true in Hx as ->. done.
Qed.
Ltac entry_cases n e :=
  destruct (entry_of n e) eqn:?He;
  [apply entry_of_spec in He as (?v & -> & ?Hs); [|done]; rewrite Hs |
   destruct (split_entry e) as [[?n' ?v']|] eqn:?Hs; [eapply entry_of_other in He; [|done..]|]].

(** The four operations of the library refine those of the map. *)
Lemma getenv_map n env : EQ ∉ n → getenv n env = as_map env !! n.
Proof.
  intros Hn. induction env as [|e env IH]; [done|]. rewrite as_map_cons. cbn. entry_cases n e.
  - rewrite lookup_insert_eq. f_equal. by rewrite drop_app_add'.
  - by rewrite lookup_insert_ne.
  - done.
Qed.
Lemma set_entry_map n v env : EQ ∉ n → as_map (set_entry n (n ++ EQ :: v) env) = <[n:=v]> (as_map env).
Proof.
  intros Hn. induction env as [|e env IH]; cbn; [by rewrite as_map_cons, split_entry_app|]. rewrite as_map_cons. entry_cases n e; rewrite as_map_cons.
  - by rewrite split_entry_app, insert_insert_eq.
  - rewrite Hs, IH. by apply insert_insert_ne.
  - by rewrite Hs, IH.
Qed.
Lemma setenv_map n v env : n ≠ [] → EQ ∉ n →
  ∃ env', setenv n v 1 env = Some env' ∧ as_map env' = <[n:=v]> (as_map env).
Proof.
  intros Hne Hn. unfold setenv. rewrite decide_False by tauto. rewrite decide_False by (intros [? _]; lia).
  eexists. split; [done|]. by apply set_entry_map.
Qed.
Lemma putenv_map n v env : EQ ∉ n → as_map (putenv (n ++ EQ :: v) env) = <[n:=v]> (as_map env).
Proof.
  intros Hn. unfold putenv, strchr. rewrite (span_until_none _ n (EQ :: v)); [by apply set_entry_map| |right; by exists EQ, v].
  apply Forall_forall. intros c Hc. apply bool_decide_false. by intros ->.
Qed.
Lemma unsetenv_map n env : EQ ∉ n → as_map (unsetenv n env) = delete n (as_map env).
Proof.
  intros Hn. induction env as [|e env IH]; [unfold as_map; cbn; by rewrite delete_empty|].
  rewrite as_map_cons. cbn. entry_cases n e; [|rewrite as_map_cons, Hs, IH..].
  - by rewrite delete_insert_eq.
  - by rewrite delete_insert_ne.
  - done.
Qed.

(** ** What the programs do *)
Definition word (l : list Z) : Prop :=
  l ≠ [] ∧ Forall (λ c, isspace c = false) l ∧ nozero l ∧ (length l < MAX)%nat.
#[export] Instance word_dec l : Decision (word l).
Proof. unfold word. apply _. Defined.
Notation out s := (printed Stdout (hist s)).

Section proofs.
Context (e : env).

Lemma scan_name_ok w r (s : st environment) (Q : post environment buf) :
  word w → stdin s = w ++ LF :: r ∨ stdin s = LF :: w ++ LF :: r →
  (∀ b s', cstr b = Some w → stdin s' = LF :: r → hist s' = hist s → glob s' = glob s → Q (Val b) s') →
  wp scan_name e s Q.
Proof.
  intros (Hne & Hsp & Hz & Hl) Hin HQ. destruct w as [|c w]; [done|].
  assert (skip_space (stdin s) = (c :: w) ++ LF :: r) as Hskip.
  { apply Forall_cons in Hsp as [Hc _]. destruct Hin as [-> | ->]; cbn; by rewrite Hc. }
  unfold scan_name. wp_step. unfold wp, scanf_s. rewrite Hskip.
  rewrite (span_until_none _ (c :: w) (LF :: r)); [|done|right; by exists LF, r].
  rewrite (take_ge (c :: w)) by (unfold MAX in *; lia). rewrite drop_app_length. cbn [fst snd bpost].
  destruct (strcpy_Some (uninit MAX) (c :: w)) as (b & Eb & _); [by rewrite length_uninit|].
  apply wp_mem. rewrite Eb. apply HQ; [by eapply strcpy_cstr|by st_simpl..].
Qed.
(** The name and the value the programs read, and the prompts. *)
Lemma ask_name_ok n r v (s : st environment) (Q : post environment (list Z)) :
  word n → stdin s = n ++ LF :: r → getenv n (glob s) = Some v →
  (∀ s', stdin s' = LF :: r → glob s' = glob s →
     out s' = out s ++ str "Umgebungsvariable: " ++ str "Wert        : " ++ v ++ [LF] → Q (Val n) s') →
  wp ask_name e s Q.
Proof.
  intros Hn Hin Hv HQ. unfold ask_name. wp_steps. apply (scan_name_ok n r); [done|left; by st_simpl|].
  intros b s1 Hb Hi1 Hh1 Hg1. cbn [bpost]. wp_step. apply wp_mem. rewrite Hb. unfold show_value. wp_steps.
  apply wp_mem. rewrite Hg1. st_simpl. rewrite Hv. wp_steps. apply HQ; [by st_simpl|st_simpl; congruence|].
  st_simpl. rewrite Hh1. by hist_norm.
Qed.
Lemma ask_value_ok w r (s : st environment) (Q : post environment (list Z)) :
  word w → stdin s = LF :: w ++ LF :: r →
  (∀ s', glob s' = glob s → out s' = out s ++ str "Wert aendern/setzen: " → Q (Val w) s') →
  wp ask_value e s Q.
Proof.
  intros Hw Hin HQ. unfold ask_value. wp_steps. apply (scan_name_ok w r); [done|right; by st_simpl|].
  intros b s1 Hb Hi1 Hh1 Hg1. cbn [bpost]. apply wp_mem. rewrite Hb. apply HQ; [st_simpl; congruence|].
  rewrite Hh1. by hist_norm.
Qed.
Lemma show_new_ok n v (s : st environment) (Q : post environment unit) :
  getenv n (glob s) = Some v →
  (∀ s', glob s' = glob s → out s' = out s ++ str "Neuer Wert (" ++ n ++ str "): " ++ v ++ [LF] → Q (Val ()) s') →
  wp (show_new n) e s Q.
Proof.
  intros Hv HQ. unfold show_new, show_value. wp_steps. apply wp_mem. rewrite Hv. wp_steps.
  apply HQ; [by st_simpl|by hist_norm].
Qed.
(** The array of [put_env] holds the longest name, the sign, and the longest
    value, with nothing to spare. *)
Lemma put_env_ok n v (s : st environment) (Q : post environment Z) :
  word n → word v →
  (∀ s', hist s' = hist s → glob s' = putenv (n ++ EQ :: v) (glob s) → Q (Val 0) s') →
  wp (PutEnv.put_env n v) e s Q.
Proof.
  intros (_ & _ & Hn & Hnl) (_ & _ & Hv & Hvl) HQ. unfold PutEnv.put_env, MAX in *.
  destruct (strcpy_Some (zeroed (255 + 255)) n) as (b1 & E1 & L1); [rewrite length_zeroed; lia|].
  pose proof (strcpy_cstr _ _ _ Hn E1) as C1. rewrite length_zeroed in L1.
  destruct (strcat_Some b1 n (str "=") C1) as (b2 & E2); [rewrite L1; change (length (str "=")) with 1%nat; lia|].
  destruct (strcat_spec b1 n (str "=") b2 C1 ltac:(by_compute) E2) as [C2 L2].
  destruct (strcat_Some b2 _ v C2) as (b3 & E3); [rewrite L2, L1, length_app; change (length (str "=")) with 1%nat; lia|].
  destruct (strcat_spec _ _ _ _ C2 Hv E3) as [C3 _]. rewrite <- app_assoc in C3. change (str "=" ++ v) with (EQ :: v) in C3.
  wp_step. apply wp_mem. rewrite E1. wp_step. apply wp_mem. rewrite E2. wp_step. apply wp_mem. rewrite E3.
  wp_step. apply wp_mem. rewrite C3. wp_steps. apply HQ; by st_simpl.
Qed.
End proofs.

(** What set_env.c and put_env.c print. *)
Definition env_dialog (n o v : list Z) : list Z :=
  str "Umgebungsvariable: " ++ str "Wert        : " ++ o ++ [LF] ++ str "Wert aendern/setzen: " ++
  str "Neuer Wert (" ++ n ++ str "): " ++ v ++ [LF].

(** C40. set_env.c and put_env.c do the same for a variable that is set, with
    a name without an equals sign: both show the old value, change the variable
    to the new one, show that, and leave all others as they are; no name and
    no value that scanf lets through is too long for the array of put_env. *)
Theorem set_put_agree e main g n v r o :
  main = SetEnv.set_env_main ∨ main = PutEnv.put_env_main →
  word n → word v → EQ ∉ n → as_map g !! n = Some o →
  wp main e (init g (n ++ LF :: v ++ LF :: r)) (λ res s, res = Val EXIT_SUCCESS ∧
    out s = env_dialog n o v ∧ as_map (glob s) = <[n:=v]> (as_map g)).
Proof.
  intros Hmain Hn Hv Heq Ho. rewrite <- getenv_map in Ho by done.
  assert (∀ s', as_map (glob s') = <[n:=v]> (as_map g) → out s' = str "Umgebungsvariable: " ++ str "Wert        : " ++ o ++ [LF] ++ str "Wert aendern/setzen: " →
    wp (show_new n) e s' (λ res s, res = Val () ∧ out s = env_dialog n o v ∧ as_map (glob s) = <[n:=v]> (as_map g))) as Hend.
  { intros s' Hg Hout. apply (show_new_ok e n v); [by rewrite getenv_map, Hg, lookup_insert_eq|].
    intros s2 Hg2 Ho2. split; [done|]. split; [|congruence]. rewrite Ho2, Hout. unfold env_dialog. by rewrite <- !app_assoc. }
  destruct Hmain as [-> | ->]; unfold SetEnv.set_env_main, PutEnv.put_env_main; wp_step;
    (apply (ask_name_ok e n (v ++ LF :: r) o); [done|done|exact Ho|]); intros s1 Hi1 Hg1 Ho1; wp_step;
    (apply (ask_value_ok e v r); [done|exact Hi1|]); intros s2 Hg2 Ho2; wp_steps.
  - rewrite Hg2, Hg1. destruct (setenv_map n v g) as (g' & E & Hm); [by destruct Hn|done|]. unfold SetEnv.OVERWRITE.
    cbn [init glob]. rewrite E. wp_steps.
    eapply wp_mono; [apply Hend; [by st_simpl|]|]; [st_simpl; rewrite Ho2, Ho1; by rewrite <- !app_assoc|].
    intros res s (-> & Hout & Hmap). by wp_steps.
  - apply put_env_ok; [done..|]. intros s3 Hh3 Hg3. wp_steps. rewrite decide_False by tauto. wp_steps.
    eapply wp_mono; [apply Hend; [rewrite Hg3, Hg2, Hg1; by apply putenv_map|]|]; [rewrite Hh3, Ho2, Ho1; by rewrite <- !app_assoc|].
    intros res s (-> & Hout & Hmap). by wp_steps.
Qed.
Definition g0 : environment := [str "HOME=/root"; str "LANG=C"; str "SHELL=/bin/sh"].
Lemma set_put_agree_witness :
  wp PutEnv.put_env_main (env_of (λ _ _, answer 0)) (init g0 (str "LANG" ++ LF :: str "de" ++ LF :: []))
    (λ res s, res = Val EXIT_SUCCESS ∧ out s = env_dialog (str "LANG") (str "C") (str "de") ∧
      as_map (glob s) = <[str "LANG":=str "de"]> (as_map g0)).
Proof. apply set_put_agree; [by right|by_compute|by_compute|by_compute|by vm_compute]. Defined.
(** With an equals sign in the name the two differ. *)
Example set_put_differ :
  setenv (str "A=B") (str "C") 1 g0 = None ∧ as_map (putenv (str "A=B=C") g0) !! str "A" = Some (str "B=C").
Proof. by vm_compute. Qed.

(** unset_env.c always ends in undefined behaviour: it prints the value of the
    variable it has just removed, which is a null pointer. *)
Lemma unset_env_undefined e g n r :
  word n → EQ ∉ n → wp UnsetEnv.unset_env_main e (init g (n ++ LF :: r)) (λ res _, res = Undef).
Proof.
  intros Hn Heq. unfold UnsetEnv.unset_env_main. destruct (getenv n g) as [o|] eqn:Ho.
  - wp_step. apply (ask_name_ok e n r o); [done..|]. intros s1 _ Hg1 _. wp_steps. unfold show_new, show_value. wp_steps.
    apply wp_mem. rewrite glob_set_glob, Hg1. cbn [init glob].
    rewrite getenv_map, unsetenv_map, lookup_delete_eq by done. done.
  - unfold ask_name. wp_steps. apply (scan_name_ok e n r); [done|by left|]. intros b s1 Hb _ _ Hg1. cbn [bpost].
    wp_step. apply wp_mem. rewrite Hb. unfold show_value. wp_steps. apply wp_mem. rewrite Hg1, glob_log. cbn [init glob]. by rewrite Ho.
Qed.
(** get_env.c: the value, or a null pointer printed. *)
Lemma get_env_shows e g n r : word n →
  wp GetEnv.get_env_main e (init g (n ++ LF :: r)) (λ res s, match getenv n g with
    | Some v => res = Val EXIT_SUCCESS ∧ out s = str "Umgebungsvariable: " ++ str "Wert        : " ++ v ++ [LF]
    | None => res = Undef end).
Proof.
  intros Hn. unfold GetEnv.get_env_main. destruct (getenv n g) as [o|] eqn:Ho.
  - wp_step. apply (ask_name_ok e n r o); [done..|]. intros s1 _ _ Ho1. wp_steps. by rewrite Ho1.
  - unfold ask_name. wp_steps. apply (scan_name_ok e n r); [done|by left|]. intros b s1 Hb _ _ Hg1. cbn [bpost].
    wp_step. apply wp_mem. rewrite Hb. unfold show_value. wp_steps. apply wp_mem. rewrite Hg1, glob_log. cbn [init glob]. by rewrite Ho.
Qed.

(** Both listings print every entry, in order. *)
Definition listing (g : environment) : list Z := concat ((λ x, x ++ [LF]) <$> g).
Lemma environ_lists e main g fuel inp :
  main = Environ12.environ1_main ∨ main = Environ12.environ2_main → (length g < fuel)%nat →
  wp (main fuel) e (init g inp) (λ res s, res = Val EXIT_SUCCESS ∧ out s = listing g).
Proof.
  intros [-> | ->] Hf; unfold Environ12.environ1_main, Environ12.environ2_main; wp_steps.
  - eapply (wp_loop_measure e _ (λ i s, (i ≤ length g)%nat ∧ out s = listing (take i g)) (λ i _, (length g - i)%nat)); [|split; [lia|done]|lia].
    intros i s [Hi Ho]. unfold Environ12.environ1_body. cbn [init glob] in *. destruct (g !! i) as [x|] eqn:E.
    + pose proof (lookup_lt_Some _ _ _ E). wp_steps. split_and!; [lia| |lia]. hist_norm. rewrite Ho, (take_S_r _ _ x) by done.
      unfold listing. by rewrite fmap_app, concat_app; cbn; rewrite app_nil_r.
    + wp_steps. split; [done|]. rewrite Ho, take_ge; [done|]. by apply lookup_ge_None.
  - eapply (wp_loop_measure e _ (λ l s, out s ++ listing l = listing g) (λ l _, length l)); [|done|done].
    intros [|x l] s Ho; cbn [Environ12.environ2_body]; wp_steps.
    + split; [done|]. rewrite <- Ho. unfold listing. by rewrite app_nil_r.
    + split; [|cbn; lia]. hist_norm. rewrite <- Ho. unfold listing. cbn. by rewrite <- !app_assoc.
Qed.
