(* ===== verification/ExecPrograms.v ===== *)
(** * 07_Processes: programs that run other programs

    [exec1.c] to [exec6.c], [exec_child.c] with [my_programm.c],
    [prio_child.c], [my_find.c], and the small programs [my_limit.c],
    [proc_dat.c], [logging.c] and [zombie.c].  A call of the exec family is
    answered with -1 when it fails, and otherwise with the exit status of the
    program that takes over. *)
From S2P Require Import Prelude CLib Machine FileIO.

Abbreviation M := (Machine.M unit).
(** A variable argument list ends at its first null pointer. *)
Fixpoint upto_null (l : list (option (list Z))) : list (list Z) :=
  match l with Some x :: l => x :: upto_null l | _ => [] end.
Definition took_over (a : ans) : M Z := if decide (rv a = -1) then mret (-1) else exit (rv a).
Definition exec (path : list Z) (argv : list (option (list Z))) : M Z := a ← sys (Cexec path (upto_null argv)); took_over a.
Definition execve (path : list Z) (argv env : list (option (list Z))) : M Z :=
  a ← sys (Cexecve path (upto_null argv) (upto_null env)); took_over a.

(** ** exec1.c to exec6.c *)
Module Exec.
Definition MAX : nat := 255.
Definition exec1_main : M Z :=
  wd ← mem (bset (uninit MAX) (Z.of_nat MAX - 1) 0);
  a ← sys (Clib "getcwd" [Z.of_nat MAX - 1] []);
  if decide (rv a = 0) then printf (str "Konnte Arbeitsverzeichnis nicht ermitteln!");; mret 0
  else
    wd ← mem (strcpy wd (rdata a));
    d ← mem (cstr wd);
    exec (str "/bin/ls") [Some (str "ls"); Some (str "-l"); Some d; None].
Definition exec2_main : M Z :=
  execve (str "/usr/bin/printenv") [Some (str "printenv"); None]
    [Some (str "SHELL=/bin/bash"); Some (str "LOGNAME=a_username"); Some (str "OSTYPE=L1NuX"); None].
Definition exec3_main : M Z := exec (str "/bin/ls") [Some (str "ls"); Some (str "-l"); Some (str "/usr/bin"); None].
Definition exec4_main : M Z :=
  execve (str "/bin/ls") [Some (str "ls"); Some (str "-l"); Some (str "/"); None]
    [Some (str "SHELL=/bin/bash"); Some (str "LOGNAME=heino"); Some (str "OSTYPE=LiNuX"); None].
Definition HOME : list Z := str "HOME".
Definition exec5_main : M Z :=
  e ← ask;
  exec (str "ls") [Some (str "ls"); Some (str "-l"); getenv e HOME; None].
Definition exec6_main : M Z :=
  e ← ask;
  let args := [Some (str "ls"); Some (str "-l"); getenv e HOME; None] in
  exec (str "/bin/ls") args.
End Exec.

(** ** exec_child.c and my_programm.c *)
Module ExecChild.
Definition PROGRAMM : list Z := str "./my_programm".
Definition exec_child_main : M Z :=
  pid ← sys Cfork;
  if decide (rv pid = -1) then perror (str "fork()");; mret EXIT_FAILURE
  else if decide (rv pid = 0) then
    exec PROGRAMM [Some PROGRAMM; Some (str "Hallo"); Some (str "Welt"); None];;
    printf (line "Wird niemals erreicht ...");;
    mret EXIT_SUCCESS
  else
    r ← sys (Cwaitpid (rv pid) 0);
    if decide (rv r ≠ rv pid) then perror (str "waitpid()");; mret EXIT_FAILURE else mret EXIT_SUCCESS.
Definition print_arg (argv : list (list Z)) (i : Z) : M unit :=
  a ← arg argv (Z.to_nat i); printf (str "Argumente " ++ dec i ++ str " : " ++ a ++ [LF]).
Definition my_programm_main (argv : list (list Z)) : M Z :=
  a0 ← arg argv 0;
  printf (str "Programmname : " ++ a0 ++ [LF]);;
  for_range (length argv - 1) 1 (print_arg argv);;
  mret EXIT_SUCCESS.
End ExecChild.

(** ** prio_child.c *)
Module PrioChild.
Definition PROGRAM : list Z := str "/usr/bin/find".
Definition PRIORITY : Z := 19.
Definition MAX_ARGS_LEN : nat := 1024.
Definition PRIO_PROCESS : Z := 0.
(** An assignment to the array; none outside of it. *)
Definition set_arg (args : list (option (list Z))) (i : nat) (v : option (list Z)) : option (list (option (list Z))) :=
  if decide (i < length args)%nat then Some (<[i := v]> args) else None.
(** The loop from [i] on, and the null pointer behind it; [n] bounds the turns. *)
Fixpoint fill_args (n : nat) (argv : list (list Z)) (i : nat) (args : list (option (list Z))) : option (list (option (list Z))) :=
  if decide (i < length argv ∧ i < MAX_ARGS_LEN)%nat then
    match n with
    | O => None
    | S n => a ← argv !! i; args ← set_arg args i (Some a); fill_args n argv (S i) args
    end
  else set_arg args i None.
Definition args0 : list (option (list Z)) := Some PROGRAM :: replicate MAX_ARGS_LEN None.
Definition prio_child_main (argv : list (list Z)) : M Z :=
  uid ← lib "getuid" [] [];
  lib "seteuid" [uid] [];;
  args ← mem (fill_args MAX_ARGS_LEN argv 1 args0);
  pid ← sys Cfork;
  (if decide (rv pid = 0) then exec PROGRAM args;; mret ()
   else lib "seteuid" [0] [];; lib "setpriority" [PRIO_PROCESS; rv pid; PRIORITY] [];; mret ());;
  mret EXIT_SUCCESS.
End PrioChild.

(** ** my_find.c, my_limit.c, proc_dat.c, logging.c and zombie.c *)
Module SmallProcs.
Definition my_find_main : M Z :=
  printf (line "Vor system()-Aufruf");;
  lib "system" [] (str "find /usr/include -name 'std*'");;
  printf (line "Nach system()-Aufruf");;
  mret EXIT_SUCCESS.
Definition RLIM_INFINITY : Z := 0xFFFFFFFFFFFFFFFF.
Definition print_lim (lim : Z) : M unit :=
  if decide (lim = RLIM_INFINITY) then printf (line "kein Limit") else printf (dec (swrap 64 lim) ++ line " ").
Definition limits (resource : Z) : M unit :=
  l ← sys (Clib "getrlimit" [resource] []);
  if decide (rv l < 0) then printf (line "Keine Angaben")
  else
    c ← mem (rwords l !! 0%nat); m ← mem (rwords l !! 1%nat);
    printf (str "Soft-Limit: ");; print_lim c;;
    printf (str "Hard-Limit: ");; print_lim m.
Definition all_limits : list (Z * list Z) := [
  (4, str "RLIMIT_CORE"); (0, str "RLIMIT_CPU"); (2, str "RLIMIT_DATA"); (1, str "RLIMIT_FSIZE"); (8, str "RLIMIT_MEMLOCK");
  (7, str "RLIMIT_NOFILE"); (6, str "RLIMIT_NPROC"); (5, str "RLIMIT_RSS"); (3, str "RLIMIT_STACK"); (9, str "RLIMIT_AS");
  (12, str "RLIMIT_MSGQUEUE"); (13, str "RLIMIT_NICE"); (14, str "RLIMIT_RTPRIO"); (15, str "RLIMIT_RTTIME");
  (11, str "RLIMIT_SIGPENDING")].
Fixpoint show_limits (l : list (Z * list Z)) : M unit :=
  match l with
  | [] => mret ()
  | (lim, name) :: l => printf (LF :: name ++ line " :");; limits lim;; show_limits l
  end.
Definition my_limit_main : M Z := show_limits all_limits;; mret EXIT_SUCCESS.
Definition proc_dat_main : M Z :=
  pid ← sys Cgetpid; printf (str "Meine PID: " ++ dec (rv pid) ++ [LF]);;
  ppid ← sys Cgetppid; printf (str "Mein Elternprozess (PPID): " ++ dec (rv ppid) ++ [LF]);;
  u ← lib "geteuid" [] []; r ← lib "getuid" [] [];
  printf (str "UID effektiv : " ++ dec (to_int u) ++ str " --> real : " ++ dec (to_int r) ++ [LF]);;
  u ← lib "getegid" [] []; r ← lib "getgid" [] [];
  printf (str "GID effektiv : " ++ dec (to_int u) ++ str " --> real : " ++ dec (to_int r) ++ [LF]);;
  mret EXIT_SUCCESS.
(** LOG_PID | LOG_CONS | LOG_NDELAY, LOG_LOCAL0 *)
Definition logging_main : M Z :=
  lib "openlog" [Z.lor (Z.lor 1 2) 8; Z.shiftl 16 3] (str "logging");;
  sys (Csyslog (line "Hallo Welt mit syslog"));;
  lib "closelog" [] [];;
  mret EXIT_SUCCESS.
Definition zombie_main (fuel : nat) : M Z :=
  pid ← sys Cfork;
  (if decide (rv pid = -1) then printf (str "Fehler bei fork()")
   else if decide (rv pid = 0) then
     p ← sys Cgetpid; printf (str "--- Im Kindprozess (" ++ dec (rv p) ++ line ") ---");;
     pp ← sys Cgetppid; printf (str "Elternprozess: " ++ dec (rv pp) ++ [LF]);;
     printf (line "Kindprozess beendet sich!!!");;
     exit 0
   else
     p ← sys Cgetpid; printf (str "--- Im Elternprozess (" ++ dec (rv p) ++ line ") ---");;
     printf (line "--- Beenden mit <ctrl>-<c>---");;
     loop fuel (λ u : unit, mret (inl u : unit + unit)) ());;
  mret EXIT_SUCCESS.
End SmallProcs.

(** ** Theorems *)

(** *** prio_child.c: the arguments *)
Definition e_fork (pid : Z) : env := Env (λ _ c, answer (match c with Cfork => pid | _ => -1 end)) (λ _, []) (λ _, None) (λ _, None) (λ _, []).
Lemma wp_exec e path argv s (Q : post unit Z) :
  (∀ a, if decide (rv a = -1) then Q (Val (-1)) (after (Cexec path (upto_null argv)) a s) else Q (Exit (rv a)) (after (Cexec path (upto_null argv)) a s)) →
  wp (exec path argv) e s Q.
Proof.
  intros HQ. unfold exec. wp_steps. specialize (HQ a). unfold took_over. case_decide; wp_steps; exact HQ.
Qed.
Module Args.
Import PrioChild.
Lemma set_arg_ok args i v : (i < length args)%nat → set_arg args i v = Some (<[i := v]> args).
Proof. intros H. unfold set_arg. by rewrite decide_True. Qed.
(** What the array holds while the loop runs. *)
Definition filled (argv : list (list Z)) (i : nat) : list (option (list Z)) :=
  Some PROGRAM :: (Some <$> take (i - 1) (drop 1 argv)) ++ replicate (MAX_ARGS_LEN + 1 - i) None.
Lemma length_filled argv i : (1 ≤ i)%nat → (i ≤ length argv)%nat → (i ≤ MAX_ARGS_LEN)%nat → length (filled argv i) = (MAX_ARGS_LEN + 1)%nat.
Proof.
  intros H1 H2 H3. unfold filled. cbn [length]. rewrite length_app, length_fmap, length_take, length_drop, length_replicate. lia.
Qed.
Lemma filled_step argv i a : (1 ≤ i)%nat → argv !! i = Some a → (i < MAX_ARGS_LEN)%nat →
  <[i := Some a]> (filled argv i) = filled argv (S i).
Proof.
  intros H1 Ha Hi. pose proof (lookup_lt_Some _ _ _ Ha). unfold filled. destruct i as [|i]; [lia|].
  transitivity (Some PROGRAM :: <[i := Some a]> ((Some <$> take (S i - 1) (drop 1 argv)) ++ replicate (MAX_ARGS_LEN + 1 - S i) None)); [done|].
  f_equal. replace (S i - 1)%nat with i by lia. replace (S (S i) - 1)%nat with (S i) by lia.
  rewrite insert_app_r_alt by (rewrite length_fmap, length_take, length_drop; lia).
  rewrite length_fmap, length_take, length_drop. replace (i - min i (length argv - 1))%nat with 0%nat by lia.
  replace (MAX_ARGS_LEN + 1 - S i)%nat with (S (MAX_ARGS_LEN + 1 - S (S i))) by lia. cbn [replicate insert list_insert].
  rewrite (take_S_r (drop 1 argv) i a) by (rewrite lookup_drop; done). rewrite fmap_app, <- app_assoc. done.
Qed.
Lemma filled_end argv i : (1 ≤ i)%nat → (i ≤ length argv)%nat → (i ≤ MAX_ARGS_LEN)%nat → <[i := None]> (filled argv i) = filled argv i.
Proof.
  intros H1 H2 H3. apply list_insert_id. unfold filled. destruct i as [|i]; [lia|].
  transitivity (((Some <$> take (S i - 1) (drop 1 argv)) ++ replicate (MAX_ARGS_LEN + 1 - S i) None) !! i); [done|].
  replace (S i - 1)%nat with i by lia. rewrite lookup_app_r by (rewrite length_fmap, length_take, length_drop; lia).
  rewrite length_fmap, length_take, length_drop. replace (i - min i (length argv - 1))%nat with 0%nat by lia.
  replace (MAX_ARGS_LEN + 1 - S i)%nat with (S (MAX_ARGS_LEN - S i)) by lia. done.
Qed.
Lemma upto_null_filled argv i : upto_null (filled argv i) = PROGRAM :: take (i - 1) (drop 1 argv).
Proof.
  unfold filled. cbn [upto_null]. f_equal. generalize (take (i - 1) (drop 1 argv)) (MAX_ARGS_LEN + 1 - i)%nat. intros l n.
  induction l as [|x l IH]; [by destruct n|]. change (x :: upto_null ((Some <$> l) ++ replicate n None) = x :: l). by rewrite IH.
Qed.
Lemma first_args (prog : list Z) rest : take (min (length (prog :: rest)) MAX_ARGS_LEN - 1) (drop 1 (prog :: rest)) = take 1023 rest.
Proof.
  unfold MAX_ARGS_LEN. cbn [length]. change (drop 1 (prog :: rest)) with rest. destruct (decide (S (length rest) ≤ 1024)%nat) as [H|H].
  - rewrite !take_ge by lia. done.
  - f_equal. lia.
Qed.
(** The loop never leaves the array, and stops at the end of the arguments or
    of the array. *)
Lemma fill_args_ok argv : ∀ n i, (1 ≤ i)%nat → (i ≤ length argv)%nat → (i ≤ MAX_ARGS_LEN)%nat → (MAX_ARGS_LEN - i ≤ n)%nat →
  fill_args n argv i (filled argv i) = Some (filled argv (min (length argv) MAX_ARGS_LEN)).
Proof.
  induction n as [|n IH]; intros i H1 H2 H3 Hn; cbn [fill_args].
  - rewrite decide_False by lia. rewrite set_arg_ok by (rewrite length_filled; lia). rewrite filled_end by lia.
    do 2 f_equal. lia.
  - case_decide as Hc.
    + destruct (lookup_lt_is_Some_2 argv i) as [a Ha]; [lia|]. rewrite Ha. cbn [mbind option_bind].
      rewrite set_arg_ok by (rewrite length_filled; lia). cbn [mbind option_bind]. rewrite (filled_step _ _ _ H1 Ha) by lia. apply IH; lia.
    + rewrite set_arg_ok by (rewrite length_filled; lia). rewrite filled_end by lia. do 2 f_equal. lia.
Qed.
(** prio_child.c never writes outside of its array of arguments, however
    many there are: the child runs find with the first 1023 of them, and the
    parent lowers the priority of the child. *)
Theorem prio_child_args e prog rest pid inp : (∀ h, rv (kern e h Cfork) = pid) →
  wp (prio_child_main (prog :: rest)) e (init () inp) (λ o s, o ≠ Undef ∧
    if decide (pid = 0) then ∃ a, last (hist s) = Some (Sys (Cexec PROGRAM (PROGRAM :: take 1023 rest)) a) ∧
      o = (if decide (rv a = -1) then Val EXIT_SUCCESS else Exit (rv a))
    else o = Val EXIT_SUCCESS ∧ ∃ a, last (hist s) = Some (Sys (Clib "setpriority" [PRIO_PROCESS; pid; PRIORITY] []) a)).
Proof.
  intros Hf. unfold prio_child_main. wp_steps.
  change args0 with (filled (prog :: rest) 1). rewrite fill_args_ok by (unfold MAX_ARGS_LEN; cbn [length]; lia). wp_steps.
  assert (rv a1 = pid) as Hp by (subst a1; apply Hf). rewrite Hp. case_decide as H0.
  - wp_steps. apply wp_exec. intros a2. rewrite upto_null_filled, first_args. case_decide as Ha2; cbn [bpost]; wp_steps; (split; [done|]);
      exists a2; (split; [by rewrite hist_after, last_snoc|by case_decide]).
  - wp_steps. split; [done|]. split; [done|]. eexists. rewrite hist_after, last_snoc. done.
Qed.
Lemma prio_child_args_witness :
  wp (prio_child_main [str "prio"; str "/"]) (e_fork 0) (init () []) (λ o s, o ≠ Undef ∧
    if decide (0 = 0) then ∃ a, last (hist s) = Some (Sys (Cexec PROGRAM (PROGRAM :: take 1023 [str "/"])) a) ∧
      o = (if decide (rv a = -1) then Val EXIT_SUCCESS else Exit (rv a))
    else o = Val EXIT_SUCCESS ∧ ∃ a, last (hist s) = Some (Sys (Clib "setpriority" [PRIO_PROCESS; 0; PRIORITY] []) a)).
Proof. apply (prio_child_args (e_fork 0) (str "prio") [str "/"] 0 []). done. Defined.
End Args.

(** *** exec_child.c and my_programm.c *)
Module Child.
Import ExecChild.
(** What my_programm.c prints of its arguments. *)
Definition arg_line (i : nat) (a : list Z) : list Z := str "Argumente " ++ dec (Z.of_nat i) ++ str " : " ++ a ++ [LF].
Definition args_text (argv : list (list Z)) : list Z :=
  match argv with
  | [] => []
  | a0 :: rest => str "Programmname : " ++ a0 ++ [LF] ++ concat (imap (λ i a, arg_line (S i) a) rest)
  end.
Lemma print_args e : ∀ rest pre s (Q : post unit unit),
  (∀ s', printed Stdout (hist s') = printed Stdout (hist s) ++ concat (imap (λ i a, arg_line (length pre + i) a) rest) → Q (Val tt) s') →
  wp (for_range (length rest) (Z.of_nat (length pre)) (print_arg (pre ++ rest))) e s Q.
Proof.
  induction rest as [|a rest IH]; intros pre s Q HQ; cbn [length for_range]; [apply wp_ret, HQ; cbn; by rewrite app_nil_r|].
  apply wp_bind. unfold print_arg, arg. rewrite Nat2Z.id, list_lookup_middle by done. wp_steps.
  replace (Z.of_nat (length pre) + 1) with (Z.of_nat (length (pre ++ [a]))) by (rewrite length_app; cbn [length]; lia).
  replace (pre ++ a :: rest) with ((pre ++ [a]) ++ rest) by (by rewrite <- app_assoc).
  apply IH. intros s' Hs'. apply HQ. rewrite Hs'. hist_norm. unfold arg_line. rewrite imap_cons. cbn [concat]. rewrite Nat.add_0_r, <- !app_assoc.
  do 5 f_equal. f_equal. f_equal. apply imap_ext. intros i x _. cbn [compose]. do 3 f_equal. rewrite length_app. cbn [length]. f_equal. lia.
Qed.
(** my_programm.c prints the name and every argument, with its number. *)
Lemma my_programm_prints e a0 rest s :
  wp (my_programm_main (a0 :: rest)) e s (λ o s', o = Val EXIT_SUCCESS ∧ printed Stdout (hist s') = printed Stdout (hist s) ++ args_text (a0 :: rest)).
Proof.
  unfold my_programm_main. apply wp_bind. unfold arg. wp_steps.
  replace (length (a0 :: rest) - 1)%nat with (length rest) by (cbn [length]; lia).
  apply (print_args e rest [a0]). intros s' Hs'. wp_steps. split; [done|]. rewrite Hs'. hist_norm.
  unfold args_text. rewrite <- !app_assoc. done.
Qed.
(** exec_child.c: the child runs my_programm with the arguments Hallo and
    Welt, which prints them; the parent succeeds exactly when it waited for
    the child; and each failure is reported. *)
Theorem exec_child_runs e pid inp : (∀ h, rv (kern e h Cfork) = pid) →
  wp exec_child_main e (init () inp) (λ o s,
    if decide (pid = -1) then o = Val EXIT_FAILURE ∧ ∃ m, printed Stderr (hist s) = str "fork(): " ++ m ++ [LF]
    else if decide (pid = 0) then ∃ args a, Sys (Cexec PROGRAMM args) a ∈ hist s ∧ o = (if decide (rv a = -1) then Val EXIT_SUCCESS else Exit (rv a)) ∧
      ∀ e' i, printed Stdout (hist (my_programm_main args e' (init () i)).2) =
        line "Programmname : ./my_programm" ++ line "Argumente 1 : Hallo" ++ line "Argumente 2 : Welt"
    else ∃ a, last (hist s) = Some (Sys (Cwaitpid pid 0) a) ∧ rv a = pid ∧ o = Val EXIT_SUCCESS ∨
      o = Val EXIT_FAILURE ∧ ∃ m, printed Stderr (hist s) = str "waitpid(): " ++ m ++ [LF]).
Proof.
  intros Hf. unfold exec_child_main. wp_steps. assert (rv a = pid) as -> by (subst a; apply Hf).
  case_decide as H1; [wp_steps; split; [done|]; hist_norm; eexists; exact eq_refl|].
  case_decide as H0.
  - wp_steps. apply wp_exec. intros a2. eset (args := upto_null _).
    assert (Ho : ∀ e' i, printed Stdout (hist (my_programm_main args e' (init () i)).2) =
        line "Programmname : ./my_programm" ++ line "Argumente 1 : Hallo" ++ line "Argumente 2 : Welt").
    { intros e' i. pose proof (my_programm_prints e' PROGRAMM [str "Hallo"; str "Welt"] (init () i)) as [_ Hp]. exact Hp. }
    case_decide as Ha2; cbn [bpost]; wp_steps; exists args, a2; (split; [|split; [by case_decide|exact Ho]]);
      st_simpl; set_solver.
  - wp_steps. case_decide as Hr; wp_steps; exists a0.
    + right. split; [done|]. hist_norm. eexists. exact eq_refl.
    + left. rewrite hist_after, last_snoc. split; [done|]. split; [lia|done].
Qed.
Lemma exec_child_runs_witness :
  wp exec_child_main (e_fork 0) (init () []) (λ o s,
    if decide (0 = -1) then o = Val EXIT_FAILURE ∧ ∃ m, printed Stderr (hist s) = str "fork(): " ++ m ++ [LF]
    else if decide (0 = 0) then ∃ args a, Sys (Cexec PROGRAMM args) a ∈ hist s ∧ o = (if decide (rv a = -1) then Val EXIT_SUCCESS else Exit (rv a)) ∧
      ∀ e' i, printed Stdout (hist (my_programm_main args e' (init () i)).2) =
        line "Programmname : ./my_programm" ++ line "Argumente 1 : Hallo" ++ line "Argumente 2 : Welt"
    else ∃ a, last (hist s) = Some (Sys (Cwaitpid 0 0) a) ∧ rv a = 0 ∧ o = Val EXIT_SUCCESS ∨
      o = Val EXIT_FAILURE ∧ ∃ m, printed Stderr (hist s) = str "waitpid(): " ++ m ++ [LF]).
Proof. apply (exec_child_runs (e_fork 0) 0 []). done. Defined.
End Child.

(** *** The small programs *)
Module Rest.
Import Exec SmallProcs.
(** exec6.c hands over the same arguments as exec5.c: the list of exec5.c ends
    at an unset HOME, as the vector does. *)
Lemma exec5_argv e s : ∃ argv,
  wp exec5_main e s (λ _ s', ∃ a, hist s' = hist s ++ [Sys (Cexec (str "ls") argv) a]) ∧
  wp exec6_main e s (λ _ s', ∃ a, hist s' = hist s ++ [Sys (Cexec (str "/bin/ls") argv) a]) ∧
  argv = [str "ls"; str "-l"] ++ option_list (getenv e HOME).
Proof.
  exists ([str "ls"; str "-l"] ++ option_list (getenv e HOME)).
  split_and!; [| |done]; [unfold exec5_main|unfold exec6_main]; wp_steps; apply wp_exec; intros a;
    (assert (E : upto_null [Some (str "ls"); Some (str "-l"); getenv e HOME; None] = [str "ls"; str "-l"] ++ option_list (getenv e HOME)) by (by destruct (getenv e HOME)));
    rewrite E; case_decide; eexists; by rewrite hist_after.
Qed.
(** The parent of zombie.c never waits and never ends, so its child stays. *)
Lemma zombie_stays e fuel inp : rv (kern e [] Cfork) ≠ -1 → rv (kern e [] Cfork) ≠ 0 →
  wp (zombie_main fuel) e (init () inp) (λ o s, o = Running ∧ ∀ a, Sys Cwait a ∉ hist s ∧ ∀ p f, Sys (Cwaitpid p f) a ∉ hist s).
Proof.
  intros H1 H2. unfold zombie_main. wp_steps. subst a. rewrite decide_False, decide_False by done. wp_steps.
  match goal with |- wp (loop _ _ _) _ ?s0 _ => apply (wp_loop_safe _ _ (λ _ s, s = s0)) end; [| |done].
  - intros _ s ->. cbn [bpost]. split; [done|]. intros b. hist_norm. split; [|intros p f]; set_solver.
  - intros l s Hs. wp_steps. done.
Qed.
(** A limit of 2^63 is printed as a negative number. *)
Lemma my_limit_negative e s : wp (print_lim (2 ^ 63)) e s (λ _ s', hist s' = hist s ++ [Put Stdout (line "-9223372036854775808 ")]).
Proof. done. Qed.
End Rest.
