(* ===== verification/Attributes.v ===== *)
(** * 03_Attributes and 04_ProcFs: what stat and /proc tell

    [my_stat.c], [file_size.c], [file_times.c], [ugid.c], [my_link.c] and
    [backward.c] of 03_Attributes, and the three programs of 04_ProcFs.  The
    words of the answer of [Cstat] are the fields of [struct stat], see
    [st_mode] and the definitions behind it. *)
From S2P Require Import Prelude CLib Machine FileIO.

(** ** struct stat *)
Definition field (i : nat) (a : ans) : option Z := rwords a !! i.
Definition st_mode := field 0.
Definition st_size := field 1.
Definition st_nlink := field 2.
Definition st_uid := field 3.
Definition st_gid := field 4.
Definition st_atime := field 5.
Definition st_mtime := field 6.
Definition st_ctime := field 7.
Definition stat_error : M unit unit :=
  m ← errmsg; eprintf (str "Fehler bei stat: " ++ m ++ [LF]).

(** ** my_stat.c *)
Module MyStat.
Definition rwx : list Z := str "rwxrwxrwx".
Definition bits : list Z := [S_IRUSR; S_IWUSR; S_IXUSR; S_IRGRP; S_IWGRP; S_IXGRP; S_IROTH; S_IWOTH; S_IXOTH].
Definition S_IFMT : Z := 0xF000.
(** The kind of a file, by the macros [S_ISREG] and so on. *)
Definition kind (mode : Z) : list Z :=
  let t := Z.land mode S_IFMT in
  if decide (t = 0x8000) then str "Regulaere Datei               : "
  else if decide (t = 0x4000) then str "Verzeichnis                  : "
  else if decide (t = 0x2000) then str "Zeichenorient. Geraetedatei:  : "
  else if decide (t = 0x6000) then str "Blockorient. Geraetedatei     : "
  else if decide (t = 0x1000) then str "FIFO oder named Pipe         : "
  else str "Unbekanne Datei              : ".
(** The loop that fills [l_rwx]: [i] is the number of the first bit of [bs]. *)
Fixpoint fill_rwx (mode : Z) (i : nat) (bs : list Z) (l_rwx : buf) : option buf :=
  match bs with
  | [] => Some l_rwx
  | b :: bs =>
      c ← rwx !! i;
      l_rwx ← bset l_rwx (Z.of_nat i) (if decide (Z.land mode b ≠ 0) then c else 45);
      fill_rwx mode (S i) bs l_rwx
  end.
Definition permissions (mode : Z) : option (list Z) :=
  l_rwx ← bset (uninit 10) 9 0;
  l_rwx ← bset l_rwx 0 0;
  l_rwx ← fill_rwx mode 0 bits l_rwx;
  l_rwx ← bset l_rwx 9 0;
  cstr l_rwx.
Definition stat_body (dir : Z) (u : unit) : M unit (unit + Z) :=
  dirzeiger ← sys (Creaddir dir);
  if decide (rv dirzeiger = 0) then sys (Cclosedir dir);; mret (inr EXIT_SUCCESS)
  else
    d_name ← mem (head (rstrs dirzeiger));
    attribut ← sys (Cstat d_name);
    if decide (rv attribut = -1) then stat_error;; mret (inr EXIT_FAILURE)
    else
      mode ← mem (st_mode attribut);
      printf (kind mode);;
      printf (pad_right 20 d_name ++ str " [");;
      l_rwx ← mem (permissions mode);
      printf (l_rwx ++ line "]");;
      mret (inl ()).
Definition my_stat_main (fuel : nat) : M unit Z :=
  dir ← sys (Copendir (str "."));
  if decide (rv dir = 0) then
    m ← errmsg; eprintf (str "Fehler bei opendir: " ++ m ++ [LF]);; mret EXIT_FAILURE
  else loop fuel (stat_body (rv dir)) ().

(** *** The permissions can be read back from the text *)
Definition rwx_text (mode : Z) : list Z := zip_with (λ b c, if decide (Z.land mode b ≠ 0) then c else 45) bits rwx.
Definition rwx_value (s : list Z) : Z := foldr (λ bc v, (if decide (bc.2 = 45) then 0 else bc.1) + v) 0 (zip bits s).

Lemma permissions_text mode : permissions mode = Some (rwx_text mode).
Proof.
  transitivity (cstr ((Some <$> rwx_text mode) ++ [Some 0])).
  - unfold permissions, rwx_text, bits, bset. reflexivity.
  - apply cstr_prefix. unfold rwx_text, bits. cbn -[Z.land decide]. repeat constructor; by case_decide.
Qed.
Lemma rwx_text_mask mode : rwx_text mode = rwx_text (Z.land mode 0x1FF).
Proof.
  unfold rwx_text, bits. cbn [zip_with]. by rewrite <- !Z.land_assoc.
Qed.
Definition text_ok (m : Z) : bool := bool_decide (rwx_value (rwx_text m) = m).
Lemma rwx_value_text mode : rwx_value (rwx_text mode) = Z.land mode 0x1FF.
Proof.
  rewrite rwx_text_mask. assert (0 ≤ Z.land mode 0x1FF < 512) as Hr.
  { change 0x1FF with (Z.ones 9). rewrite Z.land_ones by done. by apply Z.mod_pos_bound. }
  revert Hr. generalize (Z.land mode 0x1FF). intros m Hm.
  assert (forallb text_ok (seqZ 0 512) = true) as Hall by (vm_compute; reflexivity).
  rewrite forallb_forall in Hall. apply (bool_decide_eq_true_1 (rwx_value (rwx_text m) = m)), Hall, list_elem_of_In, elem_of_seqZ. lia.
Qed.

(** A directory with the given entries, a name and a mode each: [readdir]
    delivers them one after the other, [stat] knows each name. *)
Definition asked_of (ev : event) : nat := match ev with Sys (Creaddir _) _ => 1 | _ => 0 end%nat.
Definition asked (h : list event) : nat := sum_list_with asked_of h.
Lemma asked_snoc h ev : asked (h ++ [ev]) = (asked h + asked_of ev)%nat.
Proof. unfold asked. rewrite sum_list_with_app. cbn. lia. Qed.
Class Directory (e : env) (entries : list (list Z * Z)) : Prop := {
  dir_open h : rv (kern e h (Copendir (str "."))) ≠ 0;
  dir_read h dp : kern e h (Creaddir dp) = match entries !! asked h with Some x => Ans 1 0 [] [] [x.1] | None => answer 0 end;
  dir_stat h x : x ∈ entries → let a := kern e h (Cstat x.1) in rv a = 0 ∧ st_mode a = Some x.2
}.
(** The line of an entry. *)
Definition entry_line (x : list Z * Z) : list Z := kind x.2 ++ pad_right 20 x.1 ++ str " [" ++ rwx_text x.2 ++ line "]".

Lemma stat_loop e entries {D : Directory e entries} dp : ∀ fuel k s,
  asked (hist s) = k → (length entries - k < fuel)%nat → (k ≤ length entries)%nat →
  wp (loop fuel (stat_body dp) ()) e s (λ o s', o = Val EXIT_SUCCESS ∧
    printed Stdout (hist s') = printed Stdout (hist s) ++ concat (entry_line <$> drop k entries)).
Proof.
  induction fuel as [|fuel IH]; intros k s Hk Hf Hle; [lia|]. apply wp_loop_S. unfold stat_body. wp_step. wp_step.
  rewrite dir_read, Hk in Ha. destruct (entries !! k) as [x|] eqn:Ex; subst a; cbn [rv rstrs answer].
  - rewrite decide_False by done. wp_steps. pose proof (dir_stat (hist (after (Creaddir dp) (Ans 1 0 [] [] [x.1]) s)) x) as [Hrv Hm].
    { by eapply list_elem_of_lookup_2. }
    rewrite <- Ha in Hrv, Hm. rewrite decide_False by lia. wp_steps. apply wp_mem. rewrite Hm. wp_steps.
    apply wp_mem. rewrite permissions_text. wp_steps. pose proof (lookup_lt_Some _ _ _ Ex).
    eapply wp_mono; [apply (IH (S k)); [|lia|lia]|].
    { rewrite !hist_log, !hist_after, !asked_snoc, Hk. cbn. lia. }
    intros o s' [-> Ho]. split; [done|]. rewrite Ho, (drop_S _ _ _ Ex). hist_norm. unfold entry_line. cbn [fmap list_fmap concat]. by rewrite <- !app_assoc.
  - rewrite decide_True by done. wp_steps. split; [done|]. hist_norm. rewrite drop_ge; [by rewrite app_nil_r|]. by apply lookup_ge_None.
Qed.
Definition some_entries : list (list Z * Z) := [(str ".", 0x41ED); (str "prog.c", 0x81A4)].
Definition dir_kern (h : list event) (c : call) : ans :=
  match c with
  | Creaddir _ => match some_entries !! asked h with Some x => Ans 1 0 [] [] [x.1] | None => answer 0 end
  | Cstat p => Ans 0 0 [] [if decide (p = str ".") then 0x41ED else 0x81A4] []
  | _ => answer 1
  end.
End MyStat.

(** ** file_size.c, file_times.c, ugid.c and backward.c *)
Module Small.
Definition usage (argv : list (list Z)) : M unit unit :=
  a0 ← arg argv 0; printf (str "usage: " ++ a0 ++ line " datei").
Definition filesize (name : list Z) : M unit Z :=
  st ← sys (Cstat name);
  if decide (rv st < 0) then stat_error;; mret (-1)
  else
    size ← mem (st_size st);
    printf (str "Groesse in st_size  : " ++ dec (to_int size) ++ line " Bytes");;
    mret 1.
Definition file_size_main (argv : list (list Z)) : M unit Z :=
  if decide (length argv < 2)%nat then usage argv;; mret EXIT_FAILURE
  else
    ptr ← arg argv 1;
    r ← filesize ptr;
    mret (if decide (r < 0) then EXIT_FAILURE else EXIT_SUCCESS).
(** The text of [ctime] depends on the time zone. *)
Definition file_times (ctime : Z → list Z) (name : list Z) : M unit Z :=
  st ← sys (Cstat name);
  if decide (rv st < 0) then stat_error;; mret (-1)
  else
    t ← mem (st_atime st); printf (str "Letzter Zugriff           : " ++ ctime t);;
    t ← mem (st_mtime st); printf (str "Letzte Aenderung (Inhalt) : " ++ ctime t);;
    t ← mem (st_ctime st); printf (str "Letzte Aenderung (inode)  : " ++ ctime t);;
    mret 1.
Definition file_times_main (ctime : Z → list Z) (argv : list (list Z)) : M unit Z :=
  if decide (length argv < 2)%nat then usage argv;; mret EXIT_FAILURE
  else
    ptr ← arg argv 1;
    r ← file_times ctime ptr;
    mret (if decide (r < 0) then EXIT_FAILURE else EXIT_SUCCESS).
(** One turn of [while (\*++argv != NULL)]: the arguments that are left. *)
Definition ugid_body (l : list (list Z)) : M unit (list (list Z) + Z) :=
  match l with
  | [] => mret (inr EXIT_SUCCESS)
  | name :: l =>
      attribut ← sys (Cstat name);
      if decide (rv attribut < 0) then
        m ← errmsg; eprintf (str "stat(): " ++ m ++ [LF]);; mret (inr EXIT_FAILURE)
      else
        printf (pad_right 18 name ++ [LF]);;
        uid ← mem (st_uid attribut);
        printf (str "USER-ID  : " ++ dec (to_int uid) ++ [LF]);;
        gid ← mem (st_gid attribut);
        printf (str "GROUP-ID : " ++ dec (to_int gid) ++ [LF]);;
        mret (inl l)
  end.
Definition ugid_main (fuel : nat) (argv : list (list Z)) : M unit Z :=
  (if decide (length argv < 2)%nat then
     a0 ← arg argv 0; printf (str "usage: " ++ a0 ++ line " datei(en)") else mret ());;
  loop fuel ugid_body (drop 1 argv).
Definition backward_main (argv : list (list Z)) : M unit Z :=
  if decide (length argv < 2)%nat then usage argv;; mret EXIT_FAILURE
  else
    ptr ← arg argv 1;
    u ← sys (Cutime ptr 0 0);
    if decide (rv u < 0) then perror (str "utime");; mret EXIT_FAILURE else mret EXIT_SUCCESS.
End Small.

(** ** my_link.c *)
Module MyLink.
Definition HARD_LINK : list Z := str "hard_link".
Definition SYM_LINK : list Z := str "sym_link".
Definition MAX : nat := 255.
Definition attribute (name : list Z) : M unit Z :=
  st ← sys (Cstat name);
  if decide (rv st < 0) then stat_error;; mret (-1)
  else
    n ← mem (st_nlink st);
    printf (str "Anzahl Links  : " ++ dec n ++ [LF]);;
    mret 1.
(** [printf("%.*s", n, buf)]: at most [n] characters up to a terminator; a
    negative [n] is as if there were none. *)
Fixpoint cstr_n (b : buf) (n : nat) {struct n} : option (list Z) :=
  match n, b with
  | O, _ => Some []
  | S n, Some c :: r => if decide (c = 0) then Some [] else cons c <$> cstr_n r n
  | S _, _ => None
  end.
Definition my_link_main (argv : list (list Z)) : M unit Z :=
  if decide (length argv < 2)%nat then Small.usage argv;; mret EXIT_FAILURE
  else
    ptr ← arg argv 1;
    a ← attribute ptr;
    if decide (a < 0) then mret EXIT_FAILURE
    else
      l ← sys (Clink ptr HARD_LINK);
      if decide (rv l = -1) then printf (line "Konnte keinen Hardlink erzeugen");; mret EXIT_FAILURE
      else
        printf (line "Nach dem Aufruf fon link()");;
        a ← attribute ptr;
        if decide (a < 0) then mret EXIT_FAILURE
        else
          l ← sys (Csymlink ptr SYM_LINK);
          if decide (rv l = -1) then printf (line "Konnte keinen symlink erstellen");; mret EXIT_FAILURE
          else
            printf (line "Nach dem Funktionsaufruf von symlink()");;
            a ← attribute ptr;
            if decide (a < 0) then mret EXIT_FAILURE
            else
              n ← sys (Creadlink SYM_LINK (Z.of_nat MAX));
              b ← mem (blit (uninit MAX) 0 (rdata n));
              t ← mem (if decide (rv n < 0) then cstr b else cstr_n b (Z.to_nat (rv n)));
              printf (str "Der symbolische Link " ++ DQ ++ SYM_LINK ++ DQ ++ str " zeigt auf " ++ DQ ++ t ++ DQ ++ [LF]);;
              sys (Cunlink HARD_LINK);;
              sys (Cunlink SYM_LINK);;
              mret EXIT_SUCCESS.

(** The number of links of the file [ptr] that has [n0] in the beginning:
    hard links count, symbolic ones do not. *)
Definition link_of (ptr : list Z) (ev : event) : Z :=
  match ev with
  | Sys (Clink old new) a => if decide (old = ptr ∧ new = HARD_LINK ∧ rv a = 0) then 1 else 0
  | Sys (Cunlink p) a => if decide (p = HARD_LINK ∧ rv a = 0) then -1 else 0
  | _ => 0
  end.
Fixpoint links (ptr : list Z) (h : list event) : Z :=
  match h with [] => 0 | ev :: h => link_of ptr ev + links ptr h end.
Lemma links_app ptr h1 h2 : links ptr (h1 ++ h2) = links ptr h1 + links ptr h2.
Proof. induction h1 as [|ev h IH]; cbn; lia. Qed.
Lemma links_snoc ptr h ev : links ptr (h ++ [ev]) = links ptr h + link_of ptr ev.
Proof. rewrite links_app. cbn. lia. Qed.
(** A directory in which the two new names are free. *)
Class LinkDir (e : env) (ptr : list Z) (n0 : Z) : Prop := {
  link_stat h : let a := kern e h (Cstat ptr) in rv a = 0 ∧ st_nlink a = Some (n0 + links ptr h);
  link_make h p : rv (kern e h (Clink ptr p)) = 0;
  link_sym h p : rv (kern e h (Csymlink ptr p)) = 0;
  link_read h p n : 0 ≤ n → kern e h (Creadlink p n) = answer_data (Z.of_nat (length (take (Z.to_nat n) ptr))) (take (Z.to_nat n) ptr);
  link_rm h p : rv (kern e h (Cunlink p)) = 0
}.
Definition links_line (n : Z) : list Z := str "Anzahl Links  : " ++ dec n ++ [LF].

Lemma attribute_ok e ptr n0 {L : LinkDir e ptr n0} s (Q : post unit Z) :
  (∀ s', printed Stdout (hist s') = printed Stdout (hist s) ++ links_line (n0 + links ptr (hist s)) →
     links ptr (hist s') = links ptr (hist s) → Q (Val 1) s') →
  wp (attribute ptr) e s Q.
Proof.
  intros HQ. unfold attribute. wp_steps. pose proof (link_stat (hist s)) as [Hr Hn]. rewrite <- Ha in Hr, Hn.
  rewrite decide_False by lia. wp_steps. apply wp_mem. rewrite Hn. wp_steps. apply HQ; [by hist_norm|].
  rewrite hist_log, hist_after, !links_snoc. cbn. lia.
Qed.
Lemma cstr_n_prefix l r : nozero l → cstr_n ((Some <$> l) ++ r) (length l) = Some l.
Proof. intros Hl. induction Hl as [|c l Hc Hl IH]; [done|]. csimpl. by rewrite decide_False, IH. Qed.

Lemma link_made ptr a : rv a = 0 → link_of ptr (Sys (Clink ptr HARD_LINK) a) = 1.
Proof. intros Ha. cbn -[HARD_LINK]. by rewrite decide_True. Qed.
Lemma link_removed ptr a : rv a = 0 → link_of ptr (Sys (Cunlink HARD_LINK) a) = -1.
Proof. intros Ha. cbn -[HARD_LINK]. by rewrite decide_True. Qed.

(** my_link.c on a file with [n0] links: it counts one more after link and
    still one more after symlink, shows the first 255 characters of what
    the symbolic link points to, and leaves the file with [n0] links. *)
Theorem my_link_counts e prog ptr n0 inp : LinkDir e ptr n0 → nozero ptr →
  wp (my_link_main [prog; ptr]) e (init () inp) (λ o s, o = Val EXIT_SUCCESS ∧
    printed Stdout (hist s) = links_line n0 ++ line "Nach dem Aufruf fon link()" ++ links_line (n0 + 1) ++
      line "Nach dem Funktionsaufruf von symlink()" ++ links_line (n0 + 1) ++
      str "Der symbolische Link " ++ DQ ++ SYM_LINK ++ DQ ++ str " zeigt auf " ++ DQ ++ take MAX ptr ++ DQ ++ [LF] ∧
    links ptr (hist s) = 0).
Proof.
  intros Li Hz. unfold my_link_main. rewrite decide_False by (cbn; lia). unfold arg. wp_steps.
  apply (attribute_ok e ptr n0). intros s1 Ho1 Hl1. cbn [bpost]. rewrite decide_False by lia. wp_steps.
  pose proof (link_make (hist s1) HARD_LINK) as Hm. rewrite <- Ha in Hm. rewrite decide_False by lia. wp_steps.
  apply (attribute_ok e ptr n0). intros s2 Ho2 Hl2. cbn [bpost]. rewrite decide_False by lia. wp_steps.
  pose proof (link_sym (hist s2) SYM_LINK) as Hsy. rewrite <- Ha0 in Hsy. rewrite decide_False by lia. wp_steps.
  apply (attribute_ok e ptr n0). intros s3 Ho3 Hl3. cbn [bpost]. rewrite decide_False by lia. wp_steps.
  rewrite link_read in Ha1 by done. rewrite Nat2Z.id in Ha1. subst a1. cbn [rv rdata answer_data].
  assert (links ptr (hist s1) = 0) as E1 by done.
  rewrite hist_log, hist_after, !links_snoc, link_made, E1 in Hl2, Ho2 by done. cbn [link_of] in Hl2, Ho2.
  rewrite hist_log, hist_after, !links_snoc, Hl2 in Hl3, Ho3. cbn [link_of] in Hl3, Ho3.
  apply wp_mem. rewrite blit_Some by (rewrite length_uninit, length_take; lia). wp_step. apply wp_mem.
  rewrite decide_False by lia. rewrite Nat2Z.id, take_0. cbn [app]. rewrite cstr_n_prefix by (by apply Forall_take). wp_steps.
  split; [done|]. split.
  - hist_norm. rewrite Ho3. hist_norm. rewrite Ho2. hist_norm. rewrite Ho1. hist_norm. by rewrite !Z.add_0_r.
  - rewrite !hist_after, hist_log, hist_after, !links_snoc, Hl3, link_removed; [done|].
    rewrite Ha1. apply link_rm.
Qed.
Definition link_kern (h : list event) (c : call) : ans :=
  match c with
  | Cstat p => Ans 0 0 [] [0x81A4; 10; 1 + links (str "a.txt") h] []
  | Creadlink _ n => let d := take (Z.to_nat n) (str "a.txt") in answer_data (Z.of_nat (length d)) d
  | _ => answer 0
  end.
Lemma my_link_counts_witness :
  wp (my_link_main [str "my_link"; str "a.txt"]) (env_of link_kern) (init () []) (λ o s, o = Val EXIT_SUCCESS ∧
    printed Stdout (hist s) = links_line 1 ++ line "Nach dem Aufruf fon link()" ++ links_line (1 + 1) ++
      line "Nach dem Funktionsaufruf von symlink()" ++ links_line (1 + 1) ++
      str "Der symbolische Link " ++ DQ ++ SYM_LINK ++ DQ ++ str " zeigt auf " ++ DQ ++ take MAX (str "a.txt") ++ DQ ++ [LF] ∧
    links (str "a.txt") (hist s) = 0).
Proof. apply my_link_counts; [by split|by_compute]. Defined.
End MyLink.

(** ** 04_ProcFs *)
Module ProcFs.
(** my_getid.c: [/proc/self] is a link to the directory of the process. *)
Definition my_getid_main : M unit Z :=
  buf ← mem (blit (uninit 64) 0 (replicate 64 0));
  r ← sys (Creadlink (str "/proc/self") 63);
  if decide (rv r = -1) then perror (str "readlink()");; mret EXIT_FAILURE
  else
    buf ← mem (blit buf 0 (rdata r));
    s ← mem (cstr buf);
    pid ← mem (fst <$> scan_int s);
    printf (str "Meine Process-ID lautet: " ++ dec pid ++ [LF]);;
    mret EXIT_SUCCESS.

(** myinfo.c *)
Definition BUF : nat := 4096.
Definition EXIT : Z := 9.
Definition info : list (list Z) :=
  [str "/proc/cpuinfo"; str "/proc devices"; str "/proc/dma"; str "/proc/interrupts"; str "/proc/ioports";
   str "/proc/meminfo"; str "/proc/pci"; str "/proc/version"; str "/proc/scsi/scsi"].
(** [fread(buffer, 1, sizeof(buffer), fp)], and the character behind what was read. *)
Definition read_all (n : nat) (fp : Z) : M unit (Z * buf) :=
  r ← sys (Cfread fp (Z.of_nat n));
  buffer ← mem (blit (uninit n) 0 (rdata r));
  sys (Cfclose fp);;
  mret (rv r, buffer).
Definition get_info (inf : nat) : M unit unit :=
  name ← mem (info !! inf);
  fp ← sys (Cfopen name (str "r"));
  if decide (rv fp = 0) then perror (str "fopen()")
  else
    '(bytes_read, buffer) ← read_all BUF (rv fp);
    if decide (bytes_read = 0 ∨ bytes_read = Z.of_nat BUF) then mret ()
    else
      buffer ← mem (bset buffer bytes_read LF);
      s ← mem (cstr buffer);
      printf s;;
      printf (str "Weiter mit ENTER");;
      getchar;;
      mret ().
(** [do scanf("%d", &auswahl); while (getchar() != '\n')]: a line without a
    number leaves [auswahl] as it is. *)
Definition choose_body (auswahl : option Z) : M unit (option Z + option Z) :=
  r ← scanf_d;
  c ← getchar;
  let auswahl := match r with Some z => Some z | None => auswahl end in
  mret (if decide (c ≠ LF) then inl auswahl else inr auswahl).
Definition menu : list Z :=
  line "Wozu benoetigen Sie Informationen?" ++ [LF] ++ line "-0- Prozessor" ++ line "-1- Geraete" ++ line "-2- DMA" ++
  line "-3- Interrupts" ++ line "-4- I/O-Ports" ++ line "-5- Speicher" ++ line "-6- PCI-Bus" ++ line "-7- Version" ++
  line "-8- SCSI" ++ line "-9- Programmende" ++ [LF] ++ str "Ihre Auswahl : ".
Definition info_body (fuel : nat) (auswahl : option Z) : M unit (option Z + Z) :=
  printf menu;;
  auswahl ← loop fuel choose_body auswahl;
  a ← mem auswahl;
  (if decide (0 ≤ a ≤ 8) then get_info (Z.to_nat a)
   else if decide (a = EXIT) then printf (line "Bye")
   else printf (line "Falsche Eingabe?"));;
  mret (if decide (a ≠ EXIT) then inl auswahl else inr EXIT_SUCCESS).
Definition myinfo_main (fuel : nat) : M unit Z := loop fuel (info_body fuel) None.

(** procfs_memory.c; the size of its array. *)
Definition SIZE : nat := 2048.
Definition get_mem_total : M unit Z :=
  fp ← sys (Cfopen (str "/proc/meminfo") (str "r"));
  if decide (rv fp = 0) then perror (str "fopen()");; exit EXIT_FAILURE
  else
    '(bytes_read, buffer) ← read_all SIZE (rv fp);
    if decide (bytes_read = 0 ∨ bytes_read = Z.of_nat SIZE) then mret 0
    else
      buffer ← mem (bset buffer bytes_read LF);
      s ← mem (cstr buffer);
      match strstr s (str "MemTotal") with
      | None => mret 0
      | Some m =>
          mem_tot ← mem (if is_prefix (str "MemTotal:") m then fst <$> scan_int (drop (length (str "MemTotal:")) m) else None);
          mret (Z.quot mem_tot 1024)
      end.
Definition procfs_memory_main : M unit Z :=
  memory ← get_mem_total;
  (if decide (memory = 0) then printf (line "Konnte RAM nicht ermitteln")
   else printf (str "Vorhandener Arbeitsspeicher: " ++ dec memory ++ line "MB"));;
  mret EXIT_SUCCESS.

(** What was read and the newline behind it are not a string: nothing
    terminates them. *)
Lemma read_unterminated n d b1 b2 : nozero d →
  blit (uninit n) 0 d = Some b1 → bset b1 (Z.of_nat (length d)) LF = Some b2 → cstr b2 = None.
Proof.
  intros Hz E1 E2. unfold blit in E1. case_decide as Hl; [|done]. injection E1 as <-. unfold bset in E2. case_decide as Hd; [|done].
  injection E2 as <-. rewrite Nat2Z.id. unfold buf. rewrite insert_app_r_alt by (by rewrite length_fmap).
  rewrite length_fmap, Nat.sub_diag. unfold uninit. rewrite drop_replicate.
  rewrite !length_app, length_fmap, length_drop, length_uninit in Hd. cbn [length] in Hd.
  destruct (n - length d)%nat as [|k] eqn:Ek; [lia|]. cbn [replicate insert list_insert]. clear -Hz.
  induction Hz as [|c d Hc Hz IH]; csimpl; [by destruct k|]. by rewrite decide_False, IH.
Qed.
(** A kernel whose file has the content [d]. *)
Class ProcFile (e : env) (d : list Z) : Prop := {
  proc_open h p m : rv (kern e h (Cfopen p m)) ≠ 0;
  proc_read h fp n : Z.of_nat (length d) ≤ n → kern e h (Cfread fp n) = answer_data (Z.of_nat (length d)) d
}.
(** procfs_memory.c never shows the size of the memory: if the file was empty
    or did not fit it says so, otherwise it searches an array that is not
    terminated. *)
Lemma procfs_memory_undefined e d inp : ProcFile e d → nozero d → (length d ≤ SIZE)%nat →
  wp procfs_memory_main e (init () inp) (λ o s,
    if decide (length d = 0 ∨ length d = SIZE)%nat
    then o = Val EXIT_SUCCESS ∧ printed Stdout (hist s) = line "Konnte RAM nicht ermitteln" else o = Undef).
Proof.
  intros Pf Hz Hl. unfold procfs_memory_main, get_mem_total, read_all. wp_steps. rewrite decide_False by (rewrite Ha; eapply proc_open).
  wp_steps. rewrite proc_read in Ha0 by lia. subst a0. cbn [rv rdata answer_data]. apply wp_mem.
  destruct (blit (uninit SIZE) 0 d) as [b1|] eqn:E1; [|rewrite blit_Some in E1 by (rewrite length_uninit; lia); done].
  wp_steps. destruct (decide (length d = 0 ∨ length d = SIZE)%nat) as [Hn|Hn].
  - rewrite decide_True by lia. wp_steps. rewrite decide_True by done. wp_steps. split; [done|]. by hist_norm.
  - rewrite decide_False by lia. wp_step. apply wp_mem.
    destruct (bset b1 (Z.of_nat (length d)) LF) as [b2|] eqn:E2; [|done].
    wp_steps. apply wp_mem. by rewrite (read_unterminated SIZE d b1 b2).
Qed.
End ProcFs.
