(* ===== verification/Directories.v ===== *)
(** * 02_Files: directories, locks and waiting for input

    [create_file.c], [mymkdir.c] and [mychdir.c] make files and directories,
    [list_wd.c], [scan_dir.c], [find_dir.c] and [ftwalk.c] list them,
    [sperre.c] locks a file for each write, [poll_stdin_time.c] waits for
    input.  What [readdir], [scandir] and [ftw] deliver is an answer of the
    environment; [ftw]'s callback is a definition. *)
From S2P Require Import Prelude CLib Machine FileIO.

Abbreviation M := (Machine.M unit).
Definition SLASH : Z := 47.

(** ** create_file.c, mymkdir.c, mychdir.c and poll_stdin_time.c *)
Module Make.
Definition S_ISUID : Z := 0x800.
Definition new_file : list Z := str "test_file.txt".
Definition create_mode : Z := Z.lor (Z.lor (Z.lor (Z.lor (Z.lor S_ISUID S_IRUSR) S_IWUSR) S_IRGRP) S_IWGRP) S_IROTH.
Definition create_file_main : M Z :=
  sys (Cumask 0);;
  fd ← sys (Copen new_file (Z.lor (Z.lor O_WRONLY O_EXCL) O_CREAT) create_mode);
  if decide (-1 = rv fd) then m ← errmsg; printf m;; mret EXIT_FAILURE else mret EXIT_SUCCESS.
Definition usage (argv : list (list Z)) : M unit :=
  a0 ← arg argv 0; printf (str "USAGE: " ++ a0 ++ line " neues_verzeichnis").
Definition mkdir (name : list Z) : M Z := lib "mkdir" [S_IRWXU] name.
Definition mymkdir_main (argv : list (list Z)) : M Z :=
  if decide (length argv < 2)%nat then usage argv;; mret EXIT_FAILURE
  else
    sys (Cumask 0);;
    name ← arg argv 1;
    r ← mkdir name;
    (if decide (r ≠ -1) then printf (str "Verzeichnis " ++ DQ ++ name ++ DQ ++ line " erfolgreich erstellt")
     else m ← errmsg; printf (str "Konnte Verzeichnis nicht erstellen (" ++ m ++ line ")"));;
    mret EXIT_SUCCESS.
Definition MAX : nat := 256.
(** [getcwd(wd, n)]: the name of the directory, if it fits. *)
Definition getcwd (n : nat) (wd : buf) : M (Z * buf) :=
  a ← sys (Clib "getcwd" [Z.of_nat n] []);
  if decide (rv a = 0) then mret (0, wd) else wd ← mem (strcpy wd (rdata a)); mret (rv a, wd).
Definition mychdir_main (argv : list (list Z)) : M Z :=
  if decide (length argv < 2)%nat then usage argv;; mret EXIT_FAILURE
  else
    sys (Cumask 0);;
    name ← arg argv 1;
    r ← mkdir name;
    (if decide (r ≠ -1) then printf (str "Verzeichnis " ++ DQ ++ name ++ DQ ++ line " erfolgreich erstellt")
     else m ← errmsg; printf (str "Konnte das Verzeichnis nicht erstellen (" ++ m ++ line ")"));;
    c ← sys (Cchdir name);
    (if decide (rv c = -1) then printf (line "Konnte das Verzeichnis nicht wechseln") else mret ());;
    '(g, wd) ← getcwd MAX (uninit MAX);
    (if decide (0 ≠ g) then d ← mem (cstr wd); printf (str "Neues Arbeitsverzeichnis: " ++ d ++ [LF]) else mret ());;
    mret EXIT_SUCCESS.
(** [select] on standard input, with a timeout in seconds. *)
Definition poll_stdin_time (sec : Z) : M Z := lib "select" [STDIN_FILENO + 1; STDIN_FILENO; sec; 0] [].
Definition poll_main : M Z :=
  printf (line "Warte 5 Sek. auf Eingabe (ENTER-Taste)!");;
  ret ← poll_stdin_time 5;
  (if decide (ret = 0) then printf (line "Zeit abgelaufen")
   else if decide (ret = 1) then printf (line "Danke!!!")
   else perror (str "select()"));;
  mret 0.
End Make.

(** ** list_wd.c, scan_dir.c and find_dir.c *)
Module Lists.
Definition DT_UNKNOWN : Z := 0.
Definition DT_DIR : Z := 4.
Definition DT_REG : Z := 8.
Definition d_type_text (t : Z) : list Z :=
  if decide (t = DT_REG) then str "Normale Datei : "
  else if decide (t = DT_DIR) then str "Verzeichnis   : "
  else if decide (t = DT_UNKNOWN) then str "???           : "
  else [].
Definition list_body (dp : Z) (files : Z) : M (Z + Z) :=
  ep ← sys (Creaddir dp);
  if decide (rv ep = 0) then mret (inr files)
  else
    t ← mem (head (rwords ep)); name ← mem (head (rstrs ep));
    printf (d_type_text t);;
    printf (name ++ [LF]);;
    mret (inl (files + 1)).
Definition list_wd_main (fuel : nat) : M Z :=
  dp ← sys (Copendir (str "."));
  files ← (if decide (rv dp ≠ 0) then
             files ← loop fuel (list_body (rv dp)) 0; sys (Cclosedir (rv dp));; mret files
           else perror (str "Kann Verzeichnis nicht öffnen");; mret 0);
  printf (str "--- Insgesammt " ++ dec files ++ line " Dateien im Verzeichnis ---");;
  mret EXIT_SUCCESS.

Definition MAX : nat := 255.
Definition start_dir (argv : list (list Z)) : M (list Z) :=
  if decide (length argv < 2)%nat then mret (str ".") else arg argv 1.
(** What follows the call of [scandir], the same in both programs. *)
Definition show_entries (ptr : list Z) (namelist : list (list Z)) : M unit :=
  sys (Cchdir ptr);;
  '(_, wd) ← Make.getcwd MAX (uninit MAX);
  d ← mem (cstr wd);
  printf (str "Anzahl der Einträge in " ++ d ++ str ": " ++ dec (Z.of_nat (length namelist)) ++ [LF]);;
  (if decide (length namelist ≠ 0%nat) then
     printf (line "Die Einträge:");;
     mapM (λ d_name, printf (SPC :: d_name ++ [LF])) namelist;;
     printf [LF]
   else mret ());;
  printf [LF].
Definition unerwartet {A} : M A := eprintf (line "Unerwarteter Fehler");; exit EXIT_FAILURE.
(** [scandir(ptr, &namelist, 0, alphasort)]: the entries in their order. *)
Definition scan_dir_main (argv : list (list Z)) : M Z :=
  ptr ← start_dir argv;
  a ← sys (Clib "scandir alphasort" [] ptr);
  (if decide (rv a < 0) then unerwartet else mret ());;
  show_entries ptr (rstrs a);;
  mret EXIT_SUCCESS.

(** find_dir.c: [scandir] asks [my_select] for each entry. *)
Definition my_select (search : Z) (d_name : list Z) : M Z :=
  if decide (search = 0) then mret 1
  else r ← lib "regexec" [] d_name; if decide (r = 0) then mret 1 else mret 0.
Fixpoint select_entries (search : Z) (l : list (list Z)) : M (list (list Z)) :=
  match l with
  | [] => mret []
  | d :: l => r ← my_select search d; l' ← select_entries search l; mret (if decide (r ≠ 0) then d :: l' else l')
  end.
Definition find_entries (search : Z) (ptr : list Z) : M Z :=
  a ← sys (Clib "scandir" [] ptr);
  (if decide (rv a < 0) then unerwartet else mret ());;
  namelist ← select_entries search (rstrs a);
  show_entries ptr namelist;;
  lib "regfree" [] [];;
  mret EXIT_SUCCESS.
Definition find_dir_main (argv : list (list Z)) : M Z :=
  ptr ← start_dir argv;
  if decide (length argv = 3%nat) then
    e ← arg argv 2;
    r ← lib "regcomp" [] e;
    if decide (r ≠ 0) then printf (str "Problem beim Ausdruck " ++ e ++ str "n");; mret EXIT_FAILURE
    else find_entries 1 ptr
  else find_entries 0 ptr.
End Lists.

(** ** ftwalk.c *)
Module FtWalk.
Fixpoint deep_loop (fuel : nat) (ptr : list Z) (deep : Z) : Z :=
  match fuel with
  | O => deep
  | S fuel => match strchr ptr SLASH with Some t => deep_loop fuel (tail t) (deep + 1) | None => deep end
  end.
(** Each turn goes behind a slash, so the length is fuel enough. *)
Definition dir_deep (pfad : list Z) : Z := deep_loop (S (length pfad)) pfad 0.
Definition FTW_F : Z := 0.
Definition FTW_D : Z := 1.
Definition FTW_DNR : Z := 2.
Definition suffix (flag : Z) : list Z :=
  if decide (flag = FTW_F) then line "]"
  else if decide (flag = FTW_D) then line "/]"
  else if decide (flag = FTW_DNR) then line "/-]"
  else line "???]".
(** The static variables [first] and [deep]. *)
Abbreviation statics := (Z * Z)%type.
Definition fn (pfadname : list Z) (flag : Z) : Machine.M statics Z :=
  '(first, deep) ← get;
  (if decide (first = 0) then
     for_range (Z.to_nat (dir_deep pfadname - deep)) 1 (λ _, printf (pad_left 2 pfadname ++ str "|"));;
     t ← mem (strchr pfadname SLASH);
     printf (str "---[" ++ tail t)
   else
     put (first, dir_deep pfadname);;
     printf (str "[" ++ pfadname);;
     put (0, dir_deep pfadname));;
  printf (suffix flag);;
  mret 0.
(** [ftw]: calls [fn] for what the system finds until that returns something
    else than 0. *)
Fixpoint visit (l : list (list Z * Z)) (r : Z) : Machine.M statics Z :=
  match l with
  | [] => mret r
  | (p, flag) :: l => x ← fn p flag; if decide (x = 0) then visit l r else mret x
  end.
Definition ftw (ptr : list Z) : Machine.M statics Z :=
  a ← sys (Clib "ftw" [16] ptr);
  visit (zip (rstrs a) (rwords a)) (rv a).
Definition ftwalk_main (argv : list (list Z)) : Machine.M statics Z :=
  ptr ← (if decide (length argv < 2)%nat then mret (str ".") else arg argv 1);
  r ← ftw ptr;
  if decide (r = 0) then mret EXIT_SUCCESS
  else printf (line "Fehler bei ftw() ...!");; mret EXIT_SUCCESS.
Definition statics0 : statics := (1, 0).
End FtWalk.

(** ** sperre.c *)
Module Sperre.
Definition FNAME : list Z := str "locki.lck".
Definition F_RDLCK : Z := 0.
Definition F_WRLCK : Z := 1.
Definition F_UNLCK : Z := 2.
Definition F_GETLK : Z := 5.
Definition F_SETLK : Z := 6.
Record flock := Flock { l_type : Z; l_whence : Z; l_start : Z; l_len : Z; l_pid : Z }.
(** After [memset(lock, 0, sizeof(struct flock))]. *)
Definition cleared : flock := Flock 0 0 0 0 0.
Definition fields (l : flock) : list Z := [l_type l; l_whence l; l_start l; l_len l; l_pid l].
(** [fcntl(fd, F_GETLK, lock)] changes the structure when it succeeds. *)
Definition fcntl_getlk (fd : Z) (lock : flock) : M flock :=
  a ← sys (Clib "fcntl" (fd :: F_GETLK :: fields lock) []);
  if decide (rv a < 0) then mret lock
  else t ← mem (rwords a !! 0%nat); p ← mem (rwords a !! 1%nat); mret (Flock t (l_whence lock) (l_start lock) (l_len lock) p).
Definition fcntl_setlk (fd : Z) (lock : flock) : M Z := lib "fcntl" (fd :: F_SETLK :: fields lock) [].
Definition status (lock : flock) : M unit :=
  printf (str "Status: ");;
  if decide (l_type lock = F_UNLCK) then printf (line "F_UNLCK (Sperre aufgehoben)")
  else if decide (l_type lock = F_RDLCK) then printf (str "F_RDLCK (PID: " ++ dec (l_pid lock) ++ line " (Lesesperre)")
  else if decide (l_type lock = F_WRLCK) then printf (str "F_WRLCK (PID: " ++ dec (l_pid lock) ++ line ") (Scheibsperre)")
  else mret ().
Definition unlock (fd : Z) : M flock :=
  let lock := Flock F_UNLCK 0 0 0 0 in
  r ← fcntl_setlk fd lock;
  (if decide (r < 0) then perror (str "Fehler: fcntl(fd, F_SETLK, F_UNLCK") else status lock);;
  mret lock.
Definition locki (fd : Z) : M flock :=
  pid ← sys Cgetpid;
  let lock := Flock F_WRLCK SEEK_SET 0 0 (rv pid) in
  r ← fcntl_setlk fd lock;
  (if decide (r < 0) then perror (str "Fehler: fcntl(fd, F_SETLK, F_WRLCK") else status lock);;
  mret lock.
Definition sperre_body (fd : Z) (v : buf * flock) : M (buf * flock + buf * flock) :=
  let '(puffer, lock) := v in
  n ← sys (Cread STDIN_FILENO 100);
  puffer ← mem (blit puffer 0 (rdata n));
  if decide (rv n > 1) then
    lock ← locki fd;
    d ← mem (bytes_of puffer (Z.to_nat (rv n)));
    sys (Cwrite fd d);;
    getchar;;
    lock ← unlock fd;
    mret (inl (puffer, lock))
  else mret (inr (puffer, lock)).
Definition sperre_main (fuel : nat) : M Z :=
  fd ← sys (Copen FNAME (Z.lor (Z.lor O_WRONLY O_CREAT) O_APPEND) S_IRWXU);
  lock ← fcntl_getlk (rv fd) cleared;
  status lock;;
  printf (LF :: str "Eingabe machen: ");;
  loop fuel (sperre_body (rv fd)) (uninit 100, lock);;
  sys (Cclose (rv fd));;
  mret EXIT_SUCCESS.
End Sperre.

(** ** Theorems *)

(** *** Errors of mkdir, chdir and getcwd *)
Module MakeErrors.
Import Make.
(** The line about the directory, the line about the change, and the last. *)
Definition made (e : env) (name : list Z) (r errno : Z) : list Z :=
  if decide (r = -1) then str "Konnte das Verzeichnis nicht erstellen (" ++ strerror e errno ++ line ")"
  else str "Verzeichnis " ++ DQ ++ name ++ DQ ++ line " erfolgreich erstellt".
Definition changed (c : Z) : list Z := if decide (c = -1) then line "Konnte das Verzeichnis nicht wechseln" else [].
Definition where_now (d : option (list Z)) : list Z :=
  match d with Some d => str "Neues Arbeitsverzeichnis: " ++ d ++ [LF] | None => [] end.
(** The system: [mkdir] gives [r] and leaves [err], [chdir] gives [c], [getcwd] finds [d]. *)
Class Sys3 (e : env) (name : list Z) (r err c : Z) (d : option (list Z)) : Prop := {
  sys_mkdir h : kern e h (Clib "mkdir" [S_IRWXU] name) = Ans r err [] [] [];
  sys_umask h : rerr (kern e h (Cumask 0)) = 0;
  sys_chdir h : rv (kern e h (Cchdir name)) = c;
  sys_getcwd h : kern e h (Clib "getcwd" [Z.of_nat MAX] []) = match d with Some d => answer_data 1 d | None => answer 0 end
}.
Definition denied_kern (h : list event) (c : call) : ans :=
  match c with
  | Clib fn _ _ => if decide (fn = "mkdir"%string) then Ans (-1) 13 [] [] [] else answer_data 1 (str "/home")
  | Cchdir _ => answer_err 2
  | _ => answer 0
  end.
End MakeErrors.

(** *** ftwalk.c *)
Module Walk.
Import FtWalk.
Definition slashes (s : list Z) : Z := Z.of_nat (length (filter (λ c, c = SLASH) s)).
Lemma slashes_app a b : slashes (a ++ b) = slashes a + slashes b.
Proof. unfold slashes. rewrite filter_app, length_app. lia. Qed.
Lemma slashes_none l : SLASH ∉ l → slashes l = 0.
Proof.
  intros H. unfold slashes. induction l as [|c l IH]; [done|]. apply not_elem_of_cons in H as [Hc Hl].
  rewrite filter_cons_False by congruence. by apply IH.
Qed.
Lemma slashes_cons l : slashes (SLASH :: l) = slashes l + 1.
Proof. unfold slashes. rewrite filter_cons_True by done. cbn [length]. lia. Qed.
Lemma strchr_shape s : match strchr s SLASH with
  | None => SLASH ∉ s
  | Some t => ∃ a r, s = a ++ SLASH :: r ∧ SLASH ∉ a ∧ t = SLASH :: r
  end.
Proof.
  unfold strchr. pose proof (span_until_app (λ x, bool_decide (x = SLASH)) s) as Ha.
  pose proof (span_until_fst_no (λ x, bool_decide (x = SLASH)) s) as Hn.
  pose proof (span_until_snd (λ x, bool_decide (x = SLASH)) s) as Hs.
  destruct (span_until _ s) as [a t]. cbn [fst snd] in *. subst s.
  assert (SLASH ∉ a) as Hna.
  { intros Hin. rewrite Forall_forall in Hn. specialize (Hn _ Hin). by rewrite bool_decide_eq_false in Hn. }
  destruct t as [|c r]; [by rewrite app_nil_r|]. destruct Hs as [|(c' & r' & [= <- <-] & ->%bool_decide_eq_true)]; [done|]. eauto.
Qed.
(** The loop of [dir_deep] counts the slashes. *)
Lemma deep_loop_counts fuel : ∀ p d, (length p < fuel)%nat → deep_loop fuel p d = d + slashes p.
Proof.
  induction fuel as [|fuel IH]; intros p d Hf; [lia|]. cbn [deep_loop]. pose proof (strchr_shape p) as H.
  destruct (strchr p SLASH) as [t|]; [|rewrite slashes_none by done; lia].
  destruct H as (a & r & -> & Ha & ->). cbn [tail]. rewrite length_app in Hf. cbn [length] in Hf. rewrite IH by lia.
  rewrite slashes_app, slashes_cons, (slashes_none a) by done. lia.
Qed.
Lemma dir_deep_slashes p : dir_deep p = slashes p.
Proof. unfold dir_deep. rewrite deep_loop_counts by lia. lia. Qed.

(** The path of what lies below [root], name by name. *)
Definition path (root : list Z) (names : list (list Z)) : list Z := root ++ concat ((λ n, SLASH :: n) <$> names).
Definition plain_names (names : list (list Z)) : Prop := Forall (λ n, SLASH ∉ n) names.
Lemma path_deep root names : plain_names names → dir_deep (path root names) = dir_deep root + Z.of_nat (length names).
Proof.
  intros H. rewrite !dir_deep_slashes. unfold path. rewrite slashes_app. f_equal.
  induction H as [|n names Hn Hns IH]; [done|]. cbn [fmap list_fmap concat]. change (SLASH :: n) with ([SLASH] ++ n).
  rewrite !slashes_app, (slashes_none n), IH by done. change (slashes [SLASH]) with 1. cbn [length]. lia.
Qed.
Definition after_slash (p : list Z) : list Z := tail (default [] (strchr p SLASH)).
Definition line_of (root : list Z) (x : list (list Z) * Z) : list Z :=
  let p := path root x.1 in
  concat (replicate (length x.1) (pad_left 2 p ++ str "|")) ++ str "---[" ++ after_slash p ++ suffix x.2.

Lemma for_printed {G} e n t : ∀ a (s : st G) (Q : post G unit),
  (∀ s', printed Stdout (hist s') = printed Stdout (hist s) ++ concat (replicate n t) → glob s' = glob s → Q (Val tt) s') →
  wp (for_range n a (λ _, printf t)) e s Q.
Proof.
  induction n as [|n IH]; intros a s Q HQ; cbn [for_range]; [apply wp_ret, HQ; [by rewrite app_nil_r|done]|].
  wp_steps. apply IH. intros s' H1 H2. apply HQ; [|by rewrite H2; st_simpl]. rewrite H1. hist_norm. cbn [replicate concat]. done.
Qed.
Section walk.
Context (e : env) (root : list Z).
(** After the first entry each one is shown at its depth. *)
Lemma fn_line names flag s (Q : post statics Z) : names ≠ [] → plain_names names → glob s = (0, dir_deep root) →
  (∀ s', printed Stdout (hist s') = printed Stdout (hist s) ++ line_of root (names, flag) → glob s' = glob s → Q (Val 0) s') →
  wp (fn (path root names) flag) e s Q.
Proof.
  intros Hne Hp Hg HQ. unfold fn. wp_steps. rewrite Hg. cbn beta iota. wp_steps. rewrite decide_True by done. wp_steps.
  rewrite path_deep by done. replace (Z.to_nat _) with (length names) by lia.
  apply for_printed. intros s1 H1 G1. cbn [bpost]. wp_step.
  pose proof (strchr_shape (path root names)) as Hs. destruct (strchr (path root names) SLASH) as [t|] eqn:E.
  - wp_steps. apply HQ; [|by st_simpl]. hist_norm. rewrite H1. unfold line_of, after_slash. cbn [fst snd]. rewrite E. cbn [default].
    by rewrite <- !app_assoc.
  - exfalso. apply Hs. destruct names as [|n names]; [done|]. unfold path. apply elem_of_app. right. cbn. by left.
Qed.
Lemma visit_lines r : ∀ l s, Forall (λ x, x.1 ≠ [] ∧ plain_names x.1) l → glob s = (0, dir_deep root) →
  wp (visit ((λ x, (path root x.1, x.2)) <$> l) r) e s (λ o s', o = Val r ∧
    printed Stdout (hist s') = printed Stdout (hist s) ++ concat (line_of root <$> l)).
Proof.
  induction l as [|[names flag] l IH]; intros s Hl Hg; csimpl; [wp_steps; by rewrite app_nil_r|].
  inversion Hl as [|x l' [Hne Hp] Hl']; subst. wp_step. apply fn_line; [done..|]. intros s' H1 G1. cbn [bpost].
  rewrite decide_True by done. eapply wp_mono; [apply IH; [done|by rewrite G1]|]. intros o s2 [-> H2]. split; [done|].
  rewrite H2, H1. csimpl. by rewrite <- app_assoc.
Qed.
End walk.

Lemma zip_entries (f : list (list Z) → list Z) l :
  zip_with pair ((λ x, f x.1) <$> l) l.*2 = (λ x : list (list Z) * Z, (f x.1, x.2)) <$> l.
Proof. induction l as [|x l IH]; [done|]. csimpl. by rewrite IH. Qed.
Definition below : list (list (list Z) * Z) := [([str "src"], FTW_D); ([str "src"; str "a.c"], FTW_F); ([str "geheim"], FTW_DNR)].
Definition walk_kern (h : list event) (c : call) : ans :=
  Ans 0 0 [] (FTW_D :: below.*2) (str "/x" :: ((λ x, path (str "/x") x.1) <$> below)).
End Walk.

(** *** sperre.c *)
Module Locked.
Import Sperre.
(** Whether the file is locked after an event. *)
Definition lock_after (fd : Z) (held : bool) (ev : event) : bool :=
  match ev with
  | Sys (Clib "fcntl" (fd' :: cmd :: ty :: _) _) a =>
      if decide (fd' = fd ∧ cmd = F_SETLK ∧ 0 ≤ rv a) then bool_decide (ty = F_WRLCK) else held
  | _ => held
  end.
(** The history has no write to [fd] without a lock; what holds at its end. *)
Definition guard (fd : Z) (o : option bool) (ev : event) : option bool :=
  held ← o;
  match ev with
  | Sys (Cwrite fd' _) _ => if decide (fd' = fd ∧ held = false) then None else Some held
  | _ => Some (lock_after fd held ev)
  end.
Definition guarded (fd : Z) (h : list event) : option bool := foldl (guard fd) (Some false) h.
Lemma guarded_snoc fd h ev : guarded fd (h ++ [ev]) = guard fd (guarded fd h) ev.
Proof. unfold guarded. by rewrite foldl_app. Qed.
(** The system: [fcntl] grants each lock, [read] delivers what it says. *)
Class Locks (e : env) (fd : Z) : Prop := {
  locks_open h : rv (kern e h (Copen FNAME (Z.lor (Z.lor O_WRONLY O_CREAT) O_APPEND) S_IRWXU)) = fd;
  locks_get h args : kern e h (Clib "fcntl" (fd :: F_GETLK :: args) []) = Ans 0 0 [] [F_UNLCK; 0] [];
  locks_set h args : 0 ≤ rv (kern e h (Clib "fcntl" (fd :: F_SETLK :: args) []));
  locks_read h : let a := kern e h (Cread STDIN_FILENO 100) in rv a ≤ 100 ∧ length (rdata a) = Z.to_nat (rv a)
}.
Lemma getchar_hist e (s : st ()) (Q : post unit Z) : (∀ c s', hist s' = hist s → Q (Val c) s') → wp getchar e s Q.
Proof. intros HQ. unfold wp, getchar. destruct (stdin s); apply HQ; [done|by st_simpl]. Qed.
Section locked.
Context (e : env) (fd : Z) {L : Locks e fd}.
Lemma setlk_guard s lock (Q : post unit Z) b : guarded fd (hist s) = Some b →
  (∀ r s', 0 ≤ r → guarded fd (hist s') = Some (bool_decide (l_type lock = F_WRLCK)) → Q (Val r) s') →
  wp (fcntl_setlk fd lock) e s Q.
Proof.
  intros Hg HQ. unfold fcntl_setlk, fields. wp_steps. pose proof (locks_set (hist s) [l_type lock; l_whence lock; l_start lock; l_len lock; l_pid lock]) as Hr.
  rewrite <- Ha in Hr. apply HQ; [done|]. st_simpl. rewrite guarded_snoc, Hg. cbn [guard lock_after mbind option_bind].
  by rewrite decide_True.
Qed.
Lemma status_guard lock s b (Q : post unit unit) : guarded fd (hist s) = Some b →
  (∀ s', guarded fd (hist s') = Some b → Q (Val ()) s') → wp (status lock) e s Q.
Proof.
  intros Hg HQ. unfold status. wp_steps.
  assert (G : ∀ t, guarded fd (hist (log (Put Stdout t) (log (Put Stdout (str "Status: ")) s))) = Some b).
  { intros t. st_simpl. by rewrite !guarded_snoc, Hg. }
  repeat (wp_if; wp_steps; [apply HQ, G|]). apply HQ. st_simpl. by rewrite guarded_snoc, Hg.
Qed.
Lemma body_guard v s : length v.1 = 100%nat → guarded fd (hist s) = Some false →
  wp (sperre_body fd v) e s (λ o s', guarded fd (hist s') = Some false ∧
    ∃ r, o = Val r ∧ match r with inl v' => length v'.1 = 100%nat | inr _ => True end).
Proof.
  destruct v as [puffer lock]. cbn [fst]. intros Hl Hg. unfold sperre_body. wp_steps. pose proof (locks_read (hist s)) as [Hr Hd].
  rewrite <- Ha in Hr, Hd. rewrite blit_Some by lia. wp_steps.
  assert (H1 : guarded fd (hist (after (Cread STDIN_FILENO 100) a s)) = Some false) by (st_simpl; by rewrite guarded_snoc, Hg).
  set (p' := take 0 puffer ++ _). assert (Hp : length p' = 100%nat).
  { unfold p'. rewrite !length_app, length_fmap, length_take, length_drop. lia. }
  wp_if; [|wp_steps; split; [done|by eexists]]. wp_step. unfold locki. wp_steps.
  eapply setlk_guard; [st_simpl; by rewrite guarded_snoc, guarded_snoc, Hg|].
  intros r s1 Hr0 Hg1. cbn [bpost]. rewrite decide_False by lia. wp_step. eapply status_guard; [exact Hg1|].
  intros s2 Hg2. wp_steps. unfold p' at 1. rewrite take_0. cbn [app]. rewrite Nat.add_0_l, <- Hd, bytes_of_app. wp_steps.
  assert (H2 : guarded fd (hist (after (Cwrite fd (rdata a)) a1 s2)) = Some true).
  { st_simpl. rewrite guarded_snoc, Hg2. cbn. by rewrite decide_False by naive_solver. }
  apply getchar_hist. intros c s3 Hs3. cbn [bpost]. rewrite <- Hs3 in H2. wp_step. unfold unlock. wp_step.
  eapply setlk_guard; [exact H2|]. intros r' s4 Hr' Hg4. cbn [bpost]. rewrite decide_False by lia. wp_step.
  eapply status_guard; [exact Hg4|]. intros s5 Hg5. wp_steps. split; [done|]. eexists. by split.
Qed.
End locked.

(** C22. sperre.c on a system that grants its locks: nothing is ever written
    to the file without the lock, however much is read and however long the
    program runs, and when it ends the file is not locked. *)
Theorem sperre_locks e fd fuel inp : Locks e fd →
  wp (sperre_main fuel) e (init () inp) (λ o s, is_Some (guarded fd (hist s)) ∧
    match o with Val r => r = EXIT_SUCCESS ∧ guarded fd (hist s) = Some false | Running => True | _ => False end).
Proof.
  intros L. unfold sperre_main. wp_steps. assert (rv a = fd) as Efd by (subst a; apply locks_open). rewrite Efd.
  unfold fcntl_getlk, fields. wp_steps. rewrite locks_get in Ha0. subst a0. cbn [rv rwords]. rewrite decide_False by lia. wp_steps.
  apply (status_guard _ fd _ _ false).
  { st_simpl. rewrite !guarded_snoc. cbn [guarded foldl hist init guard lock_after mbind option_bind]. by rewrite decide_False by (unfold F_GETLK, F_SETLK; lia). }
  intros s1 H1. wp_steps.
  apply (wp_loop_safe e (sperre_body fd) (λ v s, length v.1 = 100%nat ∧ guarded fd (hist s) = Some false)).
  - intros l s [_ Hg]. cbn [bpost]. split; [by eexists|done].
  - intros l s [Hl Hg]. eapply wp_mono; [by apply body_guard|]. cbn beta. intros o s' (Hg' & r & -> & Hr).
    destruct r as [l'|r]; [by split|]. cbn [bpost]. wp_steps. split; [by rewrite hist_after, guarded_snoc, Hg'|]. split; [done|].
    by rewrite hist_after, guarded_snoc, Hg'.
  - split; [done|]. rewrite hist_log, guarded_snoc, H1. done.
Qed.

Definition lock_kern (granted : Z) (h : list event) (c : call) : ans :=
  match c with
  | Copen _ _ _ => answer 3
  | Cread _ _ => if decide (length h < 6)%nat then answer_data 3 (line "ab") else answer 0
  | Clib _ (_ :: cmd :: _) _ => if decide (cmd = F_GETLK) then Ans 0 0 [] [F_UNLCK; 0] [] else answer granted
  | Cwrite _ d => answer (Z.of_nat (length d))
  | _ => answer 7
  end.
Lemma sperre_locks_witness :
  wp (sperre_main 3) (env_of (lock_kern 0)) (init () [LF]) (λ o s, is_Some (guarded 3 (hist s)) ∧
    match o with Val r => r = EXIT_SUCCESS ∧ guarded 3 (hist s) = Some false | Running => True | _ => False end).
Proof.
  apply sperre_locks. split.
  - done.
  - done.
  - done.
  - intros h. cbn [kern env_of lock_kern]. case_decide; split; by_compute.
Defined.
(** A lock that is refused is reported, and the write takes place all the same. *)
Lemma sperre_ignores_refusal :
  guarded 3 (hist (sperre_main 3 (env_of (lock_kern (-1))) (init () [LF])).2) = None.
Proof. vm_compute. reflexivity. Qed.
End Locked.

(** *** list_wd.c, scan_dir.c and find_dir.c *)
Module Listed.
Import Lists.
(** A directory with the given entries, a name and a type each. *)
Definition asked (h : list event) : nat :=
  sum_list_with (λ ev, match ev with Sys (Creaddir _) _ => 1 | _ => 0 end%nat) h.
Lemma dir_asked_snoc h ev : asked (h ++ [ev]) = (asked h + match ev with Sys (Creaddir _) _ => 1 | _ => 0 end)%nat.
Proof. unfold asked. rewrite sum_list_with_app. cbn. lia. Qed.
Class Entries (e : env) (entries : list (list Z * Z)) : Prop := {
  ent_open h : rv (kern e h (Copendir (str "."))) ≠ 0;
  ent_read h dp : kern e h (Creaddir dp) = match entries !! asked h with Some x => Ans 1 0 [] [x.2] [x.1] | None => answer 0 end
}.
Definition type_line (x : list Z * Z) : list Z := d_type_text x.2 ++ x.1 ++ [LF].
Lemma list_loop e entries {D : Entries e entries} dp : ∀ fuel k s,
  asked (hist s) = k → (length entries - k < fuel)%nat → (k ≤ length entries)%nat →
  wp (loop fuel (list_body dp) (Z.of_nat k)) e s (λ o s', o = Val (Z.of_nat (length entries)) ∧
    printed Stdout (hist s') = printed Stdout (hist s) ++ concat (type_line <$> drop k entries)).
Proof.
  induction fuel as [|fuel IH]; intros k s Hk Hf Hle; [lia|]. apply wp_loop_S. unfold list_body. wp_step. wp_step.
  rewrite ent_read, Hk in Ha. destruct (entries !! k) as [x|] eqn:Ex; subst a; cbn [rv rwords rstrs answer].
  - rewrite decide_False by done. pose proof (lookup_lt_Some _ _ _ Ex). wp_steps.
    replace (Z.of_nat k + 1) with (Z.of_nat (S k)) by lia. eapply wp_mono; [apply (IH (S k)); [|lia|lia]|].
    { rewrite !hist_log, hist_after, !dir_asked_snoc, Hk. lia. }
    intros o s' [-> Ho]. split; [done|]. rewrite Ho, (drop_S _ _ _ Ex). hist_norm. unfold type_line. csimpl. by rewrite <- !app_assoc.
  - rewrite decide_True by done. wp_steps. apply lookup_ge_None in Ex. split; [do 2 f_equal; lia|]. hist_norm. rewrite drop_ge; [|done].
    by rewrite app_nil_r.
Qed.
Lemma list_wd_lists e entries fuel inp : Entries e entries → (length entries < fuel)%nat →
  wp (list_wd_main fuel) e (init () inp) (λ o s, o = Val EXIT_SUCCESS ∧
    printed Stdout (hist s) = concat (type_line <$> entries) ++
      str "--- Insgesammt " ++ dec (Z.of_nat (length entries)) ++ line " Dateien im Verzeichnis ---").
Proof.
  intros En Hf. unfold list_wd_main. wp_steps. rewrite decide_True by (subst a; apply ent_open). wp_step.
  eapply wp_mono; [apply (list_loop e entries (rv a) fuel 0); [by rewrite hist_after|lia|lia]|]. cbn beta. intros o s [-> Ho]. wp_steps. split; [done|].
  hist_norm. rewrite Ho. done.
Qed.

(** The text after a call of [scandir]. *)
Definition entries_text (wd : list Z) (l : list (list Z)) : list Z :=
  str "Anzahl der Einträge in " ++ wd ++ str ": " ++ dec (Z.of_nat (length l)) ++ [LF] ++
  (if decide (length l = 0%nat) then [] else line "Die Einträge:" ++ concat ((λ n, SPC :: n ++ [LF]) <$> l) ++ [LF]) ++ [LF].
Section entries.
Context (e : env) (wd : list Z).
Context (Hwd : ∀ h, kern e h (Clib "getcwd" [Z.of_nat MAX] []) = answer_data 1 wd) (Hz : nozero wd) (Hl : (length wd < MAX)%nat).
Lemma names_printed l : ∀ s (Q : post unit (list unit)),
  (∀ r s', printed Stdout (hist s') = printed Stdout (hist s) ++ concat ((λ n, SPC :: n ++ [LF]) <$> l) → Q (Val r) s') →
  wp (mapM (λ d_name, printf (SPC :: d_name ++ [LF])) l) e s Q.
Proof.
  induction l as [|n l IH]; intros s Q HQ; [apply wp_ret, HQ; by rewrite app_nil_r|].
  cbn [mapM]. wp_steps. apply IH. intros r s' H. cbn [bpost]. wp_steps. apply HQ. rewrite H. hist_norm. csimpl. by rewrite <- ?app_assoc.
Qed.
Lemma show_entries_ok ptr l s (Q : post unit unit) :
  (∀ s', printed Stdout (hist s') = printed Stdout (hist s) ++ entries_text wd l → Q (Val ()) s') →
  wp (show_entries ptr l) e s Q.
Proof.
  intros HQ. unfold show_entries, Make.getcwd. wp_steps. rewrite Hwd in Ha0. subst a0. cbn [rv rdata answer_data]. rewrite decide_False by done.
  destruct (strcpy_Some (uninit MAX) wd) as (b & Eb & _); [by rewrite length_uninit|]. rewrite Eb. wp_steps.
  rewrite (strcpy_cstr _ _ _ Hz Eb). wp_steps. unfold entries_text in HQ. wp_if; wp_steps.
  - apply names_printed. intros r s1 H1. wp_steps. apply HQ. rewrite decide_False by done. hist_norm. rewrite H1. hist_norm. done.
  - apply HQ. rewrite decide_True by lia. hist_norm. rewrite <- ?app_assoc. done.
Qed.

(** The names that the expression [e] matches, as regexec says. *)
Context (re : list Z → bool) (Hre : ∀ h n, rv (kern e h (Clib "regexec" [] n)) = if re n then 0 else 1).
Lemma select_all l : ∀ s (Q : post unit (list (list Z))),
  (∀ s', hist s' = hist s → Q (Val l) s') → wp (select_entries 0 l) e s Q.
Proof.
  induction l as [|n l IH]; intros s Q HQ; cbn [select_entries]; [by apply wp_ret, HQ|]. unfold my_select. rewrite decide_True by done.
  wp_steps. apply IH. intros s' Hs. cbn [bpost]. wp_steps. rewrite decide_True by done. by apply HQ.
Qed.
Lemma select_matching l : ∀ s (Q : post unit (list (list Z))),
  (∀ s', printed Stdout (hist s') = printed Stdout (hist s) → Q (Val (filter re l)) s') → wp (select_entries 1 l) e s Q.
Proof.
  induction l as [|n l IH]; intros s Q HQ; cbn [select_entries]; [by apply wp_ret, HQ|]. unfold my_select. rewrite decide_False by done.
  wp_steps. subst. rewrite Hre. destruct (re n) eqn:E.
  - rewrite decide_True by done. wp_steps. apply IH. intros s' Hs. cbn [bpost]. wp_steps. rewrite decide_True by done.
    rewrite filter_cons_True in HQ by (by rewrite E). apply HQ. rewrite Hs. by hist_norm.
  - rewrite decide_False by done. wp_steps. apply IH. intros s' Hs. cbn [bpost]. wp_steps. rewrite decide_False by (intros H; by apply H).
    rewrite filter_cons_False in HQ by (rewrite E; intros []). apply HQ. rewrite Hs. by hist_norm.
Qed.
(** find_dir.c with a directory and an expression shows how many entries
    match it, and each of these, in the order of the directory, and with the
    directory alone all entries; scan_dir.c shows them sorted, as scandir
    delivers them. *)
Theorem find_dir_selects prog dir expr names sorted :
  (∀ h, kern e h (Clib "scandir" [] dir) = Ans (Z.of_nat (length names)) 0 [] [] names) →
  (∀ h, kern e h (Clib "scandir alphasort" [] dir) = Ans (Z.of_nat (length sorted)) 0 [] [] sorted) →
  (∀ h, rv (kern e h (Clib "regcomp" [] expr)) = 0) →
  (wp (find_dir_main [prog; dir; expr]) e (init () []) (λ o s, o = Val EXIT_SUCCESS ∧
     printed Stdout (hist s) = entries_text wd (filter re names)) ∧
   wp (find_dir_main [prog; dir]) e (init () []) (λ o s, o = Val EXIT_SUCCESS ∧
     printed Stdout (hist s) = entries_text wd names)) ∧
  wp (scan_dir_main [prog; dir]) e (init () []) (λ o s, o = Val EXIT_SUCCESS ∧
    printed Stdout (hist s) = entries_text wd sorted).
Proof.
  intros Hn Hso Hc. split; [split|]; unfold find_dir_main, scan_dir_main, start_dir, arg.
  - rewrite decide_False by (cbn; lia). wp_steps. rewrite decide_True by done. wp_steps. rewrite decide_False by (subst; rewrite Hc; by intros []).
    unfold find_entries. wp_steps. rewrite Hn in Ha0. subst a0. cbn [rv rstrs]. rewrite decide_False by lia. wp_steps.
    apply select_matching. intros s1 H1. cbn [bpost]. wp_step. apply show_entries_ok. intros s2 H2. wp_steps. split; [done|].
    hist_norm. rewrite H2, H1. by hist_norm.
  - rewrite decide_False by (cbn; lia). wp_steps. rewrite decide_False by (cbn; lia).
    unfold find_entries. wp_steps. rewrite Hn in Ha. subst a. cbn [rv rstrs]. rewrite decide_False by lia. wp_steps.
    apply select_all. intros s1 H1. cbn [bpost]. wp_step. apply show_entries_ok. intros s2 H2. wp_steps. split; [done|].
    hist_norm. rewrite H2, H1. by hist_norm.
  - rewrite decide_False by (cbn; lia). wp_steps. rewrite Hso in Ha. subst a. cbn [rv rstrs]. rewrite decide_False by lia. wp_steps.
    apply show_entries_ok. intros s2 H2. wp_steps. split; [done|]. rewrite H2. by hist_norm.
Qed.
End entries.
Definition is_c (n : list Z) : bool := bool_decide (drop (length n - 2) n = str ".c").
Definition find_kern (h : list event) (c : call) : ans :=
  match c with
  | Clib fn _ n =>
      if decide (fn = "getcwd"%string) then answer_data 1 (str "/src")
      else if decide (fn = "scandir"%string) then Ans 3 0 [] [] [str "b.c"; str "x.h"; str "a.c"]
      else if decide (fn = "scandir alphasort"%string) then Ans 3 0 [] [] [str "a.c"; str "b.c"; str "x.h"]
      else if decide (fn = "regexec"%string) then answer (if is_c n then 0 else 1)
      else answer 0
  | _ => answer 0
  end.
Lemma find_dir_selects_witness :
  wp (find_dir_main [str "find_dir"; str "/src"; str "c$"]) (env_of find_kern) (init () []) (λ o s, o = Val EXIT_SUCCESS ∧
    printed Stdout (hist s) = line "Anzahl der Einträge in /src: 2" ++ line "Die Einträge:" ++ line " b.c" ++ line " a.c" ++ [LF; LF]).
Proof.
  eapply wp_mono.
  - refine (proj1 (proj1 (find_dir_selects (env_of find_kern) (str "/src") _ _ _ is_c _ (str "find_dir") (str "/src") (str "c$")
      [str "b.c"; str "x.h"; str "a.c"] [str "a.c"; str "b.c"; str "x.h"] _ _ _))); try done; [by_compute|by apply Nat.ltb_lt].
  - cbn beta. intros o s [-> ->]. split; [done|]. vm_compute. reflexivity.
Defined.
End Listed.
