(* ===== verification/Descriptors.v ===== *)
(** * Descriptors, their flags and their duplicates (02_Files)

    [dup_fd.c], [write_file.c], [write_vec.c] and [play_fd.c].  The table of
    open descriptors is computed from the history of a run; the contract
    [Table] says that the kernel answers in accordance with it. *)
From S2P Require Import Prelude CLib Machine Kernels FileIO.

(** ** What the descriptors of a process refer to *)
Inductive object := Terminal | ErrorLog | File (path : list Z).
#[export] Instance object_eq : EqDecision object.
Proof. solve_decision. Defined.
Abbreviation table := (gmap Z object).
Definition table0 : table := <[1 := Terminal]> (<[2 := ErrorLog]> ∅).
(** The table after an event, and what an event writes into object [o]. *)
Definition table_step (t : table) (ev : event) : table :=
  match ev with
  | Sys (Copen path _ _) a => if decide (rv a < 0) then t else <[rv a := File path]> t
  | Sys (Cdup2 fd fd2) a => match t !! fd with Some o => if decide (rv a < 0) then t else <[fd2 := o]> t | None => t end
  | Sys (Cdup fd) a => match t !! fd with Some o => if decide (rv a < 0) then t else <[rv a := o]> t | None => t end
  | Sys (Cclose fd) a => if decide (rv a < 0) then t else delete fd t
  | _ => t
  end.
Definition table_of (h : list event) : table := foldl table_step table0 h.
Definition written_step (o : object) (s : table * list Z) (ev : event) : table * list Z :=
  (table_step s.1 ev,
   match ev with
   | Sys (Cwrite fd d) a => if decide (s.1 !! fd = Some o) then s.2 ++ take (Z.to_nat (rv a)) d else s.2
   | _ => s.2
   end).
(** All that a run has written into an object. *)
Definition written (o : object) (h : list event) : list Z := (foldl (written_step o) (table0, []) h).2.

Lemma table_of_snoc h ev : table_of (h ++ [ev]) = table_step (table_of h) ev.
Proof. unfold table_of. by rewrite foldl_app. Qed.
Lemma written_table o h : (foldl (written_step o) (table0, []) h).1 = table_of h.
Proof.
  induction h as [|ev h IH] using rev_ind; [done|]. unfold table_of in *.
  rewrite !foldl_app. cbn [foldl]. unfold written_step at 1. cbn [fst]. by rewrite IH.
Qed.
Lemma written_snoc o h ev :
  written o (h ++ [ev]) = written o h ++
    match ev with
    | Sys (Cwrite fd d) a => if decide (table_of h !! fd = Some o) then take (Z.to_nat (rv a)) d else []
    | _ => []
    end.
Proof.
  unfold written. rewrite foldl_app. cbn [foldl]. unfold written_step at 1. cbn [snd]. rewrite written_table.
  destruct ev as [c a|]; [|by rewrite app_nil_r]. destruct c; rewrite ?app_nil_r; try done.
  case_decide; [done|by rewrite app_nil_r].
Qed.

(** New descriptors are unused ones, duplicating an open one succeeds, and
    [write] accepts everything on open ones. *)
Class Table (e : env) : Prop := {
  open_fresh h path fl mo : let a := kern e h (Copen path fl mo) in
    rv a = -1 ∨ 0 ≤ rv a ∧ table_of h !! rv a = None;
  dup_ok h fd : is_Some (table_of h !! fd) → 0 ≤ rv (kern e h (Cdup fd));
  dup2_ok h fd fd2 : is_Some (table_of h !! fd) → 0 ≤ fd2 → rv (kern e h (Cdup2 fd fd2)) = fd2;
  table_write h fd d : is_Some (table_of h !! fd) → rv (kern e h (Cwrite fd d)) = Z.of_nat (length d) }.

(** A kernel that answers with the next number not in use. *)
Definition next_fd (t : table) : Z := foldr (λ p m, Z.max p.1 m) 0 (map_to_list t) + 1.
Definition demo_kern (h : list event) (c : call) : ans :=
  match c with
  | Copen _ _ _ | Cdup _ => answer (next_fd (table_of h))
  | Cdup2 _ fd2 => answer fd2
  | Cwrite _ d => answer (Z.of_nat (length d))
  | _ => answer 0
  end.
Lemma next_fd_above l : 0 ≤ foldr (λ p m, Z.max p.1 m) 0 l ∧
  ∀ (fd : Z) (o : object), (fd, o) ∈ l → fd ≤ foldr (λ p m, Z.max p.1 m) 0 l.
Proof.
  induction l as [|p l [IH1 IH2]]; [split; [done|intros ?? H; by apply elem_of_nil in H]|].
  cbn [foldr]. split; [lia|]. intros fd o [<-|H]%elem_of_cons; [cbn [fst]; lia|]. specialize (IH2 _ _ H). lia.
Qed.
Lemma next_fd_fresh t : 0 ≤ next_fd t ∧ t !! next_fd t = None.
Proof.
  destruct (next_fd_above (map_to_list t)) as [H1 H2]. split; [unfold next_fd; lia|].
  destruct (t !! next_fd t) as [o|] eqn:E; [|done]. apply elem_of_map_to_list, H2 in E. unfold next_fd in E. lia.
Qed.
#[export] Instance demo_table : Table (env_of demo_kern).
Proof.
  split; intros; cbn [env_of kern demo_kern rv answer]; try done; [right; apply next_fd_fresh|apply next_fd_fresh].
Qed.

Module DupFd.
Definition mode : Z := Z.lor (Z.lor (Z.lor (Z.lor S_IRUSR S_IWUSR) S_IRGRP) S_IWGRP) S_IROTH.
Definition test_write (str : list Z) : M unit unit := sys (Cwrite STDOUT_FILENO str);; mret ().
Definition schwerer : list Z := line "Schwerer fehler...".
Definition dup_fd_main : M unit Z :=
  sys (Cumask 0);;
  fd1 ← sys (Copen (str "file1") (Z.lor O_WRONLY O_CREAT) mode);
  fd2 ← sys (Copen (str "file2") (Z.lor O_WRONLY O_CREAT) mode);
  if decide (rv fd1 = -1 ∨ rv fd2 = -1) then perror (str "Fehler bei open()");; mret EXIT_FAILURE
  else
    test_write (line "Zeile 1");;
    sys (Cdup2 (rv fd1) STDOUT_FILENO);;
    test_write (line "Zeile 2");;
    sys (Cdup2 (rv fd2) STDOUT_FILENO);;
    test_write (line "Zeile 3");;
    test_write (line "Zeile 4");;
    sys (Cdup2 (rv fd1) STDOUT_FILENO);;
    test_write (line "Zeile 5");;
    sys (Cdup2 (rv fd2) STDOUT_FILENO);;
    test_write (line "Zeile 6");;
    test_write (line "Zeile 7");;
    sys (Cclose (rv fd1));;
    sys (Cclose (rv fd2));;
    fd3 ← sys (Cdup STDERR_FILENO);
    sys (Cwrite (rv fd3) schwerer);;
    mret EXIT_SUCCESS.

Section proofs.
Context (e : env) {T : Table e}.
Definition file1 : object := File (str "file1").
Definition file2 : object := File (str "file2").

(** Where the run stands: the two files are open, standard output refers to
    [o], and so much has been written. *)
Record stage (h : list event) (fd1 fd2 : Z) (o : object) (t w1 w2 : list Z) : Prop := {
  stage_fds : 0 ≤ fd1 ∧ 0 ≤ fd2 ∧ fd1 ≠ 1 ∧ fd2 ≠ 1 ∧ fd1 ≠ 2 ∧ fd2 ≠ 2;
  stage_err : table_of h !! 2 = Some ErrorLog ∧ written ErrorLog h = [] ∧ o ≠ ErrorLog;
  stage_table : table_of h !! fd1 = Some file1 ∧ table_of h !! fd2 = Some file2 ∧ table_of h !! 1 = Some o;
  stage_written : written Terminal h = t ∧ written file1 h = w1 ∧ written file2 h = w2 }.

Definition put_if (o o' : object) (d : list Z) : list Z := if decide (o = o') then d else [].
Lemma stage_write fd1 fd2 o t w1 w2 d s (Q : post unit unit) :
  stage (hist s) fd1 fd2 o t w1 w2 →
  (∀ s', stage (hist s') fd1 fd2 o (t ++ put_if o Terminal d) (w1 ++ put_if o file1 d) (w2 ++ put_if o file2 d) → Q (Val tt) s') →
  wp (test_write d) e s Q.
Proof.
  intros [Hf (He & Hwe & Hoe) (H1 & H2 & H3) (Ht & Hw1 & Hw2)] HQ. unfold test_write. wp_steps. apply HQ. st_simpl.
  assert (Hr : rv a = Z.of_nat (length d)) by (rewrite Ha; apply table_write; unfold STDOUT_FILENO; rewrite H3; eauto).
  assert (Hd : ∀ o', (if decide (table_of (hist s) !! STDOUT_FILENO = Some o') then take (Z.to_nat (rv a)) d else []) = put_if o o' d).
  { intros o'. unfold put_if, STDOUT_FILENO. rewrite H3, Hr, Nat2Z.id, take_ge by lia.
    destruct (decide (o = o')) as [->|Hn]; [by rewrite decide_True|]. rewrite decide_False; congruence. }
  split; [done| |by rewrite table_of_snoc|by rewrite !written_snoc, !Hd, Ht, Hw1, Hw2].
  rewrite table_of_snoc, written_snoc, Hd, Hwe. unfold put_if. by rewrite decide_False.
Qed.
Lemma stage_dup2 fd fd1 fd2 o o' t w1 w2 s (Q : post unit ans) :
  stage (hist s) fd1 fd2 o t w1 w2 → table_of (hist s) !! fd = Some o' → o' ≠ ErrorLog →
  (∀ s' a, stage (hist s') fd1 fd2 o' t w1 w2 → Q (Val a) s') →
  wp (sys (Cdup2 fd STDOUT_FILENO)) e s Q.
Proof.
  intros [Hf (He & Hwe & _) (H1 & H2 & H3) Hw] Ho Hoe HQ. wp_step. apply HQ. st_simpl.
  assert (Hr : rv a = 1) by (rewrite Ha; apply dup2_ok; [rewrite Ho; eauto|done]).
  split; [done| | |by rewrite !written_snoc, !app_nil_r].
  { rewrite table_of_snoc, written_snoc, app_nil_r. unfold table_step, STDOUT_FILENO. rewrite Ho, Hr, decide_False by lia.
    by rewrite lookup_insert_ne. }
  rewrite table_of_snoc. unfold table_step, STDOUT_FILENO. rewrite Ho, Hr, decide_False by lia.
  rewrite !lookup_insert_ne by lia. by rewrite lookup_insert_eq.
Qed.

(** The two files have just been opened. *)
Lemma stage_start a1 a2 h :
  (∀ o, written o h = []) → table_of h = table0 →
  0 ≤ rv a1 → table0 !! rv a1 = None → 0 ≤ rv a2 → (<[rv a1 := file1]> table0) !! rv a2 = None →
  ∀ fl mo fl' mo', stage (h ++ [Sys (Copen (str "file1") fl mo) a1] ++ [Sys (Copen (str "file2") fl' mo') a2])
    (rv a1) (rv a2) Terminal [] [] [].
Proof.
  intros Hw H0 Hp1 Hn1 Hp2 Hn2 fl mo fl' mo'. rewrite app_assoc.
  assert (Hx : ∀ x o, table0 !! x = None → table0 !! 1 = Some o → x ≠ 1) by congruence.
  apply lookup_insert_None in Hn2 as [Hn2 Hne].
  assert (Hne1 : rv a1 ≠ 1) by (intros E; by rewrite E in Hn1).
  assert (Hne2 : rv a2 ≠ 1) by (intros E; by rewrite E in Hn2).
  assert (Hne3 : rv a1 ≠ 2) by (intros E; by rewrite E in Hn1).
  assert (Hne4 : rv a2 ≠ 2) by (intros E; by rewrite E in Hn2).
  split; [lia| | |].
  - rewrite !table_of_snoc, !written_snoc, Hw, H0, !app_nil_r. unfold table_step. rewrite !decide_False by lia.
    by rewrite !lookup_insert_ne by done.
  - rewrite !table_of_snoc, H0. unfold table_step. rewrite !decide_False by lia.
    rewrite lookup_insert_ne by done. rewrite !lookup_insert_eq. split_and!; [done..|].
    by rewrite !lookup_insert_ne by done.
  - by rewrite !written_snoc, !Hw, !app_nil_r.
Qed.

(** What is left when all lines are written. *)
Definition finish (fd1 fd2 : Z) : M unit Z :=
  sys (Cclose fd1);; sys (Cclose fd2);; fd3 ← sys (Cdup STDERR_FILENO);
  sys (Cwrite (rv fd3) schwerer);; mret EXIT_SUCCESS.
Lemma finish_ok fd1 fd2 o t w1 w2 s (Q : post unit Z) :
  stage (hist s) fd1 fd2 o t w1 w2 →
  (∀ s', written Terminal (hist s') = t ∧ written file1 (hist s') = w1 ∧ written file2 (hist s') = w2 ∧
     written ErrorLog (hist s') = schwerer → Q (Val EXIT_SUCCESS) s') →
  wp (finish fd1 fd2) e s Q.
Proof.
  intros [Hf (He & Hwe & _) (H1 & H2 & H3) (Ht & Hw1 & Hw2)] HQ. unfold finish. wp_steps. apply HQ. st_simpl.
  set (h := (hist s ++ [Sys (Cclose fd1) a]) ++ [Sys (Cclose fd2) a0]) in *.
  assert (Hh : table_of h !! 2 = Some ErrorLog ∧ ∀ o, written o h = written o (hist s)).
  { subst h. split; [|intros o'; by rewrite !written_snoc, !app_nil_r]. rewrite !table_of_snoc. unfold table_step.
    repeat case_decide; try rewrite !lookup_delete_ne by lia; done. }
  destruct Hh as [Hh Hwh].
  assert (Hd : 0 ≤ rv a1) by (rewrite Ha1; apply dup_ok; unfold STDERR_FILENO; rewrite Hh; eauto).
  assert (Htab : table_of (h ++ [Sys (Cdup STDERR_FILENO) a1]) !! rv a1 = Some ErrorLog).
  { rewrite table_of_snoc. unfold table_step, STDERR_FILENO. rewrite Hh, decide_False by lia. apply lookup_insert_eq. }
  assert (Hw : rv a2 = Z.of_nat (length schwerer)) by (rewrite Ha2; apply table_write; eauto).
  assert (Hall : ∀ o', written o' ((h ++ [Sys (Cdup STDERR_FILENO) a1]) ++ [Sys (Cwrite (rv a1) schwerer) a2]) =
    written o' (hist s) ++ put_if ErrorLog o' schwerer).
  { intros o'. rewrite written_snoc, Htab, written_snoc, Hwh, app_nil_r, Hw, Nat2Z.id, take_ge by lia. f_equal. unfold put_if.
    destruct (decide (ErrorLog = o')) as [->|Hn]; [by rewrite decide_True|]. rewrite decide_False; congruence. }
  rewrite !Hall, Ht, Hw1, Hw2, Hwe. unfold put_if. rewrite !app_nil_r. done.
Qed.

(** The next line, the next redirection. *)
Ltac line_out :=
  match goal with H : stage (hist ?s) _ _ _ _ _ _ |- _ =>
    wp_step; eapply stage_write; [exact H|]; clear H; clear s;
    let s' := fresh "s" in let H' := fresh "Hst" in intros s' H'; cbn [bpost] end.
Ltac redirect :=
  match goal with H : stage (hist ?s) _ _ _ _ _ _ |- _ =>
    wp_step; eapply stage_dup2;
      [exact H|destruct (stage_table _ _ _ _ _ _ _ H) as (? & ? & ?); eassumption|done|];
    clear H; clear s;
    let s' := fresh "s" in let H' := fresh "Hst" in intros s' ? H'; cbn [bpost] end.

(** The lines of dup_fd.c go where standard output refers to when they are
    written: line 1 to the terminal, 2 and 5 to file1, 3, 4, 6 and 7 to
    file2, and the message at the end to standard error.  When a file cannot
    be opened nothing is written and the result is EXIT_FAILURE. *)
Theorem dup_fd_lines :
  wp dup_fd_main e (init () []) (λ o s',
    o = Val EXIT_FAILURE ∧ written Terminal (hist s') = [] ∧ written file1 (hist s') = [] ∧ written file2 (hist s') = [] ∨
    o = Val EXIT_SUCCESS ∧
    written Terminal (hist s') = line "Zeile 1" ∧
    written file1 (hist s') = line "Zeile 2" ++ line "Zeile 5" ∧
    written file2 (hist s') = line "Zeile 3" ++ line "Zeile 4" ++ line "Zeile 6" ++ line "Zeile 7" ∧
    written ErrorLog (hist s') = schwerer).
Proof.
  unfold dup_fd_main. do 6 wp_step. wp_if.
  { wp_steps. left. st_simpl. rewrite !written_snoc, !app_nil_r. done. }
  assert (Hst : stage (hist (after (Copen (str "file2") (Z.lor O_WRONLY O_CREAT) mode) a1
    (after (Copen (str "file1") (Z.lor O_WRONLY O_CREAT) mode) a0 (after (Cumask 0) a (init () []))))) (rv a0) (rv a1) Terminal [] [] []).
  { st_simpl. rewrite <- app_assoc. cbn [hist init app] in *.
    pose proof (open_fresh [Sys (Cumask 0) a] (str "file1") (Z.lor O_WRONLY O_CREAT) mode) as Hf1. cbv zeta in Hf1.
    pose proof (open_fresh ([Sys (Cumask 0) a] ++ [Sys (Copen (str "file1") (Z.lor O_WRONLY O_CREAT) mode) a0]) (str "file2") (Z.lor O_WRONLY O_CREAT) mode) as Hf2. cbv zeta in Hf2.
    cbn [app] in Hf2. rewrite <- Ha0 in Hf1. rewrite <- Ha1 in Hf2.
    destruct Hf1 as [?|[Hp1 Hn1]]; [tauto|]. destruct Hf2 as [?|[Hp2 Hn2]]; [tauto|].
    apply (stage_start a0 a1 [Sys (Cumask 0) a]); try done.
    change [Sys (Cumask 0) a; Sys (Copen (str "file1") (Z.lor O_WRONLY O_CREAT) mode) a0]
      with ([Sys (Cumask 0) a] ++ [Sys (Copen (str "file1") (Z.lor O_WRONLY O_CREAT) mode) a0]) in Hn2.
    rewrite table_of_snoc in Hn2. unfold table_step in Hn2. rewrite decide_False in Hn2 by lia. exact Hn2. }
  revert Hst. generalize (after (Copen (str "file2") (Z.lor O_WRONLY O_CREAT) mode) a1
    (after (Copen (str "file1") (Z.lor O_WRONLY O_CREAT) mode) a0 (after (Cumask 0) a (init () [])))).
  generalize (rv a0) as fd1, (rv a1) as fd2. clear - T. intros fd1 fd2 s Hst.
  line_out. redirect. line_out. redirect. line_out. line_out. redirect. line_out. redirect. line_out. line_out.
  eapply finish_ok; [eassumption|]. intros s' (H1 & H2 & H3 & H4). right.
  split; [done|]. rewrite H1, H2, H3, H4. split_and!; vm_compute; reflexivity.
Qed.
End proofs.

Lemma dup_fd_lines_witness :
  (dup_fd_main (env_of demo_kern) (init () [])).1 = Val EXIT_SUCCESS ∧
  wp dup_fd_main (env_of demo_kern) (init () []) (λ o s',
    o = Val EXIT_FAILURE ∧ written Terminal (hist s') = [] ∧ written file1 (hist s') = [] ∧ written file2 (hist s') = [] ∨
    o = Val EXIT_SUCCESS ∧
    written Terminal (hist s') = line "Zeile 1" ∧
    written file1 (hist s') = line "Zeile 2" ++ line "Zeile 5" ∧
    written file2 (hist s') = line "Zeile 3" ++ line "Zeile 4" ++ line "Zeile 6" ++ line "Zeile 7" ∧
    written ErrorLog (hist s') = schwerer).
Proof. split; [by vm_compute|]. apply (dup_fd_lines (env_of demo_kern)). Defined.
End DupFd.


(** ** write_file.c, write_vec.c *)
Module WriteFile.
Definition mode : Z := DupFd.mode.
Definition text (argv : list (list Z)) : M unit (list Z) :=
  if decide (length argv < 3)%nat then mret (line "Keine Angaben gemacht") else arg argv 2.
Definition write_file_main (argv : list (list Z)) : M unit Z :=
  sys (Cumask 0);;
  if decide (length argv < 2)%nat then
    a0 ← arg argv 0; eprintf (str "Usage: " ++ a0 ++ line " datei_zum_oeffnen");; mret EXIT_FAILURE
  else
    s ← text argv;
    a1 ← arg argv 1;
    fd ← sys (Copen a1 (Z.lor (Z.lor O_WRONLY O_APPEND) O_CREAT) mode);
    if decide (rv fd = -1) then perror (str "Fehler bei open()");; mret EXIT_FAILURE
    else
      n ← sys (Cwrite (rv fd) s);
      (if decide (rv n = Z.of_nat (length s)) then mret () else perror (str "Fehler bei write()"));;
      mret EXIT_SUCCESS.

Definition strs : list (list Z) := [line "Ein string"; line "Noch einer"; line "Der letzte"].
(** [writev] is one write of the parts in a row. *)
Definition write_vec_main : M unit Z :=
  sys (Cumask 0);;
  fd ← sys (Copen (str "test") (Z.lor (Z.lor O_WRONLY O_CREAT) O_EXCL) mode);
  if decide (rv fd = -1) then perror (str "open()");; mret EXIT_FAILURE
  else
    let len := foldr (λ s n, Z.of_nat (length s) + n) 0 strs in
    n ← sys (Cwrite (rv fd) (concat strs));
    if decide (rv n = len) then sys (Cclose (rv fd));; mret EXIT_SUCCESS
    else perror (str "writev()");; mret EXIT_FAILURE.

Section proofs.
Context (e : env) {W : WriteOk e}.

(** write_file.c writes once.  What the kernel accepted is a prefix of the
    text; when it is not all of it, a message appears, and the result is
    EXIT_SUCCESS all the same. *)
Lemma write_file_once a0 a1 rest :
  wp (write_file_main (a0 :: a1 :: rest)) e (init () []) (λ o s',
    o = Val EXIT_FAILURE ∧ (∀ fd, sent fd (hist s') = []) ∨
    o = Val EXIT_SUCCESS ∧ ∃ fd, sent fd (hist s') `prefix_of` default (line "Keine Angaben gemacht") (head rest) ∧
      (printed Stderr (hist s') = [] → sent fd (hist s') = default (line "Keine Angaben gemacht") (head rest))).
Proof.
  unfold write_file_main, text, arg. wp_step. wp_step. rewrite decide_False by (cbn [length]; lia).
  set (d := default _ _). wp_step.
  assert (Ht : ∀ s (Q : post unit (list Z)), Q (Val d) s →
    wp (if decide (length (a0 :: a1 :: rest) < 3)%nat then mret (line "Keine Angaben gemacht") else mem ((a0 :: a1 :: rest) !! 2%nat)) e s Q).
  { intros s Q HQ. subst d. destruct rest as [|a2 r]; cbn [length head default].
    - by rewrite decide_True by lia.
    - rewrite decide_False by lia. done. }
  apply Ht. clearbody d. clear Ht. wp_steps. wp_if.
  { wp_steps. left. split; [done|]. intros fd. by hist_norm. }
  pose proof (write_ok (hist (after (Copen a1 (Z.lor (Z.lor O_WRONLY O_APPEND) O_CREAT) mode) a2 (after (Cumask 0) a (init () [])))) (rv a2) d) as Hok.
  wp_steps. cbv zeta in Hok. rewrite <- Ha1 in Hok. wp_if; wp_steps; right; (split; [done|]); exists (rv a2).
  - hist_norm. rewrite Hif0, Nat2Z.id, take_ge by lia. by split.
  - hist_norm. split; [|intros H; exfalso].
    + exists (drop (Z.to_nat (rv a3)) d). by rewrite take_drop.
    + destruct (str "Fehler bei write()") eqn:E; [done|]. done.
Qed.

(** write_vec.c succeeds only when the new file holds the three strings in a row. *)
Lemma write_vec_whole :
  wp write_vec_main e (init () []) (λ o s',
    o = Val EXIT_FAILURE ∨
    o = Val EXIT_SUCCESS ∧ ∃ fd, sent fd (hist s') = line "Ein string" ++ line "Noch einer" ++ line "Der letzte").
Proof.
  unfold write_vec_main. wp_steps. wp_if; [wp_steps; by left|]. wp_steps.
  wp_if; [|wp_steps; by left]. wp_steps. right. split; [done|]. exists (rv a0).
  hist_norm. rewrite take_ge; [done|]. rewrite Hif0. vm_compute. lia.
Qed.
End proofs.
End WriteFile.

(** ** play_fd.c *)
Definition F_DUPFD : Z := 0.
Definition F_GETFD : Z := 1.
Definition F_SETFD : Z := 2.
Definition F_GETFL : Z := 3.
Definition F_SETFL : Z := 4.
Definition FD_CLOEXEC : Z := 1.

(** The descriptor flags and the status flags of [fd] after a history. *)
Definition fd_flags_step (fd : Z) (v : Z) (ev : event) : Z :=
  match ev with
  | Sys (Copen _ _ _) a => if decide (rv a = fd) then 0 else v
  | Sys (Cfcntl fd' cmd x) a => if decide (fd' = fd ∧ cmd = F_SETFD ∧ 0 ≤ rv a) then x else v
  | _ => v
  end.
Definition fd_flags (fd : Z) (h : list event) : Z := foldl (fd_flags_step fd) 0 h.
Definition fl_flags_step (fd : Z) (v : Z) (ev : event) : Z :=
  match ev with
  | Sys (Copen _ fl _) a => if decide (rv a = fd) then fl else v
  | Sys (Cfcntl fd' cmd x) a =>
      if decide (fd' = fd ∧ cmd = F_SETFL ∧ 0 ≤ rv a)
      then Z.lor (Z.land v O_ACCMODE) (Z.land x (Z.lor O_APPEND O_NONBLOCK)) else v
  | _ => v
  end.
Definition fl_flags (fd : Z) (h : list event) : Z := foldl (fl_flags_step fd) 0 h.
(** [fcntl] reports these flags, and setting them succeeds. *)
Class Fcntl (e : env) : Prop := {
  getfd_ok h fd x : rv (kern e h (Cfcntl fd F_GETFD x)) = fd_flags fd h;
  getfl_ok h fd x : rv (kern e h (Cfcntl fd F_GETFL x)) = fl_flags fd h;
  setfd_ok h fd x : rv (kern e h (Cfcntl fd F_SETFD x)) = 0;
  setfl_ok h fd x : rv (kern e h (Cfcntl fd F_SETFL x)) = 0 }.

Module PlayFd.
Definition play_fd_main (argv : list (list Z)) : M unit Z :=
  if decide (length argv < 2)%nat then
    a0 ← arg argv 0; eprintf (str "Usage: " ++ a0 ++ line " DATEI");; exit EXIT_FAILURE
  else
    a1 ← arg argv 1;
    fd ← sys (Copen a1 O_RDONLY 0);
    if decide (rv fd = -1) then eprintf (str "Konnte " ++ a1 ++ line " nicht öffnen!");; exit EXIT_FAILURE
    else
      let fd := rv fd in
      fdup ← sys (Cfcntl fd F_DUPFD 0);
      (if decide (rv fdup = -1) then printf (line "Filedescriptor erfolgreich dupliziert") else mret ());;
      d ← sys (Cfcntl fd F_GETFD FD_CLOEXEC);
      (if decide (rv d = 1) then printf (line "Close-on-exec-Bit ist schon gesetzt")
       else
         r ← sys (Cfcntl fd F_SETFD FD_CLOEXEC);
         if decide (rv r < 0) then printf (line "Konnte close-on-exec-Bit nicht setzen")
         else printf (line "Close-on-exec Bit wurde gesetzt"));;
      flags ← sys (Cfcntl fd F_GETFL 0);
      let modus := Z.land (rv flags) O_ACCMODE in
      (if decide (modus = O_RDWR) then printf (line "Datei nur zum lesen und schreiben geöffnet")
       else if decide (modus = O_RDONLY) then printf (line "Datei nur zum lesen geöffnet")
       else if decide (modus = O_WRONLY) then printf (line "Datei nur zum schreiben geöffnet")
       else mret ());;
      (if decide (modus = O_APPEND) then printf (line "Wir können am Dateiende schreiben") else mret ());;
      let modus := Z.lor modus O_APPEND in
      r ← sys (Cfcntl fd F_SETFL modus);
      (if decide (rv r < 0) then printf (line "Konnte Attribut O_APPEND nicht setzen") else mret ());;
      (if decide (modus = O_APPEND) then printf (line "O_APPEND gesetzt") else mret ());;
      flags ← sys (Cfcntl fd F_GETFD 0);
      let modus := Z.land (rv flags) O_ACCMODE in
      (if decide (modus = O_NONBLOCK) then printf (line "O_NONBLOCK schon gesetzt")
       else
         let modus := Z.lor modus O_NONBLOCK in
         sys (Cfcntl fd F_SETFL modus);;
         if decide (modus = O_NONBLOCK) then printf (line "O_NONBLOCK erfolgreich gesetzt")
         else printf (line "Konnte O_NONBLOCK nicht setzen"));;
      mret EXIT_SUCCESS.

Definition report : list Z :=
  line "Close-on-exec Bit wurde gesetzt" ++ line "Datei nur zum lesen geöffnet" ++
  line "O_APPEND gesetzt" ++ line "Konnte O_NONBLOCK nicht setzen".

Section proofs.
Context (e : env) {F : Fcntl e}.

(** The flags of [fd], and what has been printed. *)
Record flags_at (fd p q : Z) (out : list Z) (h : list event) : Prop := {
  at_fd : fd_flags fd h = p; at_fl : fl_flags fd h = q; at_out : printed Stdout h = out }.

Lemma at_printf fd p q out d s (Q : post unit unit) :
  flags_at fd p q out (hist s) → (∀ s', flags_at fd p q (out ++ d) (hist s') → Q (Val tt) s') → wp (printf d) e s Q.
Proof.
  intros [Hp Hq Ho] HQ. wp_step. apply HQ. st_simpl. split; [|
  |by rewrite printed_app, Ho, printed_1].
  - unfold fd_flags. by rewrite foldl_app.
  - unfold fl_flags. by rewrite foldl_app.
Qed.
(** Setting flags changes these, the other commands change nothing. *)
Lemma at_fcntl fd cmd x p q out s (Q : post unit ans) :
  flags_at fd p q out (hist s) →
  (∀ s' a, a = kern e (hist s) (Cfcntl fd cmd x) →
     flags_at fd (if cmd =? F_SETFD then x else p)
        (if cmd =? F_SETFL then Z.lor (Z.land q O_ACCMODE) (Z.land x (Z.lor O_APPEND O_NONBLOCK)) else q)
        out (hist s') → Q (Val a) s') →
  wp (sys (Cfcntl fd cmd x)) e s Q.
Proof.
  intros [Hp Hq Ho] HQ. wp_step. apply (HQ _ a Ha). st_simpl. split.
  - unfold fd_flags in *. rewrite foldl_app, Hp. cbn [foldl fd_flags_step].
    destruct (Z.eqb_spec cmd F_SETFD) as [->|Hne].
    + rewrite decide_True; [done|]. by rewrite Ha, setfd_ok.
    + rewrite decide_False; [done|tauto].
  - unfold fl_flags in *. rewrite foldl_app, Hq. cbn [foldl fl_flags_step].
    destruct (Z.eqb_spec cmd F_SETFL) as [->|Hne].
    + rewrite decide_True; [done|]. by rewrite Ha, setfl_ok.
    + rewrite decide_False; [done|tauto].
  - by rewrite printed_app, Ho, printed_1, app_nil_r.
Qed.

(** The next call of [fcntl], the next line. *)
Ltac next_fcntl :=
  wp_step; match goal with H : flags_at _ _ _ _ (hist ?s) |- wp _ _ ?s _ =>
    eapply at_fcntl; [exact H|]; let s' := fresh "s" in let a := fresh "r" in let Ha := fresh "Hr" in
    let H' := fresh "Hat" in intros s' a Ha H';
    apply (f_equal rv) in Ha; rewrite ?getfd_ok, ?getfl_ok, ?setfd_ok, ?setfl_ok in Ha;
    first [rewrite (at_fd _ _ _ _ _ H) in Ha | rewrite (at_fl _ _ _ _ _ H) in Ha | idtac];
    clear H; cbn [bpost]; cbv zeta; try rewrite Ha;
    cbv beta iota delta [Z.eqb Pos.eqb F_DUPFD F_GETFD F_SETFD F_GETFL F_SETFL] in H' end.
Ltac next_line :=
  match goal with H : flags_at _ _ _ _ (hist ?s) |- wp _ _ ?s _ =>
    eapply at_printf; [exact H|]; clear H; let s' := fresh "s" in let H' := fresh "Hat" in intros s' H' end.

(** On a file that can be opened and a descriptor that can be duplicated the
    report ends with "Konnte O_NONBLOCK nicht setzen", because the second
    F_GETFD reads the descriptor flags where the status flags are meant; in
    fact O_NONBLOCK is set at the end, and O_APPEND, set before, is not. *)
Lemma play_fd_report a0 a1 rest :
  rv (kern e [] (Copen a1 O_RDONLY 0)) ≠ -1 →
  (∀ h fd, rv (kern e h (Cfcntl fd F_DUPFD 0)) ≠ -1) →
  wp (play_fd_main (a0 :: a1 :: rest)) e (init () []) (λ o s',
    o = Val EXIT_SUCCESS ∧ printed Stdout (hist s') = report ∧
    fl_flags (rv (kern e [] (Copen a1 O_RDONLY 0))) (hist s') = Z.lor O_RDONLY O_NONBLOCK).
Proof.
  intros Ho Hd. unfold play_fd_main, arg. rewrite decide_False by (cbn [length]; lia).
  do 4 wp_step. cbn [hist init] in Ha. rewrite <- Ha in Ho |- *. rewrite decide_False by done. cbv zeta.
  assert (Hat : flags_at (rv a) 0 O_RDONLY [] (hist (after (Copen a1 O_RDONLY 0) a (init () [])))).
  { st_simpl. cbn [hist init app]. split; [unfold fd_flags|unfold fl_flags|done]; cbn [foldl fd_flags_step fl_flags_step];
      by rewrite decide_True. }
  clear Ha. revert Hat. generalize (after (Copen a1 O_RDONLY 0) a (init () [])). generalize dependent (rv a). intros fd _ s Hat.
  next_fcntl. rewrite decide_False by (apply Hd). wp_step. wp_step.
  repeat first [progress cbn [bpost] | next_fcntl | next_line | match goal with |- wp (mret _) _ _ _ => wp_step | |- wp (_ ≫= _) _ _ _ => wp_step end | rewrite decide_False by done | rewrite decide_True by done].
  destruct Hat as [_ Hq Hout]. split; [done|]. rewrite Hq, Hout. split; vm_compute; reflexivity.
Qed.
End proofs.
End PlayFd.
