(* ===== verification/SystemFiles.v ===== *)
(** * 06_SystemFiles: the databases of users, groups and passwords

    [pasname.c], [pasname2.c], [groupname.c], [read_shadow.c] and
    [read_shadow2.c] look up an entry by name, by the functions of the library
    or by going through all entries; [utsname.c] prints the names of the
    system.  The entries are answers of the environment. *)
From S2P Require Import Prelude CLib Machine FileIO.

Abbreviation M := (Machine.M unit).

(** ** Entries *)
Record passwd := Passwd { pw_name : list Z; pw_uid : Z; pw_gid : Z; pw_gecos : list Z; pw_dir : list Z; pw_shell : list Z }.
Record group := Group { gr_name : list Z; gr_passwd : list Z; gr_gid : Z; gr_mem : list (list Z) }.
Record spwd := Spwd { sp_namp : list Z; sp_pwdp : list Z; sp_lstchg : Z; sp_min : Z; sp_max : Z; sp_warn : Z; sp_inact : Z }.
(** How the library delivers them; a null pointer is [None]. *)
Definition passwd_of (a : ans) : option passwd :=
  match rstrs a, rwords a with
  | [n; c; d; s], [u; g] => Some (Passwd n u g c d s)
  | _, _ => None
  end.
Definition group_of (a : ans) : option group :=
  match rstrs a, rwords a with n :: p :: m, [g] => Some (Group n p g m) | _, _ => None end.
Definition spwd_of (a : ans) : option spwd :=
  match rstrs a, rwords a with
  | [n; p], [l; mi; ma; w; i] => Some (Spwd n p l mi ma w i)
  | _, _ => None
  end.
Definition entry {A} (read : ans → option A) (fn : string) (args text : list Z) : M (option A) :=
  a ← sys (Clib fn args text);
  if decide (rv a = 0) then mret None else x ← mem (read a); mret (Some x).

(** One [printf] for each line. *)
Definition prints (l : list (list Z)) : M unit := mapM (λ t, printf t) l;; mret ().

(** ** pasname.c and pasname2.c *)
Module Passwords.
(** [strtoul(s, &rest, 10)]: without a digit the rest is the whole text. *)
Definition strtoul (s : list Z) : Z * list Z :=
  let '(sign, t) := scan_sign (skip_space s) in
  match t with
  | c :: _ => if isdigit c then
                let '(n, r) := scan_digits 0 t in
                (if decide (n < 2 ^ 64) then (sign * n) mod 2 ^ 64 else 2 ^ 64 - 1, r)
              else (0, s)
  | [] => (0, s)
  end.
Definition usage {A} (argv : list (list Z)) : M A :=
  a0 ← arg argv 0; eprintf (str "Usage: " ++ a0 ++ line " Name");; exit EXIT_FAILURE.
Definition nichts {A} (name : list Z) : M A :=
  printf (str "Konnte nichts ueber " ++ name ++ line " ermitteln");; exit EXIT_FAILURE.
Definition user_lines (p : passwd) : list (list Z) := [
  line "User Angaben:";
  str "Benutzername        : " ++ pw_name p ++ [LF];
  str "Benutzernummer      : " ++ dec (to_int (pw_uid p)) ++ [LF];
  str "Gruppennummer       : " ++ dec (to_int (pw_gid p)) ++ [LF];
  str "Kommentar           : " ++ pw_gecos p ++ [LF];
  str "Home-Verzeichnis    : " ++ pw_dir p ++ [LF];
  str "Login-Shell         : " ++ pw_shell p ++ [LF]].
Definition show (name : list Z) (p : option passwd) : M Z :=
  match p with None => nichts name | Some p => prints (user_lines p);; mret EXIT_SUCCESS end.
Definition pasname_main (argv : list (list Z)) : M Z :=
  if decide (length argv ≠ 2%nat) then usage argv
  else
    name ← arg argv 1;
    let '(n, str_rest) := strtoul name in
    let uid := swrap 32 n in
    p ← (if decide (str_rest = []) then entry passwd_of "getpwuid" [uid] [] else entry passwd_of "getpwnam" [] name);
    show name p.
(** The loop of [getpasswd]: the result, if the entry is the one. *)
Definition get_body {A} (read : ans → option A) (getent endent : string) (nam : A → list Z) (name : list Z) (u : unit)
    : M (unit + option A) :=
  p ← entry read getent [] [];
  match p with
  | Some p => if decide (nam p = name) then lib endent [] [];; mret (inr (Some p)) else mret (inl ())
  | None => lib endent [] [];; mret (inr None)
  end.
Definition getpasswd (fuel : nat) (name : list Z) : M (option passwd) :=
  loop fuel (get_body passwd_of "getpwent" "endpwent" pw_name name) ().
Definition pasname2_main (fuel : nat) (argv : list (list Z)) : M Z :=
  if decide (length argv ≠ 2%nat) then usage argv
  else name ← arg argv 1; p ← getpasswd fuel name; show name p.
End Passwords.

(** ** groupname.c *)
Module Groups.
Definition group_lines (g : group) : list (list Z) := [
  line "User Angaben:";
  str "Gruppenname                : " ++ gr_name g ++ [LF];
  str "Passwort (verschluesselt)  : " ++ gr_passwd g ++ [LF];
  str "GID                        : " ++ dec (to_int (gr_gid g)) ++ [LF];
  line "Member:"] ++
  ((λ m, TAB :: str "Name                     : " ++ m ++ [LF]) <$> gr_mem g).
Definition groupname_main (argv : list (list Z)) : M Z :=
  if decide (length argv ≠ 2%nat) then Passwords.usage argv
  else
    name ← arg argv 1;
    g ← entry group_of "getgrnam" [] name;
    match g with None => Passwords.nichts name | Some g => prints (group_lines g);; mret EXIT_SUCCESS end.
End Groups.

(** ** read_shadow.c and read_shadow2.c *)
Module Shadow.
Definition shadow_lines (s : spwd) : list (list Z) := [
  line "User (passwd) Angaben:";
  str "Benutzername                    : " ++ sp_namp s ++ [LF];
  str "Passwort (verschluesselt)       : " ++ sp_pwdp s ++ [LF];
  str "Tag der letzten Aenderung       : " ++ dec (sp_lstchg s) ++ line " Tage";
  str "Naechste Aenderung moeglich     : " ++ dec (sp_min s) ++ line " Tage";
  str "Naechste Aenderung faelllig     : " ++ dec (sp_max s) ++ line " Tage";
  str "Warnung wenn Aenderung faelllig : " ++ dec (sp_warn s) ++ line " Tage vorher";
  str "Konto nach " ++ dec (sp_inact s) ++ line " Tagen sperren"].
Definition show (name : list Z) (s : option spwd) : M Z :=
  match s with None => Passwords.nichts name | Some s => prints (shadow_lines s);; mret EXIT_SUCCESS end.
Definition getshadow (fuel : nat) (name : list Z) : M (option spwd) :=
  loop fuel (Passwords.get_body spwd_of "getspent" "endspent" sp_namp name) ().
Definition read_shadow_main (fuel : nat) (argv : list (list Z)) : M Z :=
  if decide (length argv ≠ 2%nat) then Passwords.usage argv
  else name ← arg argv 1; s ← getshadow fuel name; show name s.
Definition read_shadow2_main (argv : list (list Z)) : M Z :=
  if decide (length argv ≠ 2%nat) then Passwords.usage argv
  else name ← arg argv 1; s ← entry spwd_of "getspnam" [] name; show name s.
End Shadow.

(** ** utsname.c *)
Module Uts.
Definition uts_lines (l : list (list Z)) : option (list (list Z)) :=
  match l with
  | [sysname; nodename; release; version; machine; domainname] => Some [
      line "Folgende Angaben wurden ermittelt:";
      str "Betriebsystem   : " ++ sysname ++ [LF]; str "Knotenname      : " ++ nodename ++ [LF];
      str "Release         : " ++ release ++ [LF]; str "Version         : " ++ version ++ [LF];
      str "Architektur     : " ++ machine ++ [LF]; str "Domainname      : " ++ domainname ++ [LF]]
  | _ => None
  end.
Definition utsname_main : M Z :=
  a ← sys (Clib "uname" [] []);
  if decide (rv a < 0) then eprintf (line "Fehler bei uname()");; mret EXIT_FAILURE
  else t ← mem (uts_lines (rstrs a)); prints t;; mret EXIT_SUCCESS.
End Uts.

(** ** Theorems *)
Lemma prints_ok e l : ∀ s (Q : post unit unit),
  (∀ s', printed Stdout (hist s') = printed Stdout (hist s) ++ concat l → Q (Val ()) s') → wp (prints l) e s Q.
Proof.
  intros s Q HQ. unfold prints. wp_step.
  assert (G : wp (mapM (λ t, printf t) l) e s (λ o s', (∃ r, o = Val r) ∧ printed Stdout (hist s') = printed Stdout (hist s) ++ concat l)).
  { clear HQ. revert s. induction l as [|t l IH]; intros s; [apply wp_ret; split; [by eexists|by rewrite app_nil_r]|].
    cbn [mapM]. wp_steps. eapply wp_mono; [apply IH|]. intros o s' [[r ->] H]. cbn [bpost]. wp_steps. split; [by eexists|].
    rewrite H. hist_norm. done. }
  eapply wp_mono; [exact G|]. intros o s' [[r ->] H]. cbn [bpost]. wp_steps. by apply HQ.
Qed.

(** ** Going through all entries is looking up by name *)
Module Lookup.
Import Passwords.
Section lookup.
Context {A : Type} (read : ans → option A) (getent endent : string) (nam : A → list Z) (db : list A).
(** How many entries have been read since the last [endent]. *)
Definition position (h : list event) : nat :=
  foldl (λ n ev, match ev with
    | Sys (Clib fn _ _) _ => if decide (fn = getent) then S n else if decide (fn = endent) then 0 else n
    | _ => n end%nat) 0%nat h.
Lemma position_snoc h ev : position (h ++ [ev]) =
  match ev with
  | Sys (Clib fn _ _) _ => if decide (fn = getent) then S (position h) else if decide (fn = endent) then 0 else position h
  | _ => position h
  end%nat.
Proof. unfold position. by rewrite foldl_app. Qed.
(** The library goes through [db]. *)
Class Database (e : env) : Prop := database h :
  let a := kern e h (Clib getent [] []) in
  match db !! position h with Some x => rv a ≠ 0 ∧ read a = Some x | None => rv a = 0 end.
Lemma get_first e {D : Database e} name : getent ≠ endent → ∀ fuel k s,
  position (hist s) = k → (length db - k < fuel)%nat → (k ≤ length db)%nat →
  wp (loop fuel (get_body read getent endent nam name) ()) e s (λ o s',
    o = Val (snd <$> list_find (λ x, nam x = name) (drop k db)) ∧ position (hist s') = 0%nat ∧
    printed Stdout (hist s') = printed Stdout (hist s)).
Proof.
  intros Hne. induction fuel as [|fuel IH]; intros k s Hk Hf Hle; [lia|]. apply wp_loop_S. unfold get_body, entry. do 3 wp_step.
  pose proof (database (hist s)) as Hd. rewrite <- Ha, Hk in Hd. destruct (db !! k) as [x|] eqn:Ex.
  - destruct Hd as [Hr Ho]. rewrite decide_False by done. wp_step. apply wp_mem. rewrite Ho. wp_steps. pose proof (lookup_lt_Some _ _ _ Ex).
    rewrite (drop_S _ _ _ Ex). cbn [list_find]. case_decide.
    + wp_steps. split; [done|]. split; [|by hist_norm]. st_simpl. rewrite position_snoc, decide_False, decide_True by done. done.
    + wp_steps. eapply wp_mono; [apply (IH (S k)); [st_simpl; rewrite position_snoc, decide_True by done; by rewrite Hk|lia|lia]|].
      intros o s' (-> & Hp & Hq). split_and!; [|done|rewrite Hq; by hist_norm]. f_equal.
      rewrite <- option_fmap_compose. done.
  - rewrite decide_True by done. wp_steps. apply lookup_ge_None in Ex. rewrite drop_ge by done. split; [done|]. split; [|by hist_norm].
    st_simpl. rewrite position_snoc, decide_False, decide_True by done. done.
Qed.
End lookup.

(** What a program that looks up an entry does, from the entry. *)
Definition shows {A} (lines : A → list (list Z)) (name : list Z) (x : option A) (o : outcome Z) (out : list Z) : Prop :=
  match x with
  | Some x => o = Val EXIT_SUCCESS ∧ out = concat (lines x)
  | None => o = Exit EXIT_FAILURE ∧ out = str "Konnte nichts ueber " ++ name ++ line " ermitteln"
  end.
Lemma nichts_ok {B} e name s : wp (nichts (A := B) name) e s (λ o s', o = Exit EXIT_FAILURE ∧
  printed Stdout (hist s') = printed Stdout (hist s) ++ str "Konnte nichts ueber " ++ name ++ line " ermitteln").
Proof. unfold nichts. wp_steps. split; [done|]. by hist_norm. Qed.
Lemma show_ok e name p s : printed Stdout (hist s) = [] →
  wp (show name p) e s (λ o s', shows user_lines name p o (printed Stdout (hist s'))).
Proof.
  intros Hs. destruct p as [p|]; cbn [show].
  - wp_step. apply prints_ok. intros s' H. cbn [bpost]. wp_steps. split; [done|]. by rewrite H, Hs.
  - eapply wp_mono; [apply nichts_ok|]. intros o s' [-> H]. split; [done|]. by rewrite H, Hs.
Qed.
Lemma shadow_show_ok e name p s : printed Stdout (hist s) = [] →
  wp (Shadow.show name p) e s (λ o s', shows Shadow.shadow_lines name p o (printed Stdout (hist s'))).
Proof.
  intros Hs. destruct p as [p|]; cbn [Shadow.show].
  - wp_step. apply prints_ok. intros s' H. cbn [bpost]. wp_steps. split; [done|]. by rewrite H, Hs.
  - eapply wp_mono; [apply nichts_ok|]. intros o s' [-> H]. split; [done|]. by rewrite H, Hs.
Qed.
Definition first_named {A} (nam : A → list Z) (name : list Z) (db : list A) : option A := snd <$> list_find (λ x, nam x = name) db.

Definition some_users : list passwd :=
  [Passwd (str "root") 0 0 (str "root") (str "/root") (str "/bin/sh"); Passwd (str "eva") 1000 100 (str "Eva") (str "/home/eva") (str "/bin/bash")].
Definition some_shadows : list spwd := [Spwd (str "eva") (str "x") 19000 0 99999 7 (-1)].
Definition passwd_ans (p : passwd) : ans := Ans 1 0 [] [pw_uid p; pw_gid p] [pw_name p; pw_gecos p; pw_dir p; pw_shell p].
Definition spwd_ans (s : spwd) : ans :=
  Ans 1 0 [] [sp_lstchg s; sp_min s; sp_max s; sp_warn s; sp_inact s] [sp_namp s; sp_pwdp s].
Definition db_kern (h : list event) (c : call) : ans :=
  match c with
  | Clib fn _ name =>
      if decide (fn = "getpwent"%string) then from_option passwd_ans (answer 0) (some_users !! position "getpwent" "endpwent" h)
      else if decide (fn = "getspent"%string) then from_option spwd_ans (answer 0) (some_shadows !! position "getspent" "endspent" h)
      else if decide (fn = "getpwnam"%string) then from_option passwd_ans (answer 0) (first_named pw_name name some_users)
      else if decide (fn = "getspnam"%string) then from_option spwd_ans (answer 0) (first_named sp_namp name some_shadows)
      else answer 0
  | _ => answer 0
  end.
(** An empty argument is the number 0, the user root, and so is one that is a
    multiple of [2 ^ 32]. *)
Lemma empty_is_root : strtoul [] = (0, []) ∧ strtoul (str "4294967296") = (4294967296, []) ∧ swrap 32 4294967296 = 0.
Proof. done. Qed.
End Lookup.
