(* ===== verification/FileTransfer.v ===== *)
(** * The file upload service (11_Network/parallel_server, thserver.c)

    One client, [client2.c], sends files as the base name, a newline, and the
    contents; three servers receive them: [server2.c] one connection after the
    other, [pserver.c] in a forked child per connection, and [thserver.c] in a
    thread per connection. *)
From S2P Require Import Prelude CLib Machine Kernels FileIO.

Definition MAX_ZEICHEN : nat := 1024.
Definition PORT_NUMMER : Z := 1234.

(** ** Receiving a file: the part the three servers share *)

(** The loop that reads the file name one character at a time, up to a
    newline, which it replaces by the terminator: the last result of [read]
    and the buffer. *)
Definition recv_name_body (connfd : Z) (l : nat * buf) : M unit (nat * buf + Z * buf) :=
  let '(j, puffer) := l in
  n ← sys (Cread connfd 1);
  if decide (rv n > 0) then
    c ← mem (rdata n !! 0%nat);
    puffer ← mem (bset puffer (Z.of_nat j) c);
    if decide (c = LF) then
      puffer ← mem (bset puffer (Z.of_nat j) 0); mret (inr (rv n, puffer))
    else mret (inl (S j, puffer))
  else mret (inr (rv n, puffer)).
Definition recv_name (fuel : nat) (connfd : Z) (puffer : buf) : M unit (Z * buf) :=
  loop fuel (recv_name_body connfd) (O, puffer).

(** [strcpy(path_file, getenv("HOME")); strcat(...); strcat(path_file, puffer)] *)
Definition target_path (path_file puffer : buf) : M unit buf :=
  e ← ask;
  home ← mem (getenv e (str "HOME"));
  p ← mem (strcpy path_file home);
  p ← mem (strcat p (str "/tmp/"));
  name ← mem (cstr puffer);
  mem (strcat p name).

(** The loop that copies the rest of the connection into the file: the last
    result of [read], the byte count and the buffer.  [add] is the addition of
    the counter's type. *)
Definition recv_data_body (add : Z → Z → option Z) (connfd fd : Z) (l : Z * buf) :
    M unit (Z * buf + Z * Z * buf) :=
  let '(ngesammt, puffer) := l in
  n ← sys (Cread connfd (Z.of_nat MAX_ZEICHEN));
  if decide (rv n > 0) then
    puffer ← mem (blit puffer 0 (rdata n));
    d ← mem (bytes_of puffer (Z.to_nat (rv n)));
    w ← sys (Cwrite fd d);
    if decide (rv w ≠ rv n) then
      m ← errmsg; printf (str "Fehler bei write() ... (" ++ m ++ line ")");; exit EXIT_FAILURE
    else ngesammt ← mem (add ngesammt (rv n)); mret (inl (ngesammt, puffer))
  else mret (inr (rv n, ngesammt, puffer)).
Definition recv_data (fuel : nat) (add : Z → Z → option Z) (connfd fd : Z) (puffer : buf) :
    M unit (Z * Z * buf) :=
  loop fuel (recv_data_body add connfd fd) (0, puffer).

(** [O_WRONLY | O_CREAT | O_TRUNC] *)
Definition recv_flags : Z := Z.lor (Z.lor O_WRONLY O_CREAT) O_TRUNC.
Definition log_target (puffer path_file : buf) : M unit (list Z) :=
  path ← mem (cstr path_file); printf (path ++ [LF]);; mret path.
(** The report when the target cannot be opened. *)
Definition log_no_open (puffer : buf) : M unit unit :=
  name ← mem (cstr puffer); m ← errmsg;
  printf (str "... kann " ++ name ++ str " nicht oeffnen (" ++ m ++ line ")").
Definition log_name (puffer : buf) : M unit unit :=
  name ← mem (cstr puffer); printf (str "Dateiname " ++ DQ ++ name ++ DQ ++ str " wird kopiert nach ").
Definition log_done (n : Z) : M unit unit := printf (str "Beendet (" ++ dec n ++ line " Bytes)").

(** From the first character of the name to the [open] of the target. *)
Definition recv_open (fuel : nat) (connfd : Z) (puffer path_file : buf) : M unit (ans * buf * buf) :=
  '(n, puffer) ← recv_name fuel connfd puffer;
  if decide (n < 0) then printf (line "Fehler bei read() ...");; exit EXIT_FAILURE else
  log_name puffer;;
  path_file ← target_path path_file puffer;
  path ← log_target puffer path_file;
  fd ← sys (Copen path recv_flags 0x1A4 (* 0644 *));
  mret (fd, puffer, path_file).

(** From the first byte of the contents to the two [close] calls. *)
Definition recv_store (fuel : nat) (add : Z → Z → option Z) (connfd fd : Z) (puffer : buf) : M unit buf :=
  '(n, ngesammt, puffer) ← recv_data fuel add connfd fd puffer;
  if decide (n < 0) then printf (line "Fehler bei read() ...");; exit EXIT_FAILURE else
  log_done ngesammt;;
  sys (Cclose fd);; sys (Cclose connfd);; mret puffer.

(** ** server2.c: one connection at a time *)
Definition srv2_handle (fuel : nat) (connfd : Z) (bufs : buf * buf) : M unit (buf * buf) :=
  let '(puffer, path_file) := bufs in
  printf (line "... Daten empfangen");;
  '(fd, puffer, path_file) ← recv_open fuel connfd puffer path_file;
  if decide (rv fd < 0) then
    log_no_open puffer;; sys (Cclose connfd);; mret (puffer, path_file)
  else
    puffer ← recv_store fuel iadd connfd (rv fd) puffer;
    mret (puffer, path_file).

(** Create, bind and listen: the start of the three servers. *)
Definition fail_errno {A} (what : list Z) : M unit A :=
  m ← errmsg; printf (str "Fehler bei " ++ what ++ str " ... (" ++ m ++ line ")");; exit EXIT_FAILURE.
Definition open_server (backlog : Z) : M unit Z :=
  sockfd ← sys (Csocket AF_INET SOCK_STREAM 0);
  if decide (rv sockfd < 0) then fail_errno (str "socket()") else
  printf (line "Socket erfolgreich angelegt");;
  sys (Csetsockopt (rv sockfd) SOL_SOCKET SO_REUSEADDR);;
  b ← sys (Cbind (rv sockfd) 0 (htons PORT_NUMMER));
  if decide (rv b ≠ 0) then fail_errno (str "bind()") else
  printf (line "Server bereit und wartet ...");;
  l ← sys (Clisten (rv sockfd) backlog);
  if decide (rv l ≠ 0) then fail_errno (str "listen()") else mret (rv sockfd).

(** [main] of server2.c: the loop ends only when [accept] fails. *)
Definition srv2_main (fuel : nat) : M unit Z :=
  sockfd ← open_server SOMAXCONN;
  loop fuel (λ bufs,
    connfd ← sys (Caccept sockfd);
    if decide (rv connfd >= 0) then bufs ← srv2_handle fuel (rv connfd) bufs; mret (inl bufs)
    else fail_errno (str "accept()")) (uninit MAX_ZEICHEN, uninit MAX_ZEICHEN).

(** ** pserver.c: a child per connection *)

(** [my_signal] installs a handler with an empty mask and [SA_RESTART];
    handlers are named by numbers. *)
Definition my_signal (sig handler : Z) : M unit Z :=
  a ← sys (Csigaction sig handler SA_RESTART);
  if decide (rv a < 0) then mret SIG_ERR else mret (rwords a !!! 0%nat).
(** The SIGCHLD handler: collect every child that has ended. *)
Definition WNOHANG : Z := 1.
Definition no_zombie (fuel : nat) : M unit unit :=
  loop fuel (λ _ : unit,
    pid ← sys (Cwaitpid (-1) WNOHANG);
    if decide (rv pid > 0) then
      printf (str "Child-Server mit pid-" ++ dec (rv pid) ++ line " hat sich beendet");; mret (inl tt)
    else mret (inr tt)) tt.

(** The child's work; it returns to the accept loop in either case: [continue]
    after a failed [open] ([false]), or the end of the [if] ([true]). *)
Definition pserver_child (fuel : nat) (sockfd connfd : Z) (bufs : buf * buf) :
    M unit (bool * (buf * buf)) :=
  let '(puffer, path_file) := bufs in
  sys (Cclose sockfd);;
  '(fd, puffer, path_file) ← recv_open fuel connfd puffer path_file;
  if decide (rv fd < 0) then
    log_no_open puffer;; sys (Cclose connfd);; mret (false, (puffer, path_file))
  else
    puffer ← recv_store fuel iadd connfd (rv fd) puffer;
    mret (true, (puffer, path_file)).
(** One turn of the accept loop, in the parent and, after [fork], in the child. *)
Definition pserver_body (fuel : nat) (sockfd : Z) (bufs : buf * buf) : M unit (buf * buf + Z) :=
  connfd ← sys (Caccept sockfd);
  if decide (rv connfd < 0) then
    en ← get_errno;
    if decide (en = EINTR) then mret (inl bufs) else fail_errno (str "accept()")
  else
    printf (line "... Daten empfangen");;
    pid ← sys Cfork;
    if decide (rv pid = 0) then
      '(done, bufs) ← pserver_child fuel sockfd (rv connfd) bufs;
      if done : bool then sys (Cclose (rv connfd));; mret (inl bufs) else mret (inl bufs)
    else sys (Cclose (rv connfd));; mret (inl bufs).
Definition HANDLER_no_zombie : Z := 100.
Definition pserver_main (fuel : nat) : M unit Z :=
  sockfd ← open_server 5;
  my_signal SIGCHLD HANDLER_no_zombie;;
  loop fuel (pserver_body fuel sockfd) (uninit MAX_ZEICHEN, uninit MAX_ZEICHEN).

(** ** thserver.c: a thread per connection *)

(** [copy]: unlike the others it goes on after a failed [open], with the
    connection already closed. *)
Definition copy (fuel : nat) (connfd : Z) : M unit unit :=
  printf (str "... Daten empfangen");;
  '(fd, puffer, path_file) ← recv_open fuel connfd (uninit MAX_ZEICHEN) (uninit MAX_ZEICHEN);
  (if decide (rv fd < 0) then log_no_open puffer;; sys (Cclose connfd);; mret () else mret ());;
  recv_store fuel ladd connfd (rv fd) puffer;; mret ().
Definition threading_socket (fuel : nat) (connfd : Z) : M unit unit :=
  sys Cpthread_detach;; copy fuel connfd;; sys (Cclose connfd);; mret ().
(** [main]: the threads run beside the accept loop. *)
Definition thserver_main (fuel : nat) : M unit Z :=
  sockfd ← open_server 5;
  loop fuel (λ _ : unit,
    connfd ← sys (Caccept sockfd);
    if decide (rv connfd < 0) then
      en ← get_errno;
      if decide (en = EINTR) then mret (inl tt) else fail_errno (str "accept()")
    else sys (Cpthread_create (rv connfd));; mret (inl tt)) tt.

(** ** client2.c *)

(** The part of a path after its last slash ([strrchr(puffer, '/') + 1]). *)
Definition SLASH : Z := 47.
Definition basename (p : list Z) : list Z :=
  match strrchr p SLASH with Some (_ :: r) => r | _ => p end.
Definition send_data_body (fd sockfd : Z) (puffer : buf) : M unit (buf + Z * buf) :=
  n ← sys (Cread fd (Z.of_nat MAX_ZEICHEN));
  if decide (rv n > 0) then
    puffer ← mem (blit puffer 0 (rdata n));
    puffer ← mem (bset puffer (rv n) 0);  (* important for binary files! *)
    d ← mem (bytes_of puffer (Z.to_nat (rv n)));
    w ← sys (Cwrite sockfd d);
    if decide (rv w ≠ rv n) then fail_errno (str "write()") else mret (inl puffer)
  else mret (inr (rv n, puffer)).
(** One file of the command line; the buffer is kept between the files. *)
Definition client2_file (fuel : nat) (adr : Z) (file : list Z) (puffer : buf) : M unit buf :=
  sockfd ← sys (Csocket AF_INET SOCK_STREAM 0);
  if decide (rv sockfd < 0) then fail_errno (str "socket()") else
  c ← sys (Cconnect (rv sockfd) adr (htons PORT_NUMMER));
  if decide (rv c ≠ 0) then fail_errno (str "connect()") else
  fd ← sys (Copen file O_RDONLY 0);
  if decide (rv fd < 0) then
    m ← errmsg;
    printf (str "Kann Datei (" ++ file ++ str ") nicht oeffnen ... (" ++ m ++ line ")");;
    mret puffer
  else
    puffer ← mem (strcpy puffer file);
    puffer ← mem (strcat puffer [LF]);
    p ← mem (cstr puffer);
    let help := basename p in
    w ← sys (Cwrite (rv sockfd) help);
    if decide (rv w ≠ Z.of_nat (length help)) then
      printf (str "Konnte " ++ DQ ++ file ++ DQ ++ line " nicht versenden?");;
      sys (Cclose (rv fd));; sys (Cclose (rv sockfd));; mret puffer
    else
      '(n, puffer) ← loop fuel (send_data_body (rv fd) (rv sockfd)) puffer;
      if decide (n < 0) then fail_errno (str "read()") else
      sys (Cclose (rv sockfd));; sys (Csleep 2);; mret puffer.
Fixpoint client2_files (fuel : nat) (adr : Z) (files : list (list Z)) (puffer : buf) : M unit unit :=
  match files with
  | [] => mret ()
  | f :: fs => puffer ← client2_file fuel adr f puffer; client2_files fuel adr fs puffer
  end.
Definition client2_main (fuel : nat) (argv : list (list Z)) : M unit Z :=
  if decide (length argv < 3)%nat then
    a0 ← arg argv 0; printf (str "Usage: " ++ a0 ++ line " rechner datei(en)");; exit EXIT_FAILURE
  else
    a1 ← arg argv 1;
    e ← ask;
    rechner ← match inet_aton e a1 with
              | Some inadr => sys (Cgethostbyaddr inadr)
              | None => sys (Cgethostbyname a1)
              end;
    if decide (rv rechner = 0) then
      herror (line "Fehler beim Suchen des Rechners");; exit EXIT_FAILURE
    else
      adr ← mem (rwords rechner !! 0%nat);
      client2_files fuel adr (drop 2 argv) (uninit MAX_ZEICHEN);;
      printf (line "Datei(en) erfolgreich versendet");;
      mret EXIT_SUCCESS.

(** ** Receiving: proofs *)
Section receive.
Context (e : env) (connfd : Z).

(** A stream that still holds [c :: rest] delivers [c] to a one-byte [read]. *)
Lemma stream_next data pre c rest h a :
  Stream e connfd data → data = pre ++ c :: rest → reading connfd h pre →
  a = kern e h (Cread connfd 1) → rdata a = [c] ∧ rv a = 1.
Proof.
  intros Hst -> [Hop Hg] ->. destruct (Hst h 1 ltac:(lia) Hop) as (k & Hd & Hv & Hk & Hpos).
  rewrite Hg, drop_app_length in *. assert (k = 1%nat) as ->.
  { specialize (Hpos ltac:(done)). lia. }
  simpl in Hd. rewrite take_0 in Hd. rewrite Hd in *. done.
Qed.

Lemma bset_snoc (done : list Z) (b r : buf) x c :
  b = (Some <$> done) ++ x :: r →
  bset b (Z.of_nat (length done)) c = Some ((Some <$> done ++ [c]) ++ r).
Proof.
  intros ->. rewrite bset_Some by (rewrite length_app, length_fmap; simpl; lia).
  rewrite Nat2Z.id, insert_app_r_alt by (by rewrite length_fmap).
  rewrite length_fmap, Nat.sub_diag. simpl. by rewrite fmap_app, <- app_assoc.
Qed.

(** The name loop on a stream that holds [name], a newline, and more. *)
Lemma recv_name_loop data name : ∀ fuel done pre rest r s,
  Stream e connfd data → data = pre ++ name ++ LF :: rest → LF ∉ name →
  reading connfd (hist s) pre → (length name < length r)%nat → (length name < fuel)%nat →
  wp (loop fuel (recv_name_body connfd) (length done, (Some <$> done) ++ r)) e s (λ o s',
    ∃ h r', hist s' = hist s ++ h ∧ Forall (is_read connfd) h ∧ got connfd h = name ++ [LF] ∧
      o = Val (1, (Some <$> done ++ name) ++ Some 0 :: r') ∧
      length r = (length name + S (length r'))%nat).
Proof.
  induction name as [|c name IH]; intros fuel done pre rest r s Hst Hdata Hlf Hg Hr Hf;
    (destruct fuel as [|fuel]; [lia|]); (destruct r as [|x r]; [simpl in Hr; lia|]);
    apply wp_loop_S; unfold recv_name_body; wp_step; wp_step.
  - simpl in Hdata. destruct (stream_next _ _ _ _ _ _ Hst Hdata Hg Ha) as [Hd Hv].
    rewrite Hv, decide_True, Hd by lia. wp_step. wp_step. wp_step.
    rewrite (bset_snoc done _ r x) by done. wp_steps. rewrite decide_True by done.
    wp_step. rewrite (bset_snoc done _ r (Some LF)) by (by rewrite fmap_app, <- app_assoc).
    wp_steps. exists [Sys (Cread connfd 1) a], r. st_simpl. split_and!; [done| | | |done].
    + by repeat constructor.
    + hist_simpl. done.
    + by rewrite app_nil_r, fmap_app, <- app_assoc.
  - simpl in Hdata. destruct (stream_next _ _ _ _ _ _ Hst Hdata Hg Ha) as [Hd Hv].
    apply not_elem_of_cons in Hlf as [Hc Hlf].
    rewrite Hv, decide_True, Hd by lia. wp_step. wp_step. wp_step.
    rewrite (bset_snoc done _ r x) by done. wp_steps. rewrite decide_False by congruence. wp_steps.
    replace (S (length done)) with (length (done ++ [c])) by (rewrite length_app; simpl; lia).
    eapply wp_mono; [apply (IH fuel (done ++ [c]) (pre ++ [c]) rest r); try done|].
    + by rewrite <- app_assoc.
    + rewrite hist_after. apply reading_app; [done..|]. hist_norm. done.
    + simpl in Hr. lia.
    + simpl in Hf. lia.
    + intros o s' (h & r' & Hh & Hrd & Hgot & -> & Hl). exists (Sys (Cread connfd 1) a :: h), r'.
      split_and!.
      * rewrite Hh, hist_after. by rewrite <- app_assoc.
      * by constructor.
      * change (Sys (Cread connfd 1) a :: h) with ([Sys (Cread connfd 1) a] ++ h).
        hist_simpl. by rewrite Hd, Hgot.
      * by rewrite <- app_assoc.
      * simpl in *. lia.
Qed.

Lemma blit_front (b : buf) (l : list Z) :
  (length l ≤ length b)%nat → blit b 0 l = Some ((Some <$> l) ++ drop (length l) b).
Proof. intros. by rewrite blit_Some by lia. Qed.

(** What a [read] on a stream delivers: a piece of the rest, empty at its end. *)
Lemma stream_piece data pre rest h n a :
  Stream e connfd data → data = pre ++ rest → reading connfd h pre → 0 < n →
  a = kern e h (Cread connfd n) →
  ∃ d r, rest = d ++ r ∧ rdata a = d ∧ rv a = Z.of_nat (length d) ∧ Z.of_nat (length d) ≤ n ∧
    (rest ≠ [] → d ≠ []).
Proof.
  intros Hst -> [Hop Hg] Hn ->. destruct (Hst h n Hn Hop) as (k & Hd & Hv & Hk & Hpos).
  rewrite Hg, drop_app_length in *. exists (take k rest), (drop k rest).
  rewrite take_drop. split_and!; try done.
  - by rewrite Hv, Hd.
  - rewrite length_take. lia.
  - intros Hr Ht. specialize (Hpos Hr). destruct k; [lia|]. by destruct rest.
Qed.

(** The data loop on a stream that still holds [rest]: all of it reaches [fd]. *)
Lemma recv_data_ok data pre rest fd fuel add puffer s :
  Stream e connfd data → WholeWrites e fd → data = pre ++ rest → reading connfd (hist s) pre →
  length puffer = MAX_ZEICHEN → (length rest < fuel)%nat →
  (∀ x y, 0 ≤ x → 0 ≤ y → x + y ≤ Z.of_nat (length rest) → add x y = Some (x + y)) →
  wp (recv_data fuel add connfd fd puffer) e s (λ o s', ∃ h puffer', hist s' = hist s ++ h ∧
    o = Val (0, Z.of_nat (length rest), puffer') ∧ length puffer' = MAX_ZEICHEN ∧
    sent fd h = rest ∧ got connfd h = rest ∧ printed Stdout h = []).
Proof.
  intros Hst Hw Hdata Hg Hp Hf Hadd. unfold recv_data.
  eapply (wp_loop_measure e _ (λ l s', ∃ h q r, hist s' = hist s ++ h ∧ rest = q ++ r ∧
      l.1 = Z.of_nat (length q) ∧ length l.2 = MAX_ZEICHEN ∧
      sent fd h = q ∧ reading connfd h q ∧ printed Stdout h = [])
    (λ l _, Z.to_nat (Z.of_nat (length rest) - l.1))).
  2: { exists [], [], rest. by rewrite app_nil_r. }
  2: { simpl. lia. }
  intros [n b] s1 (h & q & r & Hh & Hrest & Hn & Hb & Hs & Hgq & Hpr). simpl in Hn, Hb.
  unfold recv_data_body. wp_step. wp_step.
  assert (Hgot : reading connfd (hist s1) (pre ++ q)).
  { destruct Hgq. rewrite Hh. by apply reading_app. }
  destruct (stream_piece data (pre ++ q) r (hist s1) (Z.of_nat MAX_ZEICHEN) a)
    as (d & r' & Hr & Hd & Hv & Hle & Hne); try done; [by rewrite Hdata, Hrest, <- app_assoc|].
  wp_if.
  - wp_step. rewrite blit_front by (rewrite Hd, Hb; lia). wp_step. wp_step.
    rewrite Hd, Hv, Nat2Z.id, bytes_of_app. wp_steps.
    pose proof (Hw (hist (after (Cread connfd (Z.of_nat MAX_ZEICHEN)) a s1)) d) as Hwr.
    rewrite <- Ha0 in Hwr.
    rewrite decide_False by (rewrite Hwr; auto).
    apply (f_equal length) in Hrest as Hlen. rewrite Hr, !length_app in Hlen.
    wp_step. rewrite Hadd by lia. wp_steps. simpl. split; [|lia].
    exists (h ++ [Sys (Cread connfd (Z.of_nat MAX_ZEICHEN)) a; Sys (Cwrite fd d) a0]), (q ++ d), r'.
    split_and!.
    + rewrite !hist_after, Hh. by rewrite <- !app_assoc.
    + by rewrite Hrest, Hr, <- app_assoc.
    + rewrite length_app. lia.
    + rewrite length_app, length_fmap, length_drop, Hb. lia.
    + rewrite sent_app, Hs. f_equal. unfold sent. simpl. rewrite decide_True by done.
      rewrite app_nil_r, take_ge; [done|lia].
    + apply reading_app; [done..|]. unfold got. simpl. rewrite decide_True by done.
      by rewrite Hd, app_nil_r.
    + by rewrite printed_app, Hpr.
  - wp_steps. rewrite Hv in Hif. destruct d; simpl in Hif; [|lia].
    destruct r as [|x r]; [|by destruct Hne]. rewrite app_nil_r in Hrest. subst q.
    destruct Hgq as [_ Hgq]. exists (h ++ [Sys (Cread connfd (Z.of_nat MAX_ZEICHEN)) a]), b.
    split_and!; hist_simpl; rewrite ?Hh, ?Hs, ?Hgq, ?Hpr, ?Hd, ?app_nil_r, <- ?app_assoc; try done.
    by rewrite Hv, Hn.
Qed.
End receive.

(** The path a server writes a file of the given name to. *)
Definition target (home name : list Z) : list Z := home ++ str "/tmp/" ++ name.

Lemma target_path_ok e path_file puffer home name s :
  getenv e (str "HOME") = Some home → nozero home → cstr puffer = Some name →
  (length (target home name) < length path_file)%nat →
  wp (target_path path_file puffer) e s (λ o s', s' = s ∧ ∃ p, o = Val p ∧
    length p = length path_file ∧ cstr p = Some (target home name)).
Proof.
  intros He Hh Hn Hlen. unfold target in *. rewrite !length_app in Hlen. unfold target_path.
  wp_step. wp_step. wp_step. rewrite He. wp_step.
  destruct (strcpy_Some path_file home) as (p1 & E1 & L1); [lia|].
  pose proof (strcpy_cstr _ _ _ Hh E1) as C1. wp_step. rewrite E1. wp_step.
  destruct (strcat_Some p1 home (str "/tmp/")) as (p2 & E2); [done|lia|].
  assert (nozero (str "/tmp/")) as Ht by by_compute.
  destruct (strcat_spec _ _ _ _ C1 Ht E2) as [C2 L2].
  wp_step. rewrite E2. wp_step. wp_step. rewrite Hn. wp_step.
  destruct (strcat_Some p2 (home ++ str "/tmp/") name) as (p3 & E3); [done|rewrite length_app; lia|].
  destruct (strcat_spec _ _ _ _ C2 (cstr_nozero _ _ Hn) E3) as [C3 L3].
  rewrite E3. wp_step. split; [done|]. exists p3. split; [done|]. split; [lia|].
  by rewrite C3, <- app_assoc.
Qed.

(** What has to hold of a name for a server to get to the [open] of its
    target, whose result is [fd]. *)
Record announced (e : env) (fd : Z) (home name : list Z) (fuel : nat) : Prop := {
  up_name : (LF ∉ name) ∧ nozero name;
  up_home : getenv e (str "HOME") = Some home ∧ nozero home;
  up_fits : (length (target home name) < MAX_ZEICHEN)%nat;
  up_open h : rv (kern e h (Copen (target home name) recv_flags 0x1A4)) = fd;
  up_fuel : (length name < fuel)%nat
}.
(** What has to hold of the contents for the server to store them. *)
Record storable (e : env) (fd : Z) (content : list Z) (fuel : nat) : Prop := {
  up_fd : 0 ≤ fd;
  up_write : WholeWrites e fd;
  up_fuel2 : (length content < fuel)%nat;
  up_size : Z.of_nat (length content) ≤ INT_MAX
}.

(** The name is received and the target opened. *)
Lemma recv_open_ok e connfd fd home name content fuel puffer path_file s :
  announced e fd home name fuel → Stream e connfd (name ++ LF :: content) →
  reading connfd (hist s) [] → length puffer = MAX_ZEICHEN → length path_file = MAX_ZEICHEN →
  wp (recv_open fuel connfd puffer path_file) e s (λ o s', ∃ h a p p', hist s' = hist s ++ h ∧
    o = Val (a, p, p') ∧ rv a = fd ∧ length p = MAX_ZEICHEN ∧ length p' = MAX_ZEICHEN ∧
    Sys (Copen (target home name) recv_flags 0x1A4) a ∈ h ∧
    reading connfd h (name ++ [LF]) ∧ sent fd h = [] ∧ cstr p = Some name).
Proof.
  intros [[Hlf Hnz] [He Hhz] Hfit Ho Hf1] Hst Hg Hb1 Hb2.
  assert (Hname : (length name < length puffer)%nat).
  { rewrite Hb1. unfold target in Hfit. rewrite !length_app in Hfit. lia. }
  unfold recv_open, log_name, log_target. wp_step.
  eapply wp_mono; [by apply (recv_name_loop e connfd (name ++ LF :: content) name fuel [] [] content puffer)|].
  intros o s1 (h1 & r' & Hh1 & Hrd & Hgot1 & -> & Hr'). simpl in *. wp_steps.
  rewrite cstr_prefix by done. wp_steps.
  eapply wp_mono; [eapply (target_path_ok e path_file _ home name); try done|].
  { by rewrite cstr_prefix. }
  { by rewrite Hb2. }
  intros o s2 (-> & p & -> & Hp & Cp). wp_steps. rewrite Cp. wp_steps.
  destruct (is_read_quiet connfd h1 Hrd Stdout fd) as [Q1 Q2].
  eexists _, a, _, p. split.
  { rewrite hist_after, !hist_log, Hh1, <- !app_assoc. reflexivity. }
  split_and!; [done|rewrite Ha; apply Ho| |congruence| | | |].
  - rewrite length_app, length_fmap. simpl. lia.
  - rewrite !elem_of_app, !list_elem_of_singleton. tauto.
  - repeat (apply reading_quiet; [|done|done]).
    split; [by eapply is_read_open|done].
  - hist_norm. done.
  - by apply cstr_prefix.
Qed.

(** The rest of the connection is copied to the file, and both are closed. *)
Lemma recv_store_ok e connfd fd name content fuel add puffer s :
  storable e fd content fuel → Stream e connfd (name ++ LF :: content) →
  reading connfd (hist s) (name ++ [LF]) → length puffer = MAX_ZEICHEN → add = iadd ∨ add = ladd →
  wp (recv_store fuel add connfd fd puffer) e s (λ o s', ∃ h puffer', hist s' = hist s ++ h ∧
    o = Val puffer' ∧ length puffer' = MAX_ZEICHEN ∧
    sent fd h = content ∧ got connfd h = content ∧
    (∃ a, Sys (Cclose fd) a ∈ h) ∧ (∃ a, Sys (Cclose connfd) a ∈ h)).
Proof.
  intros U Hst Hg Hb Hadd. unfold recv_store, log_done. wp_step. eapply wp_mono.
  - apply (recv_data_ok e connfd (name ++ LF :: content) (name ++ [LF]) content fd); try done.
    + apply U.
    + by rewrite <- app_assoc.
    + apply U.
    + intros x y Hx Hy Hxy. pose proof (up_size _ _ _ _ U).
      unfold INT_MAX in *. destruct Hadd as [-> | ->]; unfold iadd, ladd;
        (rewrite decide_True; [done|unfold INT_MIN, INT_MAX; lia]).
  - intros o s' (h & p & Hh & -> & ? & ? & ? & _). simpl. wp_steps. eexists _, p. split.
    { rewrite !hist_after, hist_log, Hh, <- !app_assoc. reflexivity. }
    split_and!; try (hist_norm; done).
    + exists a. rewrite !elem_of_app, !list_elem_of_singleton. tauto.
    + exists a0. rewrite !elem_of_app, !list_elem_of_singleton. tauto.
Qed.

(** The file is stored: opened under the target path (created or truncated),
    filled with the content, and both descriptors are closed. *)
Definition stored (connfd fd : Z) (home name content : list Z) (h : list event) : Prop :=
  (∃ a, Sys (Copen (target home name) recv_flags 0x1A4) a ∈ h) ∧ sent fd h = content ∧
  got connfd h = name ++ LF :: content ∧ (∃ a, Sys (Cclose fd) a ∈ h) ∧ (∃ a, Sys (Cclose connfd) a ∈ h).

Section stored.
Context (e : env) (connfd fd : Z) (home name content : list Z) (fuel : nat).
Context (HA : announced e fd home name fuel) (HU : storable e fd content fuel).
Context (Hst : Stream e connfd (name ++ LF :: content)).

Lemma stored_intro h0 h1 h2 a h3 :
  Sys (Copen (target home name) recv_flags 0x1A4) a ∈ h1 → got connfd h1 = name ++ [LF] →
  sent fd h1 = [] → sent fd h2 = content → got connfd h2 = content →
  (∃ a, Sys (Cclose fd) a ∈ h2) → (∃ a, Sys (Cclose connfd) a ∈ h2) →
  (∀ f, sent f h0 = [] ∧ got f h0 = []) → (∀ f, sent f h3 = [] ∧ got f h3 = []) →
  stored connfd fd home name content (h0 ++ h1 ++ h2 ++ h3).
Proof.
  intros Ho Hg1 Hs1 Hs2 Hg2 [a1 H1] [a2 H2] H0 H3.
  destruct (H0 fd) as [E1 _], (H0 connfd) as [_ E2], (H3 fd) as [E3 _], (H3 connfd) as [_ E4].
  unfold stored. split_and!.
  - exists a. rewrite !elem_of_app. tauto.
  - by rewrite !sent_app, E1, Hs1, Hs2, E3, app_nil_r.
  - by rewrite !got_app, E2, Hg1, Hg2, E4, app_nil_r, <- app_assoc.
  - exists a1. rewrite !elem_of_app. tauto.
  - exists a2. rewrite !elem_of_app. tauto.
Qed.

Lemma srv2_handle_ok bufs s :
  reading connfd (hist s) [] → length bufs.1 = MAX_ZEICHEN → length bufs.2 = MAX_ZEICHEN →
  wp (srv2_handle fuel connfd bufs) e s (λ o s', ∃ h bufs', hist s' = hist s ++ h ∧ o = Val bufs' ∧
    length bufs'.1 = MAX_ZEICHEN ∧ length bufs'.2 = MAX_ZEICHEN ∧ stored connfd fd home name content h).
Proof.
  intros Hg Hb1 Hb2. destruct bufs as [puffer path_file]. simpl in Hb1, Hb2.
  pose proof (up_fd _ _ _ _ HU) as Hfd. unfold srv2_handle. wp_steps.
  eapply wp_mono; [eapply (recv_open_ok e connfd fd home name content); try done; by reading_tac|].
  intros o s1 (h1 & a & p & p' & Hh1 & -> & Ha & Hp & Hp' & Hop & Hg1 & Hs1 & _). simpl.
  rewrite Ha, decide_False by lia. wp_step.
  eapply wp_mono; [eapply (recv_store_ok e connfd fd name content); try done|]; auto.
  { rewrite Hh1. apply reading_extend; [by reading_tac|done]. }
  intros o s2 (h2 & p2 & Hh2 & -> & Hp2 & Hs2 & Hg2 & Hc1 & Hc2). simpl. wp_steps.
  eexists _, _. split.
  { rewrite Hh2, Hh1, hist_log, <- !app_assoc. reflexivity. }
  split_and!; [reflexivity|done..|].
  rewrite <- (app_nil_r h2). destruct Hg1. by eapply stored_intro.
Qed.

(** The child of [pserver.c] does the same, closes its copy of the listening
    socket first, and returns. *)
Lemma pserver_child_ok sockfd bufs s : sockfd ≠ connfd →
  reading connfd (hist s) [] → length bufs.1 = MAX_ZEICHEN → length bufs.2 = MAX_ZEICHEN →
  wp (pserver_child fuel sockfd connfd bufs) e s (λ o s', ∃ a h bufs',
    hist s' = hist s ++ Sys (Cclose sockfd) a :: h ∧ o = Val (true, bufs') ∧
    stored connfd fd home name content h).
Proof.
  intros Hne Hg Hb1 Hb2. destruct bufs as [puffer path_file]. simpl in Hb1, Hb2.
  pose proof (up_fd _ _ _ _ HU) as Hfd. unfold pserver_child. wp_steps.
  eapply wp_mono; [eapply (recv_open_ok e connfd fd home name content); try done|].
  { rewrite hist_after. apply reading_quiet; [done| |done]. rewrite closed_1. by apply bool_decide_false. }
  intros o s1 (h1 & a1 & p & p' & Hh1 & -> & Ha1 & Hp & Hp' & Hop & Hg1 & Hs1 & _). simpl.
  rewrite Ha1, decide_False by lia. wp_step.
  eapply wp_mono; [eapply (recv_store_ok e connfd fd name content); try done|]; auto.
  { rewrite Hh1. apply reading_extend; [|done]. rewrite hist_after.
    apply reading_quiet; [done| |done]. rewrite closed_1. by apply bool_decide_false. }
  intros o s2 (h2 & p2 & Hh2 & -> & Hp2 & Hs2 & Hg2 & Hc1 & Hc2). simpl. wp_steps.
  exists a, (h1 ++ h2), (p2, p'). split_and!; [|done|].
  { by rewrite Hh2, Hh1, hist_after, <- !app_assoc. }
  rewrite <- (app_nil_r h2). destruct Hg1. by eapply (stored_intro []).
Qed.
End stored.

(** A name that does not end within the buffer is written beyond it. *)
Lemma recv_name_overflow e connfd data : ∀ r fuel done pre name c rest s,
  Stream e connfd data → data = pre ++ name ++ c :: rest → LF ∉ name → length r = length name →
  reading connfd (hist s) pre → (length r < fuel)%nat →
  wp (loop fuel (recv_name_body connfd) (length done, (Some <$> done) ++ r)) e s (λ o _, o = Undef).
Proof.
  intros r. induction r as [|x r IH]; intros fuel done pre name c rest s Hst Hdata Hlf Hr Hg Hf;
    (destruct fuel as [|fuel]; [lia|]); (destruct name as [|c' name]; simpl in Hr; try discriminate);
    simpl in Hdata; apply wp_loop_S; unfold recv_name_body; wp_step; wp_step;
    destruct (stream_next e connfd _ _ _ _ _ _ Hst Hdata Hg Ha) as [Hd Hv];
    rewrite Hv, decide_True, Hd by lia; wp_step; wp_step; wp_step.
  - rewrite bset_None by (rewrite length_app, length_fmap; simpl; lia). by wp_step.
  - apply not_elem_of_cons in Hlf as [Hc Hlf].
    rewrite (bset_snoc done _ r x) by done. wp_steps. rewrite decide_False by congruence. wp_steps.
    replace (S (length done)) with (length (done ++ [c'])) by (rewrite length_app; simpl; lia).
    simpl in Hf.
    apply (IH fuel (done ++ [c']) (pre ++ [c']) name c rest); try done; try lia.
    + by rewrite <- app_assoc.
    + rewrite hist_after. apply reading_app; [done..|]. hist_norm. done.
Qed.
Lemma recv_open_overflow e connfd fuel name c rest puffer path_file s :
  Stream e connfd (name ++ c :: rest) → LF ∉ name → length puffer = length name →
  (length puffer < fuel)%nat → reading connfd (hist s) [] →
  wp (recv_open fuel connfd puffer path_file) e s (λ o _, o = Undef).
Proof.
  intros. unfold recv_open. wp_step. eapply wp_mono.
  - by apply (recv_name_overflow e connfd (name ++ c :: rest) puffer fuel [] [] name c rest).
  - by intros o s' ->.
Qed.

(** ** Sending: proofs *)
Lemma basename_alt p : basename p = reverse (span_until (λ x, bool_decide (x = SLASH)) (reverse p)).1.
Proof.
  unfold basename, strrchr. pose proof (span_until_app (λ x, bool_decide (x = SLASH)) (reverse p)) as Happ.
  destruct (span_until _ (reverse p)) as [a [|x b]]; simpl in *; [|done].
  rewrite app_nil_r in Happ. by rewrite Happ, reverse_involutive.
Qed.
Lemma basename_snoc p c : c ≠ SLASH → basename (p ++ [c]) = basename p ++ [c].
Proof.
  intros Hc. rewrite !basename_alt, reverse_snoc. simpl. rewrite bool_decide_false by done.
  destruct (span_until _ (reverse p)) as [a b]. simpl. apply reverse_cons.
Qed.
Lemma basename_sublist p x : x ∈ basename p → x ∈ p.
Proof.
  rewrite basename_alt, elem_of_reverse. intros H. apply elem_of_reverse.
  rewrite <- (span_until_app (λ x, bool_decide (x = SLASH)) (reverse p)). apply elem_of_app. by left.
Qed.

Section send.
Context (e : env).

(** The sending loop on a file shorter than the buffer. *)
Lemma send_data_ok fd sockfd content fuel puffer s :
  Stream e fd content → WholeWrites e sockfd → reading fd (hist s) [] →
  length puffer = MAX_ZEICHEN → (length content < MAX_ZEICHEN)%nat → (length content < fuel)%nat →
  wp (loop fuel (send_data_body fd sockfd) puffer) e s (λ o s', ∃ h puffer', hist s' = hist s ++ h ∧
    o = Val (0, puffer') ∧ length puffer' = MAX_ZEICHEN ∧ sent sockfd h = content).
Proof.
  intros Hst Hw Hg Hp Hc Hf.
  eapply (wp_loop_measure e _ (λ b s', ∃ h q r, hist s' = hist s ++ h ∧ content = q ++ r ∧
      length b = MAX_ZEICHEN ∧ sent sockfd h = q ∧ reading fd h q)
    (λ _ s', length content - length (got fd (hist s')))%nat).
  2: { exists [], [], content. by rewrite app_nil_r. }
  2: { destruct Hg as [_ ->]. simpl. lia. }
  intros b s1 (h & q & r & Hh & Hcont & Hb & Hs & Hgq).
  unfold send_data_body. wp_step. wp_step.
  assert (Hgot : reading fd (hist s1) q).
  { destruct Hgq. rewrite Hh. by apply (reading_app fd _ _ []). }
  destruct (stream_piece e fd content q r (hist s1) (Z.of_nat MAX_ZEICHEN) a)
    as (d & r' & Hr & Hd & Hv & Hle & Hne); try done.
  apply (f_equal length) in Hcont as Hlen. rewrite Hr, !length_app in Hlen.
  wp_if.
  - wp_step. rewrite blit_front by (rewrite Hd, Hb; lia). wp_step. wp_step.
    rewrite bset_Some by (rewrite length_app, length_fmap, length_drop, Hd, Hb; lia). wp_step. wp_step.
    rewrite Hv, Nat2Z.id, Hd, insert_app_r_alt by (rewrite length_fmap; lia). rewrite bytes_of_app.
    wp_steps.
    pose proof (Hw (hist (after (Cread fd (Z.of_nat MAX_ZEICHEN)) a s1)) d) as Hwr.
    rewrite <- Ha0 in Hwr. rewrite Hwr, decide_False by auto. wp_steps.
    assert (length d > 0)%nat by lia.
    split; [|rewrite !hist_after; hist_norm; rewrite (proj2 Hgot), Hd, !length_app; lia].
    exists (h ++ [Sys (Cread fd (Z.of_nat MAX_ZEICHEN)) a; Sys (Cwrite sockfd d) a0]), (q ++ d), r'.
    split_and!.
    + rewrite !hist_after, Hh. by rewrite <- !app_assoc.
    + by rewrite Hcont, Hr, <- app_assoc.
    + rewrite length_app, length_fmap, length_insert, length_drop, Hb. lia.
    + rewrite sent_app, Hs. f_equal. unfold sent. simpl. rewrite decide_True by done.
      rewrite app_nil_r, take_ge; [done|lia].
    + apply reading_app; [done..|]. unfold got. simpl. rewrite decide_True by done.
      by rewrite Hd, app_nil_r.
  - wp_steps. rewrite Hv in Hif. destruct d; simpl in Hif; [|lia].
    destruct r as [|x r]; [|by destruct Hne]. rewrite app_nil_r in Hcont. subst q.
    exists (h ++ [Sys (Cread fd (Z.of_nat MAX_ZEICHEN)) a]), b.
    split_and!; hist_norm; rewrite ?Hh, ?Hs; rewrite ?app_nil_r, <- ?app_assoc; try done.
    by rewrite Hv.
Qed.

(** What has to hold for [client2_file] to send a file. *)
Record sendable (adr fd sockfd : Z) (file content : list Z) (fuel : nat) : Prop := {
  sd_socket : ∀ h, rv (kern e h (Csocket AF_INET SOCK_STREAM 0)) = sockfd;
  sd_connect : ∀ h, rv (kern e h (Cconnect sockfd adr (htons PORT_NUMMER))) = 0;
  sd_open : ∀ h, rv (kern e h (Copen file O_RDONLY 0)) = fd;
  sd_fds : 0 ≤ sockfd ∧ 0 ≤ fd;
  sd_stream : Stream e fd content;
  sd_write : WholeWrites e sockfd;
  sd_name : nozero file ∧ (length file + 1 < MAX_ZEICHEN)%nat;
  sd_size : (length content < MAX_ZEICHEN)%nat ∧ (length content < fuel)%nat
}.

Lemma client2_file_ok adr fd sockfd file content fuel puffer s :
  sendable adr fd sockfd file content fuel → reading fd (hist s) [] → length puffer = MAX_ZEICHEN →
  wp (client2_file fuel adr file puffer) e s (λ o s', ∃ h puffer', hist s' = hist s ++ h ∧
    o = Val puffer' ∧ length puffer' = MAX_ZEICHEN ∧
    sent sockfd h = basename file ++ LF :: content).
Proof.
  intros [Hso Hco Hop [Hp1 Hp2] Hst Hw [Hnz Hnl] [Hs1 Hs2]] Hg Hb. unfold client2_file.
  wp_step. wp_step. assert (rv a = sockfd) as Hrv by (rewrite Ha; apply Hso).
  rewrite Hrv, decide_False by lia. wp_step. wp_step.
  assert (rv a0 = 0) as Hrv0 by (rewrite Ha0; apply Hco). rewrite decide_False by auto. wp_step. wp_step.
  assert (rv a1 = fd) as Hrv1 by (rewrite Ha1; apply Hop). rewrite Hrv1, decide_False by lia.
  destruct (strcpy_Some puffer file) as (b1 & E1 & L1); [lia|].
  pose proof (strcpy_cstr _ _ _ Hnz E1) as C1.
  destruct (strcat_Some b1 file [LF]) as (b2 & E2); [done|simpl; lia|].
  assert (nozero [LF]) as Hn by by_compute.
  destruct (strcat_spec _ _ _ _ C1 Hn E2) as [C2 L2].
  wp_step. rewrite E1. wp_step. wp_step. rewrite E2. wp_step. wp_step. rewrite C2. wp_step.
  rewrite basename_snoc by done. wp_step. wp_step.
  set (s1 := after (Copen _ _ _) _ _) in *.
  pose proof (Hw (hist s1) (basename file ++ [LF])) as Hwr. rewrite <- Ha2 in Hwr.
  rewrite decide_False by auto. wp_step.
  eapply wp_mono; [apply (send_data_ok fd sockfd content); try done|].
  { subst s1. by reading_tac. }
  { congruence. }
  intros o s2 (h & b3 & Hh & -> & Hb3 & Hs). simpl. wp_steps.
  eexists _, b3. split_and!; [|done..|].
  { rewrite !hist_after, Hh. subst s1. rewrite !hist_after, <- !app_assoc. reflexivity. }
  hist_norm. rewrite Hwr, Nat2Z.id, take_ge by done. by rewrite Hs, <- app_assoc.
Qed.
End send.

(** ** The service *)

(** C1. An upload arrives: when [client2.c] sends a file of less than
    [MAX_ZEICHEN] bytes, what it writes on the connection is the base name of
    the path, a newline and the content; and [server2.c], fed exactly these
    bytes in pieces of any size, creates or truncates [$HOME/tmp/<base name>],
    writes the content to it, closes both descriptors and goes on serving. *)
Theorem upload_roundtrip e1 e2 adr fd sockfd file content fuel puffer s1 connfd fd2 home bufs s2 :
  sendable e1 adr fd sockfd file content fuel → reading fd (hist s1) [] → sent sockfd (hist s1) = [] →
  length puffer = MAX_ZEICHEN → LF ∉ file →
  announced e2 fd2 home (basename file) fuel → storable e2 fd2 content fuel →
  reading connfd (hist s2) [] → length bufs.1 = MAX_ZEICHEN → length bufs.2 = MAX_ZEICHEN →
  let '(o1, s1') := client2_file fuel adr file puffer e1 s1 in
  (∃ puffer', o1 = Val puffer') ∧
  (Stream e2 connfd (sent sockfd (hist s1')) →
   wp (srv2_handle fuel connfd bufs) e2 s2 (λ o s', ∃ h bufs', hist s' = hist s2 ++ h ∧
     o = Val bufs' ∧ stored connfd fd2 home (basename file) content h)).
Proof.
  intros Hsd Hg1 Hs1 Hp Hlf HA HU Hg2 Hb1 Hb2.
  pose proof (client2_file_ok e1 adr fd sockfd file content fuel puffer s1 Hsd Hg1 Hp) as Hc.
  unfold wp in Hc. destruct (client2_file fuel adr file puffer e1 s1) as [o1 s1'].
  simpl in Hc. destruct Hc as (h1 & p & Hh1 & -> & _ & Hsent). simpl in *. split; [by exists p|].
  rewrite Hh1, sent_app, Hs1, Hsent. simpl. intros Hst.
  eapply wp_mono; [eapply (srv2_handle_ok e2 connfd fd2 home (basename file) content fuel); try done|].
  intros o s' (h & b & ? & ? & _ & _ & ?). by exists h, b.
Qed.

(** A name that is not ended by a newline within the [MAX_ZEICHEN]
    characters of the buffer makes each of the three servers write beyond its
    buffer: the loop that reads the name has no bound. *)
Theorem long_name_overflows e connfd name c rest fuel bufs sockfd s :
  Stream e connfd (name ++ c :: rest) → LF ∉ name → length name = MAX_ZEICHEN →
  (MAX_ZEICHEN < fuel)%nat → reading connfd (hist s) [] → length bufs.1 = MAX_ZEICHEN →
  sockfd ≠ connfd →
  wp (srv2_handle fuel connfd bufs) e s (λ o _, o = Undef) ∧
  wp (pserver_child fuel sockfd connfd bufs) e s (λ o _, o = Undef) ∧
  wp (copy fuel connfd) e s (λ o _, o = Undef).
Proof.
  intros Hst Hlf Hn Hf Hg Hb Hne. destruct bufs as [puffer path_file]. simpl in Hb.
  split_and!; unfold srv2_handle, pserver_child, copy; wp_steps;
    (eapply wp_mono; [eapply (recv_open_overflow e connfd fuel name c rest); try done;
       try (by reading_tac); rewrite ?length_uninit; try lia|]);
    try (by intros o s' ->).
  rewrite hist_after. apply reading_quiet; [done| |done]. rewrite closed_1. by apply bool_decide_false.
Qed.

(** A child of [pserver.c] that has stored its file does not end: it goes
    back to the accept loop of [main], whose socket it has closed, and leaves
    through the error exit of [accept] with status 1. *)
Theorem pserver_child_exit e sockfd connfd fd home name content fuel turns bufs s :
  announced e fd home name fuel → storable e fd content fuel →
  Stream e connfd (name ++ LF :: content) → reading connfd (hist s) [] →
  length bufs.1 = MAX_ZEICHEN → length bufs.2 = MAX_ZEICHEN → 0 ≤ connfd → sockfd ≠ connfd →
  closed sockfd (hist s) = false → (∀ h, rv (kern e h Cfork) = 0) →
  (∀ h, kern e h (Caccept sockfd) = if closed sockfd h then answer_err EBADF else answer connfd) →
  wp (loop (S (S turns)) (pserver_body fuel sockfd) bufs) e s (λ o s', ∃ h0 h1 h2,
    hist s' = hist s ++ h0 ++ h1 ++ h2 ∧ stored connfd fd home name content h1 ∧
    o = Exit EXIT_FAILURE).
Proof.
  intros HA HU Hst Hg Hb1 Hb2 Hc Hne Hcl Hfork Hacc.
  apply wp_loop_S. unfold pserver_body at 1. wp_step. wp_step.
  rewrite Hacc, Hcl in Ha. assert (rv a = connfd) as Hrv by (by rewrite Ha). clear Ha.
  rewrite Hrv, decide_False by lia. wp_steps.
  rewrite Ha, Hfork, decide_True by done. wp_step.
  eapply wp_mono; [eapply (pserver_child_ok e connfd fd home name content); try done; by reading_tac|].
  intros o s1 (a1 & h & bufs' & Hh & -> & Hstored). simpl. wp_steps.
  apply wp_loop_S. unfold pserver_body. wp_step. wp_step.
  assert (closed sockfd (hist (after (Cclose connfd) a2 s1)) = true) as Hcl'.
  { rewrite hist_after, Hh. unfold closed. rewrite !existsb_app. simpl.
    rewrite bool_decide_true by done. simpl. by rewrite orb_true_r. }
  rewrite Hacc, Hcl' in Ha1. rewrite Ha1, decide_True by (simpl; lia). wp_steps.
  rewrite errno_after by done. simpl. unfold fail_errno. wp_steps.
  eexists ([_; _; _; _]), h, _. split_and!; [|done..].
  rewrite !hist_log, !hist_after, Hh, hist_after, hist_log, hist_after, <- !app_assoc. reflexivity.
Qed.

(** A thread of [thserver.c] whose target cannot be opened closes the
    connection, goes on, reads from the closed descriptor, and takes the whole
    server process down with status 1: the [return] after the report is
    missing. *)
Theorem copy_open_failure_ends_server e connfd home name content fuel s :
  announced e (-1) home name fuel → Stream e connfd (name ++ LF :: content) →
  reading connfd (hist s) [] → closed connfd (hist s) = false →
  (∀ h n, closed connfd h = true → kern e h (Cread connfd n) = answer_err EBADF) →
  wp (threading_socket fuel connfd) e s (λ o s', o = Exit EXIT_FAILURE ∧
    ∃ h, hist s' = hist s ++ h ∧ closed connfd h = true).
Proof.
  intros HA Hst Hg Hcl Hbad. unfold threading_socket, copy. wp_steps.
  eapply wp_mono.
  { eapply (recv_open_ok e connfd (-1) home name content); try done; by reading_tac. }
  intros o s1 (h1 & a1 & p & p' & Hh1 & -> & Ha1 & Hp & _ & _ & _ & _ & Hname). simpl.
  rewrite Ha1. wp_step. rewrite decide_True by lia. unfold log_no_open. wp_step. wp_step. rewrite Hname.
  wp_steps. unfold recv_store, recv_data. wp_step.
  destruct fuel as [|fuel]; [destruct HA; lia|].
  apply wp_loop_S. unfold recv_data_body. wp_step. wp_step.
  match goal with |- context [after (Cclose connfd) ?a ?x] => set (s2 := after (Cclose connfd) a x) in * end.
  assert (closed connfd (hist s2) = true) as Hcl2.
  { subst s2. rewrite hist_after. unfold closed. rewrite existsb_app. simpl.
    rewrite bool_decide_true by done. simpl. by rewrite orb_true_r. }
  rewrite Hbad in Ha2 by done. rewrite decide_False by (rewrite Ha2; simpl; lia).
  wp_steps. rewrite Ha2. simpl. wp_steps. split; [done|].
  eexists. split.
  { rewrite hist_log, hist_after. subst s2. rewrite hist_after, hist_log, Hh1, hist_log, hist_after.
    rewrite <- !app_assoc. reflexivity. }
  unfold closed. rewrite !existsb_app. simpl. rewrite bool_decide_true by done. simpl.
  by rewrite ?orb_true_r.
Qed.

(** [client2.c] sending a file of [MAX_ZEICHEN] bytes or more writes
    beyond its buffer: a full [read] of [sizeof(puffer)] bytes is followed by
    [puffer[n] = 0] with [n = sizeof(puffer)]. *)
Theorem client2_full_read_overflows e fd sockfd fuel puffer s :
  (0 < fuel)%nat → length puffer = MAX_ZEICHEN →
  (let a := kern e (hist s) (Cread fd (Z.of_nat MAX_ZEICHEN)) in
   rv a = Z.of_nat MAX_ZEICHEN ∧ length (rdata a) = MAX_ZEICHEN) →
  wp (loop fuel (send_data_body fd sockfd) puffer) e s (λ o _, o = Undef).
Proof.
  intros Hf Hb [Hv Hl]. destruct fuel as [|fuel]; [lia|].
  apply wp_loop_S. unfold send_data_body. wp_step. wp_step. rewrite <- Ha in Hv, Hl.
  rewrite decide_True by (rewrite Hv; unfold MAX_ZEICHEN; lia).
  wp_step. rewrite blit_front by (rewrite Hl, Hb; lia). wp_step. wp_step.
  rewrite bset_None; [by wp_step|].
  rewrite length_app, length_fmap, length_drop, Hl, Hv, Hb. lia.
Qed.

(** *** Concrete runs *)

(** One connection on descriptor 4, the listening socket or the client's
    socket on 3, files on 5; [ok] tells whether the file can be opened. *)
Definition demo_other (ok : bool) (h : list event) (c : call) : ans :=
  match c with
  | Csocket _ _ _ => answer 3
  | Cconnect _ _ _ => answer 0
  | Copen _ _ _ => if ok then answer 5 else answer_err 13
  | Caccept fd => if closed fd h then answer_err EBADF else answer 4
  | _ => answer 0
  end.
Definition demo_env (conn file : list Z) : env :=
  whole_env (λ fd, if decide (fd = 4) then conn else file) (demo_other true) (str "/home/u").
Definition demo_buf : buf := uninit MAX_ZEICHEN.

Lemma demo_announced conn file name fuel :
  LF ∉ name → nozero name → (length name < 100)%nat → (length name < fuel)%nat →
  announced (demo_env conn file) 5 (str "/home/u") name fuel.
Proof.
  intros Hlf Hnz Hl Hf. split; try done.
  - split; [reflexivity|by_compute].
  - unfold target, MAX_ZEICHEN. rewrite !length_app. vm_compute (length (str _)). lia.
Qed.
Lemma demo_storable conn file content fuel :
  (length content < fuel)%nat → (length content < 1000)%nat →
  storable (demo_env conn file) 5 content fuel.
Proof. intros. split; try done. unfold INT_MAX. lia. Qed.
Lemma demo_file_stream conn file : Stream (demo_env conn file) 5 file.
Proof. exact (whole_stream (λ fd, if decide (fd = 4) then conn else file) (demo_other true) _ 5). Qed.
Lemma demo_conn_stream conn file : Stream (demo_env conn file) 4 conn.
Proof. exact (whole_stream (λ fd, if decide (fd = 4) then conn else file) (demo_other true) _ 4). Qed.
Lemma demo_sendable adr path file fuel :
  nozero path → (length path < 100)%nat → (length file < fuel)%nat → (length file < 1000)%nat →
  sendable (demo_env [] file) adr 5 3 path file fuel.
Proof.
  intros. split; try apply demo_file_stream; try done; unfold MAX_ZEICHEN; (split; [done || lia|lia]).
Qed.

Lemma upload_roundtrip_witness :
  let file := str "hello" in
  let wire := str "a.txt" ++ LF :: file in
  let '(o1, s1') := client2_file 100 0 (str "dir/a.txt") demo_buf (demo_env [] file) (init tt []) in
  (∃ puffer', o1 = Val puffer') ∧
  (Stream (demo_env wire []) 4 (sent 3 (hist s1')) →
   wp (srv2_handle 100 4 (demo_buf, demo_buf)) (demo_env wire []) (init tt []) (λ o s', ∃ h bufs',
     hist s' = hist (init tt []) ++ h ∧ o = Val bufs' ∧
     stored 4 5 (str "/home/u") (basename (str "dir/a.txt")) file h)).
Proof.
  apply (upload_roundtrip (demo_env [] (str "hello")) (demo_env (str "a.txt" ++ LF :: str "hello") [])
    0 5 3 (str "dir/a.txt") (str "hello") 100 demo_buf (init tt []) 4 5 (str "/home/u") (demo_buf, demo_buf)
    (init tt [])); try done.
  - apply demo_sendable; [by_compute|vm_compute; lia..].
  - by_compute.
  - apply demo_announced; [by_compute|by_compute|vm_compute; lia..].
  - apply demo_storable; vm_compute; lia.
Defined.

Lemma long_name_overflows_witness :
  let conn := replicate 1100 65 in
  wp (srv2_handle 1100 4 (demo_buf, demo_buf)) (demo_env conn []) (init tt []) (λ o _, o = Undef) ∧
  wp (pserver_child 1100 3 4 (demo_buf, demo_buf)) (demo_env conn []) (init tt []) (λ o _, o = Undef) ∧
  wp (copy 1100 4) (demo_env conn []) (init tt []) (λ o _, o = Undef).
Proof.
  apply (long_name_overflows _ 4 (replicate 1024 65) 65 (replicate 75 65)); try done.
  - apply demo_conn_stream.
  - by_compute.
  - unfold MAX_ZEICHEN. lia.
Defined.

Lemma pserver_child_exit_witness :
  let conn := str "a" ++ LF :: str "hello" in
  wp (loop 3 (pserver_body 100 3) (demo_buf, demo_buf)) (demo_env conn []) (init tt []) (λ o s', ∃ h0 h1 h2,
    hist s' = hist (init tt []) ++ h0 ++ h1 ++ h2 ∧
    stored 4 5 (str "/home/u") (str "a") (str "hello") h1 ∧ o = Exit EXIT_FAILURE).
Proof.
  apply (pserver_child_exit _ 3 4 5 (str "/home/u") (str "a") (str "hello") 100 1); try done.
  - apply demo_announced; [by_compute|by_compute|vm_compute; lia..].
  - apply demo_storable; vm_compute; lia.
  - apply demo_conn_stream.
Defined.

(** Descriptor 4 delivers "a", a newline and "hello" until it is closed; no
    file can be opened. *)
Definition bad_kern (h : list event) (c : call) : ans :=
  match c with
  | Cread fd n => if closed fd h then answer_err EBADF else serve (λ _, str "a" ++ LF :: str "hello") h fd n
  | Copen _ _ _ => answer_err 13
  | _ => answer 0
  end.
Definition bad_env : env := Env bad_kern (λ _, []) (λ _, Some (str "/home/u")) (λ _, None) (λ _, []).
Lemma bad_stream fd : Stream bad_env fd (str "a" ++ LF :: str "hello").
Proof.
  intros h n a rest Hn Hc. subst a rest. simpl kern. unfold bad_kern. rewrite Hc.
  pose proof (whole_stream (λ _, str "a" ++ LF :: str "hello") (λ _ _, answer 0) [] fd h n Hn Hc) as Hs.
  exact Hs.
Qed.

Lemma copy_open_failure_witness :
  wp (threading_socket 100 4) bad_env (init tt []) (λ o s', o = Exit EXIT_FAILURE ∧
    ∃ h, hist s' = hist (init tt []) ++ h ∧ closed 4 h = true).
Proof.
  apply (copy_open_failure_ends_server _ 4 (str "/home/u") (str "a") (str "hello")); try done.
  - split; try done; [split; by_compute|split; [reflexivity|by_compute]|by_compute|vm_compute; lia].
  - apply bad_stream.
  - intros h n Hc. simpl. unfold bad_kern. by rewrite Hc.
Defined.

Lemma client2_full_read_witness :
  wp (loop 5 (send_data_body 5 3) demo_buf) (demo_env [] (replicate 1024 65)) (init tt [])
    (λ o _, o = Undef).
Proof. apply client2_full_read_overflows; [lia|reflexivity|split; vm_compute; reflexivity]. Defined.
