(* ===== verification/HttpServer.v ===== *)
(** * The web server (11_Network/select/http_server.c)

    A child per connection reads requests line by line, splits them with
    [GetToken], and answers [GET] with the file of that name or an error page.
    Memory is modelled: the tokens are written into the callers' arrays, and
    an access outside of an array is undefined behaviour. *)
From S2P Require Import Prelude CLib Machine Kernels FileTransfer.

Module Http.
Definition SERVER_PORT : Z := 2001.
Definition BUFFER_SIZE : Z := 2048.
Definition CRLF : list Z := [CR; LF].

(** ** GetToken *)

(** The characters that separate tokens; NUL is one of them. *)
Definition is_sep (delim c : Z) : bool :=
  bool_decide (c = delim) || bool_decide (c = SPC) || bool_decide (c = 0) ||
  bool_decide (c = TAB) || bool_decide (c = CR) || bool_decide (c = LF).
(** The first [while] loop; the argument and the result are the part of the
    array from index [i] on.  No result: the array was left. *)
Fixpoint skip_sep (delim : Z) (b : buf) : option buf :=
  match b with
  | Some c :: r => if is_sep delim c then skip_sep delim r else Some b
  | _ => None
  end.
(** The second [while] loop: [inl] is the [return -1]. *)
Fixpoint copy_tok (delim toklen : Z) (b token : buf) (len : Z) : option (buf + Z * buf * buf) :=
  match b with
  | Some c :: r =>
      if is_sep delim c then Some (inr (len, token, b))
      else t ← bset token len c;
           if decide (len + 1 > toklen - 1) then Some (inl t) else copy_tok delim toklen r t (len + 1)
  | _ => None
  end.
(** The [for] loop, with [n] turns left. *)
Fixpoint tok_loop (delim toklen : Z) (n : nat) (b token : buf) (len : Z) : option (Z * buf) :=
  match n with
  | O => Some (len, token)
  | S n =>
      t ← bset token 0 0;
      b ← skip_sep delim b;
      r ← copy_tok delim toklen b t 0;
      match r with
      | inl t => Some (-1, t)
      | inr (len, t, b) => t ← bset t len 0; tok_loop delim toklen n b t len
      end
  end.
(** The result and the token array afterwards.  (With [n = 0] the code
    returns an uninitialised length; it is never called so.) *)
Definition GetToken (b : buf) (n : nat) (token : buf) (toklen delim : Z) : option (Z * buf) :=
  match n with O => None | _ => tok_loop delim toklen n b token 0 end.

(** [strcmp(b, s) == 0]: the comparison stops at the first difference. *)
Fixpoint strcmp0 (b : buf) (s : list Z) : option bool :=
  match b, s with
  | Some c :: b, x :: s => if decide (c = x) then strcmp0 b s else Some false
  | Some c :: _, [] => Some (bool_decide (c = 0))
  | _, _ => None
  end.

(** ** Sending *)
Definition SendBlock (fuel : nat) (soc : Z) (b : buf) (size : Z) : M unit Z :=
  loop fuel (λ '(size, r),
    if decide (size > 0) then
      d ← mem (bytes_of r (Z.to_nat size));
      len ← sys (Csend soc d);
      if decide (rv len = -1) then mret (inr (-1))
      else mret (inl (size - rv len, drop (Z.to_nat (rv len)) r))
    else mret (inr 0)) (size, b).
(** [SendBuf] sends a string; [r] is the part still to be sent. *)
Definition SendBuf (fuel : nat) (soc : Z) (s : list Z) : M unit Z :=
  loop fuel (λ '(rlen, r),
    if decide (rlen > 0) then
      len ← sys (Csend soc r);
      if decide (rv len = -1) then mret (inr (-1))
      else mret (inl (rlen - rv len, drop (Z.to_nat (rv len)) r))
    else mret (inr 0)) (Z.of_nat (length s), s).

(** [strftime] with the format of the program on [gmtime(&t)]. *)
Definition weekday (i : Z) : list Z :=
  str match i with 0 => "Sun" | 1 => "Mon" | 2 => "Tue" | 3 => "Wed" | 4 => "Thu" | 5 => "Fri" | _ => "Sat" end.
Definition month (i : Z) : list Z :=
  str match i with 1 => "Jan" | 2 => "Feb" | 3 => "Mar" | 4 => "Apr" | 5 => "May" | 6 => "Jun"
      | 7 => "Jul" | 8 => "Aug" | 9 => "Sep" | 10 => "Oct" | 11 => "Nov" | _ => "Dec" end.
Definition two (n : Z) : list Z := if decide (n < 10) then str "0" ++ dec n else dec n.
(** Year, month and day of a number of days since 1970-01-01. *)
Definition civil (days : Z) : Z * Z * Z :=
  let z := days + 719468 in
  let doe := z mod 146097 in
  let yoe := (doe - doe / 1460 + doe / 36524 - doe / 146096) / 365 in
  let doy := doe - (365 * yoe + yoe / 4 - yoe / 100) in
  let mp := (5 * doy + 2) / 153 in
  let m := if decide (mp < 10) then mp + 3 else mp - 9 in
  (yoe + z / 146097 * 400 + (if decide (m ≤ 2) then 1 else 0), m, doy - (153 * mp + 2) / 5 + 1).
Definition http_date (t : Z) : list Z :=
  let days := t / 86400 in let secs := t mod 86400 in
  let '(y, m, d) := civil days in
  weekday ((days + 4) mod 7) ++ str ", " ++ two d ++ str " " ++ month m ++ str " " ++ dec y ++ str " " ++
  two (secs / 3600) ++ str ":" ++ two (secs / 60 mod 60) ++ str ":" ++ two (secs mod 60) ++ str " GMT".

Definition SendHTTPHeader (fuel : nat) (soc code : Z) (phase : list Z) (length : Z) (pftime : option Z) :
    M unit unit :=
  let msg := zeroed 255 in
  msg ← mem (strcpy msg (str "HTTP/1.1 " ++ dec code ++ str " " ++ phase ++ CRLF));
  s ← mem (cstr msg); SendBuf fuel soc s;;
  stime ← sys Ctime;
  msg ← mem (strcpy msg (str "Date: " ++ http_date (rv stime) ++ CRLF));
  s ← mem (cstr msg); SendBuf fuel soc s;;
  SendBuf fuel soc (str "Server: http_server 0.1" ++ CRLF);;
  msg ← match pftime with
        | Some t =>
            msg ← mem (strcpy msg (str "Last-Modified: " ++ http_date t ++ CRLF));
            s ← mem (cstr msg); SendBuf fuel soc s;; mret msg
        | None => mret msg
        end;
  SendBuf fuel soc (str "Accept-Ranges: none" ++ CRLF);;
  msg ← mem (strcpy msg (str "Content-Length: " ++ dec length ++ CRLF));
  s ← mem (cstr msg); SendBuf fuel soc s;;
  SendBuf fuel soc (str "Connection: Keep-Alive" ++ CRLF);;
  SendBuf fuel soc (str "Content-Type text/html" ++ CRLF);;
  SendBuf fuel soc CRLF;; mret ().

(** ** httpd *)

(** The local variables of [httpd] while it reads the request. *)
Record req := Req { h_buf : buf; h_method : buf; h_headline : buf; h_request : buf;
  h_title : buf; h_value : buf; h_retval : Z; h_first : bool }.
Definition req0 : req :=
  Req (zeroed 512) (zeroed 255) (zeroed 1024) (zeroed 2048) (zeroed 32) (zeroed 128) 0 true.

(** [fgets(buf, BUFFER_SIZE, fd)]: a null pointer, or the line stored in [buf]. *)
Definition fgets_buf (b : buf) (n fp : Z) : M unit (bool * buf) :=
  a ← sys (Cfgets fp n);
  if decide (rv a = 0) then mret (false, b) else b ← mem (strcpy b (rdata a)); mret (true, b).

(** One turn of the reading loop; [inr] is the [break]. *)
Definition header_body (fd : Z) (q : req) : M unit (req + req) :=
  '(ok, b) ← fgets_buf (h_buf q) BUFFER_SIZE fd;
  if negb ok then undef else  (* r is a null pointer, and *r is read *)
  c0 ← mem (bget b 0);
  stop ← (if decide (c0 = CR) then c1 ← mem (bget b 1); mret (bool_decide (c1 = LF)) else mret false);
  let q := Req b (h_method q) (h_headline q) (h_request q) (h_title q) (h_value q) (h_retval q) (h_first q) in
  if stop : bool then mret (inr q) else
  r ← mem (cstr b);
  printf (str "ClientRequest: " ++ r);;
  if h_first q then
    headline ← mem (strcpy (h_headline q) r);
    '(_, method) ← mem (GetToken headline 1 (h_method q) 255 0);
    mret (inl (Req b method headline (h_request q) (h_title q) (h_value q) (h_retval q) false))
  else
    request ← mem (strcat (h_request q) r);
    '(_, title) ← mem (GetToken b 1 (h_title q) 32 58 (* ':' *));
    conn ← mem (strcmp0 title (str "Connection"));
    if conn : bool then
      '(_, value) ← mem (GetToken b 2 (h_value q) 128 SPC);
      alive ← mem (strcmp0 value (str "Keep-Alive"));
      retval ← (if alive : bool then printf (str "Client benoetigt keep alive" ++ CRLF);; mret 1
                else printf (str "Client benoetigt kein keep alive" ++ CRLF);; mret (-1));
      mret (inl (Req b (h_method q) (h_headline q) request title value retval false))
    else mret (inl (Req b (h_method q) (h_headline q) request title (h_value q) (h_retval q) false)).

Definition error404 : list Z :=
  str "<HTML><HEAD><TITLE>404 Not Found</TITLE>" ++
  str "</HEAD><BODY><H1>Nicht gefunden</H1>" ++
  str "Die angeforderte URL konnte nicht auf " ++
  str "disem Server gefunden werden." ++
  str "<P><HR><I>http_server0.1</I></BODY></HTML>" ++ CRLF ++ CRLF.

(** The answer to a [GET] for the file [p]; [malloc] is taken to succeed. *)
Definition answer_file (fuel : nat) (soc retval : Z) (p : list Z) : M unit Z :=
  file ← sys (Cfopen p (str "r"));
  if decide (rv file = 0) then
    let size := Z.of_nat (length error404) + 1 in
    printf (str "404 Nacricht" ++ CRLF);;
    SendHTTPHeader fuel soc 404 (str "FILE NOT FOUND.") size None;;
    SendBlock fuel soc (Some <$> error404 ++ [0]) size;;
    SendBuf fuel soc (CRLF ++ CRLF);;
    mret (-1)
  else
    fst ← sys (Cstat p);
    let st_size := rwords fst !!! 0%nat in
    let st_mtime := rwords fst !!! 1%nat in
    printf (str "Datei existiert ..." ++ CRLF);;
    SendHTTPHeader fuel soc 200 (str "OK") (to_int st_size) (Some st_mtime);;
    r ← sys (Cfread (rv file) st_size);
    blob ← mem (blit (uninit (Z.to_nat st_size)) 0 (rdata r));
    SendBlock fuel soc blob (to_int st_size);;
    sys (Cfclose (rv file));;
    printf (str "Alle Daten gesendet ..." ++ CRLF);;
    SendBuf fuel soc (CRLF ++ CRLF);;
    mret retval.
Definition answer_get (fuel : nat) (soc : Z) (q : req) : M unit Z :=
  '(_, uri) ← mem (GetToken (h_headline q) 2 (zeroed 512) 1024 0);
  '(_, dir) ← mem (GetToken uri 1 (zeroed 255) 255 SLASH);
  u ← mem (cstr uri);
  printf (str "Folgende Datei wurde vom Client angefordert: " ++ u ++ CRLF);;
  path ← mem (strcpy (zeroed 512) (str "." ++ u));
  p ← mem (cstr path);
  answer_file fuel soc (h_retval q) p.

Definition httpd (fuel : nat) (soc : Z) : M unit Z :=
  fd ← sys (Cfdopen soc (str "r"));
  printf (line "-----------Request-Header Client-------------");;
  q ← loop fuel (header_body (rv fd)) req0;
  printf (str "Fertig mit dem Lesen des Request-Headers..." ++ CRLF);;
  printf (line "-------------------------------------------");;
  get1 ← mem (strcmp0 (h_method q) (str "GET"));
  get ← (if get1 : bool then mret true else mem (strcmp0 (h_method q) (str "get")));
  if get : bool then answer_get fuel soc q else mret (h_retval q).

(** ** main *)
Definition FD_SETSIZE : Z := 1024.
Definition FIONREAD : Z := 0x541B.

(** The loop of the child: wait for input, serve it. *)
Definition http_child (fuel : nat) (soc_cli : Z) : M unit unit :=
  printf (str "Client verbunden mit socket " ++ dec soc_cli ++ CRLF);;
  loop fuel (λ rlen,
    result ← sys (Cselect FD_SETSIZE [soc_cli]);
    if decide (rv result <= 0) then mret (inr ()) else
    if bool_decide (soc_cli ∈ rwords result) then
      i ← sys (Cioctl soc_cli FIONREAD []);
      let rlen := default rlen (rwords i !! 0%nat) in  (* unchanged when ioctl fails *)
      if decide (rlen = 0) then mret (inr ()) else
      r ← httpd fuel soc_cli;
      if decide (r < 0) then mret (inr ()) else mret (inl rlen)
    else mret (inl rlen)) 0;;
  printf (str "Client socket " ++ dec soc_cli ++ str " beendet" ++ CRLF);;
  sys (Cclose soc_cli);; mret ().
Definition http_main_body (fuel : nat) (soc : Z) : M unit (unit + Z) :=
  printf (str "Warte auf Clientverbindung ... " ++ CRLF);;
  soc_cli ← sys (Caccept soc);
  pid ← sys Cfork;
  if decide (rv pid = 0) then
    (if decide (rv soc_cli ≠ -1) then http_child fuel (rv soc_cli)
     else printf (str "Fehler: accepting client's connection." ++ CRLF));;
    exit EXIT_SUCCESS
  else if decide (rv pid = -1) then
    m ← errmsg; printf (str "Fehler bie fork() (" ++ m ++ str ")" ++ CRLF);; mret (inl ())
  else sys (Cclose (rv soc_cli));; mret (inl ()).
Definition http_main (fuel : nat) : M unit Z :=
  soc ← sys (Csocket AF_INET SOCK_STREAM 0);
  sys (Csetsockopt (rv soc) SOL_SOCKET SO_REUSEADDR);;
  ret ← sys (Cbind (rv soc) (htons INADDR_ANY) (htons SERVER_PORT));
  if decide (rv ret ≠ 0) then printf (str "Fehler: binding server socket" ++ CRLF);; mret EXIT_FAILURE else
  ret ← sys (Clisten (rv soc) 5);
  if decide (rv ret ≠ 0) then printf (str "Fehler: listening server socket" ++ CRLF);; mret EXIT_FAILURE else
  my_signal SIGCHLD SIG_IGN;;
  loop fuel (λ _ : unit, http_main_body fuel (rv soc)) tt.

Example http_date_ex : http_date 784111777 = str "Sun, 06 Nov 1994 08:49:37 GMT".
Proof. reflexivity. Qed.
Example http_date_leap : http_date 951782400 = str "Tue, 29 Feb 2000 00:00:00 GMT".
Proof. reflexivity. Qed.

(** ** GetToken: proofs *)

(** The reference: the tokens of a text that a separator ends, and the piece
    after the last separator. *)
Fixpoint tokens (delim : Z) (cur l : list Z) : list (list Z) * list Z :=
  match l with
  | [] => ([], cur)
  | c :: r =>
      if is_sep delim c then
        match cur with
        | [] => tokens delim [] r
        | _ => (cur :: (tokens delim [] r).1, (tokens delim [] r).2)
        end
      else tokens delim (cur ++ [c]) r
  end.
(** What a call for token [n] (from 0) finds: the token; a token that fills
    the array, on the way; or the end of the memory. *)
Inductive found := Tok (t : list Z) | Long (t : list Z) | Over.
Fixpoint nth_found (toklen : Z) (n : nat) (ts : list (list Z)) (last : list Z) {struct ts} : found :=
  match ts with
  | t :: ts =>
      if decide (toklen ≤ Z.of_nat (length t)) then Long t
      else match n with O => Tok t | S n => nth_found toklen n ts last end
  | [] => if decide (toklen ≤ Z.of_nat (length last)) then Long last else Over
  end.
Definition found_in (toklen : Z) (n : nat) (p : list (list Z) * list Z) : found :=
  nth_found toklen n p.1 p.2.
(** The outcome of [GetToken] that corresponds to it. *)
Definition agrees (toklen : Z) (size : nat) (f : found) (o : option (Z * buf)) : Prop :=
  match f with
  | Tok t => ∃ token', o = Some (Z.of_nat (length t), token') ∧ length token' = size ∧
      take (S (length t)) token' = Some <$> t ++ [0]
  | Long t => ∃ token', o = Some (-1, token') ∧ length token' = size ∧
      take (Z.to_nat toklen) token' = Some <$> take (Z.to_nat toklen) t
  | Over => o = None
  end.

Section get_token.
Context (delim toklen : Z) (size : nat).
Context (Hpos : 0 < toklen) (Hsize : toklen ≤ Z.of_nat size).

(** The two phases of a turn, from the middle of the text on. *)
Definition from_copy (n : nat) (b token : buf) (len : Z) : option (Z * buf) :=
  r ← copy_tok delim toklen b token len;
  match r with
  | inl t => Some (-1, t)
  | inr (len, t, b) => t ← bset t len 0; tok_loop delim toklen n b t len
  end.
Definition from_skip (n : nat) (b token : buf) : option (Z * buf) :=
  b ← skip_sep delim b; from_copy n b token 0.

Lemma tok_loop_S n b token len :
  length token = size → ∃ t, length t = size ∧ tok_loop delim toklen (S n) b token len = from_skip n b t.
Proof.
  intros Hl. simpl. rewrite bset_Some by lia. csimpl. eexists. split; [|reflexivity].
  by rewrite length_insert.
Qed.
Local Arguments tok_loop : simpl never.
Lemma bset_write (cur : list Z) c (token : buf) :
  take (length cur) token = Some <$> cur → (length cur < length token)%nat →
  ∃ t, bset token (Z.of_nat (length cur)) c = Some t ∧ length t = length token ∧
    take (S (length cur)) t = Some <$> cur ++ [c].
Proof.
  intros Ht Hl. rewrite bset_Some by lia. eexists. split; [reflexivity|]. rewrite length_insert.
  split; [done|]. rewrite Nat2Z.id, (take_S_r _ _ (Some c)) by (by apply list_lookup_insert_eq).
  rewrite take_insert_ge by lia. by rewrite Ht, fmap_app.
Qed.

(** A piece that fills the array is found to be too long, whatever follows. *)
Lemma long_found n l : ∀ cur, toklen ≤ Z.of_nat (length cur) →
  ∃ w, found_in toklen n (tokens delim cur l) = Long (cur ++ w).
Proof.
  induction l as [|c l IH]; intros cur Hc; unfold found_in.
  - exists []. cbn [tokens fst snd nth_found]. by rewrite decide_True, app_nil_r.
  - cbn [tokens]. destruct (is_sep delim c).
    + destruct cur as [|x cur]; [simpl in Hc; lia|]. exists [].
      cbn [fst snd nth_found]. by rewrite decide_True, app_nil_r.
    + destruct (IH (cur ++ [c])) as (w & Hw); [rewrite length_app; simpl; lia|].
      exists (c :: w). rewrite <- app_assoc in Hw. apply Hw.
Qed.

(** Both phases agree with the reference. *)
Lemma phases l :
  (∀ n token, length token = size →
     agrees toklen size (found_in toklen n (tokens delim [] l)) (from_skip n (Some <$> l) token)) ∧
  (∀ n token cur, length token = size → Z.of_nat (length cur) < toklen →
     take (length cur) token = Some <$> cur → (cur ≠ [] ∨ ∃ c r, l = c :: r ∧ is_sep delim c = false) →
     agrees toklen size (found_in toklen n (tokens delim cur l))
       (from_copy n (Some <$> l) token (Z.of_nat (length cur)))).
Proof.
  induction l as [|c l [IHs IHc]].
  { split; intros n token.
    - intros Hl. unfold found_in. cbn [tokens fst snd nth_found length]. by rewrite decide_False by lia.
    - intros cur Hl Hcur Ht _. unfold found_in. cbn [tokens fst snd nth_found].
      by rewrite decide_False by lia. }
  assert (HB : ∀ n token cur, length token = size → Z.of_nat (length cur) < toklen →
     take (length cur) token = Some <$> cur →
     (cur ≠ [] ∨ ∃ c' r, c :: l = c' :: r ∧ is_sep delim c' = false) →
     agrees toklen size (found_in toklen n (tokens delim cur (c :: l)))
       (from_copy n (Some <$> c :: l) token (Z.of_nat (length cur)))).
  { intros n token cur Hl Hcur Ht Hor. unfold from_copy. csimpl.
    destruct (is_sep delim c) eqn:Hc; csimpl.
    - destruct cur as [|x cur]; [destruct Hor as [?|(? & ? & ? & ?)]; congruence|].
      destruct (bset_write (x :: cur) 0 token) as (t & Hb & Hlt & Htt); [done|lia|].
      rewrite Hb. csimpl. unfold found_in. csimpl. rewrite decide_False by (cbn [length] in *; lia).
      destruct n as [|n]; [exists t; split_and!; [done|congruence|done]|].
      destruct (tok_loop_S n (Some c :: (Some <$> l)) t (Z.of_nat (S (length cur)))) as (t' & Hlt' & ->);
        [congruence|].
      specialize (IHs n t' Hlt'). unfold found_in, from_skip in *. csimpl. by rewrite Hc.
    - destruct (bset_write cur c token) as (t & Hb & Hlt & Htt); [done|lia|].
      rewrite Hb. csimpl. case_decide.
      + destruct (long_found n l (cur ++ [c])) as (w & Hw); [rewrite length_app; simpl; lia|].
        rewrite Hw. exists t. split_and!; [done|congruence|].
        replace (Z.to_nat toklen) with (S (length cur)) by lia. rewrite Htt.
        rewrite take_app_le, take_ge by (rewrite length_app; simpl; lia). done.
      + csimpl. replace (Z.of_nat (length cur) + 1) with (Z.of_nat (length (cur ++ [c])))
          by (rewrite length_app; simpl; lia).
        apply (IHc n t (cur ++ [c])).
        * congruence.
        * rewrite length_app. simpl. lia.
        * by rewrite length_app, Nat.add_1_r.
        * left. by destruct cur. }
  split; [|exact HB]. intros n token Hl. unfold from_skip. csimpl. destruct (is_sep delim c) eqn:Hc.
  - apply (IHs n token Hl).
  - specialize (HB n token [] Hl ltac:(done) ltac:(done)). csimpl in HB. rewrite Hc in HB.
    apply HB. right. eauto.
Qed.
End get_token.

Lemma GetToken_found delim toklen l n (token : buf) :
  0 < toklen ≤ Z.of_nat (length token) →
  agrees toklen (length token) (found_in toklen n (tokens delim [] l))
    (GetToken (Some <$> l) (S n) token toklen delim).
Proof.
  intros [Hpos Hsize]. unfold GetToken.
  destruct (tok_loop_S delim toklen (length token) Hpos Hsize n (Some <$> l) token 0) as (t & Hl & ->); [done|].
  by apply phases.
Qed.

(** C7. [GetToken] finds what a reference tokenizer finds, for every text, delimiter,
    token number and array size: the length of token [n] and the token as a
    C string; -1 and an array filled without a terminator when a token on the
    way does not fit; and it reads beyond the end of the text exactly when the
    text has too few tokens (NUL does not stop it, it is one of the
    separators). *)
Theorem GetToken_reference delim toklen l n (token : buf) :
  0 < toklen ≤ Z.of_nat (length token) →
  agrees toklen (length token) (found_in toklen n (tokens delim [] l))
    (GetToken (Some <$> l) (S n) token toklen delim).
Proof. apply GetToken_found. Qed.

Lemma GetToken_reference_witness :
  tokens SPC [] (str "GET /a.html HTTP" ++ [LF; 0]) = ([str "GET"; str "/a.html"; str "HTTP"], []) ∧
  agrees 20 20 (Tok (str "/a.html")) (GetToken (Some <$> str "GET /a.html HTTP" ++ [LF; 0]) 2 (zeroed 20) 20 SPC) ∧
  agrees 3 20 (Long (str "GET")) (GetToken (Some <$> str "GET /a.html HTTP" ++ [LF; 0]) 2 (zeroed 20) 3 SPC) ∧
  agrees 20 20 Over (GetToken (Some <$> str "GET /a.html HTTP" ++ [LF; 0]) 4 (zeroed 20) 20 SPC).
Proof.
  split; [reflexivity|]. split_and!.
  - apply (GetToken_reference SPC 20 (str "GET /a.html HTTP" ++ [LF; 0]) 1 (zeroed 20)). vm_compute. split; congruence.
  - apply (GetToken_reference SPC 3 (str "GET /a.html HTTP" ++ [LF; 0]) 1 (zeroed 20)). vm_compute. split; congruence.
  - apply (GetToken_reference SPC 20 (str "GET /a.html HTTP" ++ [LF; 0]) 3 (zeroed 20)). vm_compute. split; congruence.
Defined.

(** ** Sending: proofs *)

(** Stretches of history that consist of [send] calls on [soc]. *)
Definition is_send (soc : Z) (ev : event) : Prop :=
  match ev with Sys (Csend fd _) _ => fd = soc | _ => False end.
Definition send_failed (soc : Z) (ev : event) : Prop :=
  match ev with Sys (Csend fd _) a => fd = soc ∧ rv a = -1 | _ => False end.

(** What a sending loop reports on [data]: 0 and all of it was accepted, or -1
    after a failed [send] and a part of it. *)
Definition send_result (e : env) (soc : Z) (data : list Z) (o : outcome Z) (h : list event) : Prop :=
  Forall (is_send soc) h ∧
  (o = Val 0 ∧ sent soc h = data ∨
   o = Val (-1) ∧ (∃ q, data = sent soc h ++ q) ∧ Exists (send_failed soc) h ∧
     ∃ h0 d, rv (kern e h0 (Csend soc d)) = -1).

Section send.
Context (e : env) (soc : Z) {W : WriteOk e}.

Lemma send_step h0 h q data a :
  data = sent soc h ++ q → q ≠ [] → Forall (is_send soc) h → a = kern e h0 (Csend soc q) →
  let h' := h ++ [Sys (Csend soc q) a] in
  Forall (is_send soc) h' ∧
  (rv a = -1 ∧ send_result e soc data (Val (-1)) h' ∨
   rv a ≠ -1 ∧ data = sent soc h' ++ drop (Z.to_nat (rv a)) q ∧ 0 < rv a ≤ Z.of_nat (length q)).
Proof.
  intros Hd Hq Hh Ha h'.
  assert (Hok : rv a = -1 ∨ 0 ≤ rv a ≤ Z.of_nat (length q) ∧ (q ≠ [] → 0 < rv a)).
  { rewrite Ha. apply send_ok. }
  assert (HF : Forall (is_send soc) h').
  { apply Forall_app. split; [done|]. by repeat constructor. }
  split; [done|]. subst h'. destruct (decide (rv a = -1)) as [Hm|Hm]; [left|right].
  - split; [done|]. split; [done|]. right. split; [done|]. split.
    + exists q. rewrite sent_app, sent_1, sent_of_send, Hm. simpl. by rewrite take_0, app_nil_r.
    + split; [apply Exists_app; right; by constructor|]. exists h0, q. by rewrite <- Ha.
  - destruct Hok as [?|[Hk Hp]]; [done|]. specialize (Hp Hq). split_and!; [done| |lia..].
    rewrite sent_app, sent_1, sent_of_send, <- app_assoc, take_drop. done.
Qed.

Lemma SendBlock_ok fuel data rest s :
  (length data < fuel)%nat →
  wp (SendBlock fuel soc ((Some <$> data) ++ rest) (Z.of_nat (length data))) e s (λ o s',
    ∃ h, hist s' = hist s ++ h ∧ send_result e soc data o h).
Proof.
  intros Hf. unfold SendBlock.
  eapply (wp_loop_measure e _
    (λ l s', ∃ h q, data = sent soc h ++ q ∧ l = (Z.of_nat (length q), (Some <$> q) ++ rest) ∧
       hist s' = hist s ++ h ∧ Forall (is_send soc) h)
    (λ l _, Z.to_nat l.1)).
  2: { exists [], data. rewrite app_nil_r. split_and!; try done. }
  2: { simpl. lia. }
  intros l s1 (h & q & Hd & -> & Hh & Hw). wp_if.
  - rewrite Nat2Z.id, bytes_of_app. wp_steps.
    destruct (send_step (hist s1) h q data a) as [HF [[Hm Hr]|(Hm & Hd' & Hk)]]; try done.
    { intros ->. simpl in Hif. lia. }
    + rewrite decide_True by done. wp_steps. eexists. split; [|done].
      by rewrite hist_after, Hh, <- app_assoc.
    + rewrite decide_False by done. wp_steps. split; [|simpl; lia].
      eexists _, (drop (Z.to_nat (rv a)) q). split; [exact Hd'|]. split_and!; [| |done].
      * f_equal; [rewrite length_drop; lia|].
        rewrite drop_app_le by (rewrite length_fmap; lia). by rewrite fmap_drop.
      * by rewrite hist_after, Hh, <- app_assoc.
  - wp_steps. destruct q; simpl in Hif; [|lia]. rewrite app_nil_r in Hd.
    exists h. split; [done|]. split; [done|]. by left.
Qed.

Lemma SendBuf_ok fuel data s :
  (length data < fuel)%nat →
  wp (SendBuf fuel soc data) e s (λ o s', ∃ h, hist s' = hist s ++ h ∧ send_result e soc data o h).
Proof.
  intros Hf. unfold SendBuf.
  eapply (wp_loop_measure e _
    (λ l s', ∃ h q, data = sent soc h ++ q ∧ l = (Z.of_nat (length q), q) ∧
       hist s' = hist s ++ h ∧ Forall (is_send soc) h)
    (λ l _, Z.to_nat l.1)).
  2: { exists [], data. rewrite app_nil_r. by split_and!. }
  2: { simpl. lia. }
  intros l s1 (h & q & Hd & -> & Hh & Hw). wp_if.
  - wp_steps.
    destruct (send_step (hist s1) h q data a) as [HF [[Hm Hr]|(Hm & Hd' & Hk)]]; try done.
    { intros ->. simpl in Hif. lia. }
    + rewrite decide_True by done. wp_steps. eexists. split; [|done].
      by rewrite hist_after, Hh, <- app_assoc.
    + rewrite decide_False by done. wp_steps. split; [|simpl; lia].
      eexists _, (drop (Z.to_nat (rv a)) q). split; [exact Hd'|]. split_and!; [| |done].
      * f_equal. rewrite length_drop; lia.
      * by rewrite hist_after, Hh, <- app_assoc.
  - wp_steps. destruct q; simpl in Hif; [|lia]. rewrite app_nil_r in Hd.
    exists h. split; [done|]. split; [done|]. by left.
Qed.

(** [SendBlock] and [SendBuf] deliver: on a connection that accepts some of
    the data at each [send] they end, with 0 after all the bytes were accepted
    in order, or with -1 after a failed [send] and a prefix of the bytes;
    they make no other call. *)
Theorem send_delivers fuel data rest s :
  (length data < fuel)%nat →
  wp (SendBlock fuel soc ((Some <$> data) ++ rest) (Z.of_nat (length data))) e s (λ o s',
    ∃ h, hist s' = hist s ++ h ∧ send_result e soc data o h) ∧
  wp (SendBuf fuel soc data) e s (λ o s', ∃ h, hist s' = hist s ++ h ∧ send_result e soc data o h).
Proof. split; [by apply SendBlock_ok|by apply SendBuf_ok]. Qed.

(** The same when no [send] fails. *)
Context (Hgood : ∀ h d, rv (kern e h (Csend soc d)) ≠ -1).

Lemma wp_SendBlock fuel data rest size s (Q : post unit Z) :
  (length data < fuel)%nat → size = Z.of_nat (length data) →
  (∀ s', sent soc (hist s') = sent soc (hist s) ++ data → Q (Val 0) s') →
  wp (SendBlock fuel soc ((Some <$> data) ++ rest) size) e s Q.
Proof.
  intros Hf -> HQ. eapply wp_mono; [by apply SendBlock_ok|].
  intros o s' (h & Hh & _ & [[-> Hs]|(_ & _ & _ & h0 & d & Hbad)]); [|by destruct (Hgood h0 d)].
  apply HQ. by rewrite Hh, sent_app, Hs.
Qed.
Lemma wp_SendBuf fuel data s (Q : post unit Z) :
  (length data < fuel)%nat → (∀ s', sent soc (hist s') = sent soc (hist s) ++ data → Q (Val 0) s') →
  wp (SendBuf fuel soc data) e s Q.
Proof.
  intros Hf HQ. eapply wp_mono; [by apply SendBuf_ok|].
  intros o s' (h & Hh & _ & [[-> Hs]|(_ & _ & _ & h0 & d & Hbad)]); [|by destruct (Hgood h0 d)].
  apply HQ. by rewrite Hh, sent_app, Hs.
Qed.

(** What [SendHTTPHeader] sends when the clock says [now]. *)
Definition response_head (code : Z) (phase : list Z) (len now : Z) (mtime : option Z) : list Z :=
  (str "HTTP/1.1 " ++ dec code ++ str " " ++ phase ++ CRLF) ++
  (str "Date: " ++ http_date now ++ CRLF) ++ (str "Server: http_server 0.1" ++ CRLF) ++
  from_option (λ t, str "Last-Modified: " ++ http_date t ++ CRLF) [] mtime ++
  (str "Accept-Ranges: none" ++ CRLF) ++ (str "Content-Length: " ++ dec len ++ CRLF) ++
  (str "Connection: Keep-Alive" ++ CRLF) ++ (str "Content-Type text/html" ++ CRLF) ++ CRLF.
(** A string that fits [msg]. *)
Definition fits (n : nat) (l : list Z) : Prop := nozero l ∧ (length l < n)%nat.
#[export] Instance fits_dec n l : Decision (fits n l).
Proof. unfold fits, nozero. apply _. Defined.

Lemma wp_msg {A} (b : buf) l (K : buf → M unit A) s (Q : post unit A) n :
  length b = n → fits n l → (∀ b', length b' = n → cstr b' = Some l → wp (K b') e s Q) →
  wp (mem (strcpy b l) ≫= K) e s Q.
Proof.
  intros Hb [Hz Hl] HK. destruct (strcpy_Some b l) as (b' & E & Hb'); [lia|].
  pose proof (strcpy_cstr _ _ _ Hz E). wp_step. rewrite E. wp_step. apply HK; [lia|done].
Qed.

Lemma SendHTTPHeader_ok fuel code phase len pftime s :
  (255 < fuel)%nat → fits 255 (str "HTTP/1.1 " ++ dec code ++ str " " ++ phase ++ CRLF) →
  (∀ h, fits 255 (str "Date: " ++ http_date (rv (kern e h Ctime)) ++ CRLF)) →
  (∀ t, pftime = Some t → fits 255 (str "Last-Modified: " ++ http_date t ++ CRLF)) →
  fits 255 (str "Content-Length: " ++ dec len ++ CRLF) →
  wp (SendHTTPHeader fuel soc code phase len pftime) e s (λ o s', o = Val () ∧ ∃ now,
    sent soc (hist s') = sent soc (hist s) ++ response_head code phase len now pftime).
Proof.
  intros Hf H1 H2 H3 H4. unfold SendHTTPHeader.
  apply (wp_msg _ _ _ _ _ 255); [done..|]. intros m1 L1 C1. wp_step. rewrite C1. wp_step. wp_step.
  apply wp_SendBuf; [destruct H1; lia|]. intros s1 E1. cbn [bpost]. wp_step. wp_step.
  set (now := rv a). specialize (H2 (hist s1)). rewrite <- Ha in H2. change (rv a) with now in H2.
  apply (wp_msg _ _ _ _ _ 255); [done..|]. intros m2 L2 C2. wp_step. rewrite C2. wp_step. wp_step.
  apply wp_SendBuf; [destruct H2; lia|]. intros s2 E2. cbn [bpost]. wp_step.
  apply wp_SendBuf; [vm_compute; lia|]. intros s3 E3. cbn [bpost]. wp_step.
  eapply (wp_mono e _ _ (λ o s', (∃ m, o = Val m ∧ length m = 255%nat) ∧
    sent soc (hist s') = sent soc (hist s3) ++
      from_option (λ t, str "Last-Modified: " ++ http_date t ++ CRLF) [] pftime)).
  { destruct pftime as [t|]; [|wp_step; rewrite app_nil_r; eauto].
    specialize (H3 t eq_refl). apply (wp_msg _ _ _ _ _ 255); [done..|]. intros m3 L3 C3.
    wp_step. rewrite C3. wp_step. wp_step.
    apply wp_SendBuf; [destruct H3; lia|]. intros s4 E4. cbn [bpost]. wp_step. eauto. }
  intros o s4 ((m4 & -> & L4) & E4). cbn [bpost]. wp_step.
  apply wp_SendBuf; [vm_compute; lia|]. intros s5 E5. cbn [bpost].
  apply (wp_msg _ _ _ _ _ 255); [done..|]. intros m5 L5 C5. wp_step. rewrite C5. wp_step. wp_step.
  apply wp_SendBuf; [destruct H4; lia|]. intros s6 E6. cbn [bpost]. wp_step.
  apply wp_SendBuf; [vm_compute; lia|]. intros s7 E7. cbn [bpost]. wp_step.
  apply wp_SendBuf; [vm_compute; lia|]. intros s8 E8. cbn [bpost]. wp_step.
  apply wp_SendBuf; [vm_compute; lia|]. intros s9 E9. cbn [bpost]. wp_step.
  split; [done|]. exists now. unfold response_head.
  rewrite E9, E8, E7, E6, E5, E4, E3, E2, hist_after, sent_app, E1. cbn [app].
  rewrite sent_1. cbn [sent_of]. rewrite app_nil_r, <- !app_assoc. done.
Qed.
End send.

(** ** Reading the request: proofs *)

Lemma tokens_cur delim w : ∀ cur c r, cur ++ w ≠ [] → Forall (λ x, is_sep delim x = false) w →
  is_sep delim c = true →
  tokens delim cur (w ++ c :: r) = ((cur ++ w) :: (tokens delim [] r).1, (tokens delim [] r).2).
Proof.
  induction w as [|x w IH]; intros cur c r Hne Hw Hc; csimpl.
  - rewrite Hc. rewrite app_nil_r in *. by destruct cur.
  - apply Forall_cons in Hw as [Hx Hw]. rewrite Hx, (IH (cur ++ [x])); try done; rewrite <- app_assoc; done.
Qed.
Lemma tokens_word delim w c r : w ≠ [] → Forall (λ x, is_sep delim x = false) w → is_sep delim c = true →
  tokens delim [] (w ++ c :: r) = (w :: (tokens delim [] r).1, (tokens delim [] r).2).
Proof. intros. by apply tokens_cur. Qed.
Lemma tokens_sep delim c r : is_sep delim c = true → tokens delim [] (c :: r) = tokens delim [] r.
Proof. intros H. simpl. by rewrite H. Qed.

(** A larger limit does not change a successful result. *)
Lemma copy_tok_mono delim k k' b : ∀ token len r, k ≤ k' →
  copy_tok delim k b token len = Some (inr r) → copy_tok delim k' b token len = Some (inr r).
Proof.
  induction b as [|[c|] b IH]; intros token len r Hk; csimpl; try done.
  destruct (is_sep delim c); [done|]. destruct (bset token len c) as [t|]; csimpl; [|done].
  case_decide; [done|]. rewrite decide_False by lia. by apply IH.
Qed.
Lemma tok_loop_mono delim k k' n : ∀ b token len z t, k ≤ k' → z ≠ -1 →
  tok_loop delim k n b token len = Some (z, t) → tok_loop delim k' n b token len = Some (z, t).
Proof.
  induction n as [|n IH]; intros b token len z t Hk Hz; simpl; [done|].
  destruct (bset token 0 0) as [t1|]; csimpl; [|done].
  destruct (skip_sep delim b) as [b1|]; csimpl; [|done].
  destruct (copy_tok delim k b1 t1 0) as [[?|[[l2 t2] b2]]|] eqn:E; csimpl; [congruence| |done].
  rewrite (copy_tok_mono _ _ _ _ _ _ _ Hk E). csimpl.
  destruct (bset t2 l2 0) as [t3|]; csimpl; [|done]. by apply IH.
Qed.

(** Memory behind the token does not matter. *)
Lemma skip_sep_app delim b r b' : skip_sep delim b = Some b' → skip_sep delim (b ++ r) = Some (b' ++ r).
Proof.
  induction b as [|[c|] b IH]; simpl; try done. destruct (is_sep delim c); [done|]. by intros [= <-].
Qed.
Lemma copy_tok_app delim k b r : ∀ token len x, copy_tok delim k b token len = Some x →
  copy_tok delim k (b ++ r) token len =
    Some match x with inl t => inl t | inr (len, t, b') => inr (len, t, b' ++ r) end.
Proof.
  induction b as [|[c|] b IH]; intros token len x; csimpl; try done.
  destruct (is_sep delim c); [by intros [= <-]|]. destruct (bset token len c) as [t|]; csimpl; [|done].
  case_decide; [by intros [= <-]|]. apply IH.
Qed.
Lemma tok_loop_app delim k r n : ∀ b token len x,
  tok_loop delim k n b token len = Some x → tok_loop delim k n (b ++ r) token len = Some x.
Proof.
  induction n as [|n IH]; intros b token len x; simpl; [done|].
  destruct (bset token 0 0) as [t1|]; csimpl; [|done].
  destruct (skip_sep delim b) as [b1|] eqn:E1; csimpl; [|done].
  rewrite (skip_sep_app _ _ r _ E1). csimpl.
  destruct (copy_tok delim k b1 t1 0) as [[?|[[l2 t2] b2]]|] eqn:E; csimpl; try done;
    rewrite (copy_tok_app _ _ _ r _ _ _ E); csimpl; [done|].
  destruct (bset t2 l2 0) as [t3|]; csimpl; [|done]. by apply IH.
Qed.

(** A token array that holds the string [w]. *)
Definition holds (token : buf) (w : list Z) : Prop := ∃ r, token = (Some <$> w) ++ Some 0 :: r.
Lemma GetToken_Tok delim toklen l n (token : buf) w :
  0 < toklen ≤ Z.of_nat (length token) → found_in toklen n (tokens delim [] l) = Tok w →
  ∃ t, GetToken (Some <$> l) (S n) token toklen delim = Some (Z.of_nat (length w), t) ∧
    length t = length token ∧ holds t w.
Proof.
  intros Hs Hf. pose proof (GetToken_found delim toklen l n token Hs) as H. rewrite Hf in H.
  destruct H as (t & -> & Hl & Ht). exists t. split_and!; [done..|].
  exists (drop (S (length w)) t). rewrite <- (take_drop (S (length w)) t) at 1. rewrite Ht.
  by rewrite fmap_app, <- app_assoc.
Qed.
Lemma GetToken_Tok_big delim k toklen l n (token : buf) w :
  0 < k ≤ Z.of_nat (length token) → k ≤ toklen → found_in k n (tokens delim [] l) = Tok w →
  ∃ t, GetToken (Some <$> l) (S n) token toklen delim = Some (Z.of_nat (length w), t) ∧
    length t = length token ∧ holds t w.
Proof.
  intros Hs Hk Hf. destruct (GetToken_Tok delim k l n token w Hs Hf) as (t & E & Hl & Ht).
  exists t. split; [|done]. by apply (tok_loop_mono delim k); [|lia|].
Qed.
Lemma GetToken_Tok_app delim toklen l r n (token : buf) w :
  0 < toklen ≤ Z.of_nat (length token) → found_in toklen n (tokens delim [] l) = Tok w →
  ∃ t, GetToken ((Some <$> l) ++ r) (S n) token toklen delim = Some (Z.of_nat (length w), t) ∧
    length t = length token ∧ holds t w.
Proof.
  intros Hs Hf. destruct (GetToken_Tok delim toklen l n token w Hs Hf) as (t & E & Hl & Ht).
  exists t. split; [|done]. by apply tok_loop_app.
Qed.
Lemma strcmp0_spec w : ∀ r s, nozero w → nozero s →
  strcmp0 ((Some <$> w) ++ Some 0 :: r) s = Some (bool_decide (w = s)).
Proof.
  induction w as [|c w IH]; intros r s Hw Hs; destruct s as [|x s]; csimpl; try done.
  - apply nozero_cons in Hs as [Hx _]. by rewrite decide_False by auto.
  - apply nozero_cons in Hw as [Hc _]. by rewrite bool_decide_false by done.
  - apply nozero_cons in Hw as [Hc Hw], Hs as [Hx Hs]. case_decide as E.
    + subst x. rewrite IH by done. f_equal. apply bool_decide_ext. split; congruence.
    + rewrite bool_decide_false; congruence.
Qed.
Lemma holds_strcmp t w s : holds t w → nozero w → nozero s → strcmp0 t s = Some (bool_decide (w = s)).
Proof. intros (r & ->). apply strcmp0_spec. Qed.
Lemma nonsep_nozero delim w : Forall (λ x, is_sep delim x = false) w → nozero w.
Proof.
  intros H. eapply Forall_impl; [exact H|]. intros x Hx ->. unfold is_sep in Hx.
  rewrite (bool_decide_true (0 = 0)), !orb_true_r in Hx by done. done.
Qed.

(** The calls of [fgets] on a stream so far, and a stream of request lines. *)
Definition gets_of (fp : Z) (ev : event) : list unit :=
  match ev with Sys (Cfgets fp' _) _ => if decide (fp' = fp) then [tt] else [] | _ => [] end.
Definition lines_read (fp : Z) (h : list event) : nat := length (concat (gets_of fp <$> h)).
Class Requests (e : env) (fp : Z) (lines : list (list Z)) : Prop := requests h :
  kern e h (Cfgets fp BUFFER_SIZE) =
  match lines !! lines_read fp h with Some l => Ans 1 0 l [] [] | None => answer 0 end.

Lemma lines_read_app fp h1 h2 : lines_read fp (h1 ++ h2) = (lines_read fp h1 + lines_read fp h2)%nat.
Proof. unfold lines_read. by rewrite fmap_app, concat_app, length_app. Qed.
Lemma lines_read_gets fp n a : lines_read fp [Sys (Cfgets fp n) a] = 1%nat.
Proof. unfold lines_read. simpl. by rewrite decide_True. Qed.

(** A header line that [httpd] only prints and collects. *)
Record plain_header (l : list Z) : Prop := {
  ph_nozero : nozero l;
  ph_length : (length l < 512)%nat;
  ph_word : ∃ w c r, l = w ++ c :: r ∧ w ≠ [] ∧ Forall (λ x, is_sep 58 x = false) w ∧
    is_sep 58 c = true ∧ (length w < 32)%nat ∧ w ≠ str "Connection"
}.

(** What the reading loop keeps: the sizes of the arrays, the collected
    header, and the values it does not touch. *)
Record reads (q : req) (acc : list Z) (method headline : buf) : Prop := {
  rd_buf : ∃ l, h_buf q = Some <$> l ∧ length l = 512%nat;
  rd_request : cstr (h_request q) = Some acc ∧ length (h_request q) = 2048%nat;
  rd_title : length (h_title q) = 32%nat;
  rd_keep : h_method q = method ∧ h_headline q = headline ∧ h_retval q = 0 ∧ h_first q = false
}.

Section reading.
Context (e : env) (fp : Z).

(** A line that fits is stored in front of what the array held before. *)
Lemma fgets_buf_ok lines l b lb s :
  Requests e fp lines → lines !! lines_read fp (hist s) = Some l → b = Some <$> lb →
  length lb = 512%nat → (length l < 512)%nat →
  wp (fgets_buf b BUFFER_SIZE fp) e s (λ o s', ∃ rest, o = Val (true, Some <$> l ++ 0 :: rest) ∧
    length (l ++ 0 :: rest) = 512%nat ∧ lines_read fp (hist s') = S (lines_read fp (hist s)) ∧
    (∀ soc, sent soc (hist s') = sent soc (hist s))).
Proof.
  intros HR Hl -> Hb Hlen. unfold fgets_buf. wp_step. wp_step.
  rewrite HR, Hl in Ha. rewrite Ha. simpl. wp_step. unfold strcpy.
  rewrite blit_Some by (rewrite length_app, length_fmap; simpl; lia). wp_step. wp_step.
  exists (drop (length l + 1) lb). split_and!.
  - rewrite take_0, length_app, <- fmap_drop, <- fmap_app, <- app_assoc. done.
  - rewrite length_app. cbn [length]. rewrite length_drop. lia.
  - rewrite hist_after, lines_read_app, lines_read_gets. lia.
  - intros soc. hist_norm. done.
Qed.

(** The blank line ends the loop. *)
Lemma header_blank lines q lb s :
  Requests e fp lines → lines !! lines_read fp (hist s) = Some CRLF → h_buf q = Some <$> lb →
  length lb = 512%nat →
  wp (header_body fp q) e s (λ o s', ∃ b, o = Val (inr (Req b (h_method q) (h_headline q) (h_request q)
    (h_title q) (h_value q) (h_retval q) (h_first q))) ∧ ∀ soc, sent soc (hist s') = sent soc (hist s)).
Proof.
  intros HR Hl Hq Hb. unfold header_body. wp_step.
  eapply wp_mono; [eapply (fgets_buf_ok lines CRLF _ lb); try done; vm_compute; lia|].
  intros o s1 (rest & -> & Hlen & _ & Hs). cbn [bpost negb]. wp_steps.
  rewrite decide_True by done. wp_steps. eexists. split; [reflexivity|done].
Qed.

(** A plain header line is collected. *)
Lemma header_plain lines q acc m hl l s :
  Requests e fp lines → lines !! lines_read fp (hist s) = Some l → plain_header l →
  reads q acc m hl → (length acc + length l < 2048)%nat →
  wp (header_body fp q) e s (λ o s', ∃ q', o = Val (inl q') ∧ reads q' (acc ++ l) m hl ∧
    lines_read fp (hist s') = S (lines_read fp (hist s)) ∧ ∀ soc, sent soc (hist s') = sent soc (hist s)).
Proof.
  intros HR Hl [Hnz Hlen (w & c & r & -> & Hw & Hnon & Hc & Hw32 & Hconn)]
    [(lb & Hq & Hlb) [Hacc Hreq] Htitle (Hm & Hh & Hret & Hfirst)] Hfit.
  unfold header_body. wp_step.
  eapply wp_mono; [eapply (fgets_buf_ok lines _ _ lb); try done|].
  intros o s1 (rest & -> & Hlen' & Hrd & Hs). cbn [bpost negb].
  destruct w as [|x w]; [done|].
  assert (x ≠ CR) as Hx.
  { intros ->. apply Forall_cons in Hnon as [Hn _]. done. }
  wp_step. cbn [app fmap list_fmap]. wp_step. wp_step. rewrite decide_False by done. wp_steps.
  change (Some x :: (Some <$> (w ++ c :: r) ++ 0 :: rest))
    with (Some <$> (((x :: w) ++ c :: r) ++ 0 :: rest)).
  rewrite cstr_fmap by done. wp_steps.
  cbn [h_first h_buf h_method h_headline h_request h_title h_value h_retval]. rewrite Hfirst.
  destruct (strcat_Some (h_request q) acc ((x :: w) ++ c :: r)) as (rq & E); [done|lia|].
  destruct (strcat_spec _ _ _ _ Hacc Hnz E) as [Crq Lrq].
  wp_step. rewrite E. wp_step. wp_step.
  destruct (GetToken_Tok 58 32 (((x :: w) ++ c :: r) ++ 0 :: rest) 0 (h_title q) (x :: w))
    as (t & Et & Lt & Ht); [lia| |].
  { rewrite <- app_assoc. cbn [app]. rewrite app_comm_cons, tokens_word by done.
    unfold found_in. cbn [fst nth_found]. by rewrite decide_False by lia. }
  rewrite Et. wp_step. wp_step.
  rewrite (holds_strcmp t (x :: w)); [|done|by eapply nonsep_nozero|by_compute].
  rewrite bool_decide_false by done. wp_steps.
  eexists. split; [reflexivity|]. split.
  - split; cbn; [exists (((x :: w) ++ c :: r) ++ 0 :: rest); done|split; [done|lia]|lia|done].
  - split; [by rewrite hist_log, lines_read_app, Hrd, Nat.add_0_r|].
    intros soc. hist_norm. done.
Qed.

(** All the header lines up to the blank one. *)
Lemma headers_loop hs : ∀ fuel pre q acc m hl s,
  Requests e fp (pre ++ hs ++ [CRLF]) → lines_read fp (hist s) = length pre →
  Forall plain_header hs → reads q acc m hl → (length acc + length (concat hs) < 2048)%nat →
  (length hs < fuel)%nat →
  wp (loop fuel (header_body fp) q) e s (λ o s', ∃ q', o = Val q' ∧ h_method q' = m ∧
    h_headline q' = hl ∧ h_retval q' = 0 ∧ ∀ soc, sent soc (hist s') = sent soc (hist s)).
Proof.
  induction hs as [|l hs IH]; intros fuel pre q acc m hl s HR Hpre Hhs Hq Hfit Hf;
    (destruct fuel as [|fuel]; [lia|]); apply wp_loop_S.
  - destruct Hq as [(lb & Hq & Hlb) _ _ (Hm & Hh & Hret & _)].
    eapply wp_mono; [eapply (header_blank _ q lb); try done|].
    { cbn [app]. by rewrite list_lookup_middle. }
    intros o s1 (b & -> & Hs). cbn. by eexists.
  - apply Forall_cons in Hhs as [Hl Hhs]. cbn [concat] in Hfit. rewrite length_app in Hfit.
    eapply wp_mono; [eapply (header_plain _ q acc m hl l); try done; [|lia]|].
    { cbn [app]. by rewrite list_lookup_middle. }
    intros o s1 (q' & -> & Hq' & Hrd & Hs). cbn [bpost].
    eapply wp_mono; [eapply (IH fuel (pre ++ [l]) q' (acc ++ l) m hl); try done|].
    + by rewrite <- app_assoc.
    + rewrite Hrd, Hpre, length_app. simpl. lia.
    + rewrite length_app. lia.
    + simpl in Hf. lia.
    + intros o s2 (q2 & -> & ? & ? & ? & Hs2). exists q2. split_and!; try done.
      intros soc. by rewrite Hs2, Hs.
Qed.

(** Without the blank line the loop reads a null pointer. *)
Lemma headers_eof hs : ∀ fuel pre q acc m hl s,
  Requests e fp (pre ++ hs ++ []) → lines_read fp (hist s) = length pre →
  Forall plain_header hs → reads q acc m hl → (length acc + length (concat hs) < 2048)%nat →
  (length hs < fuel)%nat → wp (loop fuel (header_body fp) q) e s (λ o _, o = Undef).
Proof.
  induction hs as [|l hs IH]; intros fuel pre q acc m hl s HR Hpre Hhs Hq Hfit Hf;
    (destruct fuel as [|fuel]; [lia|]); apply wp_loop_S.
  - unfold header_body, fgets_buf. wp_step. wp_step. wp_step.
    rewrite HR, Hpre, !app_nil_r, lookup_ge_None_2 in Ha by done. rewrite Ha. cbn. by wp_steps.
  - apply Forall_cons in Hhs as [Hl Hhs]. cbn [concat] in Hfit. rewrite length_app in Hfit.
    eapply wp_mono; [eapply (header_plain _ q acc m hl l); try done; [|lia]|].
    { cbn [app]. by rewrite list_lookup_middle. }
    intros o s1 (q' & -> & Hq' & Hrd & Hs). cbn [bpost].
    eapply wp_mono; [eapply (IH fuel (pre ++ [l]) q' (acc ++ l) m hl); try done|by intros ? ? ->].
    + by rewrite <- app_assoc.
    + rewrite Hrd, Hpre, length_app. simpl. lia.
    + rewrite length_app. lia.
    + simpl in Hf. lia.
Qed.
End reading.

(** ** Requests *)

Definition request_line (uri version : list Z) : list Z := str "GET " ++ uri ++ SPC :: version ++ CRLF.
(** A name of a file in the directory of the server. *)
Definition file_name (name : list Z) : Prop :=
  name ≠ [] ∧ Forall (λ x, is_sep SLASH x = false) name ∧ (length name < 254)%nat.

(** A [GET] request for [/name] with plain header lines arrives on [soc],
    followed by [fin]: the blank line, or nothing when the client stops there. *)
Record get_request (e : env) (soc fp : Z) (name version : list Z) (headers fin : list (list Z)) : Prop := {
  gr_fdopen : ∀ h, rv (kern e h (Cfdopen soc (str "r"))) = fp;
  gr_lines : Requests e fp (request_line (SLASH :: name) version :: headers ++ fin);
  gr_name : file_name name;
  gr_version : nozero version ∧ (length (request_line (SLASH :: name) version) < 512)%nat;
  gr_headers : Forall plain_header headers ∧ (length (concat headers) < 2048)%nat
}.

Lemma is_sep_mono delim x : is_sep delim x = false → is_sep 0 x = false.
Proof. unfold is_sep. rewrite !orb_false_iff. tauto. Qed.
Lemma file_name_nonsep name : file_name name → Forall (λ x, is_sep 0 x = false) (SLASH :: name).
Proof.
  intros (_ & H & _). constructor; [done|]. eapply Forall_impl; [exact H|]. intros x. apply is_sep_mono.
Qed.
Lemma request_line_nozero name version :
  file_name name → nozero version → nozero (request_line (SLASH :: name) version).
Proof.
  intros Hn Hv. unfold request_line. apply nozero_app. split; [by_compute|].
  apply nozero_app. split; [by apply (nonsep_nozero 0), file_name_nonsep|].
  apply nozero_cons. split; [done|]. apply nozero_app. split; [done|by_compute].
Qed.

Section requests.
Context (e : env) (soc fp : Z) (name version : list Z) (headers : list (list Z)).
Section request.
Context (fin : list (list Z)) (R : get_request e soc fp name version headers fin).

(** The first line. *)
Lemma header_first s :
  lines_read fp (hist s) = O →
  wp (header_body fp req0) e s (λ o s', ∃ q z m, o = Val (inl q) ∧ holds m (str "GET") ∧
    reads q [] m (Some <$> request_line (SLASH :: name) version ++ 0 :: z) ∧
    lines_read fp (hist s') = 1%nat ∧ ∀ soc, sent soc (hist s') = sent soc (hist s)).
Proof.
  intros H0. destruct R as [_ HL Hn [Hv Hl] _].
  pose proof (request_line_nozero name version Hn Hv) as Hnz.
  set (l := request_line (SLASH :: name) version) in *.
  unfold header_body. wp_step.
  eapply wp_mono; [eapply (fgets_buf_ok e fp _ l _ (replicate 512 0)); try done|].
  { by rewrite H0. }
  intros o s1 (rest & -> & Hlen & Hrd & Hs). cbn [bpost negb].
  wp_step. wp_step. wp_step. rewrite decide_False by done. wp_steps.
  rewrite cstr_fmap by done. wp_steps. cbn [h_first h_headline h_method h_title h_value h_request h_retval req0].
  unfold strcpy. wp_step.
  assert (length (zeroed 1024) = 1024%nat) as Hz by apply length_replicate.
  rewrite blit_Some by (rewrite length_app, Hz; cbn [length]; lia). wp_step. wp_step.
  rewrite take_0. set (z := replicate (1024 - (0 + length (l ++ [0]))) 0).
  assert ([] ++ (Some <$> l ++ [0]) ++ drop (0 + length (l ++ [0])) (zeroed 1024)
    = Some <$> l ++ 0 :: z) as ->.
  { unfold zeroed, z. rewrite drop_replicate, !fmap_app, <- app_assoc. cbn [app]. f_equal.
    by rewrite !(fmap_cons _ 0), fmap_replicate. }
  destruct (GetToken_Tok 0 255 (l ++ 0 :: z) 0 (zeroed 255) (str "GET")) as (m & Em & _ & Hm);
    [vm_compute; split; congruence| |].
  { subst l. unfold request_line. rewrite <- app_assoc.
    change (str "GET " ++ ?r) with (str "GET" ++ SPC :: r). by rewrite tokens_word by by_compute. }
  rewrite Em. wp_steps. eexists _, z, m. split; [reflexivity|]. split; [done|]. split.
  - split; cbn; [by exists (l ++ 0 :: rest)|split; reflexivity|reflexivity|by split_and!].
  - split; [by rewrite hist_log, lines_read_app, Hrd, H0|]. intros soc'. hist_norm. done.
Qed.

End request.

(** A client that stops before the blank line. *)
Lemma httpd_eof fuel s :
  get_request e soc fp name version headers [] →
  (length headers + 1 < fuel)%nat → lines_read fp (hist s) = O →
  wp (httpd fuel soc) e s (λ o _, o = Undef).
Proof.
  intros R Hf H0. pose proof R as [Hfd HL _ _ [Hhs Hlen]]. unfold httpd. wp_step. wp_step.
  assert (rv a = fp) as Hrv by (rewrite Ha; apply Hfd). rewrite Hrv. wp_steps.
  destruct fuel as [|fuel]; [lia|]. apply wp_loop_S.
  set (s1 := log _ _). assert (lines_read fp (hist s1) = O) as H1.
  { subst s1. by rewrite hist_log, hist_after, !lines_read_app, H0. }
  eapply wp_mono; [by eapply header_first|].
  intros o s2 (q & z & m & -> & Hm & Hq & Hrd & Hs2). cbn [bpost].
  eapply wp_mono; [eapply (headers_eof e fp headers fuel [request_line (SLASH :: name) version] q []);
    try done; simpl in *; lia|].
  by intros o s3 ->.
Qed.

Context (R : get_request e soc fp name version headers [CRLF]).

(** The whole request is read, and a [GET] is answered. *)
Lemma wp_httpd fuel s (Q : post unit Z) :
  (length headers + 1 < fuel)%nat → lines_read fp (hist s) = O →
  (∀ q z s', h_retval q = 0 → h_headline q = Some <$> request_line (SLASH :: name) version ++ 0 :: z →
     sent soc (hist s') = sent soc (hist s) → wp (answer_get fuel soc q) e s' Q) →
  wp (httpd fuel soc) e s Q.
Proof.
  intros Hf H0 HQ. destruct R as [Hfd HL _ _ [Hhs Hlen]]. unfold httpd. wp_step. wp_step.
  assert (rv a = fp) as Hrv by (rewrite Ha; apply Hfd). rewrite Hrv. wp_steps.
  destruct fuel as [|fuel]; [lia|]. apply wp_loop_S.
  set (s1 := log _ _). assert (lines_read fp (hist s1) = O) as H1.
  { subst s1. by rewrite hist_log, hist_after, !lines_read_app, H0. }
  eapply wp_mono; [by eapply header_first|].
  intros o s2 (q & z & m & -> & Hm & Hq & Hrd & Hs2). cbn [bpost].
  eapply wp_mono; [eapply (headers_loop e fp headers fuel [request_line (SLASH :: name) version] q []);
    try done; simpl in *; lia|].
  intros o s3 (q' & -> & Hq1 & Hq2 & Hq3 & Hs3). cbn [bpost]. wp_steps.
  rewrite Hq1. rewrite (holds_strcmp m (str "GET")); [|done|by_compute..]. rewrite (bool_decide_true (str "GET" = _)) by done. wp_steps.
  eapply HQ; [done|by rewrite Hq2|].
  rewrite !hist_log, !sent_app, Hs3, Hs2. subst s1. rewrite hist_log, hist_after, !sent_app, !sent_1. simpl.
  by rewrite !app_nil_r.
Qed.

(** The requested path. *)
Definition path_of (name : list Z) : list Z := str "." ++ SLASH :: name.
Lemma wp_answer_get fuel q z s (Q : post unit Z) :
  h_headline q = Some <$> request_line (SLASH :: name) version ++ 0 :: z →
  (∀ s', sent soc (hist s') = sent soc (hist s) →
     wp (answer_file fuel soc (h_retval q) (path_of name)) e s' Q) →
  wp (answer_get fuel soc q) e s Q.
Proof.
  intros Hq HQ. destruct R as [_ _ Hn [Hv Hlen] _]. pose proof (file_name_nonsep name Hn) as Hns.
  assert (nozero (SLASH :: name)) as Hnz by (by eapply nonsep_nozero).
  destruct Hn as (Hne & Hns2 & Hl).
  unfold answer_get. wp_step. rewrite Hq.
  destruct (GetToken_Tok_big 0 512 1024 (request_line (SLASH :: name) version ++ 0 :: z) 1 (zeroed 512)
    (SLASH :: name)) as (uri & E & Lu & Hu); [vm_compute; split; congruence|lia| |].
  { unfold request_line. rewrite <- !app_assoc.
    change (str "GET " ++ ?r) with (str "GET" ++ SPC :: r). rewrite tokens_word by by_compute.
    rewrite <- (app_comm_cons (version ++ CRLF)), tokens_word by done.
    unfold found_in. cbn [fst nth_found]. rewrite decide_False by (vm_compute; congruence).
    rewrite decide_False by (cbn [length]; lia). done. }
  rewrite E. wp_step. wp_step. destruct Hu as (ur & ->).
  destruct (GetToken_Tok_app SLASH 255 ((SLASH :: name) ++ [0]) ur 0 (zeroed 255) name)
    as (dir & E2 & _); [vm_compute; split; congruence| |].
  { rewrite <- app_comm_cons, tokens_sep, tokens_word by done. unfold found_in. cbn [fst nth_found].
    by rewrite decide_False by lia. }
  rewrite fmap_app, <- app_assoc in E2. cbn [fmap list_fmap app] in E2. cbn [fmap list_fmap app].
  rewrite E2. wp_step. wp_step.
  change (Some SLASH :: (Some <$> name) ++ Some 0 :: ur) with ((Some <$> SLASH :: name) ++ Some 0 :: ur).
  rewrite cstr_prefix by done. do 3 wp_step.
  apply (wp_msg e _ _ _ _ _ 512); [done| |].
  { split; [apply nozero_app; split; [by_compute|done]|].
    rewrite length_app. cbn [length]. change (length (str ".")) with 1%nat. lia. }
  intros b Lb Cb. wp_step. rewrite Cb. wp_step. apply HQ. hist_norm. done.
Qed.

(** The kernel lets everything through on [soc], and the clock shows a date
    that fits. *)
Class Sends (e : env) (soc : Z) : Prop := {
  sn_write : WriteOk e;
  sn_good : ∀ h d, rv (kern e h (Csend soc d)) ≠ -1;
  sn_date : ∀ h, fits 255 (str "Date: " ++ http_date (rv (kern e h Ctime)) ++ CRLF)
}.

Lemma content_length_fits n :
  INT_MIN ≤ n ≤ INT_MAX → fits 255 (str "Content-Length: " ++ dec n ++ CRLF).
Proof.
  intros Hn. split; [apply nozero_app; split; [by_compute|apply nozero_app; split; [apply dec_nozero|by_compute]]|].
  pose proof (dec_int_length n Hn). rewrite !length_app. change (length (str "Content-Length: ")) with 16%nat.
  change (length CRLF) with 2%nat. lia.
Qed.
Lemma length_error404 : length error404 = 189%nat.
Proof. reflexivity. Qed.

(** C2. A [GET] request is answered: when the request line names a file of
    the directory and the other header lines are plain, [httpd] sends on the
    connection the header for the size and time of the file, the content, and
    a blank line, and returns 0; when the file cannot be opened it sends the
    404 header, the error page with its terminating NUL, and a blank line,
    and returns -1.  Nothing else is sent. *)
Theorem httpd_answers fuel s f content mtime :
  Sends e soc → (length headers + 1 < fuel)%nat → lines_read fp (hist s) = O →
  (∀ h, rv (kern e h (Cfopen (path_of name) (str "r"))) = f) →
  (∀ h, rwords (kern e h (Cstat (path_of name))) = [Z.of_nat (length content); mtime]) →
  (∀ h n, rdata (kern e h (Cfread f n)) = content) →
  (255 < fuel)%nat → (length content < fuel)%nat → Z.of_nat (length content) ≤ INT_MAX →
  fits 255 (str "Last-Modified: " ++ http_date mtime ++ CRLF) →
  wp (httpd fuel soc) e s (λ o s', ∃ now,
    (f ≠ 0 ∧ o = Val 0 ∧ sent soc (hist s') = sent soc (hist s) ++
       response_head 200 (str "OK") (Z.of_nat (length content)) now (Some mtime) ++ content ++ CRLF ++ CRLF) ∨
    (f = 0 ∧ o = Val (-1) ∧ sent soc (hist s') = sent soc (hist s) ++
       response_head 404 (str "FILE NOT FOUND.") (Z.of_nat (length error404) + 1) now None ++
       (error404 ++ [0]) ++ CRLF ++ CRLF)).
Proof.
  intros [W Hgood Hdate] Hf H0 Hfopen Hstat Hread Hf1 Hf2 Hsize Hmt.
  apply wp_httpd; [done..|]. intros q z s1 Hret Hq Hs1.
  apply (wp_answer_get _ q z); [done|]. intros s2 Hs2. unfold answer_file. wp_step. wp_step.
  assert (rv a = f) as Hrv by (rewrite Ha; apply Hfopen). rewrite Hrv. wp_if.
  - wp_step. wp_step. wp_step.
    eapply wp_mono; [apply (SendHTTPHeader_ok e soc Hgood); try done; by_compute|].
    intros o s3 (-> & now & Hs3). wp_step.
    rewrite <- (app_nil_r (Some <$> error404 ++ [0])).
    apply (wp_SendBlock e soc Hgood); [rewrite length_app, length_error404; cbn [length]; lia|rewrite length_app; cbn [length]; lia|].
    intros s4 Hs4. wp_step. apply (wp_SendBuf e soc Hgood); [simpl; lia|].
    intros s5 Hs5. wp_step. exists now. right. split_and!; [done..|].
    rewrite Hs5, Hs4, Hs3, hist_log, hist_after, !sent_app, !sent_1, Hs2, Hs1. cbn [sent_of].
    by rewrite !app_nil_r, <- !app_assoc.
  - wp_step. wp_step. assert (rwords a0 = [Z.of_nat (length content); mtime]) as Hw by (rewrite Ha0; apply Hstat).
    rewrite Hw.
    change ([Z.of_nat (length content); mtime] !!! 0%nat) with (Z.of_nat (length content)).
    change ([Z.of_nat (length content); mtime] !!! 1%nat) with mtime.
    assert (to_int (Z.of_nat (length content)) = Z.of_nat (length content)) as Hint.
    { apply swrap_id; unfold INT_MAX in *; lia. }
    rewrite Hint. wp_step. wp_step. wp_step.
    eapply wp_mono; [apply (SendHTTPHeader_ok e soc Hgood); try done; [by_compute| |]|].
    { intros t [= <-]. done. }
    { apply content_length_fits. unfold INT_MIN. lia. }
    intros o s3 (-> & now & Hs3). wp_step. wp_step. wp_step.
    assert (rdata a1 = content) as Hd by (rewrite Ha1; apply Hread).
    rewrite Nat2Z.id, Hd, blit_front by (rewrite length_uninit; lia). wp_step. wp_step.
    apply (wp_SendBlock e soc Hgood); [done|done|]. intros s4 Hs4. wp_steps.
    apply (wp_SendBuf e soc Hgood); [simpl; lia|]. intros s5 Hs5. wp_steps.
    exists now. left. split_and!; [done|congruence|].
    rewrite Hs5, hist_log, hist_after, !sent_app, !sent_1, Hs4, hist_after, sent_app, sent_1, Hs3,
      hist_log, hist_after, !sent_app, !sent_1, hist_after, sent_app, sent_1, Hs2, Hs1.
    cbn [sent_of]. by rewrite !app_nil_r, <- !app_assoc.
Qed.

(** Some of the file is missing when it is read. *)
Lemma answer_short fuel s retval f size mtime (p : list Z) :
  Sends e soc → (255 < fuel)%nat → f ≠ 0 → 0 < size ≤ INT_MAX →
  rv (kern e (hist s) (Cfopen p (str "r"))) = f →
  (∀ h, rwords (kern e h (Cstat p)) = [size; mtime]) →
  (∀ h n, Z.of_nat (length (rdata (kern e h (Cfread f n)))) < size) →
  fits 255 (str "Last-Modified: " ++ http_date mtime ++ CRLF) →
  wp (answer_file fuel soc retval p) e s (λ o _, o = Undef).
Proof.
  intros [W Hgood Hdate] Hf Hf0 Hsize Hfopen Hstat Hread Hmt. unfold answer_file. wp_step. wp_step.
  assert (rv a = f) as Hrv by (by rewrite Ha). rewrite Hrv, decide_False by done. wp_step. wp_step.
  assert (rwords a0 = [size; mtime]) as Hw by (rewrite Ha0; apply Hstat). rewrite Hw.
  change ([size; mtime] !!! 0%nat) with size. change ([size; mtime] !!! 1%nat) with mtime.
  assert (to_int size = size) as Hint by (apply swrap_id; unfold INT_MAX in *; lia).
  rewrite Hint. wp_step. wp_step. wp_step.
  eapply wp_mono; [apply (SendHTTPHeader_ok e soc Hgood); try done; [by_compute| |]|].
  { intros t [= <-]. done. }
  { apply content_length_fits. unfold INT_MIN. lia. }
  intros o s3 (-> & now & Hs3). wp_step. wp_step. wp_step.
  assert (Z.of_nat (length (rdata a1)) < size) as Hd by (rewrite Ha1; apply Hread).
  rewrite blit_front by (rewrite length_uninit; lia). wp_step. wp_step.
  destruct fuel as [|fuel]; [lia|]. unfold SendBlock. apply wp_loop_S. rewrite decide_True by lia.
  wp_step. unfold uninit. rewrite drop_replicate.
  replace (Z.to_nat size - length (rdata a1))%nat with (S (Z.to_nat size - length (rdata a1) - 1)) by lia.
  cbn [replicate]. rewrite bytes_of_short by lia. by wp_step.
Qed.
End requests.

(** Requests [httpd] is not prepared for have no defined behaviour: a
    client that closes the connection before the blank line (the null pointer
    of [fgets] is read); a header line of 512 characters or more ([fgets] is
    told 2048); and a file that delivers fewer bytes than its [st_size], a
    directory for instance (uninitialised memory is sent). *)
Theorem httpd_undefined e soc fp fuel s :
  (∀ name version headers, get_request e soc fp name version headers [] →
     (length headers + 1 < fuel)%nat → lines_read fp (hist s) = O →
     wp (httpd fuel soc) e s (λ o _, o = Undef)) ∧
  (∀ q l, length (h_buf q) = 512%nat → (512 ≤ length l)%nat →
     kern e (hist s) (Cfgets fp BUFFER_SIZE) = Ans 1 0 l [] [] →
     wp (header_body fp q) e s (λ o _, o = Undef)) ∧
  (∀ retval p f size mtime, Sends e soc → (255 < fuel)%nat → f ≠ 0 → 0 < size ≤ INT_MAX →
     rv (kern e (hist s) (Cfopen p (str "r"))) = f →
     (∀ h, rwords (kern e h (Cstat p)) = [size; mtime]) →
     (∀ h n, Z.of_nat (length (rdata (kern e h (Cfread f n)))) < size) →
     fits 255 (str "Last-Modified: " ++ http_date mtime ++ CRLF) →
     wp (answer_file fuel soc retval p) e s (λ o _, o = Undef)).
Proof.
  split_and!.
  - intros name version headers R Hf H0. by eapply httpd_eof.
  - intros q l Hq Hlen Hl. unfold header_body, fgets_buf. wp_step. wp_step. wp_step.
    rewrite Hl in Ha. rewrite Ha. cbn [rv rdata]. rewrite decide_False by done. unfold strcpy. wp_step.
    rewrite blit_None by (rewrite length_app, Hq; simpl; lia). by wp_step.
  - intros. by eapply answer_short.
Qed.

(** *** Concrete runs *)

(** A kernel that delivers the request lines [ls] on stream 7, has one file
    (6) of the given size and content, and sends in pieces of 100 bytes. *)
Definition web_kern (ls : list (list Z)) (file : Z) (content : list Z) (size : Z)
    (h : list event) (c : call) : ans :=
  match c with
  | Csend _ d | Cwrite _ d => answer (Z.of_nat (length d `min` 100))
  | Cfdopen _ _ => answer 7
  | Cfgets fp _ => match ls !! lines_read fp h with Some l => Ans 1 0 l [] [] | None => answer 0 end
  | Cfopen _ _ => answer file
  | Cstat _ => Ans 0 0 [] [size; 0] []
  | Cfread _ _ => answer_data 1 content
  | Ctime => answer 784111777
  | _ => answer 0
  end.
Definition web_env ls file content size : env := env_of (web_kern ls file content size).

Lemma web_sends ls file content size soc : Sends (web_env ls file content size) soc.
Proof.
  split.
  - split; intros h fd d; cbn -[Nat.min]; right; (split; [lia|]); intros Hd;
      pose proof (nil_length_inv d); destruct (length d); naive_solver lia.
  - intros h d. cbn -[Nat.min]. lia.
  - intros h. by_compute.
Qed.
Definition demo_line : list Z := request_line (str "/a.html") (str "HTTP/1.1").
Definition demo_host : list Z := str "Host: localhost" ++ CRLF.
Lemma web_request file content size fin soc :
  get_request (web_env (demo_line :: [demo_host] ++ fin) file content size) soc 7
    (str "a.html") (str "HTTP/1.1") [demo_host] fin.
Proof.
  split; try done.
  - split; [done|]. split; [by_compute|vm_compute; lia].
  - split; [by_compute|vm_compute; lia].
  - split; [|vm_compute; lia]. constructor; [|done]. split; [by_compute|vm_compute; lia|].
    exists (str "Host"), 58, (str " localhost" ++ CRLF). split_and!; [done|done|by_compute|done|vm_compute; lia|done].
Qed.

Lemma send_delivers_witness :
  let data := replicate 250 65 in
  wp (SendBlock 300 5 (Some <$> data ++ []) 250) (web_env [] 0 [] 0) (init tt []) (λ o s',
    ∃ h, hist s' = hist (init tt []) ++ h ∧ send_result (web_env [] 0 [] 0) 5 data o h) ∧
  wp (SendBuf 300 5 data) (web_env [] 0 [] 0) (init tt []) (λ o s',
    ∃ h, hist s' = hist (init tt []) ++ h ∧ send_result (web_env [] 0 [] 0) 5 data o h).
Proof.
  apply (send_delivers (web_env [] 0 [] 0) 5 (W := @sn_write _ _ (web_sends [] 0 [] 0 5)) 300 (replicate 250 65) []).
  rewrite length_replicate. lia.
Defined.

Lemma httpd_answers_witness :
  let content := str "<html></html>" in
  let e := web_env [demo_line; demo_host; CRLF] 6 content 13 in
  wp (httpd 300 5) e (init tt []) (λ o s', ∃ now,
    (6 ≠ 0 ∧ o = Val 0 ∧ sent 5 (hist s') = sent 5 (hist (init tt [])) ++
       response_head 200 (str "OK") (Z.of_nat (length content)) now (Some 0) ++ content ++ CRLF ++ CRLF) ∨
    (6 = 0 ∧ o = Val (-1) ∧ sent 5 (hist s') = sent 5 (hist (init tt [])) ++
       response_head 404 (str "FILE NOT FOUND.") (Z.of_nat (length error404) + 1) now None ++
       (error404 ++ [0]) ++ CRLF ++ CRLF)).
Proof.
  apply (httpd_answers _ 5 7 (str "a.html") (str "HTTP/1.1") [demo_host] (web_request _ _ _ _ _)).
  - apply web_sends.
  - simpl. lia.
  - done.
  - done.
  - done.
  - done.
  - lia.
  - vm_compute. lia.
  - vm_compute. congruence.
  - by_compute.
Defined.

Lemma httpd_undefined_witness :
  wp (httpd 300 5) (web_env [demo_line; demo_host] 6 [] 13) (init tt []) (λ o _, o = Undef) ∧
  wp (header_body 7 req0) (web_env [replicate 600 65] 6 [] 13) (init tt []) (λ o _, o = Undef) ∧
  wp (answer_file 300 5 0 (str "./dir")) (web_env [] 6 [] 4096) (init tt []) (λ o _, o = Undef).
Proof.
  split; [|split].
  - refine (proj1 (httpd_undefined _ 5 7 300 _) _ _ _ (web_request _ _ _ [] _) _ _); [simpl; lia|done].
  - refine (proj1 (proj2 (httpd_undefined (web_env [replicate 600 65] 6 [] 13) 5 7 300 (init tt [])))
      req0 (replicate 600 65) _ _ _); try done; rewrite length_replicate; lia.
  - refine (proj2 (proj2 (httpd_undefined (web_env [] 6 [] 4096) 5 7 300 (init tt [])))
      0 (str "./dir") 6 4096 0 _ _ _ _ _ _ _ _); try done;
      first [apply web_sends|lia|by_compute].
Defined.
End Http.
