(* ===== verification/SelectServer.v ===== *)
(** * The select server and its client (11_Network/select/multi_server.c, client3.c)

    One process serves all clients: the state is the table of client sockets,
    the set of descriptors given to [select], and two upper bounds.  The
    central result is the invariant that ties them together. *)
From S2P Require Import Prelude CLib Machine Kernels FileIO FileTransfer.

Definition BUF : nat := 1024.
Definition FD_SETSIZE : nat := 1024.

(** ** The functions both programs share *)
Definition error_exit {A} (msg : list Z) : M unit A :=
  m ← errmsg; eprintf (msg ++ str ": " ++ m ++ [LF]);; exit EXIT_FAILURE.
Definition create_socket (af type protocol : Z) : M unit Z :=
  sock ← sys (Csocket af type protocol);
  if decide (rv sock < 0) then error_exit (str "Fehler beim Anlegen des Sockets") else
  sys (Csetsockopt (rv sock) SOL_SOCKET SO_REUSEADDR);; mret (rv sock).
Definition close_socket (sock : Z) : M unit unit := sys (Cclose sock);; mret ().

(** ** multi_server.c *)
Module MultiServer.
Definition bind_socket (sock adress port : Z) : M unit unit :=
  a ← sys (Cbind sock (htonl adress) (htons port));
  if decide (rv a < 0) then error_exit (str "Kann Socket nicht " ++ DQ ++ str "binden" ++ DQ) else mret ().
Definition listen_socket (sock : Z) : M unit unit :=
  a ← sys (Clisten sock 5);
  if decide (rv a = -1) then error_exit (str "Fehler bei listen()") else mret ().
Definition accept_socket (sock : Z) : M unit Z :=
  a ← sys (Caccept sock);
  if decide (rv a = -1) then error_exit (str "Fehler bei accept()") else mret (rv a).
(** [TCP_recv]: the received bytes and a terminator. *)
Definition TCP_recv (sock : Z) (data : buf) (size : Z) : M unit buf :=
  len ← sys (Crecv sock size);
  data ← mem (blit data 0 (rdata len));
  if decide (rv len > 0 ∨ rv len ≠ -1) then mem (bset data (rv len) 0)
  else error_exit (str "Fehler bei recv()").

(** [FD_SET] and [FD_CLR]: a descriptor outside of the set type is undefined. *)
Definition fd_ok (fd : Z) : Prop := 0 ≤ fd < Z.of_nat FD_SETSIZE.
#[export] Instance fd_ok_dec fd : Decision (fd_ok fd).
Proof. unfold fd_ok. apply _. Defined.
Definition FD_SET (fd : Z) (s : gset Z) : option (gset Z) := if decide (fd_ok fd) then Some ({[fd]} ∪ s) else None.
Definition FD_CLR (fd : Z) (s : gset Z) : option (gset Z) := if decide (fd_ok fd) then Some (s ∖ {[fd]}) else None.
Definition FD_ISSET (fd : Z) (s : gset Z) : option bool :=
  if decide (fd_ok fd) then Some (bool_decide (fd ∈ s)) else None.

(** The variables that live across the turns of the main loop. *)
Record state := St { client_sock : list Z; gesamt_sock : gset Z; max : Z; sock_max : Z; buffer : buf }.

(** A connection request: the socket goes to the first free place. *)
Definition new_client (sock1 : Z) (s : state) : M unit state :=
  sock2 ← accept_socket sock1;
  match list_find (λ c, c < 0) (client_sock s) with
  | Some (i, _) =>
      set ← mem (FD_SET sock2 (gesamt_sock s));
      mret (St (<[i := sock2]> (client_sock s)) set
        (if decide (Z.of_nat i > max s) then Z.of_nat i else max s)
        (if decide (sock2 > sock_max s) then sock2 else sock_max s) (buffer s))
  | None => error_exit (str "Server ueberlaset -- zu viele Clients")
  end.
(** Input from the client at place [i]. *)
Definition serve_client (i : nat) (sock3 : Z) (s : state) : M unit state :=
  b ← TCP_recv sock3 (buffer s) (Z.of_nat BUF - 1);
  msg ← mem (cstr b);
  printf (str "Nachricht empfangen: " ++ msg ++ [LF]);;
  if decide (msg = line "quit") then
    close_socket sock3;;
    set ← mem (FD_CLR sock3 (gesamt_sock s));
    printf (line "Ein Client hat sich beendet");;
    mret (St (<[i := -1]> (client_sock s)) set (max s) (sock_max s) b)
  else mret (St (client_sock s) (gesamt_sock s) (max s) (sock_max s) b).
(** [for (i = 0; i <= max; ++i)]: [n] places from [i] on; the [break] when no
    ready descriptor is left. *)
Fixpoint scan (n : nat) (i : nat) (lese_sock : gset Z) (ready : Z) (s : state) : M unit state :=
  match n with
  | O => mret s
  | S n =>
      sock3 ← mem (client_sock s !! i);
      if decide (sock3 < 0) then scan n (S i) lese_sock ready s else
      b ← mem (FD_ISSET sock3 lese_sock);
      if b : bool then
        s ← serve_client i sock3 s;
        if decide (ready - 1 <= 0) then mret s else scan n (S i) lese_sock (ready - 1) s
      else scan n (S i) lese_sock ready s
  end.
(** One turn of the main loop; a failed [select] leaves the set as it was. *)
Definition turn (sock1 : Z) (s : state) : M unit state :=
  a ← sys (Cselect (sock_max s + 1) (elements (gesamt_sock s)));
  let lese_sock := if decide (rv a = -1) then gesamt_sock s else list_to_set (rwords a) in
  let ready := rv a in
  b ← mem (FD_ISSET sock1 lese_sock);
  if b : bool then
    s ← new_client sock1 s;
    if decide (ready - 1 <= 0) then mret s
    else scan (Z.to_nat (max s + 1)) 0 lese_sock (ready - 1) s
  else scan (Z.to_nat (max s + 1)) 0 lese_sock ready s.
Definition multi_main (fuel : nat) : M unit Z :=
  sock1 ← create_socket AF_INET SOCK_STREAM 0;
  bind_socket sock1 INADDR_ANY 15000;;
  listen_socket sock1;;
  set ← mem (FD_SET sock1 ∅);
  loop fuel (λ s, s ← turn sock1 s; mret (inl s))
    (St (replicate FD_SETSIZE (-1)) set (-1) sock1 (uninit BUF)).

(** *** The invariant *)
Record inv (sock1 : Z) (s : state) : Prop := {
  inv_size : length (client_sock s) = FD_SETSIZE ∧ length (buffer s) = BUF;
  inv_set : ∀ fd, fd ∈ gesamt_sock s ↔ fd = sock1 ∨ 0 ≤ fd ∧ ∃ i, client_sock s !! i = Some fd;
  inv_unique : ∀ i j fd, client_sock s !! i = Some fd → client_sock s !! j = Some fd → 0 ≤ fd → i = j;
  inv_server : ∀ i, client_sock s !! i ≠ Some sock1;
  inv_max : ∀ i fd, client_sock s !! i = Some fd → 0 ≤ fd → Z.of_nat i ≤ max s;
  inv_max_range : -1 ≤ max s < Z.of_nat FD_SETSIZE;
  inv_sock_max : ∀ fd, fd ∈ gesamt_sock s → fd_ok fd ∧ fd ≤ sock_max s
}.

Lemma inv_start sock1 : fd_ok sock1 → inv sock1 (St (replicate FD_SETSIZE (-1)) {[sock1]} (-1) sock1 (uninit BUF)).
Proof.
  intros Hok. assert (∀ i fd, replicate FD_SETSIZE (-1) !! i = Some fd → fd = -1) as Hr.
  { intros i fd H. by apply lookup_replicate in H as [-> _]. }
  unfold fd_ok in Hok. split; cbn [client_sock gesamt_sock max sock_max buffer].
  - split; apply length_replicate.
  - intros fd. rewrite elem_of_singleton. split; [by left|].
    intros [?|(? & i & H)]; [done|]. apply Hr in H. lia.
  - intros i j fd H. apply Hr in H. lia.
  - intros i H. apply Hr in H. lia.
  - intros i fd H. apply Hr in H. lia.
  - unfold FD_SETSIZE. lia.
  - intros fd ->%elem_of_singleton. done.
Qed.
Lemma inv_add sock1 s i c fd : inv sock1 s → client_sock s !! i = Some c → c < 0 → fd_ok fd →
  fd ∉ gesamt_sock s →
  inv sock1 (St (<[i := fd]> (client_sock s)) ({[fd]} ∪ gesamt_sock s)
    (if decide (Z.of_nat i > max s) then Z.of_nat i else max s)
    (if decide (fd > sock_max s) then fd else sock_max s) (buffer s)).
Proof.
  intros [[Hs1 Hs2] Hset Huni Hsrv Hmax Hrange Hsm] Hi Hc Hfd Hnew.
  pose proof (lookup_lt_Some _ _ _ Hi) as Hlt.
  assert (Hnot : ∀ k, client_sock s !! k ≠ Some fd).
  { intros k Hk. apply Hnew, Hset. right. split; [apply Hfd|by exists k]. }
  assert (fd ≠ sock1) as Hne by (intros ->; apply Hnew, Hset; by left).
  split; cbn [client_sock gesamt_sock max sock_max buffer].
  - by rewrite length_insert.
  - intros x. rewrite elem_of_union, elem_of_singleton, Hset. split.
    + intros [->|[->|(Hx & k & Hk)]]; [right|by left|right].
      * split; [apply Hfd|]. exists i. by rewrite list_lookup_insert_eq.
      * split; [done|]. exists k. rewrite list_lookup_insert_ne; [done|]. intros ->. simplify_eq. lia.
    + intros [->|(Hx & k & Hk)]; [auto|]. apply list_lookup_insert_Some in Hk as [(-> & -> & _)|[_ Hk]]; eauto 6.
  - intros a b x Ha Hb Hx.
    apply list_lookup_insert_Some in Ha as [(<- & <- & _)|[Hia Ha]];
    apply list_lookup_insert_Some in Hb as [(<- & Hxb & _)|[Hib Hb]]; try done.
    + by destruct (Hnot b).
    + subst x. by destruct (Hnot a).
    + by eapply Huni.
  - intros k Hk. apply list_lookup_insert_Some in Hk as [(_ & -> & _)|[_ Hk]]; [done|]. by apply (Hsrv k).
  - intros k x Hk Hx. apply list_lookup_insert_Some in Hk as [(<- & _ & _)|[_ Hk]]; [case_decide; lia|].
    specialize (Hmax k x Hk Hx). case_decide; lia.
  - case_decide; lia.
  - intros x [->%elem_of_singleton|Hx]%elem_of_union; [case_decide; split; [done|lia|done|lia]|].
    destruct (Hsm x Hx). split; [done|]. case_decide; lia.
Qed.
Lemma inv_remove sock1 s i fd b : inv sock1 s → client_sock s !! i = Some fd → 0 ≤ fd → length b = BUF →
  inv sock1 (St (<[i := -1]> (client_sock s)) (gesamt_sock s ∖ {[fd]}) (max s) (sock_max s) b).
Proof.
  intros [[Hs1 Hs2] Hset Huni Hsrv Hmax Hrange Hsm] Hi Hfd Hb.
  assert (0 ≤ sock1) as Hs0 by (apply (Hsm sock1), Hset; by left).
  assert (Hk : ∀ k x, 0 ≤ x → <[i := -1]> (client_sock s) !! k = Some x →
    client_sock s !! k = Some x ∧ x ≠ fd).
  { intros k x Hx Hk. apply list_lookup_insert_Some in Hk as [(_ & <- & _)|[Hne Hk]]; [lia|].
    split; [done|]. intros ->. by apply Hne, (Huni i k fd). }
  split; cbn [client_sock gesamt_sock max sock_max buffer].
  - by rewrite length_insert.
  - intros x. rewrite elem_of_difference, elem_of_singleton, Hset. split.
    + intros [[->|(Hx & k & Hkx)] Hne]; [by left|right]. split; [done|]. exists k.
      rewrite list_lookup_insert_ne; [done|]. intros ->. simplify_eq.
    + intros [->|(Hx & k & Hkx)].
      * split; [by left|]. intros ->. by apply (Hsrv i).
      * destruct (Hk k x Hx Hkx). split; [|done]. right. eauto.
  - intros a c x Ha Hc Hx. destruct (Hk a x Hx Ha), (Hk c x Hx Hc). by eapply Huni.
  - intros k Hkx. destruct (Hk k sock1 Hs0 Hkx). by apply (Hsrv k).
  - intros k x Hkx Hx. destruct (Hk k x Hx Hkx). by eapply Hmax.
  - done.
  - intros x [Hx _]%elem_of_difference. by apply Hsm.
Qed.
Lemma inv_buffer sock1 s b : inv sock1 s → length b = BUF →
  inv sock1 (St (client_sock s) (gesamt_sock s) (max s) (sock_max s) b).
Proof. intros [[Hs1 Hs2] ? ? ? ? ? ?] Hb. by split. Qed.

(** The descriptors the process has open after a history. *)
Definition open_step (o : gset Z) (ev : event) : gset Z :=
  match ev with
  | Sys (Csocket _ _ _) a | Sys (Caccept _) a => if decide (0 ≤ rv a) then {[rv a]} ∪ o else o
  | Sys (Cclose fd) _ => o ∖ {[fd]}
  | _ => o
  end.
Definition open_fds (h : list event) : gset Z := foldl open_step ∅ h.
Lemma open_fds_snoc h ev : open_fds (h ++ [ev]) = open_step (open_fds h) ev.
Proof. unfold open_fds. by rewrite foldl_app. Qed.

(** [socket] and [accept] return -1 or a descriptor that is not open, within
    the range of an [fd_set] (the usual limit of descriptors). *)
Class FreshFds (e : env) : Prop := {
  fresh_socket h d t p : let fd := rv (kern e h (Csocket d t p)) in fd = -1 ∨ fd_ok fd ∧ fd ∉ open_fds h;
  fresh_accept h s : let fd := rv (kern e h (Caccept s)) in fd = -1 ∨ fd_ok fd ∧ fd ∉ open_fds h
}.

Section proofs.
Context (e : env) {R : ReadOk e} {F : FreshFds e} (sock1 : Z).

(** The invariant of the loop: the table, and the set is a set of open
    descriptors. *)
Definition good (s : state) (t : st unit) : Prop :=
  inv sock1 s ∧ gesamt_sock s ⊆ open_fds (hist t).
(** A step keeps it or ends the process with status 1. *)
Definition keeps (o : outcome state) (t : st unit) : Prop :=
  match o with Val s => good s t | Exit c => c = EXIT_FAILURE | Undef => False | Running => False end.

Lemma new_client_ok s t : good s t → wp (new_client sock1 s) e t keeps.
Proof.
  intros [I Hopen]. unfold new_client, accept_socket, error_exit. wp_step. wp_step. wp_step.
  pose proof (fresh_accept (hist t) sock1) as Hf. cbv zeta in Hf. rewrite <- Ha in Hf.
  wp_if; [by wp_steps|]. destruct Hf as [?|[Hfd Hfresh]]; [done|]. wp_step.
  destruct (list_find _ _) as [[i c]|] eqn:E; [|by wp_steps].
  apply list_find_Some in E as (Hi & Hc & _).
  unfold FD_SET. wp_step. rewrite decide_True by done. wp_steps. split.
  - apply (inv_add _ _ _ c); try done. set_solver.
  - rewrite hist_after, open_fds_snoc. simpl. rewrite decide_True by apply Hfd. set_solver.
Qed.

(** What [recv] does: the set of open descriptors is unchanged, and the buffer
    holds a string. *)
Lemma TCP_recv_ok sock b s t :
  good s t → length b = BUF →
  wp (TCP_recv sock b (Z.of_nat BUF - 1)) e t (λ o t', match o with
    | Val b' => length b' = BUF ∧ (∃ m, cstr b' = Some m) ∧ good s t' | Exit c => c = EXIT_FAILURE
    | _ => False end).
Proof.
  intros [I Hopen] Hb. unfold TCP_recv, error_exit. wp_step. wp_step.
  pose proof (recv_ok (hist t) sock (Z.of_nat BUF - 1)) as Hr. cbv zeta in Hr. rewrite <- Ha in Hr.
  assert (length (rdata a) ≤ BUF - 1)%nat as Hl.
  { unfold BUF in *. destruct Hr as [[_ ->]|[? ->]]; simpl; lia. }
  rewrite blit_front by (unfold BUF in *; lia). wp_step. wp_step. wp_if; [|by wp_steps].
  destruct Hr as [[? _]|[Hk Hd]]; [lia|].
  assert (Hlen : length ((Some <$> rdata a) ++ drop (length (rdata a)) b) = BUF).
  { rewrite length_app, length_fmap, length_drop. unfold BUF in *. lia. }
  rewrite bset_Some by (rewrite Hlen; unfold BUF in *; lia). wp_step. split; [by rewrite length_insert|].
  split; [|split; [done|by rewrite hist_after, open_fds_snoc]].
  rewrite <- Hd, insert_app_r_alt, length_fmap, Nat.sub_diag by (by rewrite length_fmap).
  destruct (drop (length (rdata a)) b) as [|x r] eqn:E.
  - apply (f_equal length) in E. rewrite length_drop in E. unfold BUF in *. simpl in E. lia.
  - apply cstr_stops.
Qed.

Lemma serve_client_ok i fd s t :
  good s t → client_sock s !! i = Some fd → 0 ≤ fd →
  wp (serve_client i fd s) e t keeps.
Proof.
  intros [I Hopen] Hi Hfd. unfold serve_client, close_socket. wp_step.
  eapply wp_mono; [apply (TCP_recv_ok fd (buffer s) s t); [done|apply I]|].
  intros [b|c| |] t1; try done. intros (Hb & (m & Hm) & _ & Hop1). cbn [bpost].
  wp_step. rewrite Hm. wp_steps.
  assert (fd ∈ gesamt_sock s) as Hin by (apply I; right; eauto).
  wp_if; wp_steps.
  - unfold FD_CLR. rewrite decide_True by (by apply I). wp_steps. split; [by apply inv_remove|].
    rewrite hist_log, open_fds_snoc, hist_after, open_fds_snoc, hist_log, open_fds_snoc. simpl. set_solver.
  - split; [by apply inv_buffer|]. by rewrite hist_log, open_fds_snoc.
Qed.

Lemma scan_ok n : ∀ i lese ready s t,
  good s t → (i + n ≤ FD_SETSIZE)%nat → wp (scan n i lese ready s) e t keeps.
Proof.
  induction n as [|n IH]; intros i lese ready s t G Hi; simpl; [by wp_steps|].
  destruct (lookup_lt_is_Some_2 (client_sock s) i) as [fd Hfd].
  { destruct G as [I _]. destruct (inv_size _ _ I) as [-> _]. lia. }
  wp_step. rewrite Hfd. wp_step. wp_if; [apply IH; [done|lia]|].
  assert (fd_ok fd) as Hok. { destruct G as [I _]. apply I, I. right. split; [lia|eauto]. }
  unfold FD_ISSET. wp_step. rewrite decide_True by done. wp_step.
  destruct (bool_decide _); [|apply IH; [done|lia]]. wp_step.
  eapply wp_mono; [apply serve_client_ok; [done..|lia]|].
  intros [s'|c| |] t'; try done. cbn [bpost keeps]. intros G'. wp_if; [by wp_steps|]. apply IH; [done|lia].
Qed.

(** A turn keeps the invariant, or ends the process with an error. *)
Lemma turn_ok s t : good s t → wp (turn sock1 s) e t keeps.
Proof.
  intros G. unfold turn. wp_step. wp_step. wp_step.
  assert (fd_ok sock1) as Hok. { destruct G as [I _]. apply I, I. by left. }
  unfold FD_ISSET. rewrite decide_True by done. wp_step.
  assert (G1 : good s (after (Cselect (sock_max s + 1) (elements (gesamt_sock s))) a t)).
  { destruct G as [I Hop]. split; [done|]. by rewrite hist_after, open_fds_snoc. }
  assert (Hm : ∀ s' t', good s' t' → (0 + Z.to_nat (max s' + 1) ≤ FD_SETSIZE)%nat).
  { intros s' t' [I _]. pose proof (inv_max_range _ _ I). lia. }
  destruct (bool_decide _); [|by apply scan_ok; [|eapply Hm]]. wp_step.
  eapply wp_mono; [by apply new_client_ok|].
  intros [s'|c| |] t'; try done. cbn [bpost keeps]. intros G'.
  wp_if; [by wp_steps|]. apply scan_ok; [done|by eapply Hm].
Qed.

(** A client that has gone: [select] reports it, [recv] delivers nothing. *)
Lemma scan_eof n fd : ∀ k i s t,
  good s t → client_sock s !! i = Some fd → 0 ≤ fd → (k ≤ i < k + n)%nat →
  (∀ h, kern e h (Crecv fd (Z.of_nat BUF - 1)) = answer 0) →
  wp (scan n k {[fd]} 1 s) e t (λ o t', ∃ b, length b = BUF ∧
    o = Val (St (client_sock s) (gesamt_sock s) (max s) (sock_max s) b) ∧
    hist t' = hist t ++ [Sys (Crecv fd (Z.of_nat BUF - 1)) (answer 0); Put Stdout (line "Nachricht empfangen: ")]).
Proof.
  induction n as [|n IH]; intros k i s t G Hi Hfd Hk Hrecv; [exfalso; lia|].
  pose proof (proj1 G) as I. simpl.
  assert (Hok : ∀ c, 0 ≤ c → (∃ j, client_sock s !! j = Some c) → fd_ok c).
  { intros c Hc Hj. apply I, I. by right. }
  destruct (decide (k = i)) as [->|Hne].
  - wp_step. rewrite Hi. wp_step. rewrite decide_False by lia. wp_step. unfold FD_ISSET.
    rewrite decide_True by eauto. wp_step. rewrite bool_decide_true by set_solver. wp_step.
    unfold serve_client, TCP_recv. wp_step. wp_step. wp_step. rewrite Hrecv in Ha. rewrite Ha.
    destruct (inv_size _ _ I) as [_ Hb]. destruct (buffer s) as [|x r] eqn:Eb; [done|].
    cbn [rdata rv answer]. rewrite blit_front by (simpl; lia). wp_step. wp_step. wp_steps.
    rewrite decide_True by lia. rewrite bset_Some by (simpl; lia).
    change (<[Z.to_nat 0 := Some 0]> ((Some <$> []) ++ drop (length []) (x :: r))) with (Some 0 :: r).
    wp_step. wp_steps. rewrite decide_False by (by intros ?). wp_steps.
    exists (Some 0 :: r). split_and!; [done..|]. by rewrite hist_log, hist_after, <- app_assoc.
  - destruct (lookup_lt_is_Some_2 (client_sock s) k) as [c Hc].
    { apply lookup_lt_Some in Hi. lia. }
    wp_step. rewrite Hc. wp_step.
    assert (c ≠ fd) as Hcfd by (intros ->; by apply Hne, (inv_unique _ _ I k i fd)).
    wp_if; [eapply (IH (S k) i); try done; lia|].
    wp_step. unfold FD_ISSET. rewrite decide_True by (apply Hok; [lia|eauto]). wp_step.
    rewrite bool_decide_false by set_solver. eapply (IH (S k) i); try done; lia.
Qed.
End proofs.

(** The whole server: it ends only with status 1, and nothing it does is
    undefined. *)
Lemma multi_main_ok e fuel inp :
  ReadOk e → FreshFds e →
  wp (multi_main fuel) e (init tt inp) (λ o _, o = Running ∨ o = Exit EXIT_FAILURE).
Proof.
  intros R F. unfold multi_main, create_socket, bind_socket, listen_socket, error_exit.
  wp_step. wp_step. wp_step.
  pose proof (fresh_socket (hist (init tt inp)) AF_INET SOCK_STREAM 0) as Hf. cbv zeta in Hf.
  rewrite <- Ha in Hf. wp_if; wp_steps; [auto|]. destruct Hf as [?|[Hok _]]; [lia|].
  wp_if; wp_steps; [auto|]. wp_if; wp_steps; [auto|].
  unfold FD_SET. rewrite decide_True by done. wp_step. rewrite union_empty_r_L.
  apply (wp_loop_safe e _ (good (rv a))); [auto| |].
  - intros s t G. wp_step. eapply wp_mono; [by apply turn_ok|].
    intros [s'|c| |] t'; try done. simpl. intros ->. auto.
  - split; [by apply inv_start|]. cbn [gesamt_sock].
    rewrite !hist_after, !open_fds_snoc. simpl. rewrite decide_True by apply Hok. set_solver.
Qed.

(** C3. [multi_server.c] keeps its books: a turn of the main loop, from any
    state in which the table, the [select] set and the two bounds agree, ends
    in such a state or ends the process with status 1: the set is the
    listening socket and the sockets of the table, no socket is listed twice,
    every client is within the scanned part of the table, no descriptor is
    above [sock_max], all are open, and no array access and no [FD_SET] is out
    of range.  Hence the whole server, however long it runs, does nothing
    undefined and ends only with status 1. *)
Theorem multi_server_invariant e :
  ReadOk e → FreshFds e →
  (∀ sock1 s t, good sock1 s t → wp (turn sock1 s) e t (keeps sock1)) ∧
  (∀ fuel inp, wp (multi_main fuel) e (init tt inp) (λ o _, o = Running ∨ o = Exit EXIT_FAILURE)).
Proof. intros R F. split; [intros; by apply turn_ok|intros; by apply multi_main_ok]. Qed.

Lemma turn_eof e sock1 s t i fd :
  ReadOk e → FreshFds e → good sock1 s t → client_sock s !! i = Some fd → 0 ≤ fd →
  (∀ h n l, kern e h (Cselect n l) = Ans 1 0 [] [fd] []) →
  (∀ h, kern e h (Crecv fd (Z.of_nat BUF - 1)) = answer 0) →
  wp (turn sock1 s) e t (λ o t', ∃ s' h, o = Val s' ∧ good sock1 s' t' ∧ client_sock s' = client_sock s ∧
    hist t' = hist t ++ h ∧ printed Stdout h = line "Nachricht empfangen: " ∧ closed fd h = false).
Proof.
  intros R F G Hi Hfd Hsel Hrecv. unfold turn. wp_step. wp_step. wp_step.
  pose proof (proj1 G) as I.
  assert (fd_ok sock1) as Hok by (apply I, I; by left).
  assert (sock1 ≠ fd) as Hne by (intros <-; by apply (inv_server _ _ I i)).
  unfold FD_ISSET. rewrite decide_True by done. rewrite Hsel in Ha. rewrite Ha. cbn [rv rwords].
  rewrite decide_False by done. wp_step. rewrite bool_decide_false by set_solver.
  replace (list_to_set [fd]) with ({[fd]} : gset Z) by set_solver.
  pose proof (lookup_lt_Some _ _ _ Hi) as Hlt. pose proof (inv_max _ _ I i fd Hi Hfd).
  assert (G1 : good sock1 s (after (Cselect (sock_max s + 1) (elements (gesamt_sock s))) (Ans 1 0 [] [fd] []) t)).
  { destruct G as [_ Hop]. split; [done|]. by rewrite hist_after, open_fds_snoc. }
  eapply wp_mono; [eapply (scan_eof e sock1 _ fd 0 i); try done; lia|].
  intros o t' (b & Hb & -> & Hh). eexists _, _. split_and!; [reflexivity| |done| | |].
  - split; [by apply inv_buffer|]. rewrite Hh, hist_after. destruct G as [_ Hop].
    unfold open_fds in *. rewrite !foldl_app. done.
  - rewrite Hh, hist_after, <- app_assoc. reflexivity.
  - done.
  - done.
Qed.

(** A client that closes its connection without "quit" is never removed:
    while [select] reports it (end of file is always readable), each turn
    prints an empty message, closes nothing and goes round again; the server
    is busy for ever. *)
Theorem eof_client_spins e sock1 s t i fd :
  ReadOk e → FreshFds e → good sock1 s t → client_sock s !! i = Some fd → 0 ≤ fd →
  (∀ h n l, kern e h (Cselect n l) = Ans 1 0 [] [fd] []) →
  (∀ h, kern e h (Crecv fd (Z.of_nat BUF - 1)) = answer 0) →
  ∀ fuel, wp (loop fuel (λ s, s ← turn sock1 s; mret (inl s)) s : M unit Z) e t (λ o t', o = Running ∧
    ∃ h, hist t' = hist t ++ h ∧ closed fd h = false ∧
      printed Stdout h = concat (replicate fuel (line "Nachricht empfangen: "))).
Proof.
  intros R F G Hi Hfd Hsel Hrecv fuel. revert s t G Hi.
  induction fuel as [|fuel IH]; intros s t G Hi.
  { split; [done|]. exists []. by rewrite app_nil_r. }
  apply wp_loop_S. wp_step. eapply wp_mono; [by eapply turn_eof|].
  intros o t1 (s' & h & -> & G' & Hc & Hh & Hp & Hcl). wp_step.
  eapply wp_mono; [apply IH; [done|by rewrite Hc]|].
  intros o t2 (-> & h2 & Hh2 & Hcl2 & Hp2). split; [done|]. exists (h ++ h2).
  rewrite Hh2, Hh, <- app_assoc, closed_app, Hcl, Hcl2, printed_app, Hp, Hp2. done.
Qed.
End MultiServer.

(** ** client3.c *)
Module Client3.
(** [connect_socket]; the address of a dotted quad is taken as it is. *)
Definition connect_socket (sock : Z) (serv_addr : list Z) (port : Z) : M unit unit :=
  e ← ask;
  let addr := default INADDR_NONE (inet_aton e serv_addr) in
  adr ← (if decide (addr ≠ INADDR_NONE) then mret addr
         else
           host_info ← sys (Cgethostbyname serv_addr);
           if decide (rv host_info = 0) then error_exit (str "Unknown Server")
           else mem (rwords host_info !! 0%nat));
  c ← sys (Cconnect sock adr (htons port));
  if decide (rv c < 0) then
    error_exit (str "Kann Socket nicht " ++ DQ ++ str "binden" ++ DQ ++ str " (keine Verbindung zum Server)")
  else mret ().
Definition TCP_send (sock : Z) (data : list Z) : M unit unit :=
  a ← sys (Csend sock data);
  if decide (rv a = -1) then error_exit (str "Fehler send()") else mret ().
(** The [do] loop: a line that cannot be read leaves the empty string. *)
Definition client3_body (sock : Z) (buffer : buf) : M unit (buf + unit) :=
  buffer ← mem (bset buffer 0 0);
  printf (str "Nachricht zum versenden: ");;
  r ← fgets_stdin BUF;
  buffer ← match r with Some l => mem (strcpy buffer l) | None => mret buffer end;
  s ← mem (cstr buffer);
  TCP_send sock s;;
  if decide (s ≠ line "quit") then mret (inl buffer) else mret (inr ()).
Definition client3_main (fuel : nat) (argv : list (list Z)) : M unit Z :=
  if decide (length argv < 2)%nat then
    a0 ← arg argv 0; printf (str "Usage: " ++ a0 ++ line " serverAdress");; exit EXIT_FAILURE
  else
    sock ← create_socket AF_INET SOCK_STREAM 0;
    a1 ← arg argv 1;
    connect_socket sock a1 15000;;
    loop fuel (client3_body sock) (uninit BUF);;
    close_socket sock;;
    mret EXIT_SUCCESS.

(** A message of the user: a line that fits the buffer and does not end the
    session. *)
Record message (m : list Z) : Prop := {
  msg_line : LF ∉ m;
  msg_nozero : nozero m;
  msg_length : (length m + 2 < BUF)%nat;
  msg_noquit : m ≠ str "quit"
}.
Definition text (ms : list (list Z)) : list Z := concat ((λ m, m ++ [LF]) <$> ms).

Section proofs.
Context (e : env) (sock : Z).
Context (Hwhole : ∀ h d, rv (kern e h (Csend sock d)) = Z.of_nat (length d)).

(** One turn on a line [m]. *)
Lemma client3_line m rest b s :
  length b = BUF → LF ∉ m → nozero m → (length m + 2 < BUF)%nat → stdin s = m ++ LF :: rest →
  wp (client3_body sock b) e s (λ o s', ∃ b' h, length b' = BUF ∧ stdin s' = rest ∧
    hist s' = hist s ++ h ∧ sent sock h = m ++ [LF] ∧
    o = Val (if decide (m = str "quit") then inr () else inl b')).
Proof.
  intros Hb Hlf Hnz Hlen Hin. unfold client3_body. wp_step.
  rewrite bset_Some by (rewrite Hb; unfold BUF; lia). wp_steps.
  apply (wp_fgets_line e _ m rest); [done|done|lia|]. wp_step.
  set (b1 := <[_ := _]> b). assert (length b1 = BUF) as Hb1 by (by subst b1; rewrite length_insert).
  destruct (strcpy_Some b1 (m ++ [LF])) as (b2 & E & L2); [rewrite length_app; simpl; lia|].
  assert (nozero (m ++ [LF])) as Hnz2 by (apply nozero_app; split; [done|by_compute]).
  pose proof (strcpy_cstr _ _ _ Hnz2 E) as C2. rewrite E. wp_step. wp_step. rewrite C2. wp_step.
  unfold TCP_send. wp_step. wp_step. wp_step.
  assert (rv a = Z.of_nat (length (m ++ [LF]))) as Hrv by (rewrite Ha; apply Hwhole).
  rewrite decide_False by lia. wp_steps.
  assert (Hres : ∃ h, hist (after (Csend sock (m ++ [LF])) a
      (set_stdin rest (log (Put Stdout (str "Nachricht zum versenden: ")) s))) = hist s ++ h ∧
      sent sock h = m ++ [LF]).
  { eexists. split; [by rewrite hist_after, hist_set_stdin, hist_log, <- app_assoc|].
    hist_norm. by rewrite Hrv, Nat2Z.id, take_ge by done. }
  destruct Hres as (h & Hh & Hsent).
  destruct (decide (m = str "quit")) as [->|Hq].
  - rewrite decide_False by (by intros ?). wp_steps. exists b2, h. st_simpl. split_and!; try done; lia.
  - rewrite decide_True.
    2: { unfold line. intros Heq. by apply app_inj_tail in Heq as [? _]. }
    wp_steps. exists b2, h. st_simpl. split_and!; try done; lia.
Qed.

(** At the end of the input the loop sends nothing, for ever. *)
Lemma client3_eof fuel : ∀ b s, length b = BUF → stdin s = [] →
  wp (loop fuel (client3_body sock) b) e s (λ o s', o = Running ∧
    ∃ h, hist s' = hist s ++ h ∧ sent sock h = []).
Proof.
  induction fuel as [|fuel IH]; intros b s Hb Hin.
  { split; [done|]. exists []. by rewrite app_nil_r. }
  apply wp_loop_S. unfold client3_body at 1. wp_step.
  rewrite bset_Some by (rewrite Hb; unfold BUF; lia). wp_steps.
  apply wp_fgets_eof; [done|]. wp_steps.
  destruct b as [|x b]; [done|]. change (<[Z.to_nat 0 := Some 0]> (x :: b)) with (Some 0 :: b). wp_steps.
  unfold TCP_send. wp_steps.
  assert (rv a = 0) as Hrv by (rewrite Ha; apply (Hwhole _ [])).
  rewrite decide_False by lia. wp_steps. rewrite decide_True by done. wp_steps.
  eapply wp_mono; [apply IH; [done|by st_simpl]|].
  intros o s' (-> & h & Hh & Hsent). split; [done|]. eexists. split.
  { rewrite Hh, hist_after, hist_log, <- !app_assoc. reflexivity. }
  rewrite !sent_app, Hsent. unfold sent. simpl. by destruct (decide (sock = sock)); rewrite ?take_nil.
Qed.

Lemma client3_loop ms : ∀ fuel b s,
  Forall message ms → length b = BUF → (length ms < fuel)%nat →
  (∀ rest, stdin s = text ms ++ line "quit" ++ rest →
     wp (loop fuel (client3_body sock) b) e s (λ o s', o = Val () ∧ stdin s' = rest ∧
       ∃ h, hist s' = hist s ++ h ∧ sent sock h = text ms ++ line "quit")) ∧
  (stdin s = text ms →
     wp (loop fuel (client3_body sock) b) e s (λ o s', o = Running ∧
       ∃ h, hist s' = hist s ++ h ∧ sent sock h = text ms)).
Proof.
  induction ms as [|m ms IH]; intros fuel b s Hms Hb Hf.
  - destruct fuel as [|fuel]; [lia|]. split.
    + intros rest Hin. apply wp_loop_S.
      eapply wp_mono; [apply (client3_line (str "quit") rest); try done; [by_compute|by_compute|vm_compute; lia]|].
      intros o s' (b' & h & Hb' & Hin' & Hh & Hsent & ->). rewrite decide_True by done. simpl. eauto.
    + intros Hin. by apply client3_eof.
  - apply Forall_cons in Hms as [[Hlf Hnz Hlen Hq] Hms].
    destruct fuel as [|fuel]; [lia|]. simpl in Hf. split; [intros rest Hin|intros Hin]; apply wp_loop_S;
      unfold text in Hin; cbn [fmap list_fmap concat] in Hin; rewrite <- !app_assoc in Hin.
    + eapply wp_mono; [by apply (client3_line m (text ms ++ line "quit" ++ rest))|].
      intros o s1 (b' & h & Hb' & Hin' & Hh & Hsent & ->). rewrite decide_False by done. cbn [bpost].
      eapply wp_mono; [apply (proj1 (IH fuel b' s1 Hms Hb' ltac:(lia)) rest Hin')|].
      intros o s2 (-> & Hr & h2 & Hh2 & Hs2). split_and!; [done..|]. exists (h ++ h2).
      rewrite Hh2, Hh, <- app_assoc, sent_app, Hsent, Hs2. split; [done|]. unfold text. simpl.
      by rewrite <- !app_assoc.
    + eapply wp_mono; [by apply (client3_line m (text ms))|].
      intros o s1 (b' & h & Hb' & Hin' & Hh & Hsent & ->). rewrite decide_False by done. cbn [bpost].
      eapply wp_mono; [apply (proj2 (IH fuel b' s1 Hms Hb' ltac:(lia)) Hin')|].
      intros o s2 (-> & h2 & Hh2 & Hs2). split_and!; [done..|]. exists (h ++ h2).
      rewrite Hh2, Hh, <- app_assoc, sent_app, Hsent, Hs2. split; [done|]. unfold text. simpl.
      by rewrite <- !app_assoc.
Qed.
End proofs.

(** The way to the loop. *)
Lemma wp_connected e sock host a0 adr inp fuel (Q : post unit Z) :
  (∀ h, rv (kern e h (Csocket AF_INET SOCK_STREAM 0)) = sock) → 0 ≤ sock →
  inet_aton e host = Some adr → adr ≠ INADDR_NONE →
  (∀ h, rv (kern e h (Cconnect sock adr (htons 15000))) = 0) →
  (∀ s, stdin s = inp → sent sock (hist s) = [] →
     wp (loop fuel (client3_body sock) (uninit BUF)) e s
       (bpost (λ _ s', wp (close_socket sock;; mret EXIT_SUCCESS) e s' Q) Q)) →
  wp (client3_main fuel [a0; host]) e (init tt inp) Q.
Proof.
  intros Hs Hs0 Ha Hadr Hc HQ. unfold client3_main, create_socket, connect_socket, arg.
  rewrite decide_False by (simpl; lia). wp_step. wp_step. wp_step.
  assert (rv a = sock) as Hrv by (rewrite Ha0; apply Hs).
  rewrite decide_False by lia. wp_steps. rewrite Ha. cbn [default from_option id].
  rewrite decide_True by done. wp_steps. rewrite Hrv in *.
  assert (rv a2 = 0) as Hrv2 by (rewrite Ha2; apply Hc).
  rewrite decide_False by lia. wp_steps. apply HQ; [by st_simpl|]. hist_norm. done.
Qed.

(** [client3.c] relays its input: the lines of the user up to and with
    "quit" are sent unchanged and in order, then the socket is closed and the
    program ends with success; if the input ends before that, it sends empty
    messages for ever and never ends. *)
Theorem client3_relays e sock host a0 adr ms inp fuel :
  (∀ h d, rv (kern e h (Csend sock d)) = Z.of_nat (length d)) →
  (∀ h, rv (kern e h (Csocket AF_INET SOCK_STREAM 0)) = sock) → 0 ≤ sock →
  inet_aton e host = Some adr → adr ≠ INADDR_NONE →
  (∀ h, rv (kern e h (Cconnect sock adr (htons 15000))) = 0) →
  Forall message ms → (length ms < fuel)%nat →
  wp (client3_main fuel [a0; host]) e (init tt (text ms ++ line "quit" ++ inp)) (λ o s',
    o = Val EXIT_SUCCESS ∧ sent sock (hist s') = text ms ++ line "quit" ∧ closed sock (hist s') = true) ∧
  wp (client3_main fuel [a0; host]) e (init tt (text ms)) (λ o s',
    o = Running ∧ sent sock (hist s') = text ms).
Proof.
  intros Hw Hs Hs0 Ha Hadr Hc Hms Hf.
  split; apply (wp_connected e sock host a0 adr); try done; intros s Hin Hsent.
  - eapply wp_mono; [exact (proj1 (client3_loop e sock Hw ms fuel (uninit BUF) s Hms eq_refl Hf) inp Hin)|].
    intros o s' (-> & Hr & h & Hh & Hs1). cbn [bpost]. unfold close_socket. wp_steps.
    rewrite hist_after, closed_here, sent_app, Hh, sent_app, Hsent, Hs1, sent_1. cbn [sent_of].
    by rewrite app_nil_r.
  - eapply wp_mono; [exact (proj2 (client3_loop e sock Hw ms fuel (uninit BUF) s Hms eq_refl Hf) Hin)|].
    intros o s' (-> & h & Hh & Hs1). cbn [bpost]. split; [done|]. by rewrite Hh, sent_app, Hsent, Hs1.
Qed.

(** *** Concrete runs *)

(** One client on descriptor 4 that has gone; the server listens on 3. *)
Definition gone_kern (h : list event) (c : call) : ans :=
  match c with
  | Csocket _ _ _ => if decide (3 ∈ MultiServer.open_fds h) then answer_err 24 else answer 3
  | Caccept _ => if decide (4 ∈ MultiServer.open_fds h) then answer_err 24 else answer 4
  | Cselect _ _ => Ans 1 0 [] [4] []
  | Cread _ n | Crecv _ n => if decide (n < 0) then answer_err 22 else answer 0
  | Csend _ d => answer (Z.of_nat (length d))
  | _ => answer 0
  end.
Definition gone_env : env := Env gone_kern (λ _, []) (λ _, None) (λ _, Some 0x100007F) (λ _, []).
#[export] Instance gone_read : ReadOk gone_env.
Proof. split; intros h fd n; simpl; case_decide; [by left|right|by left|right]; simpl; split; (lia || done). Qed.
#[export] Instance gone_fresh : MultiServer.FreshFds gone_env.
Proof.
  split; intros; subst fd; cbn [kern gone_env gone_kern];
    (destruct (decide _); [by left|right; split; [by_compute|done]]).
Qed.
Definition gone_hist : list event :=
  [Sys (Csocket AF_INET SOCK_STREAM 0) (answer 3); Sys (Caccept 3) (answer 4)].
Definition gone_state : MultiServer.state :=
  MultiServer.St (<[0%nat := 4]> (replicate FD_SETSIZE (-1))) ({[4]} ∪ {[3]}) 0 4 (uninit BUF).
Lemma gone_good : MultiServer.good 3 gone_state (St gone_hist [] 0 tt).
Proof.
  split.
  - set (s0 := MultiServer.St (replicate FD_SETSIZE (-1)) {[3]} (-1) 3 (uninit BUF)).
    assert (gone_state = MultiServer.St (<[0%nat := 4]> (MultiServer.client_sock s0))
      ({[4]} ∪ MultiServer.gesamt_sock s0)
      (if decide (Z.of_nat 0 > MultiServer.max s0) then Z.of_nat 0 else MultiServer.max s0)
      (if decide (4 > MultiServer.sock_max s0) then 4 else MultiServer.sock_max s0)
      (MultiServer.buffer s0)) as -> by (unfold gone_state; f_equal).
    apply (MultiServer.inv_add 3 s0 0 (-1) 4); subst s0.
    + apply MultiServer.inv_start. by_compute.
    + done.
    + lia.
    + by_compute.
    + by_compute.
  - by_compute.
Qed.

Lemma multi_server_invariant_witness :
  MultiServer.good 3 gone_state (St gone_hist [] 0 tt) ∧
  wp (MultiServer.turn 3 gone_state) gone_env (St gone_hist [] 0 tt) (MultiServer.keeps 3) ∧
  wp (MultiServer.multi_main 5) gone_env (init tt []) (λ o _, o = Running ∨ o = Exit EXIT_FAILURE).
Proof.
  split; [exact gone_good|]. split.
  - apply (proj1 (MultiServer.multi_server_invariant gone_env gone_read gone_fresh)), gone_good.
  - apply (proj2 (MultiServer.multi_server_invariant gone_env gone_read gone_fresh)).
Defined.

Lemma eof_client_spins_witness :
  wp (loop 7 (λ s, s ← MultiServer.turn 3 s; mret (inl s)) gone_state : M unit Z) gone_env
    (St gone_hist [] 0 tt) (λ o t', o = Running ∧
    ∃ h, hist t' = gone_hist ++ h ∧ closed 4 h = false ∧
      printed Stdout h = concat (replicate 7 (line "Nachricht empfangen: "))).
Proof.
  apply (MultiServer.eof_client_spins gone_env 3 gone_state (St gone_hist [] 0 tt) 0 4 gone_read gone_fresh);
    [exact gone_good|done|lia|done|done].
Defined.

(** A server on descriptor 3 that accepts everything. *)
Definition talk_kern (h : list event) (c : call) : ans :=
  match c with Csocket _ _ _ => answer 3 | Csend _ d => answer (Z.of_nat (length d)) | _ => answer 0 end.
Definition talk_env : env := Env talk_kern (λ _, []) (λ _, None) (λ _, Some 0x100007F) (λ _, []).
Lemma client3_relays_witness :
  wp (client3_main 9 [str "client3"; str "127.0.0.1"]) talk_env
    (init tt (text [str "hallo"; str "welt"] ++ line "quit" ++ [])) (λ o s',
    o = Val EXIT_SUCCESS ∧ sent 3 (hist s') = text [str "hallo"; str "welt"] ++ line "quit" ∧
    closed 3 (hist s') = true) ∧
  wp (client3_main 9 [str "client3"; str "127.0.0.1"]) talk_env
    (init tt (text [str "hallo"; str "welt"])) (λ o s',
    o = Running ∧ sent 3 (hist s') = text [str "hallo"; str "welt"]).
Proof.
  apply (client3_relays talk_env 3 (str "127.0.0.1") (str "client3") 0x100007F [str "hallo"; str "welt"] [] 9);
    try done; [|simpl; lia].
  repeat constructor; try by_compute; vm_compute; lia.
Defined.
End Client3.
