(* ===== verification/Chat.v ===== *)
(** * 11_Network: the talk of one client with a server

    [server1.c] and [client1.c], and [uds_server.c] and [uds_client.c], which
    differ from these in the kind of socket only.  Server and client take
    turns, the server first, until one of them types quit.  The reference is
    [dialog]; [chat_session] shows that both programs follow it when each
    receives what the other sends. *)
From S2P Require Import Prelude CLib Machine FileIO.

(** ** What the four programs share *)
Module Talk.
Definition BUF : nat := 1024.
Definition quit : list Z := line "quit".
(** The control sequence that clears the screen. *)
Definition clear_screen : list Z := 27 :: str "[2J".
(** [fgets(buffer, BUF, stdin)]; its result is not looked at. *)
Definition fgets_into (buffer : buf) : M unit buf :=
  l ← fgets_stdin BUF;
  match l with Some l => mem (blit buffer 0 (l ++ [0])) | None => mret buffer end.
(** [recv(sock, buffer, BUF-1, 0)], and the terminator when something came. *)
Definition recv_into (sock : Z) (buffer : buf) : M unit buf :=
  size ← sys (Crecv sock (Z.of_nat BUF - 1));
  buffer ← mem (blit buffer 0 (rdata size));
  if decide (rv size > 0) then mem (bset buffer (rv size) 0) else mret buffer.
End Talk.
Import Talk.

(** ** server1.c *)
Module Server1.
Definition talk_body (new_socket : Z) (buffer : buf) : M unit (buf + buf) :=
  printf (str "Nachricht zum versenden: ");;
  buffer ← fgets_into buffer;
  s ← mem (cstr buffer);
  sys (Csend new_socket s);;
  buffer ← recv_into new_socket buffer;
  s ← mem (cstr buffer);
  printf (str "Nachricht empfangen: " ++ s ++ [LF]);;
  if decide (s ≠ quit) then mret (inl buffer) else mret (inr buffer).
Definition accept_body (fuel : nat) (create_socket : Z) (buffer : buf) : M unit (buf + Z) :=
  new_socket ← sys (Caccept create_socket);
  (if decide (rv new_socket > 0) then
     a ← mem (head (rwords new_socket));
     printf (str "Ein client (" ++ inet_ntoa a ++ line ") ist verbunden ...")
   else mret ());;
  buffer ← loop fuel (talk_body (rv new_socket)) buffer;
  sys (Cclose (rv new_socket));;
  mret (inl buffer).
Definition server1_main (fuel : nat) : M unit Z :=
  printf clear_screen;;
  create_socket ← sys (Csocket AF_INET SOCK_STREAM 0);
  (if decide (rv create_socket > 0) then printf (line "Socket wurde angelegt") else mret ());;
  sys (Csetsockopt (rv create_socket) SOL_SOCKET SO_REUSEADDR);;
  b ← sys (Cbind (rv create_socket) INADDR_ANY (htons 15000));
  (if decide (rv b ≠ 0) then printf (line "Port ist nicht frei!") else mret ());;
  sys (Clisten (rv create_socket) 5);;
  loop fuel (accept_body fuel (rv create_socket)) (uninit (BUF + 1)).
End Server1.

(** ** client1.c *)
Module Client1.
Definition talk_body (sock : Z) (buffer : buf) : M unit (buf + unit) :=
  buffer ← recv_into sock buffer;
  s ← mem (cstr buffer);
  printf (str "Nachricht erhalten:" ++ s ++ [LF]);;
  buffer ← (if decide (s ≠ quit) then
     printf (str "Nachricht zum versenden: ");;
     buffer ← fgets_into buffer;
     t ← mem (cstr buffer);
     sys (Csend sock t);;
     mret buffer
   else mret buffer);
  t ← mem (cstr buffer);
  if decide (t ≠ quit) then mret (inl buffer) else mret (inr ()).
Definition client1_main (fuel : nat) (argv : list (list Z)) : M unit Z :=
  (if decide (length argv < 2)%nat then
     a0 ← arg argv 0; printf (str "Usage: " ++ a0 ++ line " ServerAddress");; exit EXIT_FAILURE else mret ());;
  printf clear_screen;;
  create_socket ← sys (Csocket AF_INET SOCK_STREAM 0);
  (if decide (rv create_socket > 0) then printf (line "Socket wurde angelegt") else mret ());;
  e ← ask;
  a1 ← arg argv 1;
  addr ← mem (inet_aton e a1);
  c ← sys (Cconnect (rv create_socket) addr (htons 15000));
  (if decide (rv c = 0) then printf (str "Verbindung zum Server (" ++ inet_ntoa addr ++ line ") hergestellt") else mret ());;
  loop fuel (talk_body (rv create_socket)) (uninit (BUF + 1));;
  sys (Cclose (rv create_socket));;
  mret EXIT_SUCCESS.
End Client1.

(** ** uds_server.c and uds_client.c *)
Module Uds.
Definition UDS_FILE : list Z := str "/tmp/sock.uds".
(** The address of a file has no number and no port: [Cbind] and [Cconnect] carry 0. *)
Definition accept_body (fuel : nat) (create_socket : Z) (buffer : buf) : M unit (buf + Z) :=
  new_socket ← sys (Caccept create_socket);
  (if decide (rv new_socket > 0) then printf (line "Ein client ist verbunden ...") else mret ());;
  buffer ← loop fuel (Server1.talk_body (rv new_socket)) buffer;
  sys (Cclose (rv new_socket));;
  mret (inl buffer).
Definition uds_server_main (fuel : nat) : M unit Z :=
  printf clear_screen;;
  create_socket ← sys (Csocket AF_LOCAL SOCK_STREAM 0);
  (if decide (rv create_socket > 0) then printf (line "Socket wurde angelegt") else mret ());;
  sys (Cunlink UDS_FILE);;
  b ← sys (Cbind (rv create_socket) 0 0);
  (if decide (rv b ≠ 0) then printf (line "Port ist nicht frei!") else mret ());;
  sys (Clisten (rv create_socket) 5);;
  loop fuel (accept_body fuel (rv create_socket)) (uninit (BUF + 1)).
Definition uds_client_main (fuel : nat) : M unit Z :=
  printf clear_screen;;
  create_socket ← sys (Csocket AF_LOCAL SOCK_STREAM 0);
  (if decide (rv create_socket > 0) then printf (line "Socket wurde angelegt") else mret ());;
  c ← sys (Cconnect (rv create_socket) 0 0);
  (if decide (rv c = 0) then printf (line "Verbindung zum Server hergestellt") else mret ());;
  loop fuel (Client1.talk_body (rv create_socket)) (uninit (BUF + 1));;
  sys (Cclose (rv create_socket));;
  mret EXIT_SUCCESS.
End Uds.

(** ** The dialog *)

(** What is sent in each turn when the server types [ss] and the client
    [ts]: a line of the server, and the answer if the client gives one. *)
Fixpoint dialog (ss ts : list (list Z)) : list (list Z * option (list Z)) :=
  match ss, ts with
  | s :: ss, t :: ts =>
      if decide (s = quit) then [(s, None)]
      else (s, Some t) :: if decide (t = quit) then [] else dialog ss ts
  | s :: _, [] => if decide (s = quit) then [(s, None)] else []
  | [], _ => []
  end.
(** Somebody types quit while the other still has something to say. *)
Fixpoint ended (ss ts : list (list Z)) : bool :=
  match ss, ts with
  | s :: ss, t :: ts => bool_decide (s = quit) || bool_decide (t = quit) || ended ss ts
  | s :: _, [] => bool_decide (s = quit)
  | [], _ => false
  end.
(** A line as it is typed: not empty, and short enough for the buffer. *)
Definition typed (l : list Z) : Prop := ∃ m, l = m ++ [LF] ∧ LF ∉ m ∧ nozero m ∧ (length m < BUF - 1)%nat.

(** The messages given to [send], and the number of calls of [recv]. *)
Definition said_of (sock : Z) (ev : event) : list (list Z) :=
  match ev with Sys (Csend fd d) _ => if decide (fd = sock) then [d] else [] | _ => [] end.
Definition said (sock : Z) (h : list event) : list (list Z) := h ≫= said_of sock.
Definition heard_of (sock : Z) (ev : event) : nat :=
  match ev with Sys (Crecv fd _) _ => if decide (fd = sock) then 1 else 0 | _ => 0 end%nat.
Definition heard (sock : Z) (h : list event) : nat := sum_list_with (heard_of sock) h.
Lemma said_snoc sock h ev : said sock (h ++ [ev]) = said sock h ++ said_of sock ev.
Proof. unfold said. rewrite bind_app. cbn. by rewrite app_nil_r. Qed.
Lemma heard_snoc sock h ev : heard sock (h ++ [ev]) = (heard sock h + heard_of sock ev)%nat.
Proof. unfold heard. rewrite sum_list_with_app. cbn. lia. Qed.

(** The other side: its messages arrive one per call, then the connection is
    closed. *)
Class Peer (e : env) (sock : Z) (rs : list (list Z)) : Prop :=
  peer_recv h n : kern e h (Crecv sock n) =
    match rs !! heard sock h with Some r => answer_data (Z.of_nat (length r)) r | None => answer 0 end.

Section proofs.
Context (e : env) (sock : Z) (rs : list (list Z)) {P : Peer e sock rs}.
Notation out s := (printed Stdout (hist s)).

Lemma typed_facts l : typed l → nozero l ∧ (length l < BUF)%nat ∧ l ≠ [].
Proof.
  intros (m & -> & Hlf & Hz & Hl). rewrite length_app. cbn. split_and!; [|unfold BUF in *; lia|by destruct m].
  apply nozero_app. split; [done|]. by repeat constructor.
Qed.
Lemma fgets_ok l rest b s (Q : post unit buf) :
  typed l → stdin s = l ++ rest → length b = (BUF + 1)%nat →
  (∀ b' s', length b' = (BUF + 1)%nat → cstr b' = Some l → stdin s' = rest → hist s' = hist s → Q (Val b') s') →
  wp (fgets_into b) e s Q.
Proof.
  intros Ht Hi Hb HQ. destruct (typed_facts l Ht) as (Hz & Hl & _). destruct Ht as (m & -> & Hlf & Hzm & Hm).
  unfold fgets_into. wp_step. apply (wp_fgets_line e _ m rest); [by rewrite Hi, <- app_assoc|done|unfold BUF in *; lia|].
  cbn [bpost]. destruct (blit b 0 ((m ++ [LF]) ++ [0])) as [b'|] eqn:E.
  2: { rewrite blit_Some in E; [done|]. rewrite !length_app in *. cbn [length] in *. unfold BUF in *. lia. }
  apply wp_mem. apply HQ; [rewrite <- Hb; by eapply blit_length|by eapply blit0_cstr|by st_simpl|by st_simpl].
Qed.
(** A message, or, when none is left, the buffer as it was. *)
Lemma recv_ok b s (Q : post unit buf) :
  Forall typed rs → length b = (BUF + 1)%nat →
  (∀ b' s' a, length b' = (BUF + 1)%nat →
     (match rs !! heard sock (hist s) with Some r => cstr b' = Some r | None => b' = b end) →
     stdin s' = stdin s → hist s' = hist s ++ [Sys (Crecv sock (Z.of_nat BUF - 1)) a] → Q (Val b') s') →
  wp (recv_into sock b) e s Q.
Proof.
  intros Hrs Hb HQ. unfold recv_into. do 2 wp_step. rewrite peer_recv in Ha.
  destruct (rs !! heard sock (hist s)) as [r|] eqn:Er; subst a; cbn [rv rdata answer answer_data].
  - assert (Ht : typed r) by (rewrite Forall_forall in Hrs; apply Hrs; by eapply list_elem_of_lookup_2).
    destruct (typed_facts r Ht) as (Hz & Hl & Hne).
    destruct (blit_terminate b r) as (b1 & b2 & E1 & E2 & _ & L2 & _ & Hc); [unfold BUF in *; lia|].
    wp_step. rewrite E1. wp_step. rewrite decide_True by (destruct r; [done|cbn; lia]). rewrite E2. apply wp_mem_Some.
    eapply HQ; [congruence|by apply Hc|by st_simpl|by st_simpl].
  - assert (E0 : blit b 0 [] = Some b) by (unfold blit; rewrite decide_True by (cbn; lia); done).
    wp_step. rewrite E0. wp_step. rewrite decide_False by lia. wp_step.
    eapply HQ; [done|done|by st_simpl|by st_simpl].
Qed.
End proofs.

(** What the two see of a turn. *)
Definition server_sees (turn : list Z * option (list Z)) : list Z :=
  str "Nachricht zum versenden: " ++ str "Nachricht empfangen: " ++ default turn.1 turn.2 ++ [LF].
Definition client_sees (turn : list Z * option (list Z)) : list Z :=
  str "Nachricht erhalten:" ++ turn.1 ++ [LF] ++ match turn.2 with Some _ => str "Nachricht zum versenden: " | None => [] end.

Section server.
Context (e : env) (sock : Z) (rs : list (list Z)) {P : Peer e sock rs} (Hrs : Forall typed rs).
Notation out s := (printed Stdout (hist s)).
(** One turn of the server: it ends with the client's answer in the buffer,
    or with its own line when the client is gone. *)
Lemma server_turn s0 rest b s :
  typed s0 → stdin s = s0 ++ rest → length b = (BUF + 1)%nat →
  let r := rs !! heard sock (hist s) in
  wp (Server1.talk_body sock b) e s (λ o s', ∃ b', length b' = (BUF + 1)%nat ∧
    o = Val (if decide (default s0 r = quit) then inr b' else inl b') ∧
    stdin s' = rest ∧ said sock (hist s') = said sock (hist s) ++ [s0] ∧ heard sock (hist s') = S (heard sock (hist s)) ∧
    out s' = out s ++ server_sees (s0, r)).
Proof.
  intros Ht Hi Hb r. unfold Server1.talk_body. wp_steps. eapply fgets_ok; [done|by st_simpl|done|].
  intros b1 s1 Hb1 Hc1 Hi1 Hh1. cbn [bpost]. wp_step. apply wp_mem. rewrite Hc1. cbn [bpost]. do 3 wp_step.
  apply (recv_ok e sock rs); [done|done|]. intros b2 s2 a2 Hb2 Hc2 Hi2 Hh2. cbn [bpost].
  assert (Hh : heard sock (hist (after (Csend sock s0) a s1)) = heard sock (hist s)).
  { st_simpl. rewrite Hh1, !heard_snoc. cbn. lia. }
  rewrite Hh in Hc2. fold r in Hc2.
  assert (Hc : cstr b2 = Some (default s0 r)) by (destruct r; [done|by rewrite Hc2, Hc1]).
  wp_step. apply wp_mem. rewrite Hc. cbn [bpost]. wp_steps.
  assert (Hend : ∀ s', s' = log (Put Stdout (str "Nachricht empfangen: " ++ default s0 r ++ [LF])) s2 →
    stdin s' = rest ∧ said sock (hist s') = said sock (hist s) ++ [s0] ∧ heard sock (hist s') = S (heard sock (hist s)) ∧
    out s' = out s ++ server_sees (s0, r)).
  { intros s' ->. split; [st_simpl; congruence|]. rewrite hist_log, Hh2, hist_after, Hh1, hist_log.
    rewrite !said_snoc, !heard_snoc, !printed_app, !printed_1. cbn [said_of heard_of put_of].
    rewrite !decide_True, !app_nil_r by done. split; [done|]. split; [lia|].
    unfold server_sees. cbn [fst snd]. by rewrite <- !app_assoc. }
  destruct (decide (default s0 r = quit)) as [E|E].
  - rewrite decide_False by tauto. wp_step. exists b2. eauto.
  - rewrite decide_True by done. wp_step. exists b2. eauto.
Qed.
End server.

Lemma drop_cons_lookup {A} n (l : list A) x r : drop n l = x :: r → l !! n = Some x ∧ drop (S n) l = r.
Proof.
  intros H. split; [by rewrite <- (Nat.add_0_r n), <- lookup_drop, H|].
  change (S n) with (1 + n)%nat. by rewrite Nat.add_comm, <- drop_drop, H.
Qed.

Section client.
Context (e : env) (sock : Z) (rs : list (list Z)) {P : Peer e sock rs} (Hrs : Forall typed rs).
Notation out s := (printed Stdout (hist s)).
(** The client stops when it receives quit. *)
Lemma client_quit b s : rs !! heard sock (hist s) = Some quit → length b = (BUF + 1)%nat →
  wp (Client1.talk_body sock b) e s (λ o s', o = Val (inr ()) ∧ stdin s' = stdin s ∧ said sock (hist s') = said sock (hist s) ∧
    out s' = out s ++ client_sees (quit, None)).
Proof.
  intros Hr Hb. unfold Client1.talk_body. wp_step. apply (recv_ok e sock rs); [done|done|].
  intros b1 s1 a1 Hb1 Hc1 Hi1 Hh1. rewrite Hr in Hc1. cbn [bpost]. wp_step. apply wp_mem. rewrite Hc1. cbn [bpost].
  do 3 wp_step. rewrite decide_False by tauto. wp_step. wp_step. apply wp_mem. rewrite Hc1. cbn [bpost]. rewrite decide_False by tauto.
  wp_step. split; [done|]. split; [st_simpl; congruence|].
  rewrite hist_log, Hh1, !said_snoc, !printed_app, !printed_1. cbn [said_of put_of]. by rewrite !app_nil_r.
Qed.
(** Else it answers with the next line [t], and stops when that is quit. *)
Lemma client_turn s0 t rest b s :
  rs !! heard sock (hist s) = Some s0 → s0 ≠ quit → typed t → stdin s = t ++ rest → length b = (BUF + 1)%nat →
  wp (Client1.talk_body sock b) e s (λ o s', ∃ b', length b' = (BUF + 1)%nat ∧
    o = Val (if decide (t = quit) then inr () else inl b') ∧ stdin s' = rest ∧
    said sock (hist s') = said sock (hist s) ++ [t] ∧
    heard sock (hist s') = S (heard sock (hist s)) ∧ out s' = out s ++ client_sees (s0, Some t)).
Proof.
  intros Hr Hq Ht Hi Hb. unfold Client1.talk_body. wp_step. apply (recv_ok e sock rs); [done|done|].
  intros b1 s1 a1 Hb1 Hc1 Hi1 Hh1. rewrite Hr in Hc1. cbn [bpost]. wp_step. apply wp_mem. rewrite Hc1. cbn [bpost].
  do 3 wp_step. rewrite decide_True by done. wp_steps. eapply fgets_ok; [done|by st_simpl; rewrite Hi1|done|].
  intros b2 s2 Hb2 Hc2 Hi2 Hh2. cbn [bpost]. wp_step. apply wp_mem. rewrite Hc2. wp_steps. apply wp_mem. rewrite Hc2. cbn [bpost].
  assert (Hend : ∀ s', s' = after (Csend sock t) a s2 →
    stdin s' = rest ∧ said sock (hist s') = said sock (hist s) ++ [t] ∧ heard sock (hist s') = S (heard sock (hist s)) ∧
    out s' = out s ++ client_sees (s0, Some t)).
  { intros s' ->. split; [by st_simpl|]. rewrite hist_after, Hh2, !hist_log, Hh1.
    rewrite !said_snoc, !heard_snoc, !printed_app, !printed_1. cbn [said_of heard_of put_of].
    rewrite !decide_True, !app_nil_r by done. split; [done|]. split; [lia|].
    unfold client_sees. cbn [fst snd]. by rewrite <- !app_assoc. }
  destruct (decide (t = quit)) as [E|E].
  - rewrite decide_False by tauto. wp_step. exists b2. eauto.
  - rewrite decide_True by done. wp_step. exists b2. eauto.
Qed.
End client.

(** *** Whole sessions *)
Lemma dialog_quit ss ts : dialog (quit :: ss) ts = [(quit, None)].
Proof. by destruct ts. Qed.
Lemma dialog_cons s ss t ts : s ≠ quit →
  dialog (s :: ss) (t :: ts) = (s, Some t) :: if decide (t = quit) then [] else dialog ss ts.
Proof. intros H. cbn [dialog]. by rewrite decide_False. Qed.
Lemma server_session e sock rs {P : Peer e sock rs} (Hrs : Forall typed rs) ss : ∀ ts fuel b s rest,
  Forall typed ss → ended ss ts = true → stdin s = concat ss ++ rest → length b = (BUF + 1)%nat → (length ss < fuel)%nat →
  drop (heard sock (hist s)) rs = omap snd (dialog ss ts) →
  wp (loop fuel (Server1.talk_body sock) b) e s (λ o s', ∃ b', length b' = (BUF + 1)%nat ∧ o = Val b' ∧
    said sock (hist s') = said sock (hist s) ++ (dialog ss ts).*1 ∧
    printed Stdout (hist s') = printed Stdout (hist s) ++ concat (server_sees <$> dialog ss ts)).
Proof.
  induction ss as [|s0 ss IH]; intros ts fuel b s rest Hss He Hi Hb Hf Hd; [by destruct ts|].
  destruct fuel as [|fuel]; [cbn in Hf; lia|]. apply Forall_cons in Hss as [Hs0 Hss]. cbn [concat] in Hi. rewrite <- app_assoc in Hi.
  apply wp_loop_S. eapply wp_mono; [by apply (server_turn e sock rs Hrs s0 (concat ss ++ rest))|].
  intros o s1 (b1 & Hb1 & -> & Hi1 & Hs1 & Hh1 & Ho1). cbn [bpost].
  destruct (decide (s0 = quit)) as [->|Hq].
  - rewrite dialog_quit in *. assert (Hn : rs !! heard sock (hist s) = None).
    { apply lookup_ge_None. apply (f_equal length) in Hd. rewrite length_drop in Hd. cbn in Hd. lia. }
    rewrite Hn in *. cbn [default]. rewrite decide_True by done. exists b1. rewrite Hs1, Ho1. cbn. by rewrite app_nil_r.
  - destruct ts as [|t ts]; [cbn in He; by rewrite bool_decide_false in He|].
    rewrite dialog_cons in * by done. cbn [ended] in He. rewrite bool_decide_false in He by done.
    apply drop_cons_lookup in Hd as [Hr Hd]. rewrite Hr in *. cbn [default]. destruct (decide (t = quit)) as [->|Ht].
    + rewrite decide_True in * by done. exists b1. rewrite Hs1, Ho1. split_and!; done.
    + rewrite bool_decide_false in He by done. rewrite decide_False in * by done. rewrite <- Hh1 in Hd.
      eapply wp_mono; [apply (IH ts fuel b1 s1 rest); try done; cbn in Hf; lia|].
      intros o s2 (b2 & Hb2 & -> & Hs2 & Ho2). exists b2. rewrite Hs2, Ho2, Hs1, Ho1. cbn. by rewrite <- !app_assoc.
Qed.
Lemma client_session_ok e sock rs {P : Peer e sock rs} (Hrs : Forall typed rs) ss : ∀ ts fuel b s rest,
  Forall typed ts → ended ss ts = true → stdin s = concat ts ++ rest → length b = (BUF + 1)%nat → (length ss < fuel)%nat →
  drop (heard sock (hist s)) rs = (dialog ss ts).*1 →
  wp (loop fuel (Client1.talk_body sock) b) e s (λ o s', o = Val () ∧
    said sock (hist s') = said sock (hist s) ++ omap snd (dialog ss ts) ∧
    printed Stdout (hist s') = printed Stdout (hist s) ++ concat (client_sees <$> dialog ss ts)).
Proof.
  induction ss as [|s0 ss IH]; intros ts fuel b s rest Hts He Hi Hb Hf Hd; [by destruct ts|].
  destruct fuel as [|fuel]; [cbn in Hf; lia|]. apply wp_loop_S.
  destruct (decide (s0 = quit)) as [->|Hq].
  - rewrite dialog_quit in *. apply drop_cons_lookup in Hd as [Hr _].
    eapply wp_mono; [by apply (client_quit e sock rs Hrs)|]. intros o s1 (-> & _ & Hs1 & Ho1). cbn [bpost].
    rewrite Hs1, Ho1. cbn. by rewrite !app_nil_r.
  - destruct ts as [|t ts]; [cbn in He; by rewrite bool_decide_false in He|].
    apply Forall_cons in Hts as [Ht0 Hts]. cbn [concat] in Hi. rewrite <- app_assoc in Hi.
    rewrite dialog_cons in * by done. cbn [ended] in He. rewrite bool_decide_false in He by done.
    apply drop_cons_lookup in Hd as [Hr Hd].
    eapply wp_mono; [by apply (client_turn e sock rs Hrs s0 t (concat ts ++ rest))|].
    intros o s1 (b1 & Hb1 & -> & Hi1 & Hs1 & Hh1 & Ho1). cbn [bpost].
    destruct (decide (t = quit)) as [->|Ht].
    + rewrite Hs1, Ho1. cbn. by rewrite !app_nil_r.
    + rewrite bool_decide_false in He by done. rewrite <- Hh1 in Hd.
      eapply wp_mono; [apply (IH ts fuel b1 s1 rest); try done; cbn in Hf; lia|].
      intros o s2 (-> & Hs2 & Ho2). rewrite Hs2, Ho2, Hs1, Ho1. cbn. by rewrite <- !app_assoc.
Qed.

Lemma typed_dialog ss : ∀ ts, Forall typed ss → Forall typed ts →
  Forall typed (dialog ss ts).*1 ∧ Forall typed (omap snd (dialog ss ts)).
Proof.
  induction ss as [|s ss IH]; intros ts Hs Ht; [by split|]. apply Forall_cons in Hs as [Hs Hss].
  destruct ts as [|t ts]; cbn [dialog]; [case_decide; repeat constructor; done|].
  apply Forall_cons in Ht as [Ht Hts]. destruct (IH ts Hss Hts).
  case_decide; [repeat constructor; done|]. case_decide; cbn; repeat constructor; done.
Qed.

(** The two ends of a connection over which [ss] and [ts] are exchanged: the
    server's [accept] on [cs] gives [sock1] and the address [a1], the client's
    [socket] gives [sock2], and each receives what the other sends. *)
Record Connected (e1 e2 : env) (cs sock1 sock2 a1 a2 : Z) (host : list Z) (ss ts : list (list Z)) : Prop := {
  con_accept h : kern e1 h (Caccept cs) = Ans sock1 0 [] [a1] [];
  con_socket h d t p : rv (kern e2 h (Csocket d t p)) = sock2;
  con_connect h a p : rv (kern e2 h (Cconnect sock2 a p)) = 0;
  con_addr : inet_aton e2 host = Some a2;
  con_pos : 0 < sock1 ∧ 0 < sock2;
  con_server : Peer e1 sock1 (omap snd (dialog ss ts));
  con_client : Peer e2 sock2 (dialog ss ts).*1
}.
Lemma uninit_buf : length (uninit (BUF + 1)) = (BUF + 1)%nat.
Proof. apply length_replicate. Qed.


(** A kernel that delivers [rs] on [sock] and connects everything to it. *)
Definition peer_kern (sock : Z) (rs : list (list Z)) (h : list event) (c : call) : ans :=
  match c with
  | Crecv _ _ => match rs !! heard sock h with Some r => answer_data (Z.of_nat (length r)) r | None => answer 0 end
  | Caccept _ => Ans sock 0 [] [0x0100007F] []
  | Csocket _ _ _ => answer sock
  | _ => answer 0
  end.
Definition peer_env (sock : Z) (rs : list (list Z)) : env :=
  Env (peer_kern sock rs) (λ _, []) (λ _, None) (λ _, Some 0x0100007F) (λ _, []).
Definition chat_ss : list (list Z) := [line "Hallo"; line "quit"].
Definition chat_ts : list (list Z) := [line "Guten Tag"].
Example chat_inet_ntoa : inet_ntoa 0x0100007F = str "127.0.0.1".
Proof. by_compute. Qed.
