(* ===== verification/Inet.v ===== *)
(** * 11_Network: parts of an address, and datagrams

    [addr.c] takes an address apart and puts it together again with the
    functions of the C library that know the three classes of networks.
    [udp_client.c] sends its arguments as datagrams, [udp_server.c] shows the
    datagrams it receives. *)
From S2P Require Import Prelude CLib Machine FileIO.

(** ** Unsigned 32-bit numbers *)
Definition u32 (z : Z) : Prop := 0 ≤ z < 0x100000000.
Lemma u32_pow z : u32 z ↔ 0 ≤ z < 2 ^ 32.
Proof. done. Qed.
(** Two numbers of 32 bits are equal if their bits are: [Z.testbit] is
    computed bit by bit. *)
Lemma u32_bits a b : u32 a → u32 b → (∀ n, 0 ≤ n < 32 → Z.testbit a n = Z.testbit b n) → a = b.
Proof.
  intros Ha Hb H. apply Z.bits_inj'. intros n Hn. destruct (decide (n < 32)) as [?|Hge]; [apply H; lia|].
  assert (∀ x, u32 x → Z.testbit x n = false) as Hz; [|by rewrite !Hz].
  intros x [Hx0 Hx]%u32_pow. destruct (decide (x = 0)) as [->|]; [apply Z.bits_0|].
  apply Z.bits_above_log2; [lia|]. apply Z.log2_lt_pow2; [lia|]. apply Z.lt_le_trans with (2 ^ 32); [done|].
  apply Z.pow_le_mono_r; lia.
Qed.
Lemma below_32 (P : Z → Prop) :
  P 0 → P 1 → P 2 → P 3 → P 4 → P 5 → P 6 → P 7 → P 8 → P 9 → P 10 → P 11 → P 12 → P 13 → P 14 → P 15 → 
  P 16 → P 17 → P 18 → P 19 → P 20 → P 21 → P 22 → P 23 → P 24 → P 25 → P 26 → P 27 → P 28 → P 29 → P 30 → P 31 → 
  ∀ n, 0 ≤ n < 32 → P n.
Proof.
  intros.
  assert (Forall P (seqZ 0 32)) as HP by (vm_compute seqZ; repeat constructor; done).
  rewrite Forall_forall in HP. apply HP, elem_of_seqZ. lia.
Qed.
(** One step of the computation of a bit with a constant number. *)
Ltac bit_step :=
  match goal with
  | |- context [Z.testbit ?a (Z.neg ?p)] => rewrite (Z.testbit_neg_r a (Z.neg p)) by lia
  | |- context [Z.testbit (Z.land ?a ?b) ?n] => rewrite (Z.land_spec a b n)
  | |- context [Z.testbit (Z.lor ?a ?b) ?n] => rewrite (Z.lor_spec a b n)
  | |- context [Z.testbit (Z.shiftl ?a ?k) ?n] =>
      rewrite (Z.shiftl_spec a k n) by lia; let r := eval vm_compute in (n - k) in change (n - k) with r
  | |- context [Z.testbit (Z.shiftr ?a ?k) ?n] =>
      rewrite (Z.shiftr_spec a k n) by lia; let r := eval vm_compute in (n + k) in change (n + k) with r
  | |- context [Z.testbit (Z.pos ?p) ?n] =>
      let r := eval vm_compute in (Z.testbit (Z.pos p) n) in change (Z.testbit (Z.pos p) n) with r
  end.
Ltac bits32 :=
  apply below_32; cbv beta; repeat bit_step; rewrite ?andb_true_r, ?andb_false_r, ?orb_false_r, ?orb_false_l; done.

Lemma u32_land a m : 0 ≤ m → u32 a → u32 (Z.land a m).
Proof.
  rewrite !u32_pow. intros Hm [H1 H2]. split; [apply Z.land_nonneg; lia|].
  destruct (decide (Z.land a m = 0)) as [->|]; [done|].
  assert (0 ≤ Z.land a m) by (apply Z.land_nonneg; lia).
  apply Z.log2_lt_pow2; [lia|]. pose proof (Z.log2_land a m H1 Hm).
  destruct (decide (a = 0)) as [->|]; [by rewrite Z.land_0_l in *|].
  assert (Z.log2 a < 32) by (apply Z.log2_lt_pow2; lia). lia.
Qed.
Lemma u32_lor a b : u32 a → u32 b → u32 (Z.lor a b).
Proof.
  rewrite (u32_pow (Z.lor a b)). intros [H1 H2] [H3 H4]. split; [apply Z.lor_nonneg; lia|].
  destruct (decide (Z.lor a b = 0)) as [->|]; [done|]. assert (0 ≤ Z.lor a b) by (apply Z.lor_nonneg; lia).
  apply Z.log2_lt_pow2; [lia|]. rewrite Z.log2_lor by lia.
  assert (∀ x, u32 x → Z.log2 x < 32) as Hx.
  { intros x [Hx1 Hx2]%u32_pow. destruct (decide (x = 0)) as [->|]; [done|]. apply Z.log2_lt_pow2; lia. }
  pose proof (Hx a (conj H1 H2)). pose proof (Hx b (conj H3 H4)). lia.
Qed.
Lemma u32_byte x k : 0 ≤ k ≤ 24 → u32 (Z.shiftl (Z.land x 0xFF) k).
Proof.
  intros Hk. change 0xFF with (Z.ones 8). rewrite Z.land_ones, Z.shiftl_mul_pow2 by lia.
  pose proof (Z.mod_pos_bound x (2 ^ 8) ltac:(lia)).
  assert (0 < 2 ^ k ≤ 2 ^ 24) by (split; [apply Z.pow_pos_nonneg; lia|apply Z.pow_le_mono_r; lia]).
  rewrite u32_pow. nia.
Qed.
Lemma bswap32_range a : u32 (bswap32 a).
Proof.
  unfold bswap32. rewrite <- (Z.shiftl_0_r (Z.land (Z.shiftr a 24) 0xFF)).
  repeat apply u32_lor; apply u32_byte; lia.
Qed.
Lemma bswap32_inv a : u32 a → bswap32 (bswap32 a) = a.
Proof. intros Ha. apply u32_bits; [apply bswap32_range|done|]. unfold bswap32. bits32. Qed.

(** ** addr.c *)
Module Addr.
(** A shift of an unsigned number of 32 bits. *)
Definition shl32 (a k : Z) : Z := Z.land (Z.shiftl a k) 0xFFFFFFFF.
Definition IN_CLASSA (i : Z) : bool := bool_decide (Z.land i 0x80000000 = 0).
Definition IN_CLASSB (i : Z) : bool := bool_decide (Z.land i 0xC0000000 = 0x80000000).
(** The C library: the number of the network, the rest, and their address. *)
Definition inet_netof (ip : Z) : Z :=
  let i := ntohl ip in
  if IN_CLASSA i then Z.shiftr (Z.land i 0xFF000000) 24
  else if IN_CLASSB i then Z.shiftr (Z.land i 0xFFFF0000) 16
  else Z.shiftr (Z.land i 0xFFFFFF00) 8.
Definition inet_lnaof (ip : Z) : Z :=
  let i := ntohl ip in
  if IN_CLASSA i then Z.land i 0xFFFFFF else if IN_CLASSB i then Z.land i 0xFFFF else Z.land i 0xFF.
Definition makeaddr (net host : Z) : Z :=
  if decide (net < 128) then Z.lor (shl32 net 24) (Z.land host 0xFFFFFF)
  else if decide (net < 65536) then Z.lor (shl32 net 16) (Z.land host 0xFFFF)
  else if decide (net < 16777216) then Z.lor (shl32 net 8) (Z.land host 0xFF)
  else Z.lor net host.
Definition inet_makeaddr (net host : Z) : Z := htonl (makeaddr net host).

Definition ip_adressen (ip_addr : list Z) : M unit unit :=
  e ← ask;
  match inet_aton e ip_addr with
  | None => mret ()
  | Some ip =>
      printf ([LF] ++ line " *** Gesamtteil der IP-Adresse *** ");;
      printf (str "IP-Adresse                               : " ++ ip_addr ++ [LF]);;
      printf (str "IP-Adresse als 32-bit Wert - inet_aton() : " ++ dec ip ++ [LF]);;
      printf (str "IP-Adresse string - inet_ntoa()          : " ++ inet_ntoa ip ++ [LF])
  end.
Definition net_num (ip : Z) : Z := ntohl (shl32 (inet_netof ip) 8).
Definition lokal_num (ip : Z) : Z := ntohl (inet_lnaof ip).
Definition ip_netzwerk (ip_addr : list Z) : M unit unit :=
  e ← ask;
  match inet_aton e ip_addr with
  | None => mret ()
  | Some ip =>
      if decide (inet_netof ip = 0) then mret ()
      else
        printf ([LF] ++ line " *** Netzwerkteil der IP-Adresse *** ");;
        printf (str "Netzwerk-Teil der Adresse `inet_netof()` : " ++ dec (inet_netof ip) ++ [LF]);;
        printf (str "--->" ++ inet_ntoa (net_num ip));;
        printf (str "--> (als 32-bit Wert)   : " ++ dec (net_num ip) ++ [LF]);;
        printf (str "inet_makeaddr()-> (als 32-bit Wert)      : " ++
                dec (to_int (inet_makeaddr (htonl (net_num ip)) 0)) ++ [LF])
  end.
Definition ip_lokal (ip_addr : list Z) : M unit unit :=
  e ← ask;
  match inet_aton e ip_addr with
  | None => mret ()
  | Some ip =>
      printf ([LF] ++ line " *** Lokaler Teil der IP-Adresse *** ");;
      printf (str "--->" ++ inet_ntoa (lokal_num ip));;
      printf (str "--> (als 32-bit Wert)     : " ++ dec (lokal_num ip) ++ [LF]);;
      printf (str "inet_makeaddr()-> (als 32-bit Wert)    : " ++ dec (inet_makeaddr 0 (htonl (lokal_num ip))) ++ [LF])
  end.
Definition zusammen (ip : Z) : Z := inet_makeaddr (htonl (net_num ip)) (htonl (lokal_num ip)).
Definition ip_zusammen (ip_addr : list Z) : M unit unit :=
  e ← ask;
  match inet_aton e ip_addr with
  | None => mret ()
  | Some ip =>
      printf ([LF] ++ line " *** Lokale Teile und Netzwerkteil zusammensetzen *** ");;
      printf (str "Lokaler Teil: ");;
      printf (pad_left 21 (inet_ntoa (lokal_num ip)) ++ str " = ");;
      printf (str "(als 32-bit Wert : " ++ dec (lokal_num ip) ++ [LF]);;
      printf (str "Netzwerk Teil: ");;
      printf (pad_left 20 (inet_ntoa (net_num ip)) ++ str " = ");;
      printf (str "(als 32-bit Wert : " ++ dec (net_num ip) ++ [LF]);;
      printf (str "Alles wieder mit inet_makeaddr() zusamenfuegt: ");;
      printf ([LF] ++ inet_ntoa (zusammen ip) ++ str " = " ++ dec (zusammen ip) ++ [LF])
  end.
Definition addr_main (argv : list (list Z)) : M unit Z :=
  (if decide (length argv ≠ 2%nat) then
     a0 ← arg argv 0; printf (str "Verwendung " ++ a0 ++ line " IP-Adresse")
   else
     ptr ← arg argv 1;
     ip_adressen ptr;; ip_netzwerk ptr;; ip_lokal ptr;; ip_zusammen ptr);;
  mret EXIT_SUCCESS.

(** *** Putting the parts together *)

(** What comes out, in the byte order of the host: the second byte of an
    address of class A is lost, and the third of one of class B. *)
Definition combined (i : Z) : Z :=
  if decide (i < 0x1000000) then i
  else if decide (i < 0x80000000) then Z.land i 0xFF00FFFF
  else if decide (i < 0xC0000000) then Z.land i 0xFFFF00FF
  else i.
(** The upper part of a number, as a quotient. *)
Lemma high_bits i m k p :
  u32 i → 0 ≤ m → 0 ≤ k → p = 2 ^ k → (∀ n, 0 ≤ n < 32 → Z.testbit (Z.land i m) n = Z.testbit (Z.shiftl (Z.shiftr i k) k) n) →
  Z.land i m = i / p * p.
Proof.
  intros Hi Hm Hk -> H. rewrite <- Z.shiftr_div_pow2, <- Z.shiftl_mul_pow2 by done.
  apply u32_bits; [by apply u32_land| |done]. rewrite Z.shiftl_mul_pow2, Z.shiftr_div_pow2 by done.
  assert (0 < 2 ^ k) by (apply Z.pow_pos_nonneg; lia). pose proof (Z.mul_div_le i (2 ^ k) ltac:(done)).
  destruct Hi. assert (0 ≤ i / 2 ^ k) by (apply Z.div_pos; lia). unfold u32. nia.
Qed.
Ltac div_lia := unfold u32 in *; Z.to_euclidean_division_equations; lia.
Lemma class_a i : u32 i → IN_CLASSA i = bool_decide (i < 0x80000000).
Proof.
  intros Hi. unfold IN_CLASSA. apply bool_decide_ext.
  rewrite (high_bits i _ 31 0x80000000); [|done|lia|lia|done|bits32]. div_lia.
Qed.
Lemma class_b i : u32 i → ¬ i < 0x80000000 → IN_CLASSB i = bool_decide (i < 0xC0000000).
Proof.
  intros Hi Hge. unfold IN_CLASSB. apply bool_decide_ext.
  rewrite (high_bits i _ 30 0x40000000); [|done|lia|lia|done|bits32]. div_lia.
Qed.
Lemma u32_mask x : u32 (Z.land x 0xFFFFFFFF).
Proof. change 0xFFFFFFFF with (Z.ones 32). rewrite Z.land_ones by done. apply Z.mod_pos_bound. done. Qed.
Lemma shl32_8 a : 0 ≤ a < 0x1000000 → shl32 a 8 = a * 256.
Proof.
  intros Ha. unfold shl32. change 0xFFFFFFFF with (Z.ones 32). rewrite Z.land_ones, Z.shiftl_mul_pow2 by done.
  change (2 ^ 8) with 256. apply Z.mod_small. change (2 ^ 32) with 0x100000000. lia.
Qed.
Lemma net_part i m k p :
  u32 i → 0 ≤ m → 0 ≤ k → p = 2 ^ k → (∀ n, 0 ≤ n < 32 → Z.testbit (Z.land i m) n = Z.testbit (Z.shiftl (Z.shiftr i k) k) n) →
  Z.shiftr (Z.land i m) k = i / p.
Proof.
  intros Hi Hm Hk -> H. rewrite (high_bits i m k _ Hi Hm Hk eq_refl H), Z.shiftr_div_pow2 by done.
  apply Z.div_mul. apply Z.pow_nonzero; lia.
Qed.
Lemma join_a i : u32 i → 0x1000000 ≤ i < 0x80000000 →
  makeaddr (shl32 (Z.shiftr (Z.land i 0xFF000000) 24) 8) (Z.land i 0xFFFFFF) = Z.land i 0xFF00FFFF.
Proof.
  intros Hi Hr. assert (Z.shiftr (Z.land i 0xFF000000) 24 = i / 0x1000000) as En by (apply net_part; [done..|bits32]).
  unfold makeaddr. assert (1 ≤ i / 0x1000000 < 128) as Hn by div_lia.
  assert (shl32 (Z.shiftr (Z.land i 0xFF000000) 24) 8 = i / 0x1000000 * 256) as Es by (rewrite En; apply shl32_8; lia).
  rewrite decide_False, decide_True by lia.
  apply u32_bits; [apply u32_lor; [apply u32_mask|by repeat apply u32_land]|by apply u32_land|unfold shl32; bits32].
Qed.
Lemma join_b i : u32 i → 0x80000000 ≤ i < 0xC0000000 →
  makeaddr (shl32 (Z.shiftr (Z.land i 0xFFFF0000) 16) 8) (Z.land i 0xFFFF) = Z.land i 0xFFFF00FF.
Proof.
  intros Hi Hr. assert (Z.shiftr (Z.land i 0xFFFF0000) 16 = i / 0x10000) as En by (apply net_part; [done..|bits32]).
  unfold makeaddr. assert (0x8000 ≤ i / 0x10000 < 0xC000) as Hn by div_lia.
  assert (shl32 (Z.shiftr (Z.land i 0xFFFF0000) 16) 8 = i / 0x10000 * 256) as Es by (rewrite En; apply shl32_8; lia).
  rewrite decide_False, decide_False, decide_True by lia.
  apply u32_bits; [apply u32_lor; [apply u32_mask|by repeat apply u32_land]|by apply u32_land|unfold shl32; bits32].
Qed.
Lemma join_c i : u32 i → 0xC0000000 ≤ i →
  makeaddr (shl32 (Z.shiftr (Z.land i 0xFFFFFF00) 8) 8) (Z.land i 0xFF) = i.
Proof.
  intros Hi Hr. assert (Z.shiftr (Z.land i 0xFFFFFF00) 8 = i / 0x100) as En by (apply net_part; [done..|bits32]).
  unfold makeaddr. assert (0xC00000 ≤ i / 0x100 < 0x1000000) as Hn by div_lia.
  assert (shl32 (Z.shiftr (Z.land i 0xFFFFFF00) 8) 8 = i / 0x100 * 256) as Es by (rewrite En; apply shl32_8; lia).
  rewrite decide_False, decide_False, decide_False by lia.
  apply u32_bits; [apply u32_lor; [apply u32_mask|by apply u32_land]|done|unfold shl32; bits32].
Qed.
Lemma join_0 i : 0 ≤ i < 0x1000000 →
  makeaddr (shl32 (Z.shiftr (Z.land i 0xFF000000) 24) 8) (Z.land i 0xFFFFFF) = i.
Proof.
  intros Hi. assert (u32 i) by div_lia.
  assert (Z.shiftr (Z.land i 0xFF000000) 24 = i / 0x1000000) as En by (apply net_part; [done..|bits32]).
  assert (i / 0x1000000 = 0) as E0 by div_lia. rewrite En, E0. unfold makeaddr.
  rewrite decide_True by done. change 0xFFFFFF with (Z.ones 24). rewrite !Z.land_ones by done.
  change (Z.lor (shl32 (shl32 0 8) 24)) with (Z.lor 0). rewrite Z.lor_0_l. change (2 ^ 24) with 0x1000000.
  rewrite Z.mod_mod by done. by apply Z.mod_small.
Qed.
(** The host's view of the address put together from its parts. *)
Lemma zusammen_combined ip : ntohl (zusammen ip) = combined (ntohl ip).
Proof.
  assert (Hi : u32 (ntohl ip)) by apply bswap32_range.
  unfold zusammen, inet_makeaddr, net_num, lokal_num, ntohl, htonl in *.
  assert (u32 (inet_lnaof ip)) as Hl by (unfold inet_lnaof; repeat case_match; by apply u32_land).
  rewrite (bswap32_inv (shl32 _ _)) by apply u32_mask. rewrite (bswap32_inv (inet_lnaof ip)) by done.
  rewrite bswap32_inv.
  2: { unfold makeaddr. repeat case_decide; apply u32_lor; try apply u32_mask; try done; by repeat apply u32_land. }
  unfold inet_netof, inet_lnaof, combined, ntohl in *. set (i := bswap32 ip) in *. clear Hl. rewrite class_a by done.
  destruct (decide (i < 0x80000000)) as [HA|HA].
  - rewrite bool_decide_true by done. destruct (decide (i < 0x1000000)) as [H0|H0].
    + apply join_0. destruct Hi. lia.
    + apply join_a; [done|lia].
  - rewrite bool_decide_false, class_b, (decide_False (P := i < 0x1000000)) by (done || lia).
    destruct (decide (i < 0xC0000000)) as [HB|HB].
    + rewrite bool_decide_true by done. apply join_b; [done|lia].
    + rewrite bool_decide_false by done. apply join_c; [done|lia].
Qed.

Lemma ip_parts_return e f a s : f ∈ [ip_adressen; ip_netzwerk; ip_lokal] → wp (f a) e s (λ o _, o = Val ()).
Proof.
  intros Hf. rewrite !elem_of_cons, elem_of_nil in Hf.
  destruct Hf as [-> | [-> | [-> | []]]]; unfold ip_adressen, ip_netzwerk, ip_lokal; wp_steps;
    (destruct (inet_aton e a); [|by wp_steps]); wp_steps; try done. case_decide; by wp_steps.
Qed.
(** C38. addr.c puts the two parts of an address together again: what it
    prints last is the address with the host part it has kept, which is the
    whole address for a network of class C, but has lost the second byte for
    one of class A and the third for one of class B. *)
Theorem addr_recombines e prog a ip inp : inet_aton e a = Some ip →
  wp (addr_main [prog; a]) e (init () inp) (λ o s, o = Val EXIT_SUCCESS ∧
    let z := htonl (combined (ntohl ip)) in
    ∃ text, printed Stdout (hist s) = text ++ [LF] ++ inet_ntoa z ++ str " = " ++ dec z ++ [LF]).
Proof.
  intros Ha. assert (zusammen ip = htonl (combined (ntohl ip))) as Ez.
  { rewrite <- zusammen_combined. symmetry. apply bswap32_inv, bswap32_range. }
  unfold addr_main. wp_step. rewrite decide_False by (cbn; lia). unfold arg. wp_steps.
  do 3 (wp_steps; eapply wp_mono; [apply ip_parts_return; set_solver|]; intros ? ? ->; cbn [bpost]).
  unfold ip_zusammen. wp_steps. rewrite Ha. wp_steps. split; [done|]. cbv zeta. rewrite <- Ez. hist_norm.
  eexists. rewrite !app_assoc. do 5 f_equal.
Qed.
(** 10.1.2.3 comes out as 10.0.2.3. *)
Definition aton_env : env := Env (λ _ _, answer 0) (λ _, []) (λ _, None) (λ _, Some 0x0302010A) (λ _, []).
Lemma addr_recombines_witness :
  inet_ntoa (htonl (combined (ntohl 0x0302010A))) = str "10.0.2.3" ∧
  wp (addr_main [str "addr"; str "10.1.2.3"]) aton_env (init () []) (λ o s, o = Val EXIT_SUCCESS ∧
    let z := htonl (combined (ntohl 0x0302010A)) in
    ∃ text, printed Stdout (hist s) = text ++ [LF] ++ inet_ntoa z ++ str " = " ++ dec z ++ [LF]).
Proof. split; [by_compute|]. by apply addr_recombines. Defined.
End Addr.

(** ** udp_server.c and udp_client.c *)
Module Udp.
Definition BUF : nat := 255.
Definition SERVER_PORT : Z := 1234.

(** [strncpy]: at most [n] characters, filled up with zeros. *)
Definition strncpy (b : buf) (s : list Z) (n : nat) : option buf :=
  blit b 0 (take n s ++ replicate (n - length s) 0).

Section server.
(** The text [ctime] makes of a time depends on the time zone. *)
Context (ctime : Z → list Z) (argv0 : list Z).

(** One datagram; [puffer] and [loctime] are the two arrays of [main].  The
    sender's address and port are the words of the answer. *)
Definition receive_body (s : Z) (arrays : buf * buf) : M unit (buf * buf + Z) :=
  let '(puffer, loctime) := arrays in
  puffer ← mem (blit puffer 0 (replicate BUF 0));
  n ← sys (Crecvfrom s (Z.of_nat BUF));
  puffer ← mem (blit puffer 0 (rdata n));
  if decide (rv n < 0) then
    printf (argv0 ++ line ": Kann keine Daten empfangen ...");; mret (inl (puffer, loctime))
  else
    time1 ← sys Ctime;
    loctime ← mem (strncpy loctime (ctime (rv time1)) BUF);
    l ← mem (cstr loctime);
    ptr ← mem (strchr l LF);
    loctime ← mem (bset loctime (Z.of_nat (length l - length ptr)) 0);
    l ← mem (cstr loctime);
    addr ← mem (rwords n !! 0%nat);
    port ← mem (rwords n !! 1%nat);
    text ← mem (cstr puffer);
    printf (l ++ str ": Daten erhalten von " ++ inet_ntoa addr ++ str ":UDP" ++ dec (htons port) ++ str " : " ++
            text ++ line " ");;
    mret (inl (puffer, loctime)).
Definition udp_server_main (fuel : nat) : M unit Z :=
  s ← sys (Csocket AF_INET SOCK_DGRAM 0);
  (if decide (rv s < 0) then
     m ← errmsg; printf (argv0 ++ str ": Kann Socket nicht öffnen ...(" ++ m ++ line ")");; exit EXIT_FAILURE
   else mret ());;
  sys (Csetsockopt (rv s) SOL_SOCKET SO_REUSEADDR);;
  rc ← sys (Cbind (rv s) (htons INADDR_ANY) (htons SERVER_PORT));
  (if decide (rv rc < 0) then
     m ← errmsg;
     printf (argv0 ++ str ": Kann Portnummer " ++ dec SERVER_PORT ++ str " nicht binden (" ++ m ++ line ")");; exit EXIT_FAILURE
   else mret ());;
  printf (argv0 ++ str ": Wartet auf Daten am Port (UDP), " ++ dec SERVER_PORT ++ [LF]);;
  loop fuel (receive_body (rv s)) (uninit (BUF + 1), uninit (BUF + 1)).
End server.

(** [for (i = 2; i < argc; ++i)]: [i] is the number of the argument [d]. *)
Fixpoint send_args (argv0 : list Z) (s addr port i : Z) (ds : list (list Z)) : M unit unit :=
  match ds with
  | [] => mret ()
  | d :: ds =>
      rc ← sys (Csendto s (d ++ [0]) addr port);
      if decide (rv rc < 0) then
        printf (argv0 ++ str ": Konnte Datei nicht senden " ++ dec (i - 1) ++ str ": " ++ d ++ [LF]);; exit EXIT_FAILURE
      else send_args argv0 s addr port (i + 1) ds
  end.
Definition udp_client_main (argv : list (list Z)) : M unit Z :=
  argv0 ← arg argv 0;
  if decide (length argv < 3)%nat then
    printf (str "Usage: " ++ argv0 ++ line " <server> <data1> ... <dataN>");; exit EXIT_FAILURE
  else
    a1 ← arg argv 1;
    h ← sys (Cgethostbyname a1);
    if decide (rv h = 0) then
      printf (argv0 ++ str ": unbekannter Host '" ++ a1 ++ line "'");; exit EXIT_FAILURE
    else
      h_name ← mem (head (rstrs h));
      addr ← mem (head (rwords h));
      printf (argv0 ++ str ": sende Daten an '" ++ h_name ++ str "' (IP : " ++ inet_ntoa addr ++ line ")");;
      s ← sys (Csocket AF_INET SOCK_DGRAM 0);
      if decide (rv s < 0) then
        m ← errmsg; printf (argv0 ++ str ": Kann Socket nicht oeffnen (" ++ m ++ line ")");; exit EXIT_FAILURE
      else
        rc ← sys (Cbind (rv s) (htonl INADDR_ANY) (htons 0));
        if decide (rv rc < 0) then
          m ← errmsg; printf (argv0 ++ str ": Kann Port nicht binden (" ++ m ++ line ")");; exit EXIT_FAILURE
        else
          send_args argv0 (rv s) addr (htons SERVER_PORT) 2 (drop 2 argv);;
          mret EXIT_SUCCESS.

(** The datagrams given to the kernel. *)
Definition datagram_of (ev : event) : list (list Z) :=
  match ev with Sys (Csendto _ d _ _) _ => [d] | _ => [] end.
Definition datagrams (h : list event) : list (list Z) := h ≫= datagram_of.
Lemma datagrams_snoc h ev : datagrams (h ++ [ev]) = datagrams h ++ datagram_of ev.
Proof. unfold datagrams. rewrite bind_app. cbn. by rewrite app_nil_r. Qed.

(** A kernel that resolves the name and sends every datagram. *)
Class Sends (e : env) (addr : Z) (name : list Z) : Prop := {
  sends_host h n : kern e h (Cgethostbyname n) = Ans 1 0 [] [addr] [name];
  sends_socket h d t p : 0 ≤ rv (kern e h (Csocket d t p));
  sends_bind h fd a p : 0 ≤ rv (kern e h (Cbind fd a p));
  sends_data h fd d a p : 0 ≤ rv (kern e h (Csendto fd d a p))
}.
Lemma send_args_all e addr0 name {S : Sends e addr0 name} argv0 sk addr port ds : ∀ i s,
  wp (send_args argv0 sk addr port i ds) e s (λ o s', o = Val () ∧
    datagrams (hist s') = datagrams (hist s) ++ ((λ d, d ++ [0]) <$> ds)).
Proof.
  induction ds as [|d ds IH]; intros i s; cbn [send_args].
  - wp_step. split; [done|]. by rewrite app_nil_r.
  - wp_step. wp_step. pose proof (sends_data (hist s) sk (d ++ [0]) addr port) as Hp. rewrite <- Ha in Hp.
    rewrite decide_False by lia. eapply wp_mono; [apply IH|]. intros o s' [-> Hd]. split; [done|].
    rewrite Hd, hist_after, datagrams_snoc. cbn. by rewrite <- app_assoc.
Qed.

(** The arrays of the server: the last cell of [puffer] is never written. *)
Definition arrays_ok (a : buf * buf) : Prop :=
  length a.1 = (BUF + 1)%nat ∧ drop BUF a.1 = [None] ∧ length a.2 = (BUF + 1)%nat.
Lemma puffer_front (b : buf) l : length b = (BUF + 1)%nat → drop BUF b = [None] → (length l ≤ BUF)%nat →
  ∃ b', blit b 0 l = Some b' ∧ length b' = (BUF + 1)%nat ∧ drop BUF b' = [None].
Proof.
  intros Hb Hd Hl. exists ((Some <$> l) ++ drop (length l) b). split; [apply blit_Some; cbn; lia|].
  split; [rewrite length_app, length_fmap, length_drop; lia|].
  rewrite drop_app_ge by (rewrite length_fmap; lia). by rewrite length_fmap, drop_drop, Nat.add_comm, Nat.sub_add.
Qed.
Lemma cstr_open (t : list Z) : nozero t → cstr ((Some <$> t) ++ [None]) = None.
Proof. intros Ht. induction Ht as [|c t Hc Ht IH]; [done|]. cbn. by rewrite decide_False, IH. Qed.

Definition ctime_ok (ctime : Z → list Z) : Prop :=
  ∀ t, ∃ c, ctime t = c ++ [LF] ∧ LF ∉ c ∧ nozero c ∧ (length c < BUF - 1)%nat.
(** The line the server prints for a datagram. *)
Definition report (time addr port : Z) (ctime : Z → list Z) (d : list Z) : list Z :=
  take (length (ctime time) - 1) (ctime time) ++ str ": Daten erhalten von " ++ inet_ntoa addr ++ str ":UDP" ++ dec (htons port) ++
  str " : " ++ d ++ line " ".

Lemma strncpy_shape (b : buf) l : length b = (BUF + 1)%nat → (length l < BUF)%nat →
  ∃ r, strncpy b l BUF = Some ((Some <$> l) ++ Some 0 :: r) ∧ length ((Some <$> l) ++ Some 0 :: r) = (BUF + 1)%nat.
Proof.
  intros Hb Hl. unfold strncpy. rewrite take_ge by lia. destruct (BUF - length l)%nat as [|k] eqn:Ek; [lia|].
  exists ((Some <$> replicate k 0) ++ drop BUF b).
  assert (length (l ++ replicate (S k) 0) = BUF) as Hlen by (rewrite length_app, length_replicate; lia).
  split.
  - rewrite blit_Some by lia. rewrite Hlen, fmap_app, <- app_assoc. done.
  - rewrite length_app, length_fmap. cbn [length]. rewrite length_app, length_fmap, length_replicate, length_drop. lia.
Qed.
(** The time without its newline. *)
Lemma time_text ctime t (b : buf) : ctime_ok ctime → length b = (BUF + 1)%nat → ∃ b1 b2 c,
  strncpy b (ctime t) BUF = Some b1 ∧ cstr b1 = Some (c ++ [LF]) ∧ strchr (c ++ [LF]) LF = Some [LF] ∧
  bset b1 (Z.of_nat (length (c ++ [LF]) - length [LF])) 0 = Some b2 ∧ cstr b2 = Some c ∧ length b2 = (BUF + 1)%nat ∧
  c = take (length (ctime t) - 1) (ctime t).
Proof.
  intros Hc Hb. destruct (Hc t) as (c & Ec & Hlf & Hz & Hl). rewrite Ec.
  assert (nozero (c ++ [LF])) as Hz' by (apply nozero_app; split; [done|by repeat constructor]).
  assert (length (c ++ [LF]) ≤ BUF)%nat as Hle by (rewrite length_app; cbn; unfold BUF in *; lia).
  destruct (strncpy_shape b (c ++ [LF]) Hb ltac:(rewrite length_app; cbn; unfold BUF in *; lia)) as (r & E & Hr).
  rewrite fmap_app, <- app_assoc in E, Hr. cbn [fmap list_fmap app] in E, Hr.
  exists ((Some <$> c) ++ Some LF :: Some 0 :: r), ((Some <$> c) ++ Some 0 :: Some 0 :: r), c. split; [done|]. split.
  { change (Some LF :: Some 0 :: r) with ((Some <$> [LF]) ++ Some 0 :: r). rewrite app_assoc, <- fmap_app. by apply cstr_prefix. }
  split.
  { unfold strchr. rewrite (span_until_none _ c [LF]); [done| |right; eexists _, _; split; [done|by apply bool_decide_true]].
    apply Forall_forall. intros x Hx. apply bool_decide_false. by intros ->. }
  rewrite length_app, Nat.add_sub. split.
  { rewrite bset_Some by (rewrite Hr; unfold BUF in *; lia).
    by rewrite Nat2Z.id, insert_app_r_alt, length_fmap, Nat.sub_diag by (by rewrite length_fmap). }
  split; [by apply cstr_prefix|]. split; [by rewrite <- Hr, !length_app|]. cbn [length]. by rewrite ?length_app, Nat.add_sub, take_app_length.
Qed.

(** A datagram with its terminator: a short one is shown, of one that does not
    fit only the first 255 characters arrive, without a terminator. *)
Lemma receive_ok e ctime argv0 sk arrays s d addr port :
  ctime_ok ctime → arrays_ok arrays → nozero d →
  (let t := take BUF (d ++ [0]) in kern e (hist s) (Crecvfrom sk (Z.of_nat BUF)) = Ans (Z.of_nat (length t)) 0 t [addr; port] []) →
  wp (receive_body ctime argv0 sk arrays) e s (λ o s',
    if decide (length d < BUF)%nat then
      (∃ a, o = Val (inl a) ∧ arrays_ok a) ∧
      ∃ time, printed Stdout (hist s') = printed Stdout (hist s) ++ report time addr port ctime d
    else o = Undef).
Proof.
  intros Hct (Hl & Hd & Hl2) Hz Hk. destruct arrays as [puffer loctime]. cbn [fst snd] in *. unfold receive_body. cbv zeta in Hk.
  destruct (puffer_front puffer (replicate BUF 0) Hl Hd ltac:(by rewrite length_replicate)) as (p1 & E1 & L1 & D1).
  wp_step. apply wp_mem. rewrite E1. do 3 wp_step. rewrite Hk in Ha. subst a. cbn [rdata rv rwords].
  destruct (puffer_front p1 (take BUF (d ++ [0])) L1 D1 ltac:(rewrite length_take; lia)) as (p2 & E2 & L2 & D2).
  apply wp_mem. rewrite E2. cbn [bpost]. rewrite decide_False by lia. do 3 wp_step.
  destruct (time_text ctime (rv a) loctime Hct Hl2) as (b1 & b2 & c & F1 & F2 & F3 & F4 & F5 & F6 & ->).
  apply wp_mem. rewrite F1. wp_step. apply wp_mem. rewrite F2. wp_step. apply wp_mem. rewrite F3.
  wp_step. apply wp_mem. rewrite F4. wp_step. apply wp_mem. rewrite F5. wp_steps. apply wp_mem.
  case_decide as Hshort.
  - rewrite take_ge in E2 by (rewrite length_app; cbn; lia). rewrite (blit0_cstr _ _ _ Hz E2). wp_steps.
    split; [eexists; split; [done|]; by split_and!|]. exists (rv a). hist_norm. unfold report. reflexivity.
  - rewrite take_app_le in E2 by lia. rewrite blit_Some in E2 by (rewrite L1, length_take; lia). injection E2 as <-.
    rewrite length_take, Nat.min_l, D1, cstr_open; [done| |lia].
    by apply Forall_take.
Qed.

(** C39. The client sends each of its data arguments as a datagram of its own,
    with the terminator and in order; the server that receives such a datagram
    shows the argument if it has fewer than 255 characters, and has undefined
    behaviour if it is longer, since its array is then not terminated. *)
Theorem udp_delivers e1 e2 ctime prog host ds addr name inp argv0 sk arrays s from port :
  Sends e1 addr name → ds ≠ [] → Forall nozero ds → ctime_ok ctime → arrays_ok arrays →
  wp (udp_client_main (prog :: host :: ds)) e1 (init () inp) (λ o s1,
    o = Val EXIT_SUCCESS ∧ datagrams (hist s1) = (λ d, d ++ [0]) <$> ds) ∧
  ∀ d, d ∈ ds →
    (let t := take BUF (d ++ [0]) in kern e2 (hist s) (Crecvfrom sk (Z.of_nat BUF)) = Ans (Z.of_nat (length t)) 0 t [from; port] []) →
    wp (receive_body ctime argv0 sk arrays) e2 s (λ o s2,
      if decide (length d < BUF)%nat then
        (∃ a, o = Val (inl a) ∧ arrays_ok a) ∧
        ∃ time, printed Stdout (hist s2) = printed Stdout (hist s) ++ report time from port ctime d
      else o = Undef).
Proof.
  intros S Hds Hz Hct Ha. split.
  - unfold udp_client_main, arg. wp_step. wp_step. rewrite decide_False by (destruct ds; [done|cbn; lia]). wp_steps.
    rewrite sends_host in *. subst a. cbn [rv rstrs rwords head]. rewrite decide_False by done. wp_steps.
    assert (0 ≤ rv a) by (rewrite Ha0; eapply sends_socket). rewrite decide_False by lia. wp_steps.
    assert (0 ≤ rv a0) by (rewrite Ha1; eapply sends_bind). rewrite decide_False by lia. wp_steps.
    eapply wp_mono; [by eapply send_args_all|]. intros o s1 [-> Hd]. wp_steps. split; [done|].
    rewrite Hd, !hist_after, hist_log, hist_after, !datagrams_snoc. done.
  - intros d Hd Hk. apply receive_ok; try done. rewrite Forall_forall in Hz. by apply Hz.
Qed.

Definition udp_kern (h : list event) (c : call) : ans :=
  match c with
  | Cgethostbyname _ => Ans 1 0 [] [0x0100007F] [str "localhost"]
  | Crecvfrom _ _ => Ans 6 0 (str "Hallo" ++ [0]) [0x0100007F; 1024] []
  | _ => answer 3
  end.
Definition noon (t : Z) : list Z := line "Wed Jan  1 12:00:00 2020".
Definition fresh : buf * buf := (uninit (BUF + 1), uninit (BUF + 1)).
Lemma udp_delivers_witness :
  wp (udp_client_main (str "udp_client" :: str "localhost" :: [str "Hallo"])) (env_of udp_kern) (init () []) (λ o s1,
    o = Val EXIT_SUCCESS ∧ datagrams (hist s1) = (λ d, d ++ [0]) <$> [str "Hallo"]) ∧
  wp (receive_body noon (str "udp_server") 3 fresh) (env_of udp_kern) (init () []) (λ o s2,
    (∃ a, o = Val (inl a) ∧ arrays_ok a) ∧
    ∃ time, printed Stdout (hist s2) = printed Stdout (hist (init () [])) ++ report time 0x0100007F 1024 noon (str "Hallo")).
Proof.
  assert (H : _) by (apply (udp_delivers (env_of udp_kern) (env_of udp_kern) noon (str "udp_client") (str "localhost")
    [str "Hallo"] 0x0100007F (str "localhost") [] (str "udp_server") 3 fresh (init () []) 0x0100007F 1024);
    [by split|done|by_compute|intros t; exists (str "Wed Jan  1 12:00:00 2020"); split_and!; [done|by_compute|by_compute|vm_compute; lia]|by split_and!]).
  destruct H as [H1 H2]. split; [exact H1|]. apply (H2 (str "Hallo")); [by constructor|done].
Defined.
End Udp.
