(* ===== verification/NetInfo.v ===== *)
(** * 11_Network: hosts and services, multicast, and a server that does not block

    [hostent.c], [servent.c] and [servent2.c] print what the databases of the
    system know, [multicast_server.c] and [multicast_client.c] send and
    receive datagrams, [non_block.c] is the server of the talk with a socket
    that does not block. *)
From S2P Require Import Prelude CLib Machine FileIO Chat.
Import Talk.

Abbreviation M := (Machine.M unit).

(** ** hostent.c, servent.c and servent2.c *)
Module Data.
(** One line for each string of a list that ends with a null pointer. *)
Definition each (text : list Z → list Z) (l : list (list Z)) : M unit := mapM (λ x, printf (text x)) l;; mret ().
(** A structure [hostent]: the name and the aliases, and the addresses. *)
Definition show_host (host : ans) : M Z :=
  name ← mem (head (rstrs host));
  printf (str "Hostname    : " ++ name ++ [LF]);;
  printf (line "Aliase      :");;
  each (λ x, TAB :: x ++ [LF]) (tail (rstrs host));;
  printf (line "IP-Adressen :");;
  each (λ x, TAB :: x ++ [LF]) (inet_ntoa <$> rwords host);;
  mret EXIT_SUCCESS.
Definition hostent_main (argv : list (list Z)) : M Z :=
  if decide (length argv ≠ 2%nat) then
    a0 ← arg argv 0; printf (str "Usage: " ++ a0 ++ line " (Rechnername oder IP-Adresse)");; exit EXIT_FAILURE
  else
    name ← arg argv 1;
    e ← ask;
    host ← match inet_aton e name with Some ip => sys (Cgethostbyaddr ip) | None => sys (Cgethostbyname name) end;
    if decide (rv host = 0) then herror (str "Konnte Rechner nicht finden");; exit EXIT_FAILURE
    else show_host host.
(** A structure [servent]: the port, the name, the protocol, the aliases. *)
Definition getservbyname (name proto : list Z) : M ans := sys (Clib "getservbyname" [] (name ++ [0] ++ proto)).
Definition servent_main (argv : list (list Z)) : M Z :=
  if decide (length argv ≠ 3%nat) then
    a0 ← arg argv 0; printf (str "Usage: " ++ a0 ++ line " dienst protokoll");; exit EXIT_FAILURE
  else
    dienst ← arg argv 1; proto ← arg argv 2;
    service_info ← getservbyname dienst proto;
    if decide (rv service_info = 0) then herror (line "Konnte Service nicht finden");; exit EXIT_FAILURE
    else
      s_name ← mem (rstrs service_info !! 0%nat); s_proto ← mem (rstrs service_info !! 1%nat);
      s_port ← mem (head (rwords service_info));
      printf (str "Service    : " ++ s_name ++ [LF]);;
      printf (str "Port       : " ++ dec (ntohs s_port) ++ [LF]);;
      printf (line "Aliase     : ");;
      each (λ x, x ++ [LF]) (drop 2 (rstrs service_info));;
      printf (str "Protokoll  : " ++ s_proto ++ [LF]);;
      mret EXIT_SUCCESS.
Definition service_line (port : Z) : M unit :=
  service_info ← sys (Clib "getservbyport" [htons port] (str "tcp"));
  if decide (rv service_info = 0) then printf (str "Port " ++ dec port ++ line " : Keine Infos")
  else
    s_name ← mem (rstrs service_info !! 0%nat); s_proto ← mem (rstrs service_info !! 1%nat);
    s_port ← mem (head (rwords service_info));
    printf (str "Service   : " ++ pad_left 10 s_name ++ [SPC]);;
    printf (str "    Port    : " ++ pad_left 3 (dec (ntohs s_port)) ++ [SPC]);;
    printf (str "    Protokoll : " ++ pad_left 5 s_proto ++ [LF]).
(** [while (port++ < 100)] *)
Definition servent2_body (port : Z) : M (Z + Z) :=
  if decide (port < 100) then service_line (port + 1);; mret (inl (port + 1)) else mret (inr EXIT_SUCCESS).
Definition servent2_main : M Z := loop 101 servent2_body 0.
End Data.

(** ** multicast_server.c and multicast_client.c *)
Module Multicast.
Definition host_name : list Z := str "244.0.0.1".
Definition group : list Z := str "224.0.0.1".
Definition port : Z := 1234.
Definition PF_INET : Z := 2.
Definition IPPROTO_IP : Z := 0.
Definition IP_MULTICAST_LOOP : Z := 34.
Definition IP_ADD_MEMBERSHIP : Z := 35.
Definition IP_DROP_MEMBERSHIP : Z := 36.
Definition fail {A} (what : list Z) : M A := perror what;; exit EXIT_FAILURE.
(** [inet_addr]: [INADDR_NONE] when the text is not an address. *)
Definition inet_addr (s : list Z) : M Z := e ← ask; mret (default INADDR_NONE (inet_aton e s)).
(** [setsockopt] with a structure or an [int] as its value. *)
Definition setsockopt (fd level opt : Z) (value : list Z) : M Z := lib "setsockopt" ([fd; level; opt] ++ value) [].
Definition setup_multicast_socket : M (Z * Z) :=
  s ← sys (Csocket PF_INET SOCK_DGRAM 0);
  (if decide (rv s = -1) then fail (str "socket()") else mret ());;
  r ← setsockopt (rv s) SOL_SOCKET SO_REUSEADDR [1];
  (if decide (r < 0) then fail (str "setsockopt()") else mret ());;
  b ← sys (Cbind (rv s) (htonl INADDR_ANY) (htons port));
  (if decide (rv b < 0) then fail (str "bind()") else mret ());;
  r ← setsockopt (rv s) IPPROTO_IP IP_MULTICAST_LOOP [1];
  (if decide (r < 0) then fail (str "bind(): IP_MULTICAST_LOOP") else mret ());;
  multiaddr ← inet_addr host_name;
  (if decide (multiaddr = 0) then fail (line "244.0.0.1 ist keine Multicast-Adresse") else mret ());;
  r ← setsockopt (rv s) IPPROTO_IP IP_ADD_MEMBERSHIP [multiaddr; htonl INADDR_ANY];
  (if decide (r < 0) then perror (str "setsockopt():IP_ADD_MEMBERSHIP") else mret ());;
  mret (rv s, multiaddr).
Definition MAX : nat := 256.
Definition client_body (socket : Z) (v : Z * buf) : M (Z * buf + buf) :=
  let '(iter, message) := v in
  if decide (iter < 10) then
    let iter := iter + 1 in
    n ← sys (Crecvfrom socket (Z.of_nat MAX));
    message ← mem (blit message 0 (rdata n));
    (if decide (rv n = -1) then perror (str "recvfrom()") else mret ());;
    s ← mem (cstr message);
    printf (str "Antwort #" ++ pad_right 2 (dec iter) ++ str " vom Server: " ++ s ++ [LF]);;
    sys (Csleep 2);;
    mret (inl (iter, message))
  else mret (inr message).
Definition multicast_client_main : M Z :=
  h ← sys (Cgethostbyname host_name);
  (if decide (rv h = 0) then fail (str "gethostbyname()") else mret ());;
  '(socket, multiaddr) ← setup_multicast_socket;
  loop 11 (client_body socket) (0, uninit MAX);;
  r ← setsockopt socket IPPROTO_IP IP_DROP_MEMBERSHIP [multiaddr; htonl INADDR_ANY];
  (if decide (r < 0) then perror (str "setsockopt():IP_DROP_MEMBERSHIP") else mret ());;
  sys (Cclose socket);;
  mret EXIT_SUCCESS.
Definition BROADCAST_TXT : list Z := str "broadcast test (hallo client)".
Definition multicast_server_body (fd address : Z) (u : unit) : M (unit + Z) :=
  r ← sys (Csendto fd BROADCAST_TXT address (htons port));
  (if decide (rv r < 0) then fail (str "sendto()") else mret ());;
  sys (Csleep 1);;
  mret (inl ()).
Definition multicast_server_main (fuel : nat) : M Z :=
  s ← sys (Csocket AF_INET SOCK_DGRAM 0);
  (if decide (rv s = -1) then fail (str "socket()") else mret ());;
  address ← inet_addr group;
  printf (line "Server ist bereit ...");;
  loop fuel (multicast_server_body (rv s) address) ().
End Multicast.

(** ** non_block.c *)
Module NonBlock.
Definition F_GETFL : Z := 3.
Definition F_SETFL : Z := 4.
Definition set_nonblock (fd : Z) : M unit :=
  save_fd ← sys (Cfcntl fd F_GETFL 0);
  sys (Cfcntl fd F_SETFL (Z.lor (rv save_fd) O_NONBLOCK));; mret ().
(** The rest of a turn is that of [server1.c]. *)
Definition talk_body (new_socket : Z) (buffer : buf) : M (buf + buf) :=
  set_nonblock new_socket;;
  Server1.talk_body new_socket buffer.
Definition accept_body (fuel : nat) (create_socket : Z) (buffer : buf) : M (buf + Z) :=
  new_socket ← sys (Caccept create_socket);
  if decide (rv new_socket > 0) then
    a ← mem (head (rwords new_socket));
    printf (str "Ein client (" ++ inet_ntoa a ++ line ") ist verbunden ...");;
    buffer ← loop fuel (talk_body (rv new_socket)) buffer;
    sys (Cclose (rv new_socket));;
    mret (inl buffer)
  else
    printf (line "Poll: Kein Client am Socket ...");;
    sys (Csleep 1);;
    mret (inl buffer).
Definition non_block_main (fuel : nat) : M Z :=
  printf clear_screen;;
  create_socket ← sys (Csocket AF_INET SOCK_STREAM 0);
  (if decide (rv create_socket > 0) then printf (line "Socket wurde angelegt") else mret ());;
  sys (Csetsockopt (rv create_socket) SOL_SOCKET SO_REUSEADDR);;
  b ← sys (Cbind (rv create_socket) INADDR_ANY (htons 15000));
  (if decide (rv b ≠ 0) then printf (line "Port ist nicht frei!") else mret ());;
  sys (Clisten (rv create_socket) 5);;
  set_nonblock (rv create_socket);;
  loop fuel (accept_body fuel (rv create_socket)) (uninit (BUF + 1)).
End NonBlock.

(** ** Theorems *)

(** *** hostent.c and servent2.c *)
Module Databases.
Import Data.
Lemma each_printed e text l : ∀ s (Q : post unit unit),
  (∀ s', printed Stdout (hist s') = printed Stdout (hist s) ++ concat (text <$> l) → Q (Val ()) s') → wp (each text l) e s Q.
Proof.
  unfold each. intros s Q HQ. wp_step. revert s Q HQ. induction l as [|x l IH]; intros s Q HQ.
  - apply wp_ret. cbn [bpost]. wp_steps. apply HQ. by rewrite app_nil_r.
  - cbn [mapM]. wp_steps. 
    eapply wp_mono; [apply (IH _ (λ o s', o = Val () ∧ printed Stdout (hist s') = printed Stdout (hist s) ++ concat (text <$> x :: l)))|].
    + intros s' Hs. split; [done|]. rewrite Hs. hist_norm. csimpl. done.
    + intros o s' H. destruct o; cbn [bpost] in *; try naive_solver. wp_steps. cbn [bpost]. wp_steps. 
      apply HQ. destruct H as [_ H]. done.
Qed.
(** What hostent.c shows of a host. *)
Definition host_text (name : list Z) (aliases : list (list Z)) (addrs : list Z) : list Z :=
  str "Hostname    : " ++ name ++ [LF] ++ line "Aliase      :" ++ concat ((λ x, TAB :: x ++ [LF]) <$> aliases) ++
  line "IP-Adressen :" ++ concat ((λ a, TAB :: inet_ntoa a ++ [LF]) <$> addrs).
Lemma show_host_ok e host name aliases s : rstrs host = name :: aliases →
  wp (show_host host) e s (λ o s', o = Val EXIT_SUCCESS ∧
    printed Stdout (hist s') = printed Stdout (hist s) ++ host_text name aliases (rwords host)).
Proof.
  intros Hr. unfold show_host. rewrite Hr. wp_steps. apply each_printed. intros s1 H1. cbn [bpost]. wp_steps.
  apply each_printed. intros s2 H2. cbn [bpost]. wp_steps. split; [done|]. rewrite H2. hist_norm. rewrite H1. hist_norm.
  unfold host_text. rewrite <- list_fmap_compose. by rewrite <- ?app_assoc.
Qed.
(** hostent.c asks for the address when its argument is one, and for the name
    otherwise; a host that is not found is an error. *)
Lemma hostent_shows e prog arg1 name aliases addrs known inp :
  (∀ h, kern e h (match inet_aton e arg1 with Some ip => Cgethostbyaddr ip | None => Cgethostbyname arg1 end) =
    if known : bool then Ans 1 0 [] addrs (name :: aliases) else answer 0) →
  wp (hostent_main [prog; arg1]) e (init () inp) (λ o s,
    if known then o = Val EXIT_SUCCESS ∧ printed Stdout (hist s) = host_text name aliases addrs
    else o = Exit EXIT_FAILURE ∧ printed Stdout (hist s) = []).
Proof.
  intros Hk. unfold hostent_main, arg. rewrite decide_False by (cbn; lia). wp_steps. st_simpl.
  eapply (wp_mono _ _ _ (λ o s, ∃ a, o = Val a ∧ a = (if known then Ans 1 0 [] addrs (name :: aliases) else answer 0) ∧ printed Stdout (hist s) = [])).
  { destruct (inet_aton e arg1); wp_steps; (eexists; split; [done|]; subst; split; [apply Hk|by hist_norm]). }
  intros o s (a & -> & -> & Hp). destruct known; cbn [bpost rv answer].
  - rewrite decide_False by done. eapply wp_mono; [by apply show_host_ok|]. intros o s' [-> Ho]. split; [done|]. by rewrite Ho, Hp.
  - rewrite decide_True by done. wp_steps. split; [done|]. by hist_norm.
Qed.

(** The services that the system knows, by port. *)
Definition port_text (port : Z) (x : option (list Z * list Z)) : list Z :=
  match x with
  | None => str "Port " ++ dec port ++ line " : Keine Infos"
  | Some (name, proto) => str "Service   : " ++ pad_left 10 name ++ [SPC] ++ str "    Port    : " ++ pad_left 3 (dec port) ++ [SPC] ++
      str "    Protokoll : " ++ pad_left 5 proto ++ [LF]
  end.
Class Services (e : env) (services : Z → option (list Z * list Z)) : Prop :=
  service h port : kern e h (Clib "getservbyport" [htons port] (str "tcp")) =
    match services port with Some (n, p) => Ans 1 0 [] [htons port] [n; p] | None => answer 0 end.
(** servent2.c prints what the system knows of the ports 1 to 100, in order. *)
Lemma servent2_lists e services inp : Services e services →
  wp servent2_main e (init () inp) (λ o s, o = Val EXIT_SUCCESS ∧
    printed Stdout (hist s) = concat ((λ p, port_text p (services p)) <$> seqZ 1 100)).
Proof.
  intros Sv. assert (Hswap : ∀ p, 0 < p ≤ 100 → ntohs (htons p) = p).
  { intros p Hp. assert (forallb (λ p, bool_decide (ntohs (htons p) = p)) (seqZ 1 100) = true) as H by (vm_compute; reflexivity).
    rewrite forallb_forall in H. apply (bool_decide_eq_true_1 (ntohs (htons p) = p)), H, list_elem_of_In, elem_of_seqZ. lia. }
  assert (G : ∀ n p s, n = (101 - Z.to_nat p)%nat → 0 ≤ p ≤ 100 →
    wp (loop n servent2_body p) e s (λ o s', o = Val EXIT_SUCCESS ∧
      printed Stdout (hist s') = printed Stdout (hist s) ++ concat ((λ p, port_text p (services p)) <$> seqZ (p + 1) (100 - p)))).
  { induction n as [|n IH]; intros p s Hn Hp; [lia|]. apply wp_loop_S. unfold servent2_body. wp_if.
    - wp_step.
      eapply (wp_mono _ _ _ (λ o s', o = Val () ∧ printed Stdout (hist s') = printed Stdout (hist s) ++ port_text (p + 1) (services (p + 1)))).
      { unfold service_line. wp_steps. rewrite service in Ha. destruct (services (p + 1)) as [[nm pr]|]; subst a; cbn [rv answer].
        - rewrite decide_False by done. wp_steps. rewrite Hswap by lia. split; [done|]. hist_norm. unfold port_text. by rewrite <- ?app_assoc.
        - rewrite decide_True by done. wp_steps. split; [done|]. by hist_norm. }
      intros o s1 [-> H1]. wp_steps. eapply wp_mono; [apply IH; lia|]. intros o s2 [-> H2]. split; [done|].
      rewrite H2, H1. rewrite (seqZ_cons (p + 1)) by lia. csimpl. replace (Z.succ (p + 1)) with (p + 1 + 1) by lia.
      replace (Z.pred (100 - p)) with (100 - (p + 1)) by lia. by rewrite <- app_assoc.
    - wp_steps. assert (p = 100) as -> by lia. split; [done|]. cbn. by rewrite app_nil_r. }
  apply (G 101%nat 0); [done|lia].
Qed.
End Databases.

(** *** multicast *)
Module Group.
Import Multicast.
(** An address of class D, in network byte order. *)
Definition is_multicast (a : Z) : bool := bool_decide (Z.land a 0xF0 = 0xE0).
(** The bytes 244.0.0.1 are not such an address, 224.0.0.1 are. *)
Lemma groups_differ : is_multicast (244 + Z.shiftl 1 24) = false ∧ is_multicast (224 + Z.shiftl 1 24) = true.
Proof. done. Qed.
Section client.
Context (e : env) (fd a : Z).
Context (Hs : ∀ h, rv (kern e h (Csocket PF_INET SOCK_DGRAM 0)) = fd) (Hfd : fd ≠ -1).
Context (Ho : ∀ h args, 0 ≤ rv (kern e h (Clib "setsockopt" args []))) (Hb : ∀ h x y, 0 ≤ rv (kern e h (Cbind fd x y))).
Context (Haton : inet_aton e host_name = Some a) (Ha0 : a ≠ 0).
Lemma setup_ok s : wp setup_multicast_socket e s (λ o s', o = Val (fd, a) ∧ printed Stdout (hist s') = printed Stdout (hist s)).
Proof.
  unfold setup_multicast_socket, setsockopt, inet_addr. wp_steps. assert (rv a0 = fd) as E by (subst a0; apply Hs). rewrite !E.
  wp_if; [done|]. wp_steps. assert (0 ≤ rv a1) by (subst a1; apply Ho). wp_if; [lia|]. wp_steps.
  assert (0 ≤ rv a2) by (subst a2; apply Hb). wp_if; [lia|]. wp_steps.
  assert (0 ≤ rv a3) by (subst a3; apply Ho). wp_if; [lia|]. wp_steps. rewrite Haton. cbn [default].
  wp_if; [done|]. wp_steps. assert (0 ≤ rv a4) by (subst a4; apply Ho). wp_if; [lia|]. wp_steps. split; [done|]. by hist_norm.
Qed.
(** The server's datagram has no terminator: the client prints an array
    that nobody has initialised behind it. *)
Lemma multicast_undefined inp :
  (∀ h, rv (kern e h (Cgethostbyname host_name)) ≠ 0) →
  (∀ h n, kern e h (Crecvfrom fd n) = answer_data (Z.of_nat (length BROADCAST_TXT)) BROADCAST_TXT) →
  wp multicast_client_main e (init () inp) (λ o s, o = Undef ∧ printed Stdout (hist s) = []).
Proof.
  intros Hh Hr. unfold multicast_client_main. wp_steps. rewrite decide_False by (subst; apply Hh). wp_steps.
  eapply wp_mono; [apply setup_ok|]. intros o s [-> Hp]. cbn [bpost]. wp_step. apply wp_loop_S. unfold client_body. rewrite decide_True by done.
  wp_steps. rewrite Hr in Ha1. subst a1. cbn [rv rdata answer_data]. rewrite blit_Some by (rewrite length_uninit; by apply Nat.leb_le).
  wp_steps. rewrite decide_False by done. wp_steps. split; [done|]. hist_norm. rewrite Hp. by hist_norm.
Qed.
End client.
End Group.

(** *** non_block.c *)
Module Alone.
Import NonBlock.
Definition prompt : list Z := str "Nachricht zum versenden: ".
Definition received (m : list Z) : list Z := str "Nachricht empfangen: " ++ m ++ [LF].
Section alone.
Context (e : env) (sock : Z).
(** Nothing has arrived: [recv] does not wait. *)
Context (Hrecv : ∀ h n, kern e h (Crecv sock n) = answer_err 11).
Lemma alone_turn l rest b s : typed l → stdin s = l ++ rest → length b = (BUF + 1)%nat →
  wp (talk_body sock b) e s (λ o s', ∃ b', length b' = (BUF + 1)%nat ∧
    o = Val (if decide (l ≠ quit) then inl b' else inr b') ∧ stdin s' = rest ∧
    printed Stdout (hist s') = printed Stdout (hist s) ++ prompt ++ received l ∧
    said sock (hist s') = said sock (hist s) ++ [l]).
Proof.
  intros Ht Hi Hb. unfold talk_body, set_nonblock, Server1.talk_body. wp_steps.
  eapply fgets_ok; [exact Ht|by st_simpl|exact Hb|]. intros b' s1 L1 C1 I1 H1. cbn [bpost]. wp_step. rewrite C1. wp_steps.
  unfold recv_into. wp_steps. rewrite Hrecv in Ha2. subst a2. cbn [rv rdata answer_err].
  rewrite blit_Some by (cbn; lia). rewrite take_0. cbn [fmap list_fmap app length Nat.add]. rewrite drop_0. wp_steps.
  rewrite decide_False by lia. wp_steps. rewrite C1. wp_steps.
  eapply (wp_mono _ _ _ (λ o s', o = Val (if decide (l ≠ quit) then inl b' else inr b') ∧ s' = _)).
  { case_decide; wp_steps; split; reflexivity. }
  intros o s' [-> ->]. exists b'. split_and!; [done|done|by st_simpl| |].
  - hist_norm. rewrite H1. hist_norm. done.
  - st_simpl. rewrite !said_snoc, H1. st_simpl. rewrite !said_snoc. cbn. rewrite decide_True by done. by rewrite ?app_nil_r.
Qed.
(** When nothing arrives, non_block.c talks to itself: recv does not wait,
    the array still holds what was typed, and each message is sent and shown as
    the one that was received, until quit is typed; then the talk ends. *)
Theorem non_block_echoes ms : ∀ fuel rest b s,
  Forall (λ m, typed m ∧ m ≠ quit) ms → stdin s = concat ms ++ quit ++ rest → length b = (BUF + 1)%nat → (length ms < fuel)%nat →
  wp (loop fuel (talk_body sock) b) e s (λ o s', (∃ b', o = Val b') ∧ stdin s' = rest ∧
    said sock (hist s') = said sock (hist s) ++ ms ++ [quit] ∧
    printed Stdout (hist s') = printed Stdout (hist s) ++ concat ((λ m, prompt ++ received m) <$> ms ++ [quit])).
Proof.
  induction ms as [|m ms IH]; intros fuel rest b s Hms Hi Hb Hf; (destruct fuel as [|fuel]; [cbn in Hf; lia|]); apply wp_loop_S.
  - eapply wp_mono; [apply (alone_turn quit rest); [|done|done]|].
    { exists (str "quit"). split_and!; [done|by_compute|by_compute|by apply Nat.ltb_lt]. }
    intros o s' (b' & Hb' & -> & Hr & Hp & Hsd). rewrite decide_False by (intros []; done). split_and!; [by eexists|done|done|].
    rewrite Hp. csimpl. by rewrite ?app_nil_r.
  - inversion Hms as [|m' ms' [Ht Hq] Hms']; subst. cbn [concat] in Hi. rewrite <- app_assoc in Hi.
    eapply wp_mono; [by apply (alone_turn m (concat ms ++ quit ++ rest))|].
    intros o s' (b' & Hb' & -> & Hr & Hp & Hsd). rewrite decide_True by done. eapply wp_mono; [apply (IH fuel rest b' s'); [done|done|done|cbn in Hf; lia]|].
    intros o' s2 (Hv & Hr2 & Hs2 & Hp2). split_and!; [done|done| |].
    + rewrite Hs2, Hsd. csimpl. by rewrite <- app_assoc.
    + rewrite Hp2, Hp. csimpl. by rewrite <- app_assoc.
Qed.
End alone.
Definition silent_kern (h : list event) (c : call) : ans := match c with Crecv _ _ => answer_err 11 | _ => answer 4 end.
Lemma non_block_echoes_witness :
  wp (loop 3 (talk_body 4) (uninit (BUF + 1))) (env_of silent_kern) (init () (line "hallo" ++ quit)) (λ o s,
    (∃ b', o = Val b') ∧ stdin s = [] ∧ said 4 (hist s) = [line "hallo"; quit] ∧
    printed Stdout (hist s) = prompt ++ received (line "hallo") ++ prompt ++ received quit).
Proof.
  eapply wp_mono; [apply (non_block_echoes (env_of silent_kern) 4) with (ms := [line "hallo"]) (rest := [])|].
  - done.
  - repeat constructor; [|by_compute]. exists (str "hallo"). split_and!; [done|by_compute|by_compute|by apply Nat.ltb_lt].
  - vm_compute. reflexivity.
  - by rewrite length_uninit.
  - cbn. lia.
  - intros o s (Hv & Hr & Hs & Hp). split_and!; [done|done|by rewrite Hs|]. rewrite Hp. vm_compute. reflexivity.
Defined.
End Alone.
