(* ===== verification/MsgQueue.v ===== *)
(** * The message queue service (09_IPC/msq_header.h, msq_server.c, msq_client.c)

    The server keeps the queues of its clients in a linked list and passes
    each message on to all of them.  The list is modelled in a heap of nodes;
    the refinement theorem says that it implements a plain list of
    identifiers.  A message text is identified with the C string at its
    start: what follows the terminator is indeterminate and never read. *)
From S2P Require Import Prelude CLib Machine Kernels.

Definition KEY : Z := 1234.
Definition MSG_LEN : nat := 1024.
Definition PERM : Z := 0x1B6 (* 0666 *).
Definition IPC_CREAT : Z := 0x200.
Definition IPC_PRIVATE : Z := 0.
Definition IPC_NOWAIT : Z := 0x800.
Definition IPC_RMID : Z := 0.

(** ** msq_server.c *)
Module MsqServer.
(** [struct id_verwaltung]: the identifier and the address of the next node
    (0 is the null pointer); the heap of the nodes, and the head. *)
Record node := Node { nid : Z; next : Z }.
Record state := St { heap : gmap Z node; id_first : Z }.
Abbreviation MQ := (M state).

(** [ptr->id], [ptr->next] and assignments to them: only on nodes. *)
Definition load (p : Z) : MQ node := s ← get; mem (heap s !! p).
Definition store (p : Z) (n : node) : MQ unit :=
  s ← get; _ ← mem (heap s !! p); put (St (<[p := n]> (heap s)) (id_first s)).
Definition set_first (p : Z) : MQ unit := s ← get; put (St (heap s) p).
(** [malloc] and [free]: a new node is indeterminate, so its fields are
    written before they are read. *)
Definition malloc : MQ Z :=
  a ← sys (Cmalloc 16);
  if decide (rv a = 0) then mret 0
  else s ← get; put (St (<[rv a := Node 0 0]> (heap s)) (id_first s));; mret (rv a).
Definition free (p : Z) : MQ unit :=
  s ← get; _ ← mem (heap s !! p);
  sys (Cfree p);; put (St (delete p (heap s)) (id_first s)).

(** [while (ptr->next != NULL) ptr = ptr->next;] *)
Definition last_node (fuel : nat) (ptr : Z) : MQ Z :=
  loop fuel (λ ptr, n ← load ptr; if decide (next n ≠ 0) then mret (inl (next n)) else mret (inr ptr)) ptr.
Definition mq_verwaltung_add (fuel : nat) (i : Z) : MQ unit :=
  s ← get;
  if decide (id_first s = 0) then
    p ← malloc; set_first p;;
    if decide (p = 0) then exit EXIT_FAILURE else store p (Node i 0)
  else
    ptr ← last_node fuel (id_first s);
    n ← load ptr;
    p ← malloc;
    store ptr (Node (nid n) p);;
    _ ← load p; store p (Node i 0).
Definition mq_verwaltung_remove (fuel : nat) (i : Z) : MQ unit :=
  s ← get;
  if decide (id_first s = 0) then mret () else
  n ← load (id_first s);
  if decide (nid n = i) then
    free (id_first s);; set_first (next n);;
    printf (str "User " ++ dec i ++ line " hat sich asugeloggt")
  else
    loop fuel (λ ptr,
      n ← load ptr;
      if decide (next n ≠ 0) then
        t ← load (next n);
        if decide (nid t = i) then
          store ptr (Node (nid n) (next t));; free (next n);;
          printf (str "User " ++ dec i ++ line " hat sich ausgeloggt");; mret (inr ())
        else mret (inl (next n))
      else mret (inr ())) (id_first s).

Definition setup_server (key flag : Z) : MQ Z :=
  res ← sys (Cmsgget key flag);
  if decide (rv res < 0) then printf (line "Serverfehler beim Einrichten der Message Queue");; mret (-1)
  else mret (rv res).
(** Send [text] to all queues of the list, as a message of type [p]. *)
Definition verteilen (fuel : nat) (text : list Z) (p : Z) : MQ unit :=
  message ← mem (strcpy (uninit MSG_LEN) text);
  t ← mem (cstr message);
  s ← get;
  loop fuel (λ ptr,
    if decide (ptr ≠ 0) then
      n ← load ptr;
      res ← sys (Cmsgsnd (nid n) p t);
      printf (if decide (rv res < 0)
              then str "Konnte Nachricht an Client MQ " ++ dec (nid n) ++ line " nicht zustellen ..."
              else str "Nachricht an Client MQ " ++ dec (nid n) ++ line " zugestellt");;
      mret (inl (next n))
    else mret (inr ())) (id_first s).

(** [sscanf(text, "%d", &x)] and [sscanf(text, "%d:%s", &x, b)]: a conversion
    that fails leaves its variable as it was. *)
Definition sscanf_d (text : list Z) (x : option Z) : MQ (option Z * list Z) :=
  match scan_int text with
  | Some (z, r) => if decide (INT_MIN ≤ z ≤ INT_MAX) then mret (Some z, r) else undef
  | None => mret (x, [])
  end.
Definition sscanf_ds (text : list Z) (x : option Z) (b : buf) : MQ (option Z * buf) :=
  '(x, r) ← sscanf_d text x;
  match r with
  | c :: r =>
      if decide (c = 58 (* ':' *)) then
        match (scan_word r).1 with
        | [] => mret (x, b)
        | w => b ← mem (strcpy b w); mret (x, b)
        end
      else mret (x, b)
  | [] => mret (x, b)
  end.

(** One received message.  The variables [client_id] and [puffer] keep their
    values between messages and start out indeterminate. *)
Definition handle (fuel : nat) (priority : Z) (text : list Z) (l : option Z * buf) : MQ (option Z * buf) :=
  let '(client_id, puffer) := l in
  if decide (priority = 1) then
    '(client_id, _) ← sscanf_d text client_id;
    c ← mem client_id;
    mq_verwaltung_remove fuel c;; mret (client_id, puffer)
  else
    '(client_id, puffer) ← sscanf_ds text client_id puffer;
    c ← mem client_id;
    mq_verwaltung_add fuel c;;
    s ← mem (cstr puffer);
    verteilen fuel s c;; mret (client_id, puffer).
Definition msq_server_main (fuel : nat) : MQ Z :=
  server_id ← setup_server KEY (Z.lor PERM IPC_CREAT);
  if decide (server_id < 0) then mret EXIT_FAILURE else
  printf (str "Server l" ++ [0xC3; 0xA4] ++ line "uft ...");;
  loop fuel (λ l,
    res ← sys (Cmsgrcv server_id (Z.of_nat MSG_LEN) 0);
    if decide (rv res < 0) then
      printf (line "Fehler beim Empfangen einer Nachricht?");; mret (inr EXIT_FAILURE)
    else
      priority ← mem (rwords res !! 0%nat);
      message ← mem (strcpy (uninit MSG_LEN) (rdata res));
      text ← mem (cstr message);
      l ← handle fuel priority text l; mret (inl l)) (None, uninit MSG_LEN).

(** *** The list in the heap *)

(** The nodes [l] (address, identifier) from [p] up to the address [q]. *)
Fixpoint seg (m : gmap Z node) (p : Z) (l : list (Z * Z)) (q : Z) : Prop :=
  match l with
  | [] => p = q
  | (a, i) :: l => p = a ∧ a ≠ 0 ∧ ∃ r, m !! a = Some (Node i r) ∧ seg m r l q
  end.

Lemma seg_app m l1 l2 p q : seg m p (l1 ++ l2) q ↔ ∃ r, seg m p l1 r ∧ seg m r l2 q.
Proof.
  revert p. induction l1 as [|[a i] l1 IH]; intros p; simpl; [naive_solver|].
  setoid_rewrite IH. naive_solver.
Qed.
Lemma seg_ext m m' l p q : (∀ a, a ∈ l.*1 → m !! a = m' !! a) → seg m p l q → seg m' p l q.
Proof.
  revert p. induction l as [|[a i] l IH]; intros p Hm; simpl; [done|].
  intros (-> & Ha & r & Hr & Hs). split_and!; [done..|]. exists r. csimpl in Hm. split.
  - rewrite <- Hm; [done|set_solver].
  - apply IH; [|done]. intros b Hb. apply Hm. set_solver.
Qed.
Lemma seg_nonnull m l p q a : seg m p l q → a ∈ l.*1 → a ≠ 0.
Proof.
  revert p. induction l as [|[b i] l IH]; intros p; csimpl; [set_solver|].
  intros (-> & Hb & r & Hr & Hs). rewrite elem_of_cons. intros [->|Ha]; [done|by eapply IH].
Qed.

(** The state holds the list [l]: its nodes are all the nodes there are, each
    once, and no node is allocated that [malloc] could return again. *)
Definition live_step (o : gset Z) (ev : event) : gset Z :=
  match ev with
  | Sys (Cmalloc _) a => if decide (rv a = 0) then o else {[rv a]} ∪ o
  | Sys (Cfree p) _ => o ∖ {[p]}
  | _ => o
  end.
Definition live (h : list event) : gset Z := foldl live_step ∅ h.
Lemma live_snoc h ev : live (h ++ [ev]) = live_step (live h) ev.
Proof. unfold live. by rewrite foldl_app. Qed.
Class FreshMalloc (e : env) : Prop := fresh_malloc h n :
  let p := rv (kern e h (Cmalloc n)) in p = 0 ∨ p ∉ live h.

Record holds (m : gmap Z node) (p : Z) (h : list event) (l : list (Z * Z)) : Prop := {
  hl_seg : seg m p l 0;
  hl_nodup : NoDup l.*1;
  hl_dom : dom m = list_to_set l.*1;
  hl_live : live h = list_to_set l.*1
}.
Definition holds_list (s : st state) (l : list (Z * Z)) : Prop :=
  holds (heap (glob s)) (id_first (glob s)) (hist s) l.

Lemma holds_first m p h b i x r :
  holds m p h [] → b ≠ 0 → rv r = b → b ∉ live h →
  holds (<[b := Node i 0]> (<[b := x]> m)) b (h ++ [Sys (Cmalloc 16) r]) [(b, i)].
Proof.
  intros [Hs _ Hd Hl] Hb Hr Hf. split; csimpl.
  - split_and!; [done..|]. exists 0. by rewrite lookup_insert_eq.
  - apply NoDup_singleton.
  - rewrite !dom_insert_L, Hd. set_solver.
  - rewrite live_snoc. simpl. rewrite Hr, decide_False, Hl by done. done.
Qed.
Lemma holds_append m p h l a i0 b i x r :
  holds m p h (l ++ [(a, i0)]) → b ≠ 0 → rv r = b → b ∉ live h →
  holds (<[b := Node i 0]> (<[a := Node i0 b]> (<[b := x]> m))) p (h ++ [Sys (Cmalloc 16) r])
    ((l ++ [(a, i0)]) ++ [(b, i)]).
Proof.
  intros [Hs Hnd Hd Hl] Hb Hr Hf. rewrite Hl in Hf.
  assert (Hb' : b ∉ (l ++ [(a, i0)]).*1) by (intros ?; by apply Hf, elem_of_list_to_set).
  rewrite fmap_app in Hb', Hnd. csimpl in *. apply not_elem_of_app in Hb' as [Hb1 Hb2].
  assert (b ≠ a) as Hba by set_solver.
  assert (a ∉ l.*1) as Hal.
  { apply NoDup_app in Hnd as (_ & Hnd & _). intros ?. by eapply (Hnd a); [|left]. }
  apply seg_app in Hs as (q & Hs & -> & Ha0 & _). split.
  - rewrite <- app_assoc. apply seg_app. exists a. split; [|csimpl; split_and!; [done..|]].
    + eapply seg_ext; [|exact Hs]. intros c Hc. rewrite !lookup_insert_ne by set_solver. done.
    + exists b. rewrite lookup_insert_ne, lookup_insert_eq by done. split_and!; [done..|].
      exists 0. by rewrite lookup_insert_eq.
  - rewrite !fmap_app. csimpl. apply NoDup_app. split; [done|]. split; [|apply NoDup_singleton].
    intros c Hc ->%list_elem_of_singleton. apply elem_of_app in Hc as [?|?]; set_solver.
  - rewrite !dom_insert_L, Hd, !fmap_app, !list_to_set_app_L. csimpl. set_solver.
  - rewrite live_snoc. simpl. rewrite Hr, decide_False, Hl by done.
    rewrite !fmap_app, !list_to_set_app_L. csimpl. set_solver.
Qed.
Lemma holds_remove_head m p h a i l n r :
  holds m p h ((a, i) :: l) → m !! a = Some n →
  holds (delete a m) (next n) (h ++ [Sys (Cfree a) r]) l.
Proof.
  intros [(-> & Ha & q & Hq & Hs) Hnd Hd Hl] Hn. csimpl in *. simplify_eq.
  apply NoDup_cons in Hnd as [Hal Hnd]. split; [|done| |].
  - eapply seg_ext; [|exact Hs]. intros c Hc. rewrite lookup_delete_ne; [done|]. by intros ->.
  - rewrite dom_delete_L, Hd. set_solver.
  - rewrite live_snoc. simpl. rewrite Hl. set_solver.
Qed.
Lemma holds_remove_mid m p h l1 a i0 b i l2 n t r :
  holds m p h (l1 ++ (a, i0) :: (b, i) :: l2) → m !! a = Some n → m !! b = Some t →
  holds (delete b (<[a := Node (nid n) (next t)]> m)) p (h ++ [Sys (Cfree b) r]) (l1 ++ (a, i0) :: l2).
Proof.
  intros [Hs Hnd Hd Hl] Hn Ht. rewrite fmap_app in Hnd. csimpl in Hnd.
  apply NoDup_app in Hnd as (Hnd1 & Hnd12 & Hnd2). apply NoDup_cons in Hnd2 as [Ha Hnd2].
  apply NoDup_cons in Hnd2 as [Hb Hnd2].
  apply seg_app in Hs as (q & Hs & -> & Ha0 & r1 & Hr1 & -> & Hb0 & r2 & Hr2 & Hs2). simplify_eq. csimpl.
  assert (a ≠ b) as Hab by set_solver.
  split.
  - apply seg_app. exists a. split; [|csimpl; split_and!; [done..|]].
    + eapply seg_ext; [|exact Hs]. intros c Hc. specialize (Hnd12 c Hc).
      rewrite lookup_delete_ne, lookup_insert_ne by set_solver. done.
    + exists r2. rewrite lookup_delete_ne, lookup_insert_eq by done. split; [done|].
      eapply seg_ext; [|exact Hs2]. intros c Hc. rewrite lookup_delete_ne, lookup_insert_ne by set_solver. done.
  - rewrite fmap_app. csimpl. apply NoDup_app. split; [done|]. split.
    + intros c Hc. specialize (Hnd12 c Hc). set_solver.
    + apply NoDup_cons. split; [set_solver|done].
  - rewrite dom_delete_L, dom_insert_L, Hd, !fmap_app, !list_to_set_app_L. csimpl.
    apply set_eq. intros c. specialize (Hnd12 c). set_solver.
  - rewrite live_snoc. simpl. rewrite Hl, !fmap_app, !list_to_set_app_L. csimpl.
    apply set_eq. intros c. specialize (Hnd12 c). set_solver.
Qed.

(** The abstract list of identifiers. *)
Fixpoint remove_first (i : Z) (l : list Z) : list Z :=
  match l with [] => [] | x :: r => if decide (x = i) then r else x :: remove_first i r end.

Section proofs.
Context (e : env) {F : FreshMalloc e}.

Lemma wp_load p s n (Q : post state node) :
  heap (glob s) !! p = Some n → Q (Val n) s → wp (load p) e s Q.
Proof. intros Hp HQ. unfold load. wp_steps. by rewrite Hp. Qed.
Lemma wp_store p n n' s (Q : post state unit) :
  heap (glob s) !! p = Some n' →
  Q (Val tt) (set_glob (St (<[p := n]> (heap (glob s))) (id_first (glob s))) s) → wp (store p n) e s Q.
Proof. intros Hp HQ. unfold store. wp_steps. rewrite Hp. by wp_steps. Qed.

Lemma last_node_ok l : ∀ fuel p a i s (Q : post state Z),
  seg (heap (glob s)) p (l ++ [(a, i)]) 0 → (length l < fuel)%nat → Q (Val a) s →
  wp (last_node fuel p) e s Q.
Proof.
  induction l as [|[b j] l IH]; intros fuel p a i s Q Hseg Hf HQ; (destruct fuel as [|fuel]; [lia|]);
    apply wp_loop_S; wp_step; simpl in Hseg; destruct Hseg as (-> & Hb & r & Hr & Hseg);
    (eapply wp_load; [done|]); cbn [bpost next].
  - simpl in Hseg. subst r. rewrite decide_False by auto. by wp_steps.
  - assert (r ≠ 0).
    { destruct l as [|[c k] l]; simpl in Hseg; destruct Hseg as (-> & ? & _); done. }
    rewrite decide_True by done. wp_steps. eapply IH; [done|simpl in Hf; lia|done].
Qed.

(** Both ends of an addition: the list grows at its end, or [malloc] failed. *)
Lemma add_ok fuel i l s :
  holds_list s l → (length l < fuel)%nat →
  wp (mq_verwaltung_add fuel i) e s (λ o s', match o with
    | Val _ => ∃ a h, holds_list s' (l ++ [(a, i)]) ∧ hist s' = hist s ++ [Sys (Cmalloc 16) h]
    | Exit c => c = EXIT_FAILURE ∧ l = [] ∧ ∃ h, rv (kern e h (Cmalloc 16)) = 0
    | Undef => l ≠ [] ∧ ∃ h, rv (kern e h (Cmalloc 16)) = 0
    | Running => False end).
Proof.
  intros Hl Hf. unfold mq_verwaltung_add, malloc, set_first, store. wp_step. wp_step.
  pose proof (hl_seg _ _ _ _ Hl) as Hseg.
  assert (Hcase : l = [] ∨ ∃ l0 a i0, l = l0 ++ [(a, i0)]).
  { destruct l as [|x l0] using rev_ind; [by left|right]. destruct x. eauto. }
  destruct Hcase as [->|(l0 & a & i0 & ->)].
  - simpl in Hseg. rewrite decide_True by done. wp_step. wp_step. wp_step.
    pose proof (fresh_malloc (hist s) 16) as Hfr. cbv zeta in Hfr. rewrite <- Ha in Hfr.
    wp_if; wp_steps; [split_and!; [done..|]; exists (hist s); by rewrite <- Ha|].
    destruct Hfr as [?|Hfr]; [done|]. wp_steps. rewrite decide_False by done.
    wp_steps. st_simpl. cbn [heap id_first]. rewrite lookup_insert_eq. wp_steps.
    exists (rv a), a. unfold holds_list. st_simpl. split; [|done]. by eapply holds_first.
  - assert (id_first (glob s) ≠ 0) as Hne.
    { destruct l0 as [|[c k] l0]; simpl in Hseg; destruct Hseg as (-> & ? & _); done. }
    rewrite decide_False by done. wp_step.
    eapply last_node_ok; [exact Hseg|rewrite length_app in Hf; simpl in Hf; lia|]. cbn [bpost].
    wp_step. apply seg_app in Hseg as (q & Hs & -> & Ha0 & q2 & Hq2 & Hq3).
    eapply wp_load; [done|]. cbn [bpost nid]. wp_step. wp_step. wp_step.
    pose proof (fresh_malloc (hist s) 16) as Hfr. cbv zeta in Hfr. rewrite <- Ha in Hfr.
    assert (heap (glob s) !! 0 = None) as H0.
    { apply not_elem_of_dom. rewrite (hl_dom _ _ _ _ Hl). intros Hin%elem_of_list_to_set.
      by eapply seg_nonnull; [apply (hl_seg _ _ _ _ Hl)|exact Hin|]. }
    wp_if; wp_steps.
    + st_simpl. rewrite Hq2. wp_steps. unfold load. wp_steps. st_simpl. cbn [heap].
      rewrite lookup_insert_ne, H0 by done. wp_steps. split; [by destruct l0|].
      exists (hist s). by rewrite <- Ha.
    + destruct Hfr as [?|Hfr]; [done|].
      assert (rv a0 ≠ a) as Hne0.
      { intros Heq. apply Hfr. rewrite (hl_live _ _ _ _ Hl), Heq, fmap_app. set_solver. }
      st_simpl. cbn [heap id_first]. rewrite lookup_insert_ne, Hq2 by done. wp_steps.
      unfold load. wp_steps. st_simpl. cbn [heap id_first].
      rewrite lookup_insert_ne, lookup_insert_eq by done. wp_steps. st_simpl. cbn [heap id_first].
      rewrite lookup_insert_ne, lookup_insert_eq by done. wp_steps.
      exists (rv a0), a0. unfold holds_list. st_simpl. split; [|done]. by eapply holds_append.
Qed.

(** The list without its first node with identifier [i], and whether there is one. *)
Fixpoint drop_id (i : Z) (l : list (Z * Z)) : list (Z * Z) :=
  match l with [] => [] | x :: r => if decide (x.2 = i) then r else x :: drop_id i r end.
Lemma drop_id_ids i l : (drop_id i l).*2 = remove_first i l.*2.
Proof. induction l as [|[a j] l IH]; csimpl; [done|]. case_decide; csimpl; congruence. Qed.
Lemma drop_id_app i l1 l2 : i ∉ l1.*2 → drop_id i (l1 ++ l2) = l1 ++ drop_id i l2.
Proof.
  induction l1 as [|[a j] l1 IH]; csimpl; [done|]. rewrite not_elem_of_cons. intros [Hj Hi].
  rewrite decide_False by auto. by rewrite IH.
Qed.

(** The search, standing at a node that is not the one to remove. *)
Lemma remove_loop i l2 : ∀ fuel l1 a i0 s,
  holds_list s (l1 ++ (a, i0) :: l2) → i ∉ (l1 ++ [(a, i0)]).*2 → (length l2 < fuel)%nat →
  wp (loop fuel (λ ptr,
      n ← load ptr;
      if decide (next n ≠ 0) then
        t ← load (next n);
        if decide (nid t = i) then
          store ptr (Node (nid n) (next t));; free (next n);;
          printf (str "User " ++ dec i ++ line " hat sich ausgeloggt");; mret (inr ())
        else mret (inl (next n))
      else mret (inr ())) a) e s (λ o s', o = Val () ∧
    holds_list s' (drop_id i (l1 ++ (a, i0) :: l2)) ∧ ∃ h, hist s' = hist s ++ h ∧
      Forall (λ ev, match ev with Sys (Cmsgsnd _ _ _) _ => False | _ => True end) h).
Proof.
  induction l2 as [|[b j] l2 IH]; intros fuel l1 a i0 s Hl Hi Hf; (destruct fuel as [|fuel]; [lia|]);
    apply wp_loop_S; pose proof (hl_seg _ _ _ _ Hl) as Hs;
    apply seg_app in Hs as (q & Hs1 & -> & Ha0 & q2 & Hq2 & Hq3); wp_step; (eapply wp_load; [done|]);
    cbn [bpost next nid].
  - simpl in Hq3. subst q2. rewrite decide_False by auto. wp_steps. split; [done|].
    split; [|exists []; by rewrite app_nil_r].
    rewrite <- (app_nil_r (l1 ++ [(a, i0)])), drop_id_app, app_nil_r by done. done.
  - destruct Hq3 as (-> & Hb0 & q3 & Hq3 & Hq4). rewrite decide_True by done. wp_step.
    eapply wp_load; [done|]. cbn [bpost next nid]. wp_if.
    + subst j. wp_step. eapply wp_store; [done|]. cbn [bpost]. unfold free. wp_steps. st_simpl.
      cbn [heap id_first].
      assert (b ≠ a) as Hba.
      { pose proof (hl_nodup _ _ _ _ Hl) as Hnd. rewrite fmap_app in Hnd. csimpl in Hnd.
        apply NoDup_app in Hnd as (_ & _ & Hnd). apply NoDup_cons in Hnd as [Hnd _]. set_solver. }
      rewrite lookup_insert_ne, Hq3 by done. wp_steps. split; [done|]. split.
      * unfold holds_list. st_simpl. cbn [heap id_first].
        assert (drop_id i (l1 ++ (a, i0) :: (b, i) :: l2) = l1 ++ (a, i0) :: l2) as ->.
        { change ((a, i0) :: (b, i) :: l2) with ([(a, i0)] ++ (b, i) :: l2).
          rewrite (assoc_L (++)), drop_id_app by done. csimpl. rewrite decide_True by done.
          by rewrite <- app_assoc. }
        pose proof (holds_remove_mid _ _ _ _ _ _ _ _ _ (Node i0 b) (Node i q3) a0 Hl Hq2 Hq3) as Hrm.
        destruct Hrm as [R1 R2 R3 R4]. split; try done. rewrite live_snoc. simpl. exact R4.
      * exists [Sys (Cfree b) a0; Put Stdout (str "User " ++ dec i ++ line " hat sich ausgeloggt")].
        split; [by rewrite hist_log, hist_set_glob, hist_after, hist_set_glob, <- app_assoc|].
        by repeat constructor.
    + wp_steps.
      assert (l1 ++ (a, i0) :: (b, j) :: l2 = (l1 ++ [(a, i0)]) ++ (b, j) :: l2) as Heq
        by (by rewrite <- app_assoc).
      rewrite Heq in *. eapply IH; [done| |simpl in Hf; lia].
      rewrite fmap_app. csimpl. rewrite not_elem_of_app, list_elem_of_singleton. split; [done|]. auto.
Qed.

(** A history without message sends. *)
Definition no_msg (ev : event) : Prop := match ev with Sys (Cmsgsnd _ _ _) _ => False | _ => True end.

Lemma remove_ok fuel i l s :
  holds_list s l → (length l < fuel)%nat →
  wp (mq_verwaltung_remove fuel i) e s (λ o s', o = Val () ∧ holds_list s' (drop_id i l) ∧
    ∃ h, hist s' = hist s ++ h ∧ Forall no_msg h).
Proof.
  intros Hl Hf. unfold mq_verwaltung_remove. wp_step. wp_step.
  pose proof (hl_seg _ _ _ _ Hl) as Hs. destruct l as [|[a j] l].
  - simpl in Hs. rewrite decide_True by done. wp_steps. split_and!; [done..|].
    exists []. by rewrite app_nil_r.
  - destruct Hs as (Hp & Ha & q & Hq & Hs). rewrite Hp. rewrite decide_False by done. wp_step.
    eapply wp_load; [done|]. cbn [bpost nid next]. wp_if.
    + subst j. unfold free, set_first. wp_steps. rewrite Hq. wp_steps. split; [done|]. split.
      * unfold holds_list. st_simpl. cbn [heap id_first]. csimpl. rewrite decide_True by done.
        unfold holds_list in Hl. rewrite Hp in Hl.
        pose proof (holds_remove_head _ _ _ _ _ _ _ a0 Hl Hq) as [R1 R2 R3 R4]. split; try done.
        rewrite live_snoc. simpl. exact R4.
      * eexists. split; [by st_simpl; rewrite <- app_assoc|]. by repeat constructor.
    + eapply wp_mono; [apply (remove_loop i l fuel [] a j); [done| |simpl in Hf; lia]|].
      * csimpl. rewrite list_elem_of_singleton. auto.
      * intros o s' (-> & Hl' & h & Hh & HF). split; [done|]. split; [done|]. exists h. split; [done|].
        eapply Forall_impl; [exact HF|]. intros [[]|]; done.
Qed.

(** The messages sent in a history: queue, type, text. *)
Definition msg_of (ev : event) : list (Z * Z * list Z) :=
  match ev with Sys (Cmsgsnd q t x) _ => [(q, t, x)] | _ => [] end.
Definition msgs (h : list event) : list (Z * Z * list Z) := concat (msg_of <$> h).
Lemma msgs_app h1 h2 : msgs (h1 ++ h2) = msgs h1 ++ msgs h2.
Proof. unfold msgs. by rewrite fmap_app, concat_app. Qed.
Lemma no_msg_msgs h : Forall no_msg h → msgs h = [].
Proof. intros H. induction H as [|[[]|] h Hev H IH]; done. Qed.

(** Distribution: one message per queue of the list, in its order. *)
Lemma verteilen_loop p t l : ∀ fuel q s,
  seg (heap (glob s)) q l 0 → (length l < fuel)%nat →
  wp (loop fuel (λ ptr,
    if decide (ptr ≠ 0) then
      n ← load ptr;
      res ← sys (Cmsgsnd (nid n) p t);
      printf (if decide (rv res < 0)
              then str "Konnte Nachricht an Client MQ " ++ dec (nid n) ++ line " nicht zustellen ..."
              else str "Nachricht an Client MQ " ++ dec (nid n) ++ line " zugestellt");;
      mret (inl (next n))
    else mret (inr ())) q) e s (λ o s', o = Val () ∧ glob s' = glob s ∧ ∃ h, hist s' = hist s ++ h ∧
      live (hist s') = live (hist s) ∧ msgs h = (λ i, (i, p, t)) <$> l.*2).
Proof.
  induction l as [|[a i] l IH]; intros fuel q s Hs Hf; (destruct fuel as [|fuel]; [lia|]); apply wp_loop_S.
  - simpl in Hs. subst q. rewrite decide_False by auto. wp_steps. split_and!; [done..|].
    exists []. by rewrite app_nil_r.
  - destruct Hs as (-> & Ha & q2 & Hq & Hs). rewrite decide_True by done. wp_step.
    eapply wp_load; [done|]. cbn [bpost nid next]. wp_steps.
    eapply wp_mono; [apply IH; [by st_simpl|simpl in Hf; lia]|].
    intros o s' (-> & Hg & h & Hh & Hlive & Hm). split; [done|]. split; [by rewrite Hg; st_simpl|].
    eexists. split.
    { rewrite Hh, hist_log, hist_after, <- !app_assoc. reflexivity. }
    split; [rewrite Hlive, hist_log, live_snoc, hist_after, live_snoc; done|].
    rewrite !msgs_app, Hm. done.
Qed.
Lemma verteilen_ok fuel text p l s :
  holds_list s l → nozero text → (length text < MSG_LEN)%nat → (length l < fuel)%nat →
  wp (verteilen fuel text p) e s (λ o s', o = Val () ∧ holds_list s' l ∧ ∃ h, hist s' = hist s ++ h ∧
    msgs h = (λ i, (i, p, text)) <$> l.*2).
Proof.
  intros Hl Hnz Hlen Hf. unfold verteilen. wp_step.
  destruct (strcpy_Some (uninit MSG_LEN) text) as (b & E & _); [by rewrite length_uninit|].
  rewrite E. wp_step. wp_step. rewrite (strcpy_cstr _ _ _ Hnz E). wp_step. wp_steps.
  eapply wp_mono; [apply (verteilen_loop p text l); [apply Hl|done]|].
  intros o s' (-> & Hg & h & Hh & Hlive & Hm). split; [done|]. split; [|by exists h].
  unfold holds_list in *. rewrite Hg. destruct Hl. split; try done. by rewrite Hlive.
Qed.

(** Reading the text of a login or a logout. *)
Lemma sscanf_d_ok c r x s (Q : post state (option Z * list Z)) :
  no_digit_first r → INT_MIN ≤ c ≤ INT_MAX → Q (Val (Some c, r)) s →
  wp (sscanf_d (dec c ++ r) x) e s Q.
Proof.
  intros Hr Hc HQ. unfold sscanf_d. rewrite scan_int_dec by done. rewrite decide_True by done. by wp_steps.
Qed.

Lemma handle_logout fuel c l x b s :
  holds_list s l → (length l < fuel)%nat → INT_MIN ≤ c ≤ INT_MAX →
  wp (handle fuel 1 (dec c) (x, b)) e s (λ o s', o = Val (Some c, b) ∧ holds_list s' (drop_id c l) ∧
    ∃ h, hist s' = hist s ++ h ∧ msgs h = []).
Proof.
  intros Hl Hf Hc. unfold handle. rewrite decide_True by done. wp_step.
  rewrite <- (app_nil_r (dec c)). apply sscanf_d_ok; [by intros ? ?|done|]. wp_steps.
  eapply wp_mono; [by apply (remove_ok fuel c l)|]. intros o s' (-> & Hl' & h & Hh & Hm). wp_steps.
  split_and!; [done..|]. exists h. split; [done|]. by apply no_msg_msgs.
Qed.

Lemma handle_login fuel c w p l x b s :
  holds_list s l → (length l + 1 < fuel)%nat → INT_MIN ≤ c ≤ INT_MAX → p ≠ 1 →
  w ≠ [] → Forall (λ x, isspace x = false) w → nozero w → (length w < MSG_LEN)%nat → length b = MSG_LEN →
  (∀ h, rv (kern e h (Cmalloc 16)) ≠ 0) →
  wp (handle fuel p (dec c ++ 58 :: w) (x, b)) e s (λ o s', ∃ a b', o = Val (Some c, b') ∧
    length b' = MSG_LEN ∧ holds_list s' (l ++ [(a, c)]) ∧
    ∃ h, hist s' = hist s ++ h ∧ msgs h = (λ i, (i, c, w)) <$> (l.*2 ++ [c])).
Proof.
  intros Hl Hf Hc Hp Hw Hns Hnz Hlen Hb Hmal. unfold handle. rewrite decide_False by done.
  unfold sscanf_ds. wp_step. wp_step.
  apply sscanf_d_ok; [by intros ? ? [= <- _]|done|]. cbn [bpost]. rewrite decide_True by done.
  assert (scan_word w = (w, [])) as Hsw.
  { unfold scan_word. assert (skip_space w = w) as ->.
    { destruct w as [|y w']; [done|]. apply Forall_cons in Hns as [Hy _]. simpl. by rewrite Hy. }
    rewrite <- (app_nil_r w) at 1. apply span_until_none; [done|by left]. }
  rewrite Hsw. cbn [fst]. destruct w as [|y w']; [done|].
  destruct (strcpy_Some b (y :: w')) as (b2 & E & L2); [lia|].
  wp_step. rewrite E. wp_steps.
  eapply wp_mono; [apply (add_ok fuel c l); [done|lia]|].
  intros [u|k| |] s1; cbn [bpost]; [|intros (_ & _ & h & Hbad); by destruct (Hmal h)|intros (_ & h & Hbad); by destruct (Hmal h)|done].
  intros (a & r & Hl1 & Hh1). wp_step. rewrite (strcpy_cstr _ _ _ Hnz E). wp_steps.
  eapply wp_mono; [apply (verteilen_ok fuel (y :: w') c _ _ Hl1); [done|done|rewrite length_app; simpl; lia]|].
  intros o s2 (-> & Hl2 & h & Hh & Hm). wp_steps. exists a, b2.
  split_and!; [done|congruence|done|]. eexists. split.
  { rewrite Hh, Hh1, <- app_assoc. reflexivity. }
  rewrite msgs_app, Hm, fmap_app. done.
Qed.
End proofs.

(** C4. The linked list of msq_server.c implements a list of identifiers: from
    any state that holds [l] (each node allocated once, no other node
    allocated), [mq_verwaltung_add] ends in a state that holds [l] and a new
    last node when [malloc] succeeds, and otherwise exits (empty list) or
    dereferences the null pointer (the second [malloc] is not checked);
    [mq_verwaltung_remove] ends in a state that holds [l] without the first
    node of that identifier, which it frees, and holds all of [l] if there is
    none.  Both loops end. *)
Theorem mq_list_refines e fuel i l s :
  FreshMalloc e → holds_list s l → (length l < fuel)%nat →
  wp (mq_verwaltung_add fuel i) e s (λ o s', match o with
    | Val _ => ∃ a, holds_list s' (l ++ [(a, i)]) ∧ (l ++ [(a, i)]).*2 = l.*2 ++ [i]
    | Exit c => c = EXIT_FAILURE ∧ l = [] ∧ ∃ h, rv (kern e h (Cmalloc 16)) = 0
    | Undef => l ≠ [] ∧ ∃ h, rv (kern e h (Cmalloc 16)) = 0
    | Running => False end) ∧
  wp (mq_verwaltung_remove fuel i) e s (λ o s',
    o = Val () ∧ holds_list s' (drop_id i l) ∧ (drop_id i l).*2 = remove_first i l.*2).
Proof.
  intros F Hl Hf. split.
  - eapply wp_mono; [by apply (add_ok e fuel i l)|]. intros [u|c| |] s' H; try done.
    destruct H as (a & h & Hl' & _). exists a. split; [done|]. by rewrite fmap_app.
  - eapply wp_mono; [by apply (remove_ok e fuel i l)|]. intros o s' (-> & Hl' & _).
    split_and!; [done..|]. apply drop_id_ids.
Qed.

(** C18. A login and a logout, as the texts msq_client.c sends them, reach the
    list: "<id>:<word>" of another type than 1 adds the queue <id> at the end of the list
    and passes the word on, as a message of type <id>, to every queue of the
    new list in its order; "<id>" of type 1 removes the queue and passes
    nothing on. *)
Theorem handle_login_logout e fuel c w p l x b s :
  FreshMalloc e → holds_list s l → (length l + 1 < fuel)%nat → INT_MIN ≤ c ≤ INT_MAX → p ≠ 1 →
  w ≠ [] → Forall (λ x, isspace x = false) w → nozero w → (length w < MSG_LEN)%nat →
  length b = MSG_LEN → (∀ h, rv (kern e h (Cmalloc 16)) ≠ 0) →
  wp (handle fuel p (dec c ++ str ":" ++ w) (x, b)) e s (λ o s', ∃ a b', o = Val (Some c, b') ∧
    holds_list s' (l ++ [(a, c)]) ∧
    ∃ h, hist s' = hist s ++ h ∧ msgs h = (λ i, (i, c, w)) <$> (l.*2 ++ [c])) ∧
  wp (handle fuel 1 (dec c) (x, b)) e s (λ o s', o = Val (Some c, b) ∧ holds_list s' (drop_id c l) ∧
    ∃ h, hist s' = hist s ++ h ∧ msgs h = []).
Proof.
  intros F Hl Hf Hc Hp Hw Hns Hnz Hlen Hb Hmal. split.
  - eapply wp_mono; [by apply (handle_login e fuel c w p l)|].
    intros o s' (a & b' & -> & _ & Hl' & h & Hh & Hm). eauto 8.
  - apply handle_logout; [done|done|lia|done].
Qed.

(** *** Concrete runs *)

(** [malloc] returns an address that is not in use. *)
Definition heap_kern (h : list event) (c : call) : ans :=
  match c with
  | Cmalloc _ => answer (fresh ({[0]} ∪ live h))
  | Csleep _ => Ans 0 0 [] (if decide (3 ≤ length h)%nat then [SIGINT] else []) []
  | Cmsgget key _ => answer (if decide (key = IPC_PRIVATE) then 42 else 7)
  | Cmsgrcv _ _ flag => if decide (flag = 0) then Ans 5 0 (str "Login") [42] [] else answer_err 42
  | _ => answer 0
  end.
#[export] Instance heap_fresh : FreshMalloc (env_of heap_kern).
Proof. intros h n. right. pose proof (is_fresh ({[0]} ∪ live h)). simpl. set_solver. Qed.
Lemma heap_nonnull h : rv (kern (env_of heap_kern) h (Cmalloc 16)) ≠ 0.
Proof. pose proof (is_fresh ({[0]} ∪ live h)). simpl. set_solver. Qed.
Definition two_hist : list event := [Sys (Cmalloc 16) (answer 100); Sys (Cmalloc 16) (answer 200)].
Definition two_state : st state :=
  Machine.St two_hist [] 0 (St (<[200 := Node 8 0]> (<[100 := Node 5 200]> ∅)) 100).
Lemma two_holds : holds_list two_state [(100, 5); (200, 8)].
Proof.
  split.
  - split_and!; [done..|]. exists 200. split; [done|]. split_and!; [done..|]. by exists 0.
  - by_compute.
  - by_compute.
  - by_compute.
Qed.

Lemma mq_list_refines_witness :
  wp (mq_verwaltung_add 9 6) (env_of heap_kern) two_state (λ o s', match o with
    | Val _ => ∃ a, holds_list s' ([(100, 5); (200, 8)] ++ [(a, 6)]) ∧
        ([(100, 5); (200, 8)] ++ [(a, 6)]).*2 = [5; 8] ++ [6]
    | Exit c => c = EXIT_FAILURE ∧ [(100, 5); (200, 8)] = [] ∧ ∃ h, rv (kern (env_of heap_kern) h (Cmalloc 16)) = 0
    | Undef => [(100, 5); (200, 8)] ≠ [] ∧ ∃ h, rv (kern (env_of heap_kern) h (Cmalloc 16)) = 0
    | Running => False end) ∧
  wp (mq_verwaltung_remove 9 8) (env_of heap_kern) two_state (λ o s',
    o = Val () ∧ holds_list s' [(100, 5)] ∧ [5] = remove_first 8 [5; 8]).
Proof.
  split; [apply (mq_list_refines (env_of heap_kern) 9 6 [(100, 5); (200, 8)] two_state heap_fresh two_holds)
         |apply (mq_list_refines (env_of heap_kern) 9 8 [(100, 5); (200, 8)] two_state heap_fresh two_holds)];
    simpl; lia.
Defined.

Lemma handle_login_logout_witness :
  wp (handle 9 2 (dec 6 ++ str ":" ++ str "Login") (None, uninit MSG_LEN)) (env_of heap_kern) two_state
    (λ o s', ∃ a b', o = Val (Some 6, b') ∧ holds_list s' ([(100, 5); (200, 8)] ++ [(a, 6)]) ∧
    ∃ h, hist s' = hist two_state ++ h ∧
      msgs h = (λ i, (i, 6, str "Login")) <$> ([(100, 5); (200, 8)].*2 ++ [6])) ∧
  wp (handle 9 1 (dec 6) (None, uninit MSG_LEN)) (env_of heap_kern) two_state (λ o s',
    o = Val (Some 6, uninit MSG_LEN) ∧ holds_list s' (drop_id 6 [(100, 5); (200, 8)]) ∧
    ∃ h, hist s' = hist two_state ++ h ∧ msgs h = []).
Proof.
  apply (handle_login_logout (env_of heap_kern) 9 6 (str "Login") 2 [(100, 5); (200, 8)] None);
    [apply heap_fresh|apply two_holds|simpl; lia|by_compute|done|done|by_compute|by_compute|vm_compute; lia
    |done|apply heap_nonnull].
Defined.
End MsqServer.

(** ** msq_client.c *)
Module MsqClient.
(** The state is the flag [ende]; the SIGINT handler clears it.  A signal
    arrives during a [usleep], whose answer names it. *)
Abbreviation CL := (M Z).
Definition shutdown_msq : CL unit := put 0.
Definition usleep (us : Z) : CL unit :=
  a ← sys (Csleep us);
  if bool_decide (SIGINT ∈ rwords a) then shutdown_msq else mret ().
Definition setup_client (key flag : Z) : CL Z :=
  res ← sys (Cmsgget key flag);
  if decide (rv res = -1) then
    printf (line "Client-Fehler beim Einrichten der Message queue!");; mret (-1)
  else mret (rv res).
(** [sprintf(c2s.message, ...)] and [msgsnd]. *)
Definition send_msg (server_id priority : Z) (text : list Z) : CL Z :=
  message ← mem (strcpy (uninit MSG_LEN) text);
  t ← mem (cstr message);
  res ← sys (Cmsgsnd server_id priority t); mret (rv res).
(** One turn of the receiving loop, with the current message. *)
Definition client_body (client_id : Z) (l : Z * buf) : CL (Z * buf + unit) :=
  let '(priority, message) := l in
  ende ← get;
  if decide (ende ≠ 0) then
    res ← sys (Cmsgrcv client_id (Z.of_nat MSG_LEN) IPC_NOWAIT);
    l ← (if decide (rv res ≠ -1) then
           priority ← mem (rwords res !! 0%nat);
           message ← mem (strcpy message (rdata res));
           t ← mem (cstr message);
           printf (str "(" ++ t ++ str ") von User mit der Message Queue ID: " ++ dec priority ++ [LF]);;
           mret (priority, message)
         else mret (priority, message));
    usleep 1000;; mret (inl l)
  else mret (inr ()).
Definition msq_client_main (fuel : nat) : CL Z :=
  sys (Csigaction SIGINT 1 SA_RESTART);;
  server_id ← setup_client KEY 0;
  if decide (server_id < 0) then mret EXIT_FAILURE else
  client_id ← setup_client IPC_PRIVATE (Z.lor PERM IPC_CREAT);
  if decide (server_id < 0) then mret EXIT_FAILURE else
  res ← send_msg server_id 2 (dec client_id ++ str ":Login");
  if decide (res = -1) then printf (line "Konnte keine Nachricht versenden ...");; mret EXIT_FAILURE else
  res ← sys (Cmsgrcv client_id (Z.of_nat MSG_LEN) 0);
  if decide (rv res = -1) then printf (line "Fehler beim Erhalt der Nachricht ...");; mret EXIT_FAILURE else
  priority ← mem (rwords res !! 0%nat);
  message ← mem (strcpy (uninit MSG_LEN) (rdata res));
  t ← mem (cstr message);
  printf (dec priority ++ str ": " ++ t ++ [LF]);;
  loop fuel (client_body client_id) (priority, message);;
  res ← send_msg server_id 1 (dec client_id);
  if decide (res = -1) then printf (line "Konnte keine Nachricht versenden ...");; mret EXIT_FAILURE else
  sys (Cmsgctl client_id IPC_RMID);;
  mret EXIT_SUCCESS.

(** What the client relies on: the two queues exist, sending works, and what
    it receives fits its buffers; after [n] events the user presses CTRL+C. *)
Record session (e : env) (server client : Z) (n : nat) : Prop := {
  se_server : ∀ h, rv (kern e h (Cmsgget KEY 0)) = server;
  se_client : ∀ h, rv (kern e h (Cmsgget IPC_PRIVATE (Z.lor PERM IPC_CREAT))) = client;
  se_range : 0 ≤ server ∧ 0 ≤ client ≤ INT_MAX;
  se_send : ∀ h p t, rv (kern e h (Cmsgsnd server p t)) = 0;
  se_first : ∀ h, rv (kern e h (Cmsgrcv client (Z.of_nat MSG_LEN) 0)) ≠ -1;
  se_recv : ∀ h f, let a := kern e h (Cmsgrcv client (Z.of_nat MSG_LEN) f) in
    nozero (rdata a) ∧ (length (rdata a) < MSG_LEN)%nat ∧ (rv a ≠ -1 → rwords a ≠ []);
  se_stop : ∀ h us, (n ≤ length h)%nat → SIGINT ∈ rwords (kern e h (Csleep us))
}.

Lemma client_loop e server client n fuel p b s :
  session e server client n → length b = MSG_LEN → (n + 1 < fuel)%nat → glob s ≠ 0 →
  wp (loop fuel (client_body client) (p, b)) e s (λ o s', o = Val () ∧ ∃ h, hist s' = hist s ++ h ∧
      MsqServer.msgs h = []).
Proof.
  intros Se Hb Hf Hg.
  eapply (wp_loop_measure e (client_body client) (λ (l : Z * buf) (s' : st Z), length l.2 = MSG_LEN ∧
      ∃ h, hist s' = hist s ++ h ∧ MsqServer.msgs h = [])
    (λ _ s', if decide (glob s' = 0) then 0%nat else S (n - length (hist s')))).
  2: { split; [done|]. exists []. by rewrite app_nil_r. }
  2: { rewrite decide_False by done. lia. }
  clear p b Hb. intros [p b] s1 [Hb (h & Hh & Hm)]. unfold client_body. wp_step. wp_step. wp_if; [|wp_steps; eauto].
  wp_step. wp_step.
  pose proof (se_recv _ _ _ _ Se (hist s1) IPC_NOWAIT) as Hr. cbv zeta in Hr. rewrite <- Ha in Hr.
  destruct Hr as (Hnz & Hlen & Hne). wp_step. simpl in Hb.
  eapply (wp_mono e _ _ (λ o (s' : st Z), ∃ p' b', o = Val (p', b') ∧ length b' = MSG_LEN ∧ glob s' = glob s1 ∧
    ∃ h', hist s' = hist s1 ++ h' ∧ MsqServer.msgs h' = [] ∧ (0 < length h')%nat)).
  { wp_if.
    - specialize (Hne Hif0). destruct (rwords a) as [|w ws]; [done|]. wp_step. wp_step.
      destruct (strcpy_Some b (rdata a)) as (b2 & E & L2); [lia|].
      wp_step. rewrite E. wp_step. wp_step. rewrite (strcpy_cstr _ _ _ Hnz E). wp_steps.
      exists w, b2. split_and!; [done|lia|by st_simpl|]. eexists.
      split; [rewrite hist_log, hist_after, <- app_assoc; reflexivity|]. split; [done|simpl; lia].
    - wp_steps. exists p, b. split_and!; [done|done|by st_simpl|]. eexists.
      split; [rewrite hist_after; reflexivity|]. split; [done|simpl; lia]. }
  intros o s2 (p' & b' & -> & Hb' & Hg2 & h' & Hh2 & Hm' & Hl'). cbn [bpost]. unfold usleep, shutdown_msq.
  wp_steps. destruct (decide (n ≤ length (hist s2))%nat) as [Hn|Hn].
  - pose proof (se_stop _ _ _ _ Se (hist s2) 1000 Hn) as Hstop. rewrite <- Ha0 in Hstop.
    rewrite bool_decide_true by done. wp_steps. split; [|st_simpl; rewrite decide_True by done; rewrite decide_False by done; lia].
    split; [done|]. eexists. split; [st_simpl; rewrite Hh2, Hh, <- !app_assoc; reflexivity|].
    rewrite !MsqServer.msgs_app, Hm, Hm'. done.
  - destruct (bool_decide _); wp_steps.
    + split; [|st_simpl; rewrite decide_True by done; rewrite decide_False by done; lia].
      split; [done|]. eexists. split; [st_simpl; rewrite Hh2, Hh, <- !app_assoc; reflexivity|].
      rewrite !MsqServer.msgs_app, Hm, Hm'. done.
    + split.
      2: { st_simpl. rewrite Hg2. rewrite decide_False by done.
           rewrite decide_False by done. rewrite Hh2 in Hn |- *. rewrite !length_app in *. simpl. lia. }
      split; [done|]. eexists. split; [st_simpl; rewrite Hh2, Hh, <- !app_assoc; reflexivity|].
      rewrite !MsqServer.msgs_app, Hm, Hm'. done.
Qed.

Lemma send_msg_ok e server p text s (Q : post Z Z) :
  nozero text → (length text < MSG_LEN)%nat →
  (∀ a, a = kern e (hist s) (Cmsgsnd server p text) → Q (Val (rv a)) (after (Cmsgsnd server p text) a s)) →
  wp (send_msg server p text) e s Q.
Proof.
  intros Hnz Hl HQ. unfold send_msg. wp_step.
  destruct (strcpy_Some (uninit MSG_LEN) text) as (b & E & _); [by rewrite length_uninit|].
  rewrite E. wp_step. wp_step. rewrite (strcpy_cstr _ _ _ Hnz E). wp_steps. by apply HQ.
Qed.

(** C19. A session of msq_client.c: from the start to CTRL+C the client sends
    exactly two messages to the server, "<id>:Login" of type 2 first and "<id>"
    of type 1 last, whatever it receives in between; then it removes its own
    queue and ends with success. *)
Theorem client_session e server client n fuel inp :
  session e server client n → (n + 1 < fuel)%nat →
  wp (msq_client_main fuel) e (init 1 inp) (λ o s', o = Val EXIT_SUCCESS ∧
    MsqServer.msgs (hist s') = [(server, 2, dec client ++ str ":" ++ str "Login"); (server, 1, dec client)] ∧
    ∃ h a, hist s' = h ++ [Sys (Cmsgctl client IPC_RMID) a]).
Proof.
  intros Se Hf. pose proof (se_range _ _ _ _ Se) as [Hs Hc].
  assert (length (dec client) ≤ 33)%nat as Hd by (apply dec_int_length; unfold INT_MIN; lia).
  assert (nozero (dec client ++ str ":Login")) as Hnz by (apply nozero_app; split; [apply dec_nozero|by_compute]).
  unfold msq_client_main, setup_client. wp_steps.
  assert (rv a0 = server) as Hr0 by (rewrite Ha0; apply Se). rewrite Hr0.
  rewrite decide_False by lia. wp_steps. rewrite decide_False by lia. wp_steps.
  assert (rv a1 = client) as Hr1 by (rewrite Ha1; apply Se). rewrite Hr1.
  rewrite decide_False by lia. wp_steps. rewrite decide_False by lia. wp_step.
  apply send_msg_ok; [done|rewrite length_app; change (length (str ":Login")) with 6%nat; unfold MSG_LEN; lia|].
  intros a2 Ha2. assert (rv a2 = 0) as Hr2 by (rewrite Ha2; apply Se). cbn [bpost]. rewrite Hr2.
  rewrite decide_False by lia. wp_step. wp_step. set (s1 := after (Cmsgsnd _ _ _) _ _) in *.
  pose proof (se_first _ _ _ _ Se (hist s1)) as Hfirst. rewrite <- Ha3 in Hfirst. rewrite decide_False by done.
  pose proof (se_recv _ _ _ _ Se (hist s1) 0) as Hr. cbv zeta in Hr. rewrite <- Ha3 in Hr.
  destruct Hr as (Hnz3 & Hlen3 & Hne3). specialize (Hne3 Hfirst). destruct (rwords a3) as [|w ws]; [done|].
  wp_step. wp_step.
  destruct (strcpy_Some (uninit MSG_LEN) (rdata a3)) as (b & E & Hb); [by rewrite length_uninit|].
  wp_step. rewrite E. wp_step. wp_step. rewrite (strcpy_cstr _ _ _ Hnz3 E). wp_steps.
  eapply wp_mono; [apply (client_loop e server client n fuel w b); [done|by rewrite Hb|done|]|].
  { subst s1. by st_simpl. }
  intros o s2 (-> & h & Hh & Hm). wp_step.
  apply send_msg_ok; [apply dec_nozero|unfold MSG_LEN; lia|].
  intros a4 Ha4. assert (rv a4 = 0) as Hr4 by (rewrite Ha4; apply Se). cbn [bpost]. rewrite Hr4.
  rewrite decide_False by lia. wp_steps. split; [done|]. split; [|rewrite hist_after; eauto].
  rewrite !hist_after, Hh. subst s1. rewrite hist_log, !hist_after, !MsqServer.msgs_app, Hm. done.
Qed.

Lemma client_session_witness :
  wp (msq_client_main 9) (env_of MsqServer.heap_kern) (init 1 []) (λ o s', o = Val EXIT_SUCCESS ∧
    MsqServer.msgs (hist s') = [(7, 2, dec 42 ++ str ":" ++ str "Login"); (7, 1, dec 42)] ∧
    ∃ h a, hist s' = h ++ [Sys (Cmsgctl 42 IPC_RMID) a]).
Proof.
  apply (client_session (env_of MsqServer.heap_kern) 7 42 3 9 []); [|lia].
  split; try done.
  - intros h f. cbn [kern env_of MsqServer.heap_kern]. cbv zeta. destruct (decide (f = 0)).
    + split_and!; [by_compute|vm_compute; lia|done].
    + split_and!; [by_compute|vm_compute; lia|by intros []].
  - intros h us Hh. cbn [kern env_of MsqServer.heap_kern]. rewrite decide_True by done. by left.
Defined.
End MsqClient.
