(* ===== verification/Fifo.v ===== *)
(** * 09_IPC: messages through a FIFO and to the printer

    [sender.c] and [polling_fifo.c], [client.c] and [server.c], and
    [printme.c].  Three of them collect lines in a buffer with the same loop
    ([collect]).  What is written to a pipe opened with popen is recorded by
    [Cfputs]. *)
From S2P Require Import Prelude CLib Machine.

Definition FIFO : list Z := str "fifo.polling".
Definition mode666 : Z := 0x1B6.
Definition lpr : list Z := str "lpr".

(** ** The common loop of sender.c, client.c and printme.c *)

(** Lines, read with [fgets(puffer, n, stdin)], are appended to [inhalt] as
    long as they fit into [BUF] characters. *)
Definition collect (fuel n BUF : nat) (prompt : list Z) (puffer inhalt : buf) : M unit (buf * buf) :=
  loop fuel (λ '(puffer, inhalt),
    l ← fgets_stdin n;
    match l with
    | None => mret (inr (puffer, inhalt))
    | Some l =>
        puffer ← mem (blit puffer 0 (l ++ [0]));
        p ← mem (cstr puffer); s ← mem (cstr inhalt);
        if decide (length s + length p < BUF)%nat then
          inhalt ← mem (strcat inhalt p);
          printf prompt;;
          mret (inl (puffer, inhalt))
        else mret (inr (puffer, inhalt))
    end) (puffer, inhalt).

(** ** sender.c *)
Module Sender.
Definition BUF : nat := 4096.
Definition sender_main (fuel : nat) : M unit Z :=
  inhalt ← mem (bset (uninit BUF) 0 0);
  fd ← sys (Copen FIFO O_WRONLY 0);
  (if decide (rv fd = -1) then perror (str "open()");; exit EXIT_FAILURE else mret ());;
  printf (line "Bitte Nachricht an FIFO eingeben (mit CTRL+D beenden" ++ str ">");;
  '(puffer, inhalt) ← collect fuel BUF BUF (str ">") (uninit BUF) inhalt;
  inhalt ← mem (bset inhalt (Z.of_nat BUF - 1) 0);
  s ← mem (cstr inhalt);
  sys (Cwrite (rv fd) (s ++ [0]));;
  mret EXIT_SUCCESS.
End Sender.

(** ** polling_fifo.c *)
Module Polling.
Definition BUF : nat := 4096.
Definition auftrag : list Z := line "Sende Auftrag an den Drucker".
Definition an_den_drucker (text : buf) : M unit unit :=
  p ← sys (Cpopen lpr (str "w"));
  (if decide (rv p = 0) then perror (str "popen()");; exit EXIT_FAILURE else mret ());;
  printf auftrag;;
  s ← mem (cstr text);
  printf s;;
  sys (Cpclose (rv p));;
  mret ().
Definition polling_body (fd : Z) (puffer : buf) : M unit (buf + Z) :=
  n ← sys (Cread fd (Z.of_nat BUF));
  puffer ← mem (blit puffer 0 (rdata n));
  (if decide (rv n ≠ 0) then an_den_drucker puffer else mret ());;
  sys (Csleep 2);;
  mret (inl puffer).
Definition polling_main (fuel : nat) : M unit Z :=
  sys (Cumask 0);;
  r ← sys (Cmkfifo FIFO mode666);
  (if decide (rv r < 0) then
     errno ← get_errno;
     if decide (errno = EEXIST) then printf (line "Versuche vorhandene FIFO zu verwenden.")
     else perror (str "mkfifo()");; exit EXIT_FAILURE
   else mret ());;
  fd ← sys (Copen FIFO O_RDONLY 0);
  (if decide (rv fd = -1) then perror (str "open()");; exit EXIT_FAILURE else mret ());;
  loop fuel (polling_body (rv fd)) (uninit BUF).
End Polling.

(** ** printme.c *)
Module PrintMe.
Definition BUF : nat := 8192.
Definition an_den_drucker (text : buf) : M unit unit :=
  p ← sys (Cpopen lpr (str "w"));
  (if decide (rv p = 0) then perror (str "popen()");; exit EXIT_FAILURE else mret ());;
  printf (line "Sende Auftrag an Drucker...");;
  s ← mem (cstr text);
  sys (Cfputs (rv p) s);;
  sys (Cpclose (rv p));;
  mret ().
Definition printme_main (fuel : nat) : M unit Z :=
  inhalt ← mem (bset (uninit BUF) 0 0);
  printf (line "Bitte Text zum  Drucken schreiben (Beenden mit CTR+D)!" ++ str "->");;
  '(puffer, inhalt) ← collect fuel BUF BUF (str "->") (uninit BUF) inhalt;
  inhalt ← mem (bset inhalt (Z.of_nat BUF - 1) 0);
  an_den_drucker inhalt;;
  mret EXIT_SUCCESS.
End PrintMe.

(** ** client.c and server.c *)
Module Client.
Definition BUF : nat := 4096.
Definition fifo_flags : Z := Z.lor O_RDWR mode666.
Definition client_main (fuel : nat) : M unit Z :=
  let delete_fifo := uninit BUF in
  pid ← sys Cgetpid;
  puffer ← mem (strcpy (uninit BUF) (str "fifo." ++ dec (rv pid)));
  inhalt ← mem (bset (uninit BUF) 0 0);
  pid ← sys Cgetpid;
  inhalt ← mem (strcpy inhalt (dec (rv pid) ++ [LF]));
  sys (Cumask 0);;
  name ← mem (cstr puffer);
  r ← sys (Cmkfifo name fifo_flags);
  (if decide (rv r < 0) then
     errno ← get_errno;
     if decide (errno = EEXIST) then printf (line "Verwende vorhandene FIFO")
     else perror (str "mkfifo()");; exit EXIT_FAILURE
   else mret ());;
  fd ← sys (Copen FIFO O_WRONLY 0);
  fdx ← sys (Copen name O_RDWR 0);
  (if decide (rv fd = -1 ∨ rv fdx = -1) then perror (str "open()");; exit EXIT_FAILURE else mret ());;
  printf (line "Bitte Nachricht eingeben (CTR+D zum Beenden)" ++ str ">");;
  '(puffer, inhalt) ← collect fuel BUF BUF (str ">") puffer inhalt;
  inhalt ← mem (bset inhalt (Z.of_nat BUF - 1) 0);
  d ← mem (bytes_of inhalt BUF);
  sys (Cwrite (rv fd) d);;
  n ← sys (Cread (rv fdx) (Z.of_nat BUF));
  puffer ← mem (blit puffer 0 (rdata n));
  (if decide (rv n ≠ 0) then s ← mem (cstr puffer); printf (s ++ [LF]) else mret ());;
  f ← mem (cstr delete_fifo);
  sys (Cunlink f);;
  mret EXIT_SUCCESS.
End Client.

Module Server.
Definition BUF : nat := 4096.
Definition TEXT : list Z := line "Habe Anfrage erhalten".
Definition an_den_drucker (text : buf) : M unit unit :=
  p ← sys (Cpopen lpr (str "w"));
  (if decide (rv p = 0) then perror (str "popen()");; exit EXIT_FAILURE else mret ());;
  printf (line "Sende Auftrag an Drucker ...");;
  s ← mem (cstr text);
  printf s;;
  sys (Cpclose (rv p));;
  mret ().
(** [while (puffer[n] != '\n') pid[i++] = puffer[n++];] : the array [pid] and
    the final value of [i] and [n]. *)
Fixpoint copy_pid (puffer : buf) (pid : buf) (i : Z) : option (buf * Z) :=
  match puffer with
  | Some c :: r => if decide (c = LF) then Some (pid, i)
                   else pid ← bset pid i c; copy_pid r pid (i + 1)
  | _ => None
  end.
(** [pid[++i] = '\n'; strcpy(antwort, "fifo."); strncat(antwort, pid, i);]:
    [strncat] reads [pid] up to [i] characters or a terminator. *)
Fixpoint strn (b : buf) (n : nat) {struct n} : option (list Z) :=
  match n, b with
  | O, _ => Some []
  | S n, Some c :: r => if decide (c = 0) then Some [] else cons c <$> strn r n
  | S _, _ => None
  end.
Definition answer_name (puffer pid antwort : buf) : option (buf * buf) :=
  '(pid, i) ← copy_pid puffer pid 0;
  let i := i + 1 in
  pid ← bset pid i LF;
  antwort ← strcpy antwort (str "fifo.");
  s ← strn pid (Z.to_nat i);
  antwort ← strcat antwort s;
  Some (pid, antwort).
Definition server_body (r_fd : Z) (v : buf * buf * buf) : M unit (buf * buf * buf + Z) :=
  let '(puffer, antwort, pid) := v in
  n ← sys (Cread r_fd (Z.of_nat BUF));
  puffer ← mem (blit puffer 0 (rdata n));
  v ← (if decide (rv n ≠ 0) then
    an_den_drucker puffer;;
    '(pid, antwort) ← mem (answer_name puffer pid antwort);
    name ← mem (cstr antwort);
    w_fd ← sys (Copen name O_WRONLY 0);
    (if decide (rv w_fd = -1) then perror (str "open(2)");; exit EXIT_FAILURE else mret ());;
    sys (Cwrite (rv w_fd) (TEXT ++ [0]));;
    sys (Cclose (rv w_fd));;
    mret (antwort, pid)
  else mret (antwort, pid));
  sys (Csleep 1);;
  mret (inl (puffer, v.1, v.2)).
Definition server_main (fuel : nat) : M unit Z :=
  sys (Cumask 0);;
  r ← sys (Cmkfifo FIFO (Z.lor O_RDWR mode666));
  (if decide (rv r < 0) then
     errno ← get_errno;
     if decide (errno = EEXIST) then printf (line "Verwende vorhandene FIFO")
     else perror (str "mkfifo()");; exit EXIT_FAILURE
   else mret ());;
  r_fd ← sys (Copen FIFO O_RDONLY 0);
  (if decide (rv r_fd = -1) then perror (str "open(1)");; exit EXIT_FAILURE else mret ());;
  loop fuel (server_body (rv r_fd)) (uninit BUF, uninit BUF, uninit 6).
End Server.

(** ** The loop collects everything that fits *)
Lemma wp_fgets_some {G} e n (s : st G) (Q : post G (option (list Z))) :
  stdin s ≠ [] →
  Q (Val (Some (fgets_take (n - 1) (stdin s)).1)) (set_stdin (fgets_take (n - 1) (stdin s)).2 s) →
  wp (fgets_stdin n) e s Q.
Proof.
  intros Hs HQ. unfold wp, fgets_stdin. destruct (stdin s) as [|c l]; [done|].
  by destruct (fgets_take (n - 1) (c :: l)).
Qed.
Lemma nozero_take n l : nozero l → nozero (fgets_take n l).1 ∧ nozero (fgets_take n l).2.
Proof. intros H. rewrite <- (fgets_take_app n l) in H. by apply nozero_app. Qed.

Definition only_prints (h : list event) : Prop := Forall (λ ev, match ev with Put Stdout _ => True | _ => False end) h.

Section collect.
Context (e : env) (n BUF : nat) (prompt : list Z).
Lemma collect_ok fuel : ∀ s puffer inhalt acc,
  (2 ≤ n)%nat → (n ≤ length puffer)%nat → length inhalt = BUF → cstr inhalt = Some acc → nozero (stdin s) →
  (length acc + length (stdin s) < BUF)%nat → (length (stdin s) < fuel)%nat →
  wp (collect fuel n BUF prompt puffer inhalt) e s (λ o s', ∃ p' i' h,
    o = Val (p', i') ∧ length i' = BUF ∧ cstr i' = Some (acc ++ stdin s) ∧
    hist s' = hist s ++ h ∧ only_prints h).
Proof.
  unfold collect. induction fuel as [|fuel IH]; intros s puffer inhalt acc HB Hp Hi Hc Hz Hl Hf; [lia|].
  apply wp_loop_S. wp_step. destruct (decide (stdin s = [])) as [He|Hne].
  { apply wp_fgets_eof; [done|]. wp_steps. exists puffer, inhalt, [].
    rewrite He, !app_nil_r. split_and!; try done. constructor. }
  apply wp_fgets_some; [done|].
  pose proof (fgets_take_app (n - 1) (stdin s)) as Happ.
  pose proof (fgets_take_length (n - 1) (stdin s)) as Htl.
  pose proof (fgets_take_nonempty (n - 1) (stdin s) ltac:(lia) Hne) as Hn1.
  destruct (nozero_take (n - 1) (stdin s) Hz) as [Hz1 Hz2].
  destruct (fgets_take (n - 1) (stdin s)) as [a b]. cbn [fst snd] in *.
  assert (Hlab : (length a + length b = length (stdin s))%nat) by (by rewrite <- Happ, length_app).
  assert (0 < length a)%nat by (destruct a; [done|cbn; lia]).
  wp_step. destruct (strcpy_Some puffer a) as (p' & Ep & Hlp); [lia|]. unfold strcpy in Ep. rewrite Ep. wp_steps.
  rewrite (blit0_cstr _ _ _ Hz1 Ep). wp_steps. rewrite Hc. wp_steps. rewrite decide_True by lia. wp_step.
  destruct (strcat_Some inhalt acc a Hc) as [i' Ei]; [lia|]. rewrite Ei. wp_steps.
  destruct (strcat_spec _ _ _ _ Hc Hz1 Ei) as [Hc' Hli].
  eapply wp_mono; [apply (IH _ p' i' (acc ++ a)); st_simpl; rewrite ?length_app; try done; lia|].
  intros o s' (p2 & i2 & h & -> & Hl2 & Hc2 & Hh & Hpr). st_simpl.
  exists p2, i2, (Put Stdout prompt :: h). split_and!; try done.
  - by rewrite Hc2, <- app_assoc, Happ.
  - by rewrite Hh, <- app_assoc.
  - by constructor.
Qed.
End collect.

(** The data of the [write] calls on [fd]. *)
Definition writes_of (fd : Z) (ev : event) : list (list Z) :=
  match ev with Sys (Cwrite fd' d) _ => if decide (fd' = fd) then [d] else [] | _ => [] end.
Definition writes (fd : Z) (h : list event) : list (list Z) := concat (writes_of fd <$> h).
Lemma writes_app fd h1 h2 : writes fd (h1 ++ h2) = writes fd h1 ++ writes fd h2.
Proof. unfold writes. by rewrite fmap_app, concat_app. Qed.
Lemma writes_quiet fd h : only_prints h → writes fd h = [].
Proof. induction 1 as [|ev h Hev Hh IH]; [done|]. unfold writes in *. cbn. by destruct ev as [|[]]. Qed.

(** [inhalt[BUF - 1] = 0] changes nothing when the text is short enough. *)
Lemma bset_last b s n : cstr b = Some s → length b = n → (length s < n)%nat →
  ∃ b', bset b (Z.of_nat n - 1) 0 = Some b' ∧ cstr b' = Some s.
Proof.
  intros Hc Hl Hs. rewrite bset_Some by lia. eexists. split; [done|].
  destruct (cstr_shape _ _ Hc) as [r ->]. rewrite length_app, length_fmap in Hl. cbn [length] in Hl.
  replace (Z.to_nat (Z.of_nat n - 1)) with (length s + length r)%nat by lia.
  rewrite insert_app_r_alt by (rewrite length_fmap; lia). rewrite length_fmap.
  replace (length s + length r - length s)%nat with (length r) by lia.
  destruct r as [|x r]; cbn [insert list_insert length]; apply cstr_prefix; by eapply cstr_nozero.
Qed.

Lemma start_buf (n : nat) : (0 < n)%nat → ∃ b, bset (uninit n) 0 0 = Some b ∧ length b = n ∧ cstr b = Some [].
Proof.
  intros Hn. unfold bset. rewrite length_uninit, decide_True by lia.
  exists (<[0%nat := Some 0]> (uninit n)). split; [done|].
  split; [etrans; [apply length_insert|apply length_uninit]|]. by destruct n; [lia|].
Qed.

Module Transfer.
(** The sender's end and the receiver's end of the FIFO. *)
Lemma sender_writes e fd text fuel :
  (∀ h, rv (kern e h (Copen FIFO O_WRONLY 0)) = fd) → fd ≠ -1 →
  nozero text → (length text < Sender.BUF)%nat → (length text < fuel)%nat →
  wp (Sender.sender_main fuel) e (init () text) (λ o s',
    o = Val EXIT_SUCCESS ∧ writes fd (hist s') = [text ++ [0]]).
Proof.
  intros Ho Hfd Hz Hl Hf. unfold Sender.sender_main.
  destruct (start_buf Sender.BUF) as (b & Eb & Hlb & Hcb); [unfold Sender.BUF; lia|]. rewrite Eb.
  do 4 wp_step. assert (Hr : rv a = fd) by (rewrite Ha; apply Ho). rewrite Hr. wp_step. rewrite decide_False by done.
  wp_steps. eapply wp_mono.
  { apply (collect_ok _ _ _ _ _ _ _ _ []); st_simpl; rewrite ?length_uninit; try done. unfold Sender.BUF; lia. }
  intros o s' (p' & i' & h & -> & Hli & Hci & Hh & Hp). cbn [bpost]. st_simpl. cbn [stdin init app] in Hci.
  destruct (bset_last i' text Sender.BUF Hci Hli Hl) as (b' & Eb' & Hcb'). rewrite Eb'. wp_steps.
  rewrite Hcb'. wp_steps. split; [done|]. st_simpl. rewrite Hh, !writes_app, (writes_quiet fd h Hp).
  unfold writes. cbn. by rewrite decide_True.
Qed.
Lemma polling_prints e fd text puffer (s : st ()) :
  (∀ h, rv (kern e h (Cpopen lpr (str "w"))) ≠ 0) →
  kern e (hist s) (Cread fd (Z.of_nat Polling.BUF)) = answer_data (Z.of_nat (length (text ++ [0]))) (text ++ [0]) →
  nozero text → (length text < Polling.BUF)%nat → length puffer = Polling.BUF →
  wp (Polling.polling_body fd puffer) e s (λ o s',
    (∃ p', o = Val (inl p') ∧ length p' = Polling.BUF) ∧
    printed Stdout (hist s') = printed Stdout (hist s) ++ Polling.auftrag ++ text).
Proof.
  intros Hpo Hr Hz Hl Hp. unfold Polling.polling_body. do 2 wp_step. rewrite Hr in Ha. subst a.
  cbn [rdata answer_data rv]. wp_step.
  destruct (strcpy_Some puffer text) as (p' & Ep & Hlp); [lia|]. unfold strcpy in Ep. rewrite Ep. do 2 wp_step.
  rewrite decide_True by (rewrite length_app; cbn [length]; lia).
  unfold Polling.an_den_drucker. do 3 wp_step.
  assert (Hq : rv a ≠ 0) by (rewrite Ha; apply Hpo). rewrite decide_False by done. wp_steps.
  rewrite (blit0_cstr _ _ _ Hz Ep). wp_steps. split; [exists p'; split; [done|lia]|].
  hist_norm. done.
Qed.

(** C23. What the user types into sender.c (less than 4096 characters, no
    NUL) goes through the FIFO in one write, with its terminator, and
    polling_fifo.c, when its read delivers it, prints exactly this text and
    goes on polling. *)
Theorem fifo_roundtrip e1 e2 fd1 fd2 text fuel puffer (s : st ()) :
  (∀ h, rv (kern e1 h (Copen FIFO O_WRONLY 0)) = fd1) → fd1 ≠ -1 →
  (∀ h, rv (kern e2 h (Cpopen lpr (str "w"))) ≠ 0) →
  nozero text → (length text < Sender.BUF)%nat → (length text < fuel)%nat → length puffer = Polling.BUF →
  wp (Sender.sender_main fuel) e1 (init () text) (λ o s1,
    o = Val EXIT_SUCCESS ∧
    ∃ d, writes fd1 (hist s1) = [d] ∧
      (kern e2 (hist s) (Cread fd2 (Z.of_nat Polling.BUF)) = answer_data (Z.of_nat (length d)) d →
       wp (Polling.polling_body fd2 puffer) e2 s (λ o s',
         (∃ p', o = Val (inl p') ∧ length p' = Polling.BUF) ∧
         printed Stdout (hist s') = printed Stdout (hist s) ++ Polling.auftrag ++ text))).
Proof.
  intros H1 Hfd H2 Hz Hl Hf Hp. eapply wp_mono; [by apply (sender_writes e1 fd1 text)|].
  intros o s1 [-> Hw]. split; [done|]. eexists. split; [exact Hw|]. intros Hr. by apply polling_prints.
Qed.
Definition demo_kern (text : list Z) (h : list event) (c : call) : ans :=
  match c with
  | Cread _ _ => answer_data (Z.of_nat (length (text ++ [0]))) (text ++ [0])
  | _ => answer 3
  end.
Lemma fifo_roundtrip_witness :
  let text := line "hallo" ++ str "welt" in
  let e := env_of (demo_kern text) in
  wp (Sender.sender_main 20) e (init () text) (λ o s1,
    o = Val EXIT_SUCCESS ∧
    ∃ d, writes 3 (hist s1) = [d] ∧
      (kern e [] (Cread 3 (Z.of_nat Polling.BUF)) = answer_data (Z.of_nat (length d)) d →
       wp (Polling.polling_body 3 (uninit Polling.BUF)) e (init () []) (λ o s',
         (∃ p', o = Val (inl p') ∧ length p' = Polling.BUF) ∧
         printed Stdout (hist s') = [] ++ Polling.auftrag ++ text))).
Proof.
  intros text e.
  refine (fifo_roundtrip e e 3 3 text 20 (uninit Polling.BUF) (init () []) _ _ _ _ _ _ _);
    [done|done|done|apply (bool_decide_unpack _); by vm_compute|vm_compute; lia|vm_compute; lia|apply length_uninit].
Defined.
End Transfer.

Module Answer.
Import Server.
(** Copying the digits in front of the newline. *)
Lemma copy_pid_ok digits r : ∀ pid i,
  LF ∉ digits → copy_pid ((Some <$> digits) ++ Some LF :: r) pid i =
    foldl (λ o c, '(p, i) ← o; p ← bset p i c; Some (p, i + 1)) (Some (pid, i)) digits.
Proof.
  induction digits as [|c digits IH]; intros pid i Hlf; [done|]. cbn [copy_pid app fmap list_fmap foldl].
  apply not_elem_of_cons in Hlf as [Hc Hlf]. rewrite decide_False by congruence.
  cbn [mbind option_bind]. destruct (bset pid i c) as [p|] eqn:E; cbn [mbind option_bind]; rewrite ?E; cbn [mbind option_bind].
  - by apply IH.
  - clear. by induction digits as [|c digits IH].
Qed.

Lemma copy_pid_loop digits : ∀ a k,
  foldl (λ o c, '(p, i) ← o; p ← bset p i c; Some (p, i + 1)) (Some ((Some <$> a) ++ uninit k, Z.of_nat (length a))) digits =
  if decide (length digits ≤ k)%nat
  then Some ((Some <$> a ++ digits) ++ uninit (k - length digits), Z.of_nat (length a + length digits)) else None.
Proof.
  induction digits as [|c digits IH]; intros a k; cbn [foldl length].
  - rewrite decide_True by lia. by rewrite app_nil_r, Nat.sub_0_r, Nat.add_0_r.
  - cbn [mbind option_bind]. destruct k as [|k].
    + rewrite bset_None by (rewrite length_app, length_fmap; cbn; lia). rewrite decide_False by lia.
      clear. by induction digits as [|c digits IH].
    + rewrite bset_Some by (rewrite length_app, length_fmap; cbn; lia).
      rewrite Nat2Z.id, insert_app_r_alt by (by rewrite length_fmap). rewrite length_fmap, Nat.sub_diag. cbn [uninit replicate insert list_insert].
      specialize (IH (a ++ [c]) k). rewrite fmap_app, <- app_assoc, length_app in IH. cbn [length app fmap list_fmap] in IH.
      replace (Z.of_nat (length a) + 1) with (Z.of_nat (length a + 1)) by lia.
      unfold uninit in IH. cbn [mbind option_bind]. etrans; [exact IH|]. fold uninit. destruct (decide (length digits ≤ k)%nat) as [H|H].
      * rewrite decide_True by lia. rewrite <- app_assoc. cbn [app].
        replace (S k - S (length digits))%nat with (k - length digits)%nat by lia.
        by replace (length a + S (length digits))%nat with (length a + 1 + length digits)%nat by lia.
      * by rewrite decide_False by lia.
Qed.
Lemma strn_uninit s r : nozero s → strn ((Some <$> s) ++ None :: r) (S (length s)) = None.
Proof.
  induction 1 as [|c s Hc Hs IH]; [done|]. cbn [length fmap list_fmap app strn].
  rewrite decide_False by done. cbn [strn] in IH. by rewrite IH.
Qed.

(** server.c cannot name the FIFO of a client: with a process id of one
    to four digits it copies one character of [pid] too many, which nobody
    has written, and with five or more digits it writes behind [pid]; in both
    cases its handling of the request is undefined. *)
Theorem server_answer_undefined digits r antwort :
  nozero digits → LF ∉ digits → (0 < length digits)%nat → length antwort = BUF →
  answer_name ((Some <$> digits) ++ Some LF :: r) (uninit 6) antwort = None.
Proof.
  intros Hz Hlf Hd Ha. unfold answer_name. rewrite copy_pid_ok by done.
  rewrite (copy_pid_loop digits [] 6 : foldl _ (Some (uninit 6, 0)) digits = _). cbn [length app fmap list_fmap].
  case_decide as H6; [|done]. cbn [mbind option_bind].
  destruct (decide (length digits < 5)%nat) as [H5|H5].
  - rewrite bset_Some by (rewrite length_app, length_fmap, length_uninit; lia).
    replace (Z.to_nat (Z.of_nat (0 + length digits) + 1)) with (S (length digits)) by lia.
    rewrite insert_app_r_alt by (rewrite length_fmap; lia). rewrite length_fmap.
    replace (S (length digits) - length digits)%nat with 1%nat by lia.
    replace (6 - length digits)%nat with (S (S (4 - length digits))) by lia. unfold uninit. cbn [replicate insert list_insert].
    destruct (strcpy antwort _); [|done]. cbn [mbind option_bind].
    replace (Z.to_nat (Z.of_nat (0 + length digits) + 1)) with (S (length digits)) by lia. by rewrite strn_uninit.
  - by rewrite bset_None by (rewrite length_app, length_fmap, length_uninit; lia).
Qed.
Lemma server_answer_undefined_witness :
  nozero (str "4711") ∧ answer_name ((Some <$> str "4711") ++ Some LF :: []) (uninit 6) (uninit BUF) = None.
Proof.
  assert (Hz : nozero (str "4711")) by (apply (bool_decide_unpack _); by vm_compute).
  split; [done|]. apply server_answer_undefined; [done|apply (bool_decide_unpack _); by vm_compute|vm_compute; lia|apply length_uninit].
Defined.
End Answer.
