(* ===== verification/IpcPrograms.v ===== *)
(** * 09_IPC: mail, FIFOs and pipes between parent and child

    [popen2.c] pipes a mail into sendmail, [fifo2.c] reads back what it wrote
    to a FIFO, [fifo4.c] and [pipe2.c] join a parent and a child, [fifo_buf.c]
    and [key_ftok.c] print values of the system; [fullduplex.c] of 11_Network
    talks to itself through a pair of sockets. *)
From S2P Require Import Prelude CLib Machine FileIO Fifo.

(** [fgets(b, n, stdin)], its result not looked at: at the end of the input
    the array stays as it is. *)
Definition fgets_arr (n : nat) (b : buf) : M unit buf :=
  l ← fgets_stdin n;
  match l with Some l => mem (blit b 0 (l ++ [0])) | None => mret b end.
(** [mkfifo]: an existing FIFO is used. *)
Definition mkfifo_or_exit (name : list Z) (mode : Z) : M unit unit :=
  r ← sys (Cmkfifo name mode);
  if decide (rv r = -1) then
    errno ← get_errno;
    if decide (errno = EEXIST) then perror (str "mkfifo()") else perror (str "mkfifo()");; exit EXIT_FAILURE
  else mret ().
(** [perror] and the end of the program. *)
Definition fail {A} (what : list Z) : M unit A := perror what;; exit EXIT_FAILURE.
Definition S_rw : Z := Z.lor S_IRUSR S_IWUSR.

(** ** popen2.c *)
Module Popen2.
Definition BUF1 : nat := 255.
Definition BUF2 : nat := 8192.
(** [fscanf(fp, "%s", b)]: a word without bound. *)
Definition fscanf_s (fp : Z) (b : buf) : M unit buf :=
  a ← sys (Clib "fscanf %s" [fp] []);
  if decide (rv a = 1) then mem (strcpy b (rdata a)) else mret b.
Definition fputs (fp : Z) (text : list Z) : M unit unit := sys (Cfputs fp text);; mret ().
(** [subject] and [inhalt] are never null. *)
Definition sendmail (to from subject inhalt : list Z) : M unit unit :=
  pfad ← sys (Cpopen (str "which sendmail") (str "r"));
  (if decide (rv pfad = 0) then fail (str "popen()") else mret ());;
  pfad_sendmail ← fscanf_s (rv pfad) (uninit BUF1);
  sys (Cpclose (rv pfad));;
  pfad_sendmail ← mem (strcat pfad_sendmail (str " -oi -t"));
  cmd ← mem (cstr pfad_sendmail);
  pipe ← sys (Cpopen cmd (str "w"));
  (if decide (rv pipe = 0) then eprintf (line "Konnte keine Verbindung zu sendmail aufbauen!");; exit EXIT_FAILURE else mret ());;
  fputs (rv pipe) (str "From:" ++ from ++ str " To:" ++ to);;
  fputs (rv pipe) (str "Subject:" ++ subject);;
  fputs (rv pipe) ([LF] ++ inhalt ++ [LF]);;
  sys (Cpclose (rv pipe));;
  printf (str "Mail wurde versendet an: " ++ to ++ [LF]).
Definition popen2_main (fuel : nat) : M unit Z :=
  printf (str "Mail to: ");;
  to ← fgets_arr BUF1 (uninit BUF1);
  printf (str "Mail from: ");;
  from ← fgets_arr BUF1 (uninit BUF1);
  printf (str "Betreff: ");;
  sub ← fgets_arr BUF1 (uninit BUF1);
  s ← mem (cstr sub);
  sub ← mem (bset sub (Z.of_nat (length s) - 1) 0);
  inhalt ← mem (bset (uninit BUF2) 0 0);
  printf (line "Inhalt (beenden mit CTR+D) " ++ str ">");;
  '(puffer, inhalt) ← collect fuel (BUF1 - 1) BUF2 (str ">") (uninit BUF1) inhalt;
  inhalt ← mem (bset inhalt (Z.of_nat BUF2 - 1) 0);
  to ← mem (cstr to); from ← mem (cstr from); sub ← mem (cstr sub); inhalt ← mem (cstr inhalt);
  sendmail to from sub inhalt;;
  mret EXIT_SUCCESS.
End Popen2.

(** ** fifo2.c *)
Module Fifo2.
Definition FIFO2 : list Z := str "fifo0001.1".
Definition puffer : list Z := line "Dieser Text ist für die FIFO".
(** A negative [int] as a [size_t]. *)
Definition size_t (n : Z) : Z := n mod 2 ^ 64.
Definition fifo2_main : M unit Z :=
  sys (Cumask 0);;
  mkfifo_or_exit FIFO2 mode666;;
  fd_fifo ← sys (Copen FIFO2 O_RDWR 0);
  (if decide (rv fd_fifo = -1) then fail (str "open()") else mret ());;
  n ← sys (Cwrite (rv fd_fifo) puffer);
  r ← sys (Cread (rv fd_fifo) (size_t (rv n)));
  (if decide (rv r = -1) then fail (str "read()") else mret ());;
  buf ← mem (blit (uninit 100) 0 (rdata r));
  s ← mem (cstr buf);
  printf (str "Gelesen aus der FIFO: " ++ s ++ [LF]);;
  buf ← mem (bset buf 0 0);
  mret EXIT_SUCCESS.
End Fifo2.

(** ** fifo4.c *)
Module Fifo4.
Definition FIFO4 : list Z := str "fifo0001.4".
Definition puffer : list Z := line "Dieser Text ist für die FIFO an den Elternprozess".
Definition wait_body (pid : Z) (u : unit) : M unit (unit + unit) :=
  r ← sys Cwait; if decide (rv r ≠ pid) then mret (inl ()) else mret (inr ()).
Definition parent (fuel : nat) (pid : Z) : M unit unit :=
  r_fifo ← sys (Copen FIFO4 O_RDONLY 0);
  (if decide (rv r_fifo < 0) then fail (str "open()") else mret ());;
  loop fuel (wait_body pid) ();;
  r ← sys (Cread (rv r_fifo) (Z.of_nat (length puffer)));
  buf ← mem (blit (uninit 100) 0 (rdata r));
  buf ← mem (bset buf (Z.of_nat (length puffer)) 0);
  printf (line " --- Elternprozess ---");;
  s ← mem (cstr buf);
  printf s;;
  sys (Cclose (rv r_fifo));; mret ().
Definition child : M unit unit :=
  printf (line " --- Kindprozess ---");;
  w_fifo ← sys (Copen FIFO4 O_WRONLY 0);
  (if decide (rv w_fifo < 0) then fail (str "open()") else mret ());;
  sys (Cwrite (rv w_fifo) puffer);;
  sys (Cclose (rv w_fifo));;
  exit EXIT_SUCCESS.
Definition fifo4_main (fuel : nat) : M unit Z :=
  mkfifo_or_exit FIFO4 S_rw;;
  pid ← sys Cfork;
  (if decide (rv pid = -1) then fail (str "fork()")
   else if decide (rv pid > 0) then parent fuel (rv pid)
   else child);;
  printf (line " --- Ende ---");;
  mret EXIT_SUCCESS.
End Fifo4.

(** ** pipe2.c *)
Module Pipe2.
Definition PIPE_BUF : nat := 4096.
Definition parent (fd0 fd1 : Z) : M unit unit :=
  sys (Cclose fd0);;
  writing ← sys (Cfdopen fd1 (str "w"));
  (if decide (rv writing = 0) then fail (str "fdopen()") else mret ());;
  puffer ← fgets_arr PIPE_BUF (uninit PIPE_BUF);
  s ← mem (cstr puffer);
  sys (Cfputs (rv writing) s);; mret ().
Definition child (fd0 fd1 newfile : Z) : M unit unit :=
  sys (Cclose fd1);;
  reading ← sys (Cfdopen fd0 (str "r"));
  (if decide (rv reading = 0) then fail (str "fdopen()") else mret ());;
  r ← sys (Cfgets (rv reading) (Z.of_nat PIPE_BUF));
  puffer ← (if decide (rv r = 0) then mret (uninit PIPE_BUF) else mem (blit (uninit PIPE_BUF) 0 (rdata r ++ [0])));
  s ← mem (cstr puffer);
  sys (Cfputs newfile s);; mret ().
Definition pipe2_main (argv : list (list Z)) : M unit Z :=
  (if decide (length argv = 2%nat) then mret ()
   else a0 ← arg argv 0; printf (str "Usage: " ++ a0 ++ line " Datei");; exit EXIT_FAILURE);;
  a1 ← arg argv 1;
  newfile ← sys (Cfopen a1 (str "a+"));
  (if decide (rv newfile = 0) then fail (str "fopen()") else mret ());;
  fd ← sys Cpipe;
  (if decide (rv fd < 0) then fail (str "pipe()") else mret ());;
  r ← mem (rwords fd !! 0%nat); w ← mem (rwords fd !! 1%nat);
  pid ← sys Cfork;
  (if decide (rv pid < 0) then fail (str "fork()")
   else if decide (rv pid > 0) then parent r w
   else child r w (rv newfile));;
  exit EXIT_SUCCESS.
End Pipe2.

(** ** fifo_buf.c and key_ftok.c *)
Module Values.
Definition PC_PIPE_BUF : Z := 5.
Definition SC_OPEN_MAX : Z := 4.
Definition fifo_buf_main : M unit Z :=
  mkfifo_or_exit (str "fifo0001") S_rw;;
  n ← lib "pathconf" [PC_PIPE_BUF] (str "fifo0001");
  printf (str "Es können max. " ++ dec n ++ line " Bytes in die FIFO geschrieben werden");;
  m ← sys (Csysconf SC_OPEN_MAX);
  printf (str "Ausserdem können max " ++ dec (rv m) ++ line " FIFOs geöffnet sein");;
  mret EXIT_SUCCESS.
Definition key_ftok_main : M unit Z :=
  key1 ← lib "ftok" [97] (str ".");
  key2 ← lib "ftok" [120] (str "/usr/include");
  printf (str "key1: " ++ dec key1 ++ [LF] ++ str "key2: " ++ dec key2 ++ [LF]);;
  exit EXIT_SUCCESS.
End Values.

(** ** fullduplex.c of 11_Network *)
Module FullDuplex.
Definition BUF : nat := 1024.
(** What the arrays hold before they are written: any bytes. *)
Section junk.
Variables (junk1 junk2 : list Z).
Definition SOCKETPAIR : string := "socketpair".
Definition fullduplex_main : M unit Z :=
  sv ← sys (Clib SOCKETPAIR [AF_LOCAL; SOCK_STREAM; 0] []);
  (if decide (rv sv = -1) then fail (str "Fehler bei socketpair") else mret ());;
  sv0 ← mem (rwords sv !! 0%nat); sv1 ← mem (rwords sv !! 1%nat);
  printf (str "Eingabe machen: ");;
  buf1 ← fgets_arr BUF (Some <$> junk1);
  d ← mem (bytes_of buf1 (BUF + 1));
  sys (Cwrite sv0 d);;
  c ← sys (Cread sv1 (Z.of_nat (BUF + 1)));
  buf2 ← mem (blit (Some <$> junk2) 0 (rdata c));
  buf2 ← mem (bset buf2 2 LF);
  s ← mem (cstr buf2);
  printf (str "sv[0] --> sv[1] : " ++ s ++ [LF]);;
  printf (str "Eingabe machen: ");;
  buf1 ← fgets_arr BUF buf1;
  d ← mem (bytes_of buf1 (BUF + 1));
  sys (Cwrite sv1 d);;
  c ← sys (Cread sv0 (Z.of_nat (BUF + 1)));
  buf2 ← mem (blit buf2 0 (rdata c));
  buf2 ← mem (bset buf2 (rv c) 0);
  s ← mem (cstr buf2);
  printf (str "sv[1] --> sv[0] : " ++ s ++ [LF]);;
  sys (Cclose sv0);; sys (Cclose sv1);;
  mret EXIT_SUCCESS.
End junk.
End FullDuplex.

(** ** Theorems *)

(** A typed line of an array of [n] characters. *)
Definition typed_line (n : nat) (l : list Z) : Prop := LF ∉ l ∧ nozero l ∧ (length l + 2 ≤ n)%nat.
Lemma fgets_arr_line e n b l rest s (Q : post unit buf) :
  typed_line n l → stdin s = l ++ LF :: rest → (n ≤ length b)%nat →
  (∀ b', length b' = length b → cstr b' = Some (l ++ [LF]) → Q (Val b') (set_stdin rest s)) →
  wp (fgets_arr n b) e s Q.
Proof.
  intros (Hlf & Hz & Hl) Hi Hb HQ. unfold fgets_arr. wp_step. apply (wp_fgets_line e _ l rest); [done|done|lia|].
  cbn [bpost]. destruct (strcpy_Some b (l ++ [LF])) as (b' & E & Hb'); [rewrite length_app; cbn; lia|].
  unfold strcpy in E. rewrite E. apply wp_mem_Some. apply HQ; [done|].
  eapply blit0_cstr; [|exact E]. apply nozero_app. split; [done|]. by repeat constructor.
Qed.

(** What is written to the stream [fp]. *)
Definition piped_of (fp : Z) (ev : event) : list Z :=
  match ev with Sys (Cfputs fp' d) _ => if decide (fp' = fp) then d else [] | _ => [] end.
Definition piped (fp : Z) (h : list event) : list Z := h ≫= piped_of fp.
Lemma piped_app fp h1 h2 : piped fp (h1 ++ h2) = piped fp h1 ++ piped fp h2.
Proof. apply bind_app. Qed.
Lemma piped_1 fp ev : piped fp [ev] = piped_of fp ev.
Proof. unfold piped. cbn. by rewrite app_nil_r. Qed.
Lemma piped_quiet fp h : only_prints h → piped fp h = [].
Proof. induction 1 as [|ev h Hev Hh IH]; [done|]. unfold piped in *. cbn. by destruct ev as [|[]]. Qed.

(** [s[strlen(s) - 1] = 0] takes the last character away. *)
Lemma bset_chop b l c : cstr b = Some (l ++ [c]) → ∃ b', bset b (Z.of_nat (length l)) 0 = Some b' ∧ cstr b' = Some l.
Proof.
  intros Hc. destruct (cstr_shape _ _ Hc) as [r ->]. pose proof (cstr_nozero _ _ Hc) as [Hz _]%nozero_app.
  rewrite bset_Some by (rewrite length_app, length_fmap, length_app; cbn [length]; lia). eexists. split; [done|].
  rewrite Nat2Z.id, fmap_app, <- app_assoc. rewrite insert_app_r_alt by (by rewrite length_fmap).
  rewrite length_fmap, Nat.sub_diag. cbn. by apply cstr_prefix.
Qed.

Module Mail.
Import Popen2.
(** The text that sendmail gets. *)
Definition message (to from sub inhalt : list Z) : list Z :=
  str "From:" ++ from ++ [LF] ++ str " To:" ++ to ++ [LF] ++ str "Subject:" ++ sub ++ [LF] ++ inhalt ++ [LF].
(** The lines of a text, its header (up to the first empty line), and the
    lines of the header that name a recipient: a line that begins with a space
    continues the line before. *)
Fixpoint lines (s : list Z) : list (list Z) :=
  match s with
  | [] => []
  | c :: r => if decide (c = LF) then [] :: lines r
              else match lines r with [] => [[c]] | l :: ls => (c :: l) :: ls end
  end.
Fixpoint header (ls : list (list Z)) : list (list Z) :=
  match ls with [] => [] | [] :: _ => [] | l :: ls => l :: header ls end.
Definition recipients (s : list Z) : list (list Z) := filter (λ l, is_prefix (str "To:") l = true) (header (lines s)).
Lemma lines_cons l r : LF ∉ l → lines (l ++ LF :: r) = l :: lines r.
Proof.
  induction l as [|c l IH]; intros Hl; cbn [app lines]; [by rewrite decide_True|].
  apply not_elem_of_cons in Hl as [Hc Hl]. rewrite decide_False by congruence. by rewrite IH.
Qed.
(** A line of the header that does not begin with "To:" names nobody. *)
Lemma recipients_skip l r : LF ∉ l → l ≠ [] → is_prefix (str "To:") l = false → recipients (l ++ LF :: r) = recipients r.
Proof.
  intros Hl Hn Hp. unfold recipients. rewrite lines_cons by done. destruct l as [|c l]; [done|]. cbn [header].
  rewrite filter_cons_False; [done|]. by rewrite Hp.
Qed.
Lemma recipients_message to from sub inhalt : LF ∉ to → LF ∉ from → LF ∉ sub →
  recipients (message to from sub inhalt) = recipients (inhalt ++ [LF]).
Proof.
  intros Ht Hf Hs. unfold message.
  assert (H : ∀ p l, LF ∉ str p → LF ∉ l → LF ∉ str p ++ l) by (intros p l H1 H2 [?|?]%elem_of_app; done).
  rewrite (app_assoc (str "From:")), (app_assoc (str " To:")), (app_assoc (str "Subject:")).
  do 3 (etrans; [apply recipients_skip; [apply H; [by_compute|done]|done|done]|]). done.
Qed.

Section sendmail.
Context (e : env) (path : list Z) (pfad pipe : Z).
Context (Hpfad : ∀ h, rv (kern e h (Cpopen (str "which sendmail") (str "r"))) = pfad) (Hpf : pfad ≠ 0).
Context (Hpath : ∀ h, kern e h (Clib "fscanf %s" [pfad] []) = answer_data 1 path).
Context (Hzp : nozero path) (Hlp : (length path + 8 < BUF1)%nat).
Context (Hpipe : ∀ h, rv (kern e h (Cpopen (path ++ str " -oi -t") (str "w"))) = pipe) (Hp : pipe ≠ 0).
(** What sendmail gets, whatever the four texts are. *)
Lemma sendmail_ok to from sub inhalt s : piped pipe (hist s) = [] →
  wp (sendmail to from sub inhalt) e s (λ o s', o = Val () ∧
    piped pipe (hist s') = str "From:" ++ from ++ str " To:" ++ to ++ str "Subject:" ++ sub ++ [LF] ++ inhalt ++ [LF]).
Proof.
  intros Hs. unfold sendmail. do 2 wp_step. assert (rv a = pfad) as -> by (subst a; apply Hpfad). wp_step. rewrite decide_False by done.
  do 2 wp_step. unfold fscanf_s. do 2 wp_step. rewrite Hpath in Ha0. subst a0. cbn [rv rdata answer_data]. rewrite decide_True by done.
  destruct (strcpy_Some (uninit BUF1) path) as (b & Eb & Lb); [rewrite length_uninit; lia|].
  pose proof (strcpy_cstr _ _ _ Hzp Eb) as Cb. rewrite Eb. do 4 wp_step.
  destruct (strcat_Some b path (str " -oi -t") Cb) as [b' Eb']; [rewrite Lb, length_uninit; change (length (str " -oi -t")) with 7%nat; lia|].
  assert (nozero (str " -oi -t")) as Hzo by by_compute. destruct (strcat_spec _ _ _ _ Cb Hzo Eb') as [Cb' _]. rewrite Eb'. do 2 wp_step. rewrite Cb'. do 3 wp_step.
  assert (rv a1 = pipe) as -> by (subst a1; apply Hpipe). wp_step. rewrite decide_False by done. unfold fputs. wp_steps.
  split; [done|]. st_simpl. rewrite !piped_app, Hs, !piped_1. cbn [piped_of]. rewrite !decide_True by done.
  by rewrite ?app_nil_l, ?app_nil_r, <- !app_assoc.
Qed.

Lemma popen2_sends_ok to from sub inhalt fuel :
  typed_line BUF1 to → typed_line BUF1 from → typed_line BUF1 sub → nozero inhalt →
  (length inhalt < BUF2)%nat → (length inhalt < fuel)%nat →
  wp (popen2_main fuel) e (init () (to ++ LF :: from ++ LF :: sub ++ LF :: inhalt)) (λ o s,
    o = Val EXIT_SUCCESS ∧ piped pipe (hist s) = message to from sub inhalt).
Proof.
  intros Ht Hf Hs Hz Hi Hfu. unfold popen2_main.
  do 3 wp_step. eapply fgets_arr_line; [exact Ht|st_simpl; reflexivity|by rewrite length_uninit|].
  intros b1 L1 C1. do 3 wp_step. eapply fgets_arr_line; [exact Hf|st_simpl; reflexivity|by rewrite length_uninit|].
  intros b2 L2 C2. do 3 wp_step. eapply fgets_arr_line; [exact Hs|st_simpl; reflexivity|by rewrite length_uninit|].
  intros b3 L3 C3. wp_step. rewrite C3. wp_step. wp_step.
  destruct (bset_chop b3 sub LF C3) as (b4 & E4 & C4). 
  replace (Z.of_nat (length (sub ++ [LF])) - 1) with (Z.of_nat (length sub)) by (rewrite length_app; cbn [length]; lia). rewrite E4.
  do 2 wp_step. destruct (start_buf BUF2) as (b5 & E5 & L5 & C5); [by apply Nat.ltb_lt|]. rewrite E5. do 4 wp_step.
  eapply wp_mono.
  { apply (collect_ok _ _ _ _ _ _ _ _ []); st_simpl; rewrite ?length_uninit; try done; unfold BUF1; lia. }
  intros o s' (p' & i' & h & -> & Hli & Hci & Hh & Hpr). cbn [bpost]. st_simpl. cbn [app] in Hci.
  destruct (bset_last i' inhalt BUF2 Hci Hli Hi) as (b6 & E6 & C6). rewrite E6. wp_step.
  wp_step. rewrite C1. do 2 wp_step. rewrite C2. do 2 wp_step. rewrite C4. do 2 wp_step. rewrite C6. do 3 wp_step.
  eapply wp_mono; [apply sendmail_ok|].
  - rewrite Hh, !piped_app, (piped_quiet _ _ Hpr). done.
  - intros o s2 [-> Hm]. wp_steps. split; [done|]. rewrite Hm. unfold message. by rewrite <- !app_assoc.
Qed.

End sendmail.

Definition demo_kern (h : list event) (c : call) : ans :=
  match c with
  | Cpopen cmd _ => if decide (cmd = str "which sendmail") then answer 7 else answer 8
  | Clib _ _ _ => answer_data 1 (str "/usr/sbin/sendmail")
  | _ => answer 0
  end.
End Mail.

(** *** fifo2.c and fullduplex.c *)

(** What fits into the array and holds no NUL is not terminated there. *)
Lemma cstr_uninit d n : nozero d → cstr ((Some <$> d) ++ uninit n) = None.
Proof.
  induction 1 as [|c d Hc Hd IH]; [by destruct n|]. csimpl. rewrite decide_False by done. csimpl in IH. by rewrite IH.
Qed.
(** fifo2.c prints an array without a terminator. *)
Lemma fifo2_undefined e fd :
  (∀ h, rv (kern e h (Cmkfifo Fifo2.FIFO2 mode666)) = 0) → (∀ h, rv (kern e h (Copen Fifo2.FIFO2 O_RDWR 0)) = fd) → fd ≠ -1 →
  (∀ h n, kern e h (Cread fd n) = answer_data (Z.of_nat (length Fifo2.puffer)) Fifo2.puffer) →
  wp Fifo2.fifo2_main e (init () []) (λ o _, o = Undef).
Proof.
  intros Hm Ho Hfd Hr. unfold Fifo2.fifo2_main, mkfifo_or_exit. wp_steps.
  wp_if; [exfalso; subst; by rewrite Hm in Hif|]. wp_steps. wp_if; [exfalso; subst; by rewrite Ho in Hif0|]. wp_steps.
  assert (rv a1 = fd) as Hfd' by (subst; apply Ho). rewrite Hfd', Hr in *.
  wp_if; [exfalso; subst; done|]. wp_steps. subst a3. cbn [rdata answer_data].
  rewrite blit_Some by (rewrite length_uninit; by apply Nat.leb_le). wp_steps. done.
Qed.

(** fullduplex.c: the first message is shown with a newline as its third
    character; the second [read] fills the array, and the terminator is
    written behind it. *)
Lemma length_bytes_of b n d : bytes_of b n = Some d → length d = n.
Proof.
  revert b d. induction n as [|n IH]; intros b d; cbn [bytes_of]; [by intros [= <-]|].
  destruct b as [|[c|] b]; [done| |done]. destruct (bytes_of b n) as [d'|] eqn:E; [|done]. intros [= <-]. cbn. f_equal. by eapply IH.
Qed.
Section fullduplex.
Import FullDuplex.
Context (e : env) (sv0 sv1 : Z) (junk1 junk2 : list Z).
Context (Hsv : ∀ h, kern e h (Clib SOCKETPAIR [AF_LOCAL; SOCK_STREAM; 0] []) = Ans 0 0 [] [sv0; sv1] []).
(** What is written to one end arrives whole at the other. *)
Definition last_write (h : list event) : list Z :=
  default [] (last (omap (λ ev, match ev with Sys (Cwrite _ d) _ => Some d | _ => None end) h)).
Context (Hrd : ∀ h fd n, kern e h (Cread fd n) = answer_data (Z.of_nat (length (last_write h))) (last_write h)).
Lemma last_write_snoc h fd d a : last_write (h ++ [Sys (Cwrite fd d) a]) = d.
Proof. unfold last_write. rewrite omap_app. cbn. by rewrite last_snoc. Qed.
Lemma last_write_put h f t : last_write (h ++ [Put f t]) = last_write h.
Proof. unfold last_write. rewrite omap_app. cbn. by rewrite app_nil_r. Qed.
(** [fgets] into an array of bytes. *)
Definition filled (l junk : list Z) : list Z := l ++ LF :: 0 :: drop (length l + 2) junk.
Lemma filled_length l junk : (length l + 2 ≤ length junk)%nat → length (filled l junk) = length junk.
Proof. intros H. unfold filled. rewrite length_app. cbn [length]. rewrite length_drop. lia. Qed.
Lemma blit_full (d l : list Z) : (length l ≤ length d)%nat → blit (Some <$> d) 0 l = Some (Some <$> l ++ drop (length l) d).
Proof. intros H. rewrite blit_Some by (by rewrite length_fmap). by rewrite take_0, fmap_app, fmap_drop. Qed.
Lemma fgets_arr_full n junk l rest s (Q : post unit buf) :
  typed_line n l → stdin s = l ++ LF :: rest → (n ≤ length junk)%nat →
  Q (Val (Some <$> filled l junk)) (set_stdin rest s) → wp (fgets_arr n (Some <$> junk)) e s Q.
Proof.
  intros (Hlf & Hz & Hl) Hi Hb HQ. unfold fgets_arr. wp_step. apply (wp_fgets_line e _ l rest); [done|done|lia|].
  cbn [bpost]. rewrite blit_full by (rewrite !length_app; cbn [length]; lia). apply wp_mem_Some.
  replace (Some <$> _) with (Some <$> filled l junk : buf); [done|]. f_equal. unfold filled.
  rewrite <- !app_assoc, !length_app. by cbn [length app].
Qed.
Lemma bytes_of_full d : bytes_of (Some <$> d) (length d) = Some d.
Proof. rewrite <- (app_nil_r (Some <$> d)). apply bytes_of_app. Qed.
(** The first message as it is shown. *)
Definition shown (l : list Z) : list Z := <[2%nat := LF]> (l ++ [LF]).
Lemma cstr_shown l junk : nozero l → (2 ≤ length l)%nat → cstr (Some <$> <[2%nat := LF]> (filled l junk)) = Some (shown l).
Proof.
  intros Hz Hl. unfold filled, shown.
  change (l ++ LF :: 0 :: drop (length l + 2) junk) with (l ++ [LF] ++ 0 :: drop (length l + 2) junk).
  rewrite app_assoc, insert_app_l by (rewrite length_app; cbn; lia). apply cstr_fmap.
  apply Forall_insert; [|done]. apply nozero_app. split; [done|]. by repeat constructor.
Qed.
Lemma bset_full d i c : (i < length d)%nat → bset (Some <$> d) (Z.of_nat i) c = Some (Some <$> <[i := c]> d).
Proof. intros H. rewrite bset_Some by (rewrite length_fmap; lia). by rewrite Nat2Z.id, list_fmap_insert. Qed.

Lemma fullduplex_overruns l1 l2 rest : 
  typed_line BUF l1 → typed_line BUF l2 → (2 ≤ length l1)%nat → length junk1 = (BUF + 1)%nat → length junk2 = (BUF + 1)%nat →
  wp (fullduplex_main junk1 junk2) e (init () (l1 ++ LF :: l2 ++ LF :: rest)) (λ o s, o = Undef ∧
    printed Stdout (hist s) = str "Eingabe machen: " ++ str "sv[0] --> sv[1] : " ++ shown l1 ++ [LF] ++ str "Eingabe machen: ").
Proof.
  intros H1 H2 Hl J1 J2. unfold fullduplex_main. do 2 wp_step. rewrite Hsv in Ha. subst a. cbn [rv rwords]. wp_step. rewrite decide_False by done.
  wp_steps. eapply fgets_arr_full; [exact H1|st_simpl; reflexivity|unfold BUF in *; lia|].
  assert (Hb : (BUF ≤ length junk1)%nat) by (unfold BUF in *; lia).
  pose proof (filled_length l1 junk1 ltac:(destruct H1 as (_ & _ & ?); lia)) as F1. set (d1 := filled l1 junk1) in *.
  rewrite <- J1, <- F1. cbn [bpost]. wp_step. rewrite bytes_of_full. do 5 wp_step. rewrite Hrd, hist_after, last_write_snoc in Ha0.
  subst a0. cbn [rdata answer_data rv]. wp_step. rewrite blit_full by lia. rewrite drop_ge, app_nil_r by lia. do 2 wp_step.
  assert (Hd : (2 < length d1)%nat) by (rewrite F1, J1; unfold BUF; lia).
  change 2 with (Z.of_nat 2). rewrite (bset_full d1 2 LF Hd). do 2 wp_step. unfold d1 at 1. rewrite cstr_shown by (try done; apply H1).
  wp_steps. eapply fgets_arr_full; [exact H2|st_simpl; reflexivity|rewrite F1; exact Hb|].
  pose proof (filled_length l2 d1 ltac:(destruct H2 as (_ & _ & ?); lia)) as F2. set (d2 := filled l2 d1) in *.
  rewrite <- F2. cbn [bpost]. wp_step. rewrite bytes_of_full. do 5 wp_step. rewrite Hrd, hist_after, last_write_snoc in Ha1.
  subst a1. cbn [rdata answer_data rv]. wp_step. rewrite blit_full by (rewrite length_insert; lia).
  rewrite drop_ge, app_nil_r by (rewrite length_insert; lia). do 2 wp_step.
  rewrite bset_None by (rewrite length_fmap; lia). apply wp_mem. split; [done|]. hist_norm. by rewrite <- !app_assoc.
Qed.
End fullduplex.

(** *** fifo4.c and pipe2.c: the child and the parent *)
Module Family.
Section fifo4.
Import Fifo4.
(** The two processes of fifo4.c: the child writes its text to the FIFO
    and ends with 0; when the parent's read delivers what the child wrote, the
    parent, once it has waited for the child, prints exactly this text. *)
Theorem fifo4_roundtrip e1 e2 (child_pid w_fifo r_fifo : Z) fuel :
  0 ≤ w_fifo → 0 ≤ r_fifo → (0 < fuel)%nat →
  (∀ h, rv (kern e1 h (Copen FIFO4 O_WRONLY 0)) = w_fifo) → (∀ h d, rv (kern e1 h (Cwrite w_fifo d)) = Z.of_nat (length d)) →
  (∀ h, rv (kern e2 h (Copen FIFO4 O_RDONLY 0)) = r_fifo) → (∀ h, rv (kern e2 h Cwait) = child_pid) →
  wp child e1 (init () []) (λ o s1, o = Exit EXIT_SUCCESS ∧
    ((∀ h n, kern e2 h (Cread r_fifo n) = answer_data (Z.of_nat (length (sent w_fifo (hist s1)))) (sent w_fifo (hist s1))) →
     wp (parent fuel child_pid) e2 (init () []) (λ o s2,
       o = Val () ∧ printed Stdout (hist s2) = line " --- Elternprozess ---" ++ puffer))).
Proof.
  intros Hw Hr Hf Ho1 Hwr Ho2 Hwait. unfold child. wp_steps. assert (rv a = w_fifo) as E by (subst a; apply Ho1). rewrite E in *.
  wp_if; [lia|]. wp_steps. assert (E1 : rv a0 = Z.of_nat (length puffer)) by (rewrite Ha0; apply Hwr). split; [done|]. intros Hread.
  assert (Hs : sent w_fifo (hist (after (Cclose w_fifo) a1 (after (Cwrite w_fifo puffer) a0
    (after (Copen FIFO4 O_WRONLY 0) a (log (Put Stdout (line " --- Kindprozess ---")) (init () [])))))) = puffer).
  { hist_norm. rewrite E1, Nat2Z.id. by rewrite take_ge. }
  rewrite Hs in Hread. clear Hs. unfold parent. wp_steps. assert (rv a2 = r_fifo) as E2 by (rewrite Ha2; apply Ho2). rewrite E2 in *.
  wp_if; [lia|]. wp_step. wp_step. destruct fuel as [|fuel]; [lia|]. apply wp_loop_S. unfold wait_body. wp_steps.
  wp_if; [exfalso; apply Hif1; rewrite Ha3; apply Hwait|]. wp_steps. rewrite Hread in Ha4. subst a4. cbn [rdata answer_data].
  destruct (blit_terminate (uninit 100) puffer) as (b1 & b2 & E3 & E4 & _ & _ & _ & Hc); [rewrite length_uninit; by apply Nat.ltb_lt|].
  rewrite E3. wp_steps. rewrite E4. wp_steps. rewrite Hc by by_compute. wp_steps. split; [done|]. hist_norm. done.
Qed.
End fifo4.
Definition kern1 (h : list event) (c : call) : ans :=
  match c with Cwrite _ d => answer (Z.of_nat (length d)) | _ => answer 5 end.
Definition kern2 (h : list event) (c : call) : ans :=
  match c with Cread _ _ => answer_data (Z.of_nat (length Fifo4.puffer)) Fifo4.puffer | _ => answer 5 end.
Lemma fifo4_roundtrip_witness :
  wp (Fifo4.parent 1 5) (env_of kern2) (init () []) (λ o s, o = Val () ∧
    printed Stdout (hist s) = line " --- Elternprozess ---" ++ Fifo4.puffer).
Proof.
  refine (proj2 (fifo4_roundtrip (env_of kern1) (env_of kern2) 5 5 5 1 _ _ _ _ _ _ _) _); try done; try lia.
Defined.

(** pipe2.c: the line that was typed at the parent is appended to the file by
    the child; without any input the parent writes an array that nobody has
    initialised. *)
Lemma pipe2_appends e1 e2 (r w writing reading newfile : Z) l rest :
  (∀ h, rv (kern e1 h (Cfdopen w (str "w"))) = writing) → writing ≠ 0 →
  (∀ h, rv (kern e2 h (Cfdopen r (str "r"))) = reading) → reading ≠ 0 → typed_line Pipe2.PIPE_BUF l →
  wp (Pipe2.parent r w) e1 (init () (l ++ LF :: rest)) (λ o s1, o = Val () ∧
    ((∀ h n, kern e2 h (Cfgets reading n) = answer_data 1 (piped writing (hist s1))) →
     wp (Pipe2.child r w newfile) e2 (init () []) (λ o s2, o = Val () ∧ piped newfile (hist s2) = l ++ [LF]))).
Proof.
  intros H1 Hn1 H2 Hn2 Hl. unfold Pipe2.parent. wp_steps. assert (rv a0 = writing) as E by (subst a0; apply H1). rewrite E.
  wp_if; [done|]. wp_steps. eapply fgets_arr_line; [exact Hl|st_simpl; reflexivity|by rewrite length_uninit|].
  intros b Hb Hc. cbn [bpost]. wp_step. rewrite Hc. wp_steps. split; [done|]. st_simpl. rewrite !piped_app, !piped_1. cbn [piped_of].
  rewrite decide_True by done. cbn [app]. intros Hg. unfold Pipe2.child. wp_steps.
  assert (rv a3 = reading) as E3 by (rewrite Ha3; apply H2). rewrite E3 in *. wp_if; [done|]. wp_steps. rewrite Hg in Ha4. subst a4.
  cbn [rv rdata answer_data]. wp_if; [lia|]. destruct Hl as (Hlf & Hz & Hlen).
  destruct (strcpy_Some (uninit Pipe2.PIPE_BUF) (l ++ [LF])) as (b' & E' & _); [rewrite length_app, length_uninit; cbn; lia|].
  assert (nozero (l ++ [LF])) as Hz' by (apply nozero_app; split; [exact Hz|by repeat constructor]).
  pose proof (strcpy_cstr _ _ _ Hz' E') as C'. change (piped writing (hist (init () (l ++ LF :: rest)))) with (@nil Z). cbn [app].
  unfold strcpy in E'. rewrite E'. wp_steps. rewrite C'. wp_steps. split; [done|]. st_simpl. rewrite !piped_app, !piped_1. cbn [piped_of].
  rewrite decide_True by done. done.
Qed.
Lemma pipe2_eof e (r w writing : Z) : (∀ h, rv (kern e h (Cfdopen w (str "w"))) = writing) → writing ≠ 0 →
  wp (Pipe2.parent r w) e (init () []) (λ o _, o = Undef).
Proof.
  intros H1 Hn1. unfold Pipe2.parent. wp_steps. assert (rv a0 = writing) as E by (subst a0; apply H1). rewrite E.
  wp_if; [done|]. wp_steps. unfold fgets_arr. wp_step. apply wp_fgets_eof; [by st_simpl|]. wp_steps. done.
Qed.
End Family.
