(* ===== verification/Conc.v ===== *)
(** * Interleavings: a machine for threads and processes that share memory

    A program is a list of threads, a thread a list of atomic instructions.
    An instruction maps the number of the thread and the memory to the ways it
    can go on: none when it is blocked, several when the system may choose.
    [code] and its combinators assemble a thread from statements the way the
    C source writes them.  [next] gives the steps of a configuration;
    [all_runs] explores the whole tree of runs of a finite program, and
    [all_runs_sound] turns its answer into a statement about every
    interleaving: what holds in each reachable configuration, and that each
    run ends. *)
From stdpp Require Import pmap.
From S2P Require Import Prelude CLib.

(** ** Memory *)

(** Shared variables, the local variables of each thread, the status and the
    exit value of each thread, the owners of the mutexes (-1: free), the
    semaphores, cancellation requests and whether a thread may be cancelled,
    whether something undefined has happened, and the exit status of the
    process once it has ended. *)
Record mem := Mem {
  shared : list Z; locals : list (list Z); status : list Z; rets : list Z; mutexes : list Z;
  sems : list Z; requests : list Z; cancelable : list Z; undefd : bool; exited : option Z }.
Record conf := Conf { pcs : list nat; memory : mem }.

#[export] Instance mem_eq : EqDecision mem.
Proof. solve_decision. Defined.
#[export] Instance conf_eq : EqDecision conf.
Proof. solve_decision. Defined.

(** The status of a thread. *)
Definition NEW : Z := 0.        (* not created yet *)
Definition READY : Z := 1.
Definition ENDED : Z := 2.
Definition CANCELLED : Z := 3.
Definition WAITING (c : nat) : Z := 10 + Z.of_nat c.  (* on condition variable [c] *)

Definition set_shared (x : nat) (v : Z) (m : mem) : mem :=
  Mem (<[x := v]> (shared m)) (locals m) (status m) (rets m) (mutexes m) (sems m) (requests m) (cancelable m) (undefd m) (exited m).
Definition set_local (t x : nat) (v : Z) (m : mem) : mem :=
  Mem (shared m) (alter (<[x := v]>) t (locals m)) (status m) (rets m) (mutexes m) (sems m) (requests m) (cancelable m) (undefd m) (exited m).
Definition set_status (t : nat) (v : Z) (m : mem) : mem :=
  Mem (shared m) (locals m) (<[t := v]> (status m)) (rets m) (mutexes m) (sems m) (requests m) (cancelable m) (undefd m) (exited m).
Definition set_ret (t : nat) (v : Z) (m : mem) : mem :=
  Mem (shared m) (locals m) (status m) (<[t := v]> (rets m)) (mutexes m) (sems m) (requests m) (cancelable m) (undefd m) (exited m).
Definition set_mutex (x : nat) (v : Z) (m : mem) : mem :=
  Mem (shared m) (locals m) (status m) (rets m) (<[x := v]> (mutexes m)) (sems m) (requests m) (cancelable m) (undefd m) (exited m).
Definition set_sem (x : nat) (v : Z) (m : mem) : mem :=
  Mem (shared m) (locals m) (status m) (rets m) (mutexes m) (<[x := v]> (sems m)) (requests m) (cancelable m) (undefd m) (exited m).
Definition set_request (t : nat) (v : Z) (m : mem) : mem :=
  Mem (shared m) (locals m) (status m) (rets m) (mutexes m) (sems m) (<[t := v]> (requests m)) (cancelable m) (undefd m) (exited m).
Definition set_cancelable (t : nat) (v : Z) (m : mem) : mem :=
  Mem (shared m) (locals m) (status m) (rets m) (mutexes m) (sems m) (requests m) (<[t := v]> (cancelable m)) (undefd m) (exited m).
Definition set_undefd (m : mem) : mem :=
  Mem (shared m) (locals m) (status m) (rets m) (mutexes m) (sems m) (requests m) (cancelable m) true (exited m).
Definition set_exited (v : Z) (m : mem) : mem :=
  Mem (shared m) (locals m) (status m) (rets m) (mutexes m) (sems m) (requests m) (cancelable m) (undefd m) (Some v).

(** A shared variable, and a local variable of thread [t]. *)
Definition var (x : nat) (m : mem) : Z := shared m !!! x.
Definition loc (x : nat) (t : nat) (m : mem) : Z := (locals m !!! t) !!! x.
(** [pthread_self]: threads are numbered from 0 (the main thread), their ids from 1. *)
Definition tid (t : nat) : Z := Z.of_nat t + 1.

(** ** Instructions *)

(** One way to go on: what is printed, the new memory, and where to continue
    ([None]: at the next instruction). *)
Record act := Act { said : list Z; then_mem : mem; goto : option nat }.
(** An instruction, with the shared variables it reads ([false]) or writes
    ([true]) without being an operation that synchronises. *)
Record instr := Instr { touches : list (nat * bool); run : nat → mem → list act }.
(** Code placed at an address. *)
Definition code := nat → list instr.
Definition prog := list (list instr).

Definition atom (rw : list (nat * bool)) (f : nat → mem → list act) : code := λ _, [Instr rw f].
Definition reads (xs : list nat) : list (nat * bool) := (λ x, (x, false)) <$> xs.
Definition silently (m : mem) : list act := [Act [] m None].
Definition quietly (f : nat → mem → mem) : code := atom [] (λ t m, silently (f t m)).

(** A thread that may be cancelled and has been asked to ends here. *)
Definition cancelled_here (t : nat) (m : mem) : bool :=
  bool_decide (requests m !!! t = 1 ∧ cancelable m !!! t = 1).
Definition cancelled (t : nat) (m : mem) : act := Act [] (set_status t CANCELLED m) None.
(** [printf], which may be a cancellation point; [xs] are the shared variables among its arguments. *)
Definition say (xs : list nat) (text : nat → mem → list Z) : code := atom (reads xs) (λ t m,
  Act (text t m) m None :: if cancelled_here t m then [cancelled t m] else []).
Definition puts (text : list Z) : code := say [] (λ _ _, text).
(** [printf] with [pthread_self()] between two texts. *)
Definition say_self (a b : list Z) : code := say [] (λ t _, a ++ dec (tid t) ++ b).
(** [sleep]: takes any time; a cancellation point. *)
Definition sleep : code := atom [] (λ t m, if cancelled_here t m then [cancelled t m] else silently m).
Definition assign (x : nat) (xs : list nat) (v : nat → mem → Z) : code :=
  atom ((x, true) :: reads xs) (λ t m, silently (set_shared x (v t m) m)).
(** To a local variable. *)
Definition assign_local (x : nat) (xs : list nat) (v : nat → mem → Z) : code :=
  atom (reads xs) (λ t m, silently (set_local t x (v t m) m)).
(** Any of the values [vs]. *)
Definition assign_any (x : nat) (vs : list Z) : code :=
  atom [(x, true)] (λ t m, (λ v, Act [] (set_shared x v m) None) <$> vs).

(** Control: [xs] are the shared variables a condition reads. *)
Definition test := nat → mem → bool.
Definition branch (xs : list nat) (b : test) (pc : nat) : instr :=
  Instr (reads xs) (λ t m, [Act [] m (if b t m then Some pc else None)]).
Definition jump (pc : nat) : instr := Instr [] (λ t m, [Act [] m (Some pc)]).
Fixpoint block (cs : list code) : code := λ a,
  match cs with [] => [] | c :: cs => let l := c a in l ++ block cs (a + length l)%nat end.
Definition for_each {A} (l : list A) (body : A → code) : code := block (body <$> l).
Definition when (xs : list nat) (b : test) (th : code) : code := λ a,
  let T := th (S a) in branch xs (λ t m, negb (b t m)) (S a + length T) :: T.
Definition if_else (xs : list nat) (b : test) (th el : code) : code := λ a,
  let T := th (S a) in let e := (S (S a) + length T)%nat in let E := el e in
  branch xs (λ t m, negb (b t m)) e :: T ++ jump (e + length E) :: E.
Definition while (xs : list nat) (b : test) (body : code) : code := λ a,
  let B := body (S a) in branch xs (λ t m, negb (b t m)) (S (S a) + length B) :: B ++ [jump a].
(** A loop whose condition has a side effect [pre]. *)
Definition while_pre (pre : code) (xs : list nat) (b : test) (body : code) : code := λ a,
  let Q := pre a in let s := (S a + length Q)%nat in let B := body s in
  Q ++ branch xs (λ t m, negb (b t m)) (S s + length B) :: B ++ [jump a].
(** [while (1)]; the body gets the code for [break]. *)
Definition forever (body : code → code) : code := λ a,
  let n := length (body (λ _, [jump 0]) a) in body (λ _, [jump (S a + n)]) a ++ [jump a].

(** Locking a mutex one holds blocks for ever; unlocking one that one does not hold is undefined. *)
Definition lock (x : nat) : code := atom [] (λ t m,
  if decide (mutexes m !!! x = -1) then silently (set_mutex x (Z.of_nat t) m) else []).
Definition unlock (x : nat) : code := atom [] (λ t m,
  if decide (mutexes m !!! x = Z.of_nat t) then silently (set_mutex x (-1) m)
  else silently (set_undefd m)).
(** [r = c]: a call whose result is always 0, stored in the local variable [r]. *)
Definition returns (r : nat) (c : code) : code := λ a,
  (λ i, Instr (touches i) (λ t m,
     (λ x, Act (said x) (set_local t r 0 (then_mem x)) (goto x)) <$> run i t m)) <$> c a.
(** [pthread_cond_wait]: give the mutex back and wait, then take it again.
    Without the mutex it is undefined.  There are no spurious wake-ups. *)
Definition cond_wait (c x : nat) : code := block [
  atom [] (λ t m, if decide (mutexes m !!! x = Z.of_nat t)
           then silently (set_status t (WAITING c) (set_mutex x (-1) m))
           else silently (set_undefd m));
  lock x].
(** [pthread_cond_signal]: wakes one of the waiting threads, if there is one. *)
Definition waiting (c : nat) (m : mem) : list nat :=
  filter (λ t, status m !!! t = WAITING c) (seq 0 (length (status m))).
Definition cond_signal (c : nat) : code := atom [] (λ t m,
  match waiting c m with
  | [] => silently m
  | ts => (λ t', Act [] (set_status t' READY m) None) <$> ts
  end).
Definition sem_wait (x : nat) : code := atom [] (λ t m,
  if decide (0 < sems m !!! x) then silently (set_sem x (sems m !!! x - 1) m) else []).
Definition sem_post (x : nat) : code := quietly (λ t m, set_sem x (sems m !!! x + 1) m).
(** [sem_getvalue] into a local variable. *)
Definition sem_getvalue (x r : nat) : code := quietly (λ t m, set_local t r (sems m !!! x) m).

(** [pthread_create] of thread [t'] with the id stored in [x]: the thread may
    run before the id is stored.  With [failing] the system may refuse, and
    [err] is what the caller does then. *)
Definition pthread_create (failing : bool) (t' x : nat) (err : code) : code := λ a,
  let started m := set_status t' READY m in
  let store := assign x [] (λ _ _, tid t') (S a) in
  if failing then
    let E := err (S (S (S a))) in
    Instr [] (λ t m, [Act [] (started m) None; Act [] m (Some (S (S (S a))))]) ::
      store ++ jump (S (S (S a)) + length E) :: E
  else Instr [] (λ t m, silently (started m)) :: store.
(** [exit]: ends the process.  [pthread_exit]: ends the thread with a value. *)
Definition exit_process (status : Z) : code := quietly (λ _ m, set_exited status m).
Definition pthread_exit (v : nat → mem → Z) : code :=
  quietly (λ t m, set_status t ENDED (set_ret t (v t m) m)).
(** [pthread_join] of the thread whose id is in [x]; [got] says what happens
    to its exit value (a cancelled thread's is [PTHREAD_CANCELED]). *)
Definition PTHREAD_CANCELED : Z := -1.
Definition over (s : Z) : bool := bool_decide (s = ENDED ∨ s = CANCELLED).
Definition pthread_join (x : nat) (got : Z → mem → mem) : code := atom (reads [x]) (λ t m,
  if decide (var x m = 0) then silently (set_undefd m) else
  let t' := Z.to_nat (var x m - 1) in
  if over (status m !!! t')
  then silently (got (if decide (status m !!! t' = CANCELLED) then PTHREAD_CANCELED else rets m !!! t') m)
  else []).
Definition ignored (v : Z) (m : mem) : mem := m.
(** The exit value is a pointer: stored in the [int]s [r] and [r + 1] when the
    caller passes the address of element [i] of an array of [n] [int]s. *)
Definition into_int_array (r i n : nat) (v : Z) (m : mem) : mem :=
  if decide (S i < n)%nat
  then set_shared (r + S i) (swrap 32 (Z.shiftr v 32)) (set_shared (r + i) (swrap 32 v) m)
  else set_undefd m.
(** [pthread_once]: 0 - not called yet, 1 - somebody is in [f], 2 - done. *)
Definition pthread_once (o : nat) (f : code) : code := λ a,
  let F := f (S a) in
  Instr [] (λ t m, if decide (var o m = 0) then silently (set_shared o 1 m)
                   else if decide (var o m = 1) then [] else [Act [] m (Some (S (S a) + length F)%nat)]) ::
  F ++ [Instr [] (λ t m, silently (set_shared o 2 m))].
(** [pthread_cancel] of the thread whose id is in [x]; [pthread_setcancelstate]. *)
Definition pthread_cancel (x : nat) : code := atom (reads [x]) (λ t m,
  if decide (var x m = 0) then silently (set_undefd m) else silently (set_request (Z.to_nat (var x m - 1)) 1 m)).
Definition pthread_setcancelstate (v : nat → mem → Z) (old : nat) : code :=
  quietly (λ t m, set_cancelable t (v t m) (set_local t old (cancelable m !!! t) m)).

(** ** Steps *)
Definition step_thread (P : prog) (c : conf) (t : nat) : list (nat * list Z * conf) :=
  if decide (status (memory c) !!! t = READY) then
    match P !! t, pcs c !! t with
    | Some code, Some pc =>
        match code !! pc with
        | Some i => (λ a, (t, said a, Conf (<[t := default (S pc) (goto a)]> (pcs c)) (then_mem a))) <$> run i t (memory c)
        | None => []
        end
    | _, _ => []
    end
  else [].
(** All steps of a configuration; none after the process has ended or
    something undefined has happened. *)
Definition next (P : prog) (c : conf) : list (nat * list Z * conf) :=
  if undefd (memory c) then [] else
  match exited (memory c) with
  | Some _ => []
  | None => concat (step_thread P c <$> seq 0 (length (pcs c)))
  end.
Definition successors (P : prog) (c : conf) : list conf := (λ x, x.2) <$> next P c.
Definition step (P : prog) (c c' : conf) : Prop := c' ∈ successors P c.
Definition reachable (P : prog) : conf → conf → Prop := rtc (step P).
(** Every run from [c] has at most [n] steps. *)
Definition ends_within (P : prog) (n : nat) (c : conf) : Prop := ∀ k c', nsteps (step P) k c c' → (k ≤ n)%nat.

(** Thread 0 runs, the other [n - 1] are created by it. *)
Definition start (n : nat) (vars regs mtx sem : list Z) : conf :=
  Conf (replicate n 0%nat)
    (Mem vars (replicate n regs) (READY :: replicate (n - 1) NEW) (replicate n 0) mtx sem
      (replicate n 0) (replicate n 1) false None).

(** ** What configurations may be *)
Definition exited_with (v : Z) (c : conf) : bool := bool_decide (exited (memory c) = Some v).
Definition undefined_in (c : conf) : bool := undefd (memory c).
Definition defined_in (c : conf) : bool := negb (undefd (memory c)).
(** No step is possible. *)
Definition final (P : prog) (c : conf) : Prop := next P c = [].
#[export] Instance final_dec P c : Decision (final P c).
Proof. unfold final. apply _. Defined.
(** Nothing has ended the process and no thread can go on. *)
Definition deadlocked (P : prog) (c : conf) : bool :=
  defined_in c && bool_decide (exited (memory c) = None) && bool_decide (final P c).
(** The next access of a thread that is ready: two threads race when one of
    them writes what the other is about to read or write. *)
Definition about_to (P : prog) (c : conf) (t : nat) : list (nat * bool) :=
  if decide (status (memory c) !!! t = READY) then
    match (P !! t) ≫= (λ l, l !! (pcs c !!! t)) with Some i => touches i | None => [] end
  else [].
Definition conflict (a b : list (nat * bool)) : bool :=
  existsb (λ x, existsb (λ y, bool_decide (x.1 = y.1) && (x.2 || y.2)) b) a.
Definition racy (P : prog) (c : conf) : bool :=
  existsb (λ t, existsb (λ t', bool_decide (t < t')%nat && conflict (about_to P c t) (about_to P c t'))
    (seq 0 (length P))) (seq 0 (length P)).
(** Neither undefined behaviour nor a data race. *)
Definition sound (P : prog) (c : conf) : bool := defined_in c && negb (racy P c).
(** What thread [t] may print next. *)
Definition may_say (P : prog) (c : conf) (out : list Z) : Prop := ∃ t c', (t, out, c') ∈ next P c.
Definition only_says (P : prog) (ok : list Z → bool) (c : conf) : bool :=
  forallb (λ '(_, out, _), ok out) (next P c).

(** A run with what is printed, and how many of its texts are [ok]. *)
Inductive trace (P : prog) : conf → list (nat * list Z) → conf → Prop :=
| trace_nil c : trace P c [] c
| trace_cons c t out c1 tr c2 : (t, out, c1) ∈ next P c → trace P c1 tr c2 → trace P c ((t, out) :: tr) c2.
Fixpoint count_said (ok : list Z → bool) (tr : list (nat * list Z)) : Z :=
  match tr with [] => 0 | x :: tr => (if ok x.2 then 1 else 0) + count_said ok tr end.
(** [phi] goes up by one with each [ok] text and is constant otherwise. *)
Definition counted (P : prog) (ok : list Z → bool) (phi : conf → Z) (c : conf) : bool :=
  forallb (λ '(_, out, c'), bool_decide (phi c' = phi c + (if ok out then 1 else 0))) (next P c).

(** The verdict on a program: each run from [c] ends after at most [n] steps,
    every configuration on the way is [safe], the last one [fin], and every
    text printed [ok]. *)
Definition verdict (P : prog) (n : nat) (c : conf) (safe fin : conf → bool) (ok : list Z → bool) : Prop :=
  ends_within P n c ∧
  ∀ c', reachable P c c' →
    safe c' = true ∧ (final P c' → fin c' = true) ∧ ∀ out, may_say P c' out → ok out = true.
(** Texts that do not begin with [p], or are [p ++ s]. *)
Definition never (p out : list Z) : bool := negb (is_prefix p out).
Definition only_with (p s out : list Z) : bool := never p out || bool_decide (out = p ++ s).
Definition anything {A} (x : A) : bool := true.

(** ** Exploration *)
(** Each configuration once: those with the same [key] are compared. *)
Definition mix (h x : Z) : Z := Z.shiftl h 6 + (x + 2).
Definition key (c : conf) : positive :=
  let m := memory c in
  Z.to_pos (foldl mix (foldl (foldl mix) (foldl mix (foldl mix (foldl mix (foldl (λ h x, mix h (Z.of_nat x))
    1 (pcs c)) (shared m)) (status m)) (sems m)) (locals m)) (mutexes m)).
Definition add_conf (s : Pmap conf * list conf) (c : conf) : Pmap conf * list conf :=
  match s.1 !! key c with
  | None => (<[key c := c]> s.1, s.2)
  | Some c' => if decide (c = c') then s else (s.1, c :: s.2)
  end.
Definition together (l : list conf) : list conf :=
  let s := foldl add_conf (∅, []) l in (map_to_list s.1).*2 ++ s.2.
Definition frontier (P : prog) (l : list conf) : list conf := together (l ≫= successors P).
(** [p] holds of all configurations of all runs from [l], and these have at most [n] steps. *)
Fixpoint all_runs (n : nat) (P : prog) (p : conf → bool) (l : list conf) : bool :=
  forallb p l &&
  match frontier P l with
  | [] => true
  | l' => match n with O => false | S n => all_runs n P p l' end
  end.
(** Some run of at most [n] steps leads to a configuration where [p] holds. *)
Fixpoint some_run (n : nat) (P : prog) (p : conf → bool) (l : list conf) : bool :=
  existsb p l || match n with O => false | S n => some_run n P p (frontier P l) end.

(** What [add_conf] has collected. *)
Definition collected (s : Pmap conf * list conf) (c : conf) : Prop := s.1 !! key c = Some c ∨ c ∈ s.2.
Definition keyed (s : Pmap conf * list conf) : Prop := ∀ k c, s.1 !! k = Some c → key c = k.
Lemma add_conf_spec s c : keyed s →
  keyed (add_conf s c) ∧ ∀ c', collected (add_conf s c) c' ↔ collected s c' ∨ c' = c.
Proof.
  intros Hk. unfold add_conf, collected, keyed. destruct (s.1 !! key c) as [c1|] eqn:E.
  - destruct (decide (c = c1)) as [<-|Hne]; cbn [fst snd].
    + split; [done|]. intros c'. naive_solver.
    + split; [done|]. intros c'. rewrite elem_of_cons. naive_solver.
  - cbn [fst snd]. split.
    + intros k c'. destruct (decide (k = key c)) as [->|Hne].
      * rewrite lookup_insert_eq. by intros [= ->].
      * rewrite lookup_insert_ne by done. apply Hk.
    + intros c'. destruct (decide (key c' = key c)) as [Hkc|Hne].
      * rewrite Hkc, lookup_insert_eq, E. naive_solver.
      * rewrite lookup_insert_ne by done. naive_solver.
Qed.
Lemma foldl_add_conf l : ∀ s, keyed s →
  keyed (foldl add_conf s l) ∧ ∀ c, collected (foldl add_conf s l) c ↔ collected s c ∨ c ∈ l.
Proof.
  induction l as [|x l IH]; intros s Hk; simpl.
  - split; [done|]. intros c. rewrite elem_of_nil. naive_solver.
  - destruct (add_conf_spec s x Hk) as [Hk' Hc']. destruct (IH _ Hk') as [Hk'' Hc''].
    split; [done|]. intros c. rewrite Hc'', Hc', elem_of_cons. naive_solver.
Qed.
Lemma elem_of_together l c : c ∈ together l ↔ c ∈ l.
Proof.
  unfold together. destruct (foldl_add_conf l (∅, [])) as [Hk Hc]; [by intros k c'|].
  rewrite elem_of_app, list_elem_of_fmap. setoid_rewrite elem_of_map_to_list'.
  transitivity (collected (foldl add_conf (∅, []) l) c).
  - unfold collected. split; intros [H|H]; try by right.
    + destruct H as ([k c'] & -> & H). left. by rewrite (Hk _ _ H).
    + left. by exists (key c, c).
  - rewrite Hc. unfold collected; simpl. rewrite lookup_empty, elem_of_nil. naive_solver.
Qed.

Lemma elem_of_frontier P l c' : c' ∈ frontier P l ↔ ∃ c, c ∈ l ∧ step P c c'.
Proof.
  unfold frontier. rewrite elem_of_together, list_elem_of_bind.
  unfold step. naive_solver.
Qed.

(** For programs with endless loops: the set of all configurations. *)
Definition known (s : Pmap conf * list conf) (c : conf) : bool :=
  match s.1 !! key c with Some c' => bool_decide (c = c') || bool_decide (c ∈ s.2) | None => false end.
Fixpoint saturate (n : nat) (P : prog) (s : Pmap conf * list conf) (todo : list conf) : Pmap conf * list conf :=
  match n with
  | O => s
  | S n => match filter (λ c, known s c = false) (frontier P todo) with
           | [] => s
           | new => saturate n P (foldl add_conf s new) new
           end
  end.
Definition always (n : nat) (P : prog) (p : conf → bool) (c : conf) : bool :=
  let s := saturate n P (add_conf (∅, []) c) [c] in
  known s c && forallb (λ c, p c && forallb (known s) (successors P c)) ((map_to_list s.1).*2 ++ s.2).

Lemma always_sound n P p c : always n P p c = true → ∀ c', reachable P c c' → p c' = true.
Proof.
  unfold always. set (s := saturate _ _ _ _). clearbody s.
  intros [Hc Hcl]%andb_true_iff. rewrite forallb_forall in Hcl.
  assert (Hin : ∀ x, known s x = true → p x = true ∧ ∀ y, step P x y → known s y = true).
  { intros x Hx. assert (Hi : x ∈ (map_to_list s.1).*2 ++ s.2).
    { unfold known in Hx. apply elem_of_app. destruct (s.1 !! key x) as [x'|] eqn:E; [|done].
      apply orb_true_iff in Hx as [->%bool_decide_eq_true|Hx%bool_decide_eq_true]; [left|by right].
      apply list_elem_of_fmap. exists (key x', x'). split; [done|]. by apply elem_of_map_to_list. }
    apply list_elem_of_In, Hcl, andb_true_iff in Hi as [Hp Hs]. split; [done|].
    intros y Hy. rewrite forallb_forall in Hs. by apply Hs, list_elem_of_In. }
  intros c' Hr. induction Hr as [x|x y z Hs Hr IH]; [by apply Hin|]. apply IH. by apply (Hin x).
Qed.

Lemma all_runs_sound n P p : ∀ l,
  all_runs n P p l = true →
  ∀ c, c ∈ l → (∀ c', reachable P c c' → p c' = true) ∧ ends_within P n c.
Proof.
  assert (Hf : ∀ l c c', c ∈ l → step P c c' → c' ∈ frontier P l).
  { intros l c c' Hc Hs. apply elem_of_frontier. eauto. }
  induction n as [|n IH]; intros l H c Hc; simpl in H;
    apply andb_true_iff in H as [Hp H]; rewrite forallb_forall in Hp.
  all: assert (Hpc : p c = true) by (apply Hp, list_elem_of_In, Hc).
  all: destruct (frontier P l) as [|x l'] eqn:E; [|try done].
  1,2: assert (Hno : ∀ c', ¬ step P c c') by
         (intros c' Hs; pose proof (Hf l c c' Hc Hs) as Hin; rewrite E in Hin; by apply not_elem_of_nil in Hin).
  1,2: split; [intros c' Hr; destruct Hr; [done|by edestruct Hno]
              |intros k c' Hk; destruct Hk; [lia|by edestruct Hno]].
  split.
  - intros c' Hr. destruct Hr as [|c1 c2 c3 Hs Hr]; [done|].
    apply (IH _ H c2); [rewrite <- E; by eapply Hf|done].
  - intros k c' Hk. destruct Hk as [|k c1 c2 c3 Hs Hk]; [lia|].
    enough (k ≤ n)%nat by lia. eapply (IH _ H c2); [rewrite <- E; by eapply Hf|done].
Qed.

(** The form in which the programs use it. *)
Lemma explore n P p c :
  all_runs n P p [c] = true →
  (∀ c', reachable P c c' → p c' = true) ∧ ends_within P n c.
Proof. intros H. apply (all_runs_sound n P p [c] H). by left. Qed.

Lemma some_run_sound n P p : ∀ l,
  some_run n P p l = true → ∃ c c', c ∈ l ∧ reachable P c c' ∧ p c' = true.
Proof.
  induction n as [|n IH]; intros l H; simpl in H; apply orb_true_iff in H as [H|H]; try done.
  1,2: apply existsb_exists in H as (c & Hc & Hp); exists c, c;
         split; [by apply list_elem_of_In|]; split; [apply rtc_refl|done].
  destruct (IH _ H) as (c & c' & Hc & Hr & Hp). apply elem_of_frontier in Hc as (b & Hb & Hs).
  exists b, c'. split; [done|]. split; [by eapply rtc_l|done].
Qed.
Lemma find_run n P p c : some_run n P p [c] = true → ∃ c', reachable P c c' ∧ p c' = true.
Proof. intros (b & c' & ->%list_elem_of_singleton & H)%some_run_sound. eauto. Qed.

(** The run in which the thread with the smallest number always goes on. *)
Fixpoint first_run (n : nat) (P : prog) (c : conf) : conf :=
  match n with
  | O => c
  | S n => match next P c with [] => c | x :: _ => first_run n P x.2 end
  end.
Lemma first_run_reachable n P : ∀ c, reachable P c (first_run n P c).
Proof.
  induction n as [|n IH]; intros c; simpl; [apply rtc_refl|].
  destruct (next P c) as [|x l] eqn:E; [apply rtc_refl|].
  eapply rtc_l; [|apply IH]. unfold step, successors. rewrite E. by left.
Qed.
Lemma find_first n P p c : p (first_run n P c) = true → ∃ c', reachable P c c' ∧ p c' = true.
Proof. intros H. exists (first_run n P c). split; [apply first_run_reachable|done]. Qed.

Lemma only_says_spec P ok c : only_says P ok c = true ↔ ∀ out, may_say P c out → ok out = true.
Proof.
  unfold only_says, may_say. rewrite forallb_forall. split.
  - intros H out (t & c' & Hin). by apply (H (t, out, c')), list_elem_of_In.
  - intros H [[t out] c'] Hin. apply H. exists t, c'. by apply list_elem_of_In.
Qed.

Lemma judge n P safe fin ok c :
  all_runs n P (λ c, safe c && (negb (bool_decide (final P c)) || fin c) && only_says P ok c) [c] = true →
  verdict P n c safe fin ok.
Proof.
  intros [H He]%explore. split; [done|]. intros c' Hc. specialize (H c' Hc).
  apply andb_true_iff in H as [[Hs Hf]%andb_true_iff Ho]. split; [done|]. split.
  - intros Hn. rewrite bool_decide_eq_true_2 in Hf by done. done.
  - by apply only_says_spec.
Qed.

Lemma trace_reachable P c tr c' : trace P c tr c' → reachable P c c'.
Proof.
  induction 1 as [|c t out c1 tr c2 Hn Ht IH]; [apply rtc_refl|].
  eapply rtc_l; [|exact IH]. apply list_elem_of_fmap. by exists (t, out, c1).
Qed.
(** A potential that is counted everywhere is the number of [ok] texts. *)
Lemma count_trace P ok phi c tr c' :
  (∀ c1, reachable P c c1 → counted P ok phi c1 = true) →
  trace P c tr c' → count_said ok tr = phi c' - phi c.
Proof.
  intros Hc Ht. induction Ht as [|c t out c1 tr c2 Hn Ht IH]; simpl; [lia|].
  assert (Hs : step P c c1) by (apply list_elem_of_fmap; by exists (t, out, c1)).
  rewrite IH by (intros c3 Hr; apply Hc; by eapply rtc_l).
  specialize (Hc c (rtc_refl _ _)). unfold counted in Hc. rewrite forallb_forall in Hc.
  specialize (Hc (t, out, c1)). cbn in Hc. rewrite bool_decide_eq_true in Hc.
  rewrite Hc by (by apply list_elem_of_In). lia.
Qed.

(** Decides a verdict, or finds a run, by exploration. *)
Ltac by_vm := vm_cast_no_check (eq_refl true).
Ltac by_judge := apply judge; by_vm.
Ltac by_search n := apply (find_run n); by_vm.
Ltac by_first_run n := apply (find_first n); by_vm.
