(* ===== verification/Threads.v ===== *)
(** * 10_Threads: condition variables and semaphores

    thread13 (a semaphore), thread10 and thread11 (a condition variable whose
    waiting thread does not hold the mutex), thread9 (a lost wake-up) and
    thread12 (the condition is tested before waiting), as threads of the
    interleaving machine of [Conc]. *)
From S2P Require Import Prelude CLib Conc.

Definition tab : list Z := [TAB].
(** The first and the last line most of the programs print. *)
Definition main_starts : code := say_self (LF :: str "-> Main-Thread gestartet (ID:") (line ")").
Definition main_ends : code := say_self (str "<- Main-Thread beendet (ID:") (line ")").
(** A local variable is not zero. *)
Definition nonzero (x : nat) : test := λ t m, negb (bool_decide (loc x t m = 0)).
(** [sem_init] and [sem_destroy]. *)
Definition sem_init (x : nat) (v : Z) : code := quietly (λ _ m, set_sem x v m).
Definition sem_destroy (x : nat) : code := quietly (λ _ m, set_sem x (-1) m).

Module Thread13.
(** Shared: [werte], [th]; local: [val], [summe]; semaphore: [sem]. *)
Definition werte (i : nat) : nat := i.
Definition th (i : nat) : nat := 10 + i.
Definition sem : nat := 0.
Definition val : nat := 0.
Definition summe : nat := 1.

Definition thread1 : code := block [
  say_self (tab ++ str "->Thread ") (line " gestartet ..");
  for_each (seq 0 10) (λ i, assign (werte i) [] (λ _ _, Z.of_nat i));
  say_self (str "->Thread ") (line " Inkrementiere Semaphor");
  sem_post sem;
  sem_getvalue sem val;
  say [] (λ t m, str "->Semaphor inkrementiert (Wert: " ++ dec (loc val t m) ++ line ")");
  say_self (tab ++ str "->Thread ") (line " ende ..");
  pthread_exit (λ _ _, 0)].

Definition thread2 : code := block [
  assign_local summe [] (λ _ _, 0);
  sem_wait sem;
  say_self (tab ++ str "->Thread ") (line " gestartet ..");
  for_each (seq 0 10) (λ i, assign_local summe [werte i] (λ t m, loc summe t m + var (werte i) m));
  say [] (λ t m, tab ++ str "->Summe " ++ dec (loc summe t m) ++ [LF]);
  say_self (tab ++ str "->Thread ") (line " ende ..");
  pthread_exit (λ _ _, 0)].

Definition main : code := block [
  say_self (str "-> Main-Thread gestartet (ID:") (line ")");
  sem_init sem 0;
  sem_getvalue sem val;
  say [] (λ t m, str "-> Semaphor initialisiert (Wert: " ++ dec (loc val t m) ++ line ")");
  pthread_create false 1 (th 0) (block []);
  pthread_create false 2 (th 1) (block []);
  pthread_join (th 0) ignored;
  pthread_join (th 1) ignored;
  sem_getvalue sem val;
  say [] (λ t m, str "-> Semaphor (Wert: " ++ dec (loc val t m) ++ line ")");
  sem_destroy sem;
  puts (line "-> Semaphor geloescht");
  main_ends;
  exit_process 0].

Definition program : prog := [main 0; thread1 0; thread2 0]%nat.
Definition initial : conf := start 3 (replicate 12 0) [0; 0] [] [0].

End Thread13.

Module Thread10.
Definition werte (i : nat) : nat := i.
Definition th (i : nat) : nat := 10 + i.
Definition mutex : nat := 0.
Definition cond : nat := 0.
Definition ret : nat := 0.
Definition summe : nat := 1.

Definition thread1 : code := block [
  say_self (tab ++ str "->Thread ") (line " gestartet ..");
  sleep;
  returns ret (lock mutex);
  when [] (nonzero ret) (block [
    say_self (str "Fehler bei lock in Thread:") [LF]; exit_process 1]);
  for_each (seq 0 10) (λ i, assign (werte i) [] (λ _ _, Z.of_nat i));
  say_self (str "->Thread ") (line " Sende Bedingugsvariable");
  cond_signal cond;
  returns ret (unlock mutex);
  when [] (nonzero ret) (block [
    say_self (str "Fehler bei unlock in Thread:") [LF]; exit_process 1]);
  say_self (tab ++ str "->Thread ") (line " ende ..");
  pthread_exit (λ _ _, 0)].

Definition thread2 : code := block [
  assign_local summe [] (λ _ _, 0);
  say_self (str "->Thread ") (line " wartet auf Bedingugsvariable");
  cond_wait cond mutex;
  say_self (tab ++ str "->Thread ") (line " gestartet ..");
  for_each (seq 0 10) (λ i, assign_local summe [werte i] (λ t m, loc summe t m + var (werte i) m));
  say_self (tab ++ str "->Thread ") (line " ende ..");
  say [] (λ t m, tab ++ str "->Summe " ++ dec (loc summe t m) ++ [LF]);
  pthread_exit (λ _ _, 0)].

Definition main : code := block [
  main_starts;
  pthread_create false 1 (th 0) (block []);
  pthread_create false 2 (th 1) (block []);
  pthread_join (th 0) ignored;
  pthread_join (th 1) ignored;
  main_ends;
  exit_process 0].

Definition program : prog := [main 0; thread1 0; thread2 0]%nat.
Definition initial : conf := start 3 (replicate 12 0) [0; 0] [-1] [].
End Thread10.

Module Thread11.
(** The same with the array, the mutex and the condition variable in an
    allocated struct: [werte] are its elements, [d] is null or not. *)
Definition d : nat := 12.
Definition thread1 : code := block [
  say_self (tab ++ str "->Thread ") (line " gestartet ..");
  sleep;
  returns Thread10.ret (lock Thread10.mutex);
  when [] (nonzero Thread10.ret) (block [
    say_self (str "Fehler bei lock in Thread:") [LF]; exit_process 1]);
  for_each (seq 0 10) (λ i, assign (Thread10.werte i) [] (λ _ _, Z.of_nat i));
  say_self (str "->Thread ") (line " Sende Bedingugsvariable");
  cond_signal Thread10.cond;
  returns Thread10.ret (unlock Thread10.mutex);
  when [] (nonzero Thread10.ret) (block [
    say_self (str "Fehler bei unlock in Thread:") [LF]; exit_process 1]);
  say_self (tab ++ str "->Thread ") (line " ende ..");
  pthread_exit (λ _ _, 0)].

Definition thread2 : code := block [
  assign_local Thread10.summe [] (λ _ _, 0);
  say_self (str "->Thread ") (line " wartet auf Bedingugsvariable");
  cond_wait Thread10.cond Thread10.mutex;
  say_self (tab ++ str "->Thread ") (line " gestartet ..");
  for_each (seq 0 10) (λ i, assign_local Thread10.summe [Thread10.werte i]
    (λ t m, loc Thread10.summe t m + var (Thread10.werte i) m));
  say_self (tab ++ str "->Thread ") (line " ende ..");
  say [] (λ t m, tab ++ str "->Summe " ++ dec (loc Thread10.summe t m) ++ [LF]);
  pthread_exit (λ _ _, 0)].

Definition main : code := block [
  assign_any d [0; 1];
  when [d] (λ _ m, bool_decide (var d m = 0)) (block [
    puts (line "Konnte keinen Speicher allozieren...!"); exit_process 1]);
  quietly (λ _ m, set_mutex Thread10.mutex (-1) m);
  main_starts;
  pthread_create false 1 (Thread10.th 0) (block []);
  pthread_create false 2 (Thread10.th 1) (block []);
  pthread_join (Thread10.th 0) ignored;
  pthread_join (Thread10.th 1) ignored;
  quietly (λ _ m, set_mutex Thread10.mutex (-2) m);
  main_ends;
  exit_process 0].

Definition program : prog := [main 0; thread1 0; thread2 0]%nat.
Definition initial : conf := start 3 (replicate 13 0) [0; 0] [-2] [].

(** Both programs call pthread_cond_wait without holding the mutex, which
    is undefined.  Whatever the scheduler does, every run of thread10 comes to
    this call, every run of thread11 too unless malloc fails; the sum is never
    printed before. *)
Theorem cond_wait_needs_mutex :
  verdict Thread10.program 60 Thread10.initial anything undefined_in (never (tab ++ str "->Summe ")) ∧
  verdict program 60 initial anything (λ c, undefined_in c || exited_with 1 c) (never (tab ++ str "->Summe ")).
Proof. split; by_judge. Qed.
End Thread11.

Module Thread9.
Definition THREAD_MAX : nat := 3.
Definition th (i : nat) : nat := i.
Definition mutex : nat := 0.
Definition cond : nat := 0.

Definition threads : code := block [
  say_self (tab ++ str "->Thread ") (line " wartet auf Bedingung");
  lock mutex;
  cond_wait cond mutex;
  say_self (str "->Thread ") (line " hat Bedingung erhalten");
  say_self (str "->Thread ") (line " Sende Bedingugsvariable");
  cond_signal cond;
  unlock mutex;
  pthread_exit (λ _ _, 0)].

Definition main (failing : bool) : code := block [
  main_starts;
  for_each (seq 0 THREAD_MAX) (λ i, pthread_create failing (S i) (th i) (block [
    puts (line "Konnte Thread nicht erzeugen ...!"); exit_process 1]));
  puts (LF :: str "-> Main-Thread hat " ++ dec (Z.of_nat THREAD_MAX) ++ line " Threads erzeugt");
  sleep;
  puts (line "->Main-Thread: Sende Bedingugsvariable");
  cond_signal cond;
  for_each (seq 0 THREAD_MAX) (λ i, pthread_join (th i) ignored);
  main_ends;
  exit_process 0].

Definition program (failing : bool) : prog := [main failing 0; threads 0; threads 0; threads 0]%nat.
Definition initial : conf := start 4 [0; 0; 0] [] [-1] [].

(** Somebody still waits for the condition. *)
Definition somebody_waits (c : conf) : bool := negb (bool_decide (waiting cond (memory c) = [])).

(** thread9 has no data race and nothing undefined and every run stops,
    but some runs stop in a deadlock, with a thread that waits for ever: sleep
    does not ensure that all threads wait when the main thread signals.
    Otherwise the chain of signals wakes them all and the program exits with
    0, or with 1 when a thread cannot be created. *)
Theorem thread9_lost_wakeup :
  (∀ failing, verdict (program failing) 60 initial (sound (program failing))
     (λ c, exited_with 0 c || failing && exited_with 1 c ||
           deadlocked (program failing) c && somebody_waits c) anything) ∧
  (∃ c, reachable (program false) initial c ∧ deadlocked (program false) c = true) ∧
  (∃ c, reachable (program false) initial c ∧ exited_with 0 c = true).
Proof.
  split; [intros []; by_judge|]. split; by_search 60%nat.
Qed.
End Thread9.

Module Thread12.
(** Shared: [datenVorhanden], [geteilteDaten], [thread]; local: [rc],
    [retries] of the clients, [anzahlDaten] of main. *)
Definition datenVorhanden : nat := 0.
Definition geteilteDaten : nat := 1.
Definition thread (i : nat) : nat := 2 + i.
Definition rc : nat := 0.
Definition retries : nat := 1.
Definition anzahlDaten : nat := 1.
Definition dataMutex : nat := 0.
Definition datenVorhandenCondition : nat := 0.
Definition NUMTHREADS : nat := 2.

Definition checkResult (string : list Z) (val : nat) : code :=
  when [] (nonzero val) (block [
    say [] (λ t m, str "Fehler mit " ++ dec (loc val t m) ++ str " bei " ++ string);
    exit_process 1]).

Definition theThread : code := block [
  assign_local retries [] (λ _ _, 2);
  say_self (tab ++ str "->Client ") (line ": gestartet");
  returns rc (lock dataMutex);
  checkResult (line "pthread_mutex_lock()") rc;
  while_pre (assign_local retries [] (λ t m, loc retries t m - 1)) [] (nonzero retries) (block [
    while [datenVorhanden] (λ _ m, bool_decide (var datenVorhanden m = 0)) (block [
      say_self (tab ++ str "->Client ") (line ": Warte auf Daten ...");
      returns rc (cond_wait datenVorhandenCondition dataMutex);
      checkResult (line "pthread_cond_wait()") rc]);
    say_self (tab ++ str "->Client ") (line ": Daten wurden gemeldet --->" ++
      tab ++ line "----> Bearbeite Daten solange sie geschützt sind (lock)");
    when [geteilteDaten] (λ _ m, bool_decide (var geteilteDaten m = 0))
      (assign datenVorhanden [] (λ _ _, 0))]);
  say_self (tab ++ str "->Client ") (line ": Alles erledigt");
  returns rc (unlock dataMutex);
  checkResult (line "pthread_mutex_unlock()") rc;
  pthread_exit (λ _ _, 0)].

Definition main : code := block [
  assign_local rc [] (λ _ _, 0);
  assign_local anzahlDaten [] (λ _ _, 4);
  say_self (str "->Main Thread ") (line " gestartet ...");
  for_each (seq 0 NUMTHREADS) (λ i, block [
    pthread_create true (S i) (thread i) (assign_local rc [] (λ _ _, 11));
    checkResult (line "pthread_create()") rc]);
  while_pre (assign_local anzahlDaten [] (λ t m, loc anzahlDaten t m - 1)) []
      (λ t m, negb (bool_decide (loc anzahlDaten t m = -1))) (block [
    sleep;
    puts (line "->Server: Daten gefunden");
    returns rc (lock dataMutex);
    checkResult (line "pthread_mutex_lock()") rc;
    puts (line "->Server: Sperre Daten und gib Meldung an Consumer");
    assign geteilteDaten [geteilteDaten] (λ _ m, var geteilteDaten m + 1);
    assign datenVorhanden [] (λ _ _, 1);
    returns rc (cond_signal datenVorhandenCondition);
    checkResult (line "pthread_cond_signal()") rc;
    puts (line "->Server: Gib gesperrte Daten wieder frei");
    returns rc (unlock dataMutex);
    checkResult (line "pthread_mutex_unlock()") rc]);
  for_each (seq 0 NUMTHREADS) (λ i, block [
    returns rc (pthread_join (thread i) ignored);
    checkResult (line "pthread_join()") rc]);
  main_ends;
  exit_process 0].

Definition program : prog := [main 0; theThread 0; theThread 0]%nat.
Definition initial : conf := start 3 [0; 0; 0; 0] [0; 0] [-1] [].

(** The server's last word: all four data are there and still announced. *)
Definition served (c : conf) : bool :=
  bool_decide (var geteilteDaten (memory c) = 4 ∧ var datenVorhanden (memory c) = 1).
(** A client that is about to report data has seen them announced. *)
Definition gemeldet : list Z := Eval vm_compute in str ": Daten wurden gemeldet".
Definition told (c : conf) : bool :=
  bool_decide (var datenVorhanden (memory c) = 1) ||
  only_says program (λ out, negb (is_prefix gemeldet (drop 11 out))) c.

End Thread12.
