(* ===== verification/ThreadRaces.v ===== *)
(** * 10_Threads: cancellation, pthread_once, and programs that race

    thread14 and thread15 cancel threads, thread18 and thread19 compare a
    plain call with pthread_once, thread3, thread5, thread6 and thread8 share
    thread ids and a file. *)
From S2P Require Import Prelude CLib Conc Threads.

Module Thread14.
(** Shared: the ids [t1], [t2], [t3] and [zufallszahl]. *)
Definition t1 : nat := 0.
Definition t2 : nat := 1.
Definition t3 : nat := 2.
Definition zufallszahl : nat := 3.

Definition cancel_test1 : code := block [
  sleep;
  when [zufallszahl] (λ _ m, bool_decide (var zufallszahl m > 25)) (block [
    pthread_cancel t3;
    say [t3] (λ t m, tab ++ str "->Thread " ++ dec (tid t) ++ str " beendet thread " ++ dec (var t3 m) ++ [LF])]);
  say_self (tab ++ str "->Thread ") (line " zu Ende");
  pthread_exit (λ _ _, 0)].

Definition cancel_test2 : code := block [
  sleep;
  when [zufallszahl] (λ _ m, bool_decide (var zufallszahl m ≤ 25)) (block [
    pthread_cancel t2;
    say [t2] (λ t m, tab ++ str "->Thread " ++ dec (tid t) ++ str " beendet thread " ++ dec (var t2 m) ++ [LF])]);
  say_self (tab ++ str "->Thread ") (line " zu Ende");
  pthread_exit (λ _ _, 0)].

(** [rand] is what rand() returns. *)
Definition zufall (rand : Z) : code := block [
  assign zufallszahl [] (λ _ _, Z.rem rand 50);
  pthread_exit (λ _ _, 0)].

Definition main : code := block [
  main_starts;
  pthread_create false 1 t1 (block []);
  pthread_create false 2 t2 (block []);
  pthread_create false 3 t3 (block []);
  pthread_join t1 ignored;
  pthread_join t2 ignored;
  pthread_join t3 ignored;
  main_ends;
  exit_process 0].

Definition program (rand : Z) : prog := [main 0; zufall rand 0; cancel_test1 0; cancel_test2 0]%nat.
Definition initial : conf := start 4 [0; 0; 0; 0] [] [] [].

(** The program has ended, and cancel_test1 and cancel_test2 have ended like this. *)
Definition ended (s2 s3 : Z) (c : conf) : bool :=
  exited_with 0 c && bool_decide (status (memory c) !!! 2%nat = s2 ∧ status (memory c) !!! 3%nat = s3).

(** sleep does not synchronise the threads of thread14: [zufallszahl] is
    read and written without order (a data race).  For the random number 40
    the program should cancel exactly the third thread; it may also cancel
    none of the two or the other one, and a thread may use the id of one that
    main has not created yet, which is undefined. *)
Theorem thread14_races :
  (∃ c, reachable (program 40) initial c ∧ racy (program 40) c = true) ∧
  (∃ c, reachable (program 40) initial c ∧ ended ENDED CANCELLED c = true) ∧
  (∃ c, reachable (program 40) initial c ∧ ended ENDED ENDED c = true) ∧
  (∃ c, reachable (program 40) initial c ∧ ended CANCELLED ENDED c = true) ∧
  (∃ c, reachable (program 40) initial c ∧ undefined_in c = true).
Proof. split_and!; by_search 60%nat. Qed.
End Thread14.

Module Thread15.
(** Shared: the id [t1]; local: [oldstate] or [abbruch], [ret]. *)
Definition t1 : nat := 0.
Definition oldstate : nat := 0.
Definition ret : nat := 1.
Definition abbruch : nat := 0.
Definition PTHREAD_CANCEL_ENABLE : Z := 1.
Definition PTHREAD_CANCEL_DISABLE : Z := 0.

Definition cancel_test : code := block [
  returns ret (pthread_setcancelstate (λ _ _, PTHREAD_CANCEL_DISABLE) oldstate);
  when [] (nonzero ret) (block [
    puts (line "Fehler bei pthread_setcancelstate()"); exit_process 1]);
  say_self (str "Thread ") (line " im kritischen Abschnitt");
  sleep;
  returns ret (pthread_setcancelstate (λ t m, loc oldstate t m) oldstate);
  when [] (nonzero ret) (block [
    puts (line "Fehler bei pthread_setcancelstate()"); exit_process 1]);
  say_self (tab ++ str "->Thread ") (line " nach kritischem Abschnitt");
  pthread_exit (λ _ _, 0)].

Definition main : code := block [
  main_starts;
  pthread_create true 1 t1 (block [
    puts (line "Fehler bei pthread_setcancelstate()"); exit_process 1]);
  pthread_cancel t1;
  pthread_join t1 (λ v m, set_local 0 abbruch v m);
  when [] (λ t m, bool_decide (loc abbruch t m = PTHREAD_CANCELED)) (block [
    puts (line "Fehler bei pthread_setcancelstate()"); exit_process 1]);
  main_ends;
  exit_process 0].

Definition program : prog := [main 0; cancel_test 0]%nat.
Definition initial : conf := start 2 [0] [0; 0] [] [].

(** The text of the critical section, and whether the thread has printed it. *)
Definition im_abschnitt : list Z := Eval vm_compute in str "Thread 2 im kritischen Abschnitt" ++ [LF].
Definition says_im (out : list Z) : bool := bool_decide (out = im_abschnitt).
Definition through (c : conf) : Z := if decide (4 < pcs c !!! 1%nat)%nat then 1 else 0.
(** The thread is cancelled only behind the critical section. *)
Definition protected (c : conf) : bool :=
  implb (bool_decide (status (memory c) !!! 1%nat = CANCELLED))
    (bool_decide (through c = 1 ∧ cancelable (memory c) !!! 1%nat = PTHREAD_CANCEL_ENABLE)).

(** C28. In thread15 the thread is never cancelled in its critical section,
    whenever the request arrives: a run that created it has printed the text
    of the section exactly once when the thread is over.  Every run ends.
    printf after the section may be a cancellation point: then main takes the
    cancellation for an error of pthread_setcancelstate and exits with 1, in
    other interleavings with 0. *)
Theorem thread15_protected :
  verdict program 40 initial (λ c, sound program c && protected c)
    (λ c, exited_with 0 c || exited_with 1 c) anything ∧
  (∀ tr c, trace program initial tr c → over (status (memory c) !!! 1%nat) = true →
     count_said says_im tr = 1) ∧
  (∃ c, reachable program initial c ∧ exited_with 0 c = true) ∧
  (∃ c, reachable program initial c ∧ exited_with 1 c && bool_decide (status (memory c) !!! 1%nat = CANCELLED) = true).
Proof.
  split; [by_judge|]. split; [|split; by_search 40%nat].
  intros tr c Ht Ho.
  destruct (explore 40 program (λ c, counted program says_im through c &&
    implb (over (status (memory c) !!! 1%nat)) (bool_decide (through c = 1))) initial) as [H _];
    [by vm_compute|].
  rewrite (count_trace program says_im through initial tr c); [|intros c1 Hc1; by apply H, andb_true_iff in Hc1 as [? _]|done].
  pose proof (trace_reachable _ _ _ _ Ht) as Hr. apply H, andb_true_iff in Hr as [_ Hr].
  rewrite Ho in Hr. cbn in Hr. apply bool_decide_eq_true in Hr. rewrite Hr. reflexivity.
Qed.
End Thread15.

Module Once.
(** thread18 and thread19 differ in how [thread_once] is called. *)
Definition MAX_THREADS : nat := 3.
Definition threads (i : nat) : nat := i.
Definition once : nat := 3.
Definition thread_once : code := puts (line "Funktion thread_once aufgerufen").

Definition thread_func18 : code := block [
  say_self (str "Thread gestartet (ID:") (line ")");
  thread_once;
  say_self (str "Thread fertig gestartet (ID:") (line ")" ++ [LF]);
  pthread_exit (λ _ _, 0)].

Definition thread_func19 : code := block [
  say_self (str "Thread gestartet (ID:") (line ")");
  pthread_once once thread_once;
  say_self (str "Thread fertig gestartet (ID:") (line ")" ++ [LF]);
  pthread_exit (λ _ _, 0)].

Definition main18 : code := block [
  main_starts;
  for_each (seq 0 MAX_THREADS) (λ i, pthread_create false (S i) (threads i) (block []));
  for_each (seq 0 MAX_THREADS) (λ i, pthread_join (threads i) ignored);
  main_ends;
  exit_process 0].

Definition main19 : code := block [
  main_starts;
  for_each (seq 0 MAX_THREADS) (λ i, pthread_create false (S i) (threads i) (block []));
  for_each (seq 0 MAX_THREADS) (λ i, pthread_join (threads i) ignored);
  main_ends;
  exit_process 0].

Definition program18 : prog := [main18 0; thread_func18 0; thread_func18 0; thread_func18 0]%nat.
Definition program19 : prog := [main19 0; thread_func19 0; thread_func19 0; thread_func19 0]%nat.
Definition initial : conf := start 4 [0; 0; 0; 0] [] [] [].

Definition aufgerufen : list Z := Eval vm_compute in str "Funktion thread_once aufgerufen" ++ [LF].
Definition says_once (out : list Z) : bool := bool_decide (out = aufgerufen).
(** How often the text has been printed, read off the positions of the threads. *)
Definition calls18 (c : conf) : Z :=
  Z.of_nat (length (filter (λ t, (1 < pcs c !!! t)%nat) [1; 2; 3]%nat)).
Definition calls19 (c : conf) : Z :=
  if decide (var once (memory c) = 2) then 1
  else Z.of_nat (length (filter (λ t, (pcs c !!! t = 3)%nat) [1; 2; 3]%nat)).
Definition right_count (P : prog) (calls : conf → Z) (n : Z) (c : conf) : bool :=
  sound P c && counted P says_once calls c &&
  (negb (bool_decide (final P c)) || exited_with 0 c && bool_decide (calls c = n)).

Lemma counts P calls n bound :
  calls initial = 0 → all_runs bound P (right_count P calls n) [initial] = true →
  ends_within P bound initial ∧
  ∀ tr c, trace P initial tr c → final P c → exited_with 0 c = true ∧ count_said says_once tr = n.
Proof.
  intros H0 [H He]%explore. split; [done|]. intros tr c Ht Hf.
  rewrite (count_trace P says_once calls initial tr c); [| |done].
  - pose proof (trace_reachable _ _ _ _ Ht) as Hr. apply H, andb_true_iff in Hr as [_ Hr].
    rewrite bool_decide_eq_true_2 in Hr by done. apply andb_true_iff in Hr as [Hx Hc].
    apply bool_decide_eq_true in Hc. split; [done|]. rewrite H0. lia.
  - intros c1 Hc1. by apply H, andb_true_iff in Hc1 as [[_ ?]%andb_true_iff _].
Qed.

End Once.

Module Thread3.
(** Shared: the ids [thread] and the array [ret] of [int]s. *)
Definition MAX_THREADS : nat := 5.
Definition thread (i : nat) : nat := i.
Definition ret : nat := 5.
Definition is_thread (i : nat) : test := λ t m, bool_decide (tid t = var (thread i) m).
Definition aufgabe (name : list Z) : code :=
  say_self (tab ++ str "->(") (str "): Aufgabe " ++ DQ ++ name ++ DQ ++ line " Ausfuehren ").

Definition aktion : code := block [
  forever (λ break,
    if_else [thread 0] (is_thread 0) (block [aufgabe (str "abc"); break])
    (if_else [thread 1] (is_thread 1) (block [aufgabe (str "def"); break])
    (if_else [thread 2] (is_thread 2) (block [aufgabe (str "ghi"); break])
    (block [aufgabe (str "xyz"); break]))));
  pthread_exit (λ t _, tid t)].

Definition main : code := block [
  main_starts;
  for_each (seq 0 MAX_THREADS) (λ i, pthread_create true (S i) (thread i) (block [
    puts (line "Konnte Thread nicht erzeugen ...!"); exit_process 1]));
  for_each (seq 0 MAX_THREADS) (λ i, pthread_join (thread i) (into_int_array ret i MAX_THREADS));
  for_each (seq 0 MAX_THREADS) (λ i, say [ret + i]%nat (λ _ m,
    tab ++ str "<-Thread " ++ dec (var (ret + i) m) ++ line " mit Arbeit fertig"));
  main_ends;
  exit_process 0].

Definition program : prog := [main 0; aktion 0; aktion 0; aktion 0; aktion 0; aktion 0]%nat.
Definition initial : conf := start 6 (replicate 10 0) [] [] [].
(** Somebody may print [text] now. *)
Definition may_print (text : list Z) (c : conf) : bool :=
  negb (only_says program (λ out, negb (bool_decide (out = text))) c).
Definition all_ended (c : conf) : bool := forallb (λ s, bool_decide (s = ENDED)) (tail (status (memory c))).

(** thread3 compares pthread_self() with ids that main may not have
    stored yet (a data race): the first thread, which should do task abc, may
    do task xyz.  And joining stores pointers into an array of ints: after all
    threads have done their work the last join writes behind the array. *)
Theorem thread3_wrong_task :
  (∃ c, reachable program initial c ∧
     may_print (tab ++ str "->(2): Aufgabe " ++ DQ ++ str "xyz" ++ DQ ++ line " Ausfuehren ") c = true) ∧
  (∃ c, reachable program initial c ∧ racy program c = true) ∧
  (∃ c, reachable program initial c ∧ undefined_in c && all_ended c = true).
Proof. split; [by_search 10%nat|]. split; [by_search 10%nat|by_first_run 60%nat]. Qed.
End Thread3.

Module SharedFile.
(** thread5, thread6 and thread8: one thread writes a line to a file, the
    other reads it back.  Shared: the stream [fz] (0: null), what the file
    holds (0: nothing, 1: the line) and the position of the stream (0: at the
    beginning, 1: at the end); local: [string] (0: not initialised, 1: the
    line). *)
Definition fz : nat := 0.
Definition content : nat := 1.
Definition pos : nat := 2.
Definition thread (i : nat) : nat := 3 + i.
Definition ret : nat := 5.
Definition d : nat := 7.
Definition string : nat := 0.
Definition fz_mutex : nat := 0.

(** Calls on the stream: each locks it. *)
Definition on_stream (f : nat → mem → mem) : code := atom (reads [fz]) (λ t m, silently (f t m)).
Definition fopen_fz : code := assign_any fz [0; 1].
Definition rewind : code := on_stream (λ _ m, set_shared pos 0 m).
(** Reads the line, if it is there. *)
Definition fgets_fz : code := on_stream (λ t m,
  if decide (var pos m = 0 ∧ var content m = 1) then set_shared pos 1 (set_local t string 1 m) else m).
(** An uninitialised buffer is not a string. *)
Definition fputs_fz : code := on_stream (λ t m,
  if decide (loc string t m = 0) then set_undefd m else set_shared pos 1 (set_shared content 1 m)).
Definition fflush_fz : code := on_stream (λ _ m, m).
(** A line, or at the end of the input ([eof]) nothing. *)
Definition fgets_stdin (eof : bool) : code := quietly (λ t m, if eof then m else set_local t string 1 m).
Definition fputs_stdout (line : list Z) : code := atom [] (λ t m,
  if decide (loc string t m = 0) then silently (set_undefd m) else [Act line m None]).

Section programs.
(** What the user types. *)
Variables (eof : bool) (line : list Z).

Definition open_file (file : list Z) : code := block [
  fopen_fz;
  when [fz] (λ _ m, bool_decide (var fz m = 0)) (block [
    puts (str "Konnte Datei " ++ file ++ CLib.line " nicht öffnen"); exit_process 1])].

Definition thread_schreiben5 : code := block [
  puts (str "Bitte Eingabe machen: ");
  fgets_stdin eof;
  fputs_fz;
  fflush_fz;
  pthread_exit (λ t _, tid t)].

Definition thread_lesen5 : code := block [
  rewind;
  fgets_fz;
  say_self (str "Ausgabe Thread ") (str ": ");
  fputs_stdout line;
  pthread_exit (λ t _, tid t)].

Definition thread_schreiben6 : code := block [
  lock fz_mutex;
  puts (str "Bitte Eingabe machen: ");
  fgets_stdin eof;
  fputs_fz;
  fflush_fz;
  unlock fz_mutex;
  pthread_exit (λ t _, tid t)].

Definition thread_lesen6 : code := block [
  lock fz_mutex;
  rewind;
  fgets_fz;
  say_self (str "Ausgabe Thread ") (str ": ");
  fputs_stdout line;
  unlock fz_mutex;
  pthread_exit (λ t _, tid t)].

Definition create_or_exit (i : nat) : code := pthread_create true (S i) (thread i) (block [
  puts (CLib.line "Konnte Thread nicht erzeugen ...!"); exit_process 1]).
Definition main5 : code := block [
  main_starts;
  open_file (str "testfile");
  create_or_exit 0;
  create_or_exit 1;
  for_each (seq 0 2) (λ i, pthread_join (thread i) (into_int_array ret i 2));
  for_each (seq 0 2) (λ i, say [thread i] (λ _ m,
    tab ++ str "<-Thread " ++ dec (var (thread i) m) ++ CLib.line " fertig"));
  main_ends;
  exit_process 0].
Definition main6 : code := block [
  main_starts;
  open_file (str "testfile");
  create_or_exit 0;
  create_or_exit 1;
  for_each (seq 0 2) (λ i, pthread_join (thread i) (into_int_array ret i 2));
  for_each (seq 0 2) (λ i, say [thread i] (λ _ m,
    tab ++ str "<-Thread " ++ dec (var (thread i) m) ++ CLib.line " fertig"));
  main_ends;
  exit_process 0].

(** thread8: main holds the mutex of the struct [d] when it creates the threads. *)
Definition thread_schreiben8 : code := block [
  puts (str "Bitte Eingabe machen: ");
  fgets_stdin eof;
  fputs_fz;
  fflush_fz;
  unlock fz_mutex;
  pthread_exit (λ t _, tid t)].

(** [while (pthread_mutex_trylock(x) == EBUSY) body] *)
Definition while_busy (x : nat) (body : code) : code := λ a,
  let B := body (S a) in
  Instr [] (λ t m, if decide (mutexes m !!! x = -1)
                   then [Act [] (set_mutex x (Z.of_nat t) m) (Some (S (S a) + length B)%nat)]
                   else silently m) :: B ++ [jump a].
Definition thread_lesen8 : code := block [
  while_busy fz_mutex (block [sleep; puts (CLib.line "Lese Thread wartet auf Arbeit ...")]);
  rewind;
  fgets_fz;
  say_self (str "Ausgabe Thread ") (str ": ");
  fputs_stdout line;
  unlock fz_mutex;
  pthread_exit (λ t _, tid t)].

Definition main8 : code := block [
  assign_any d [0; 1];
  when [d] (λ _ m, bool_decide (var d m = 0)) (block [
    puts (CLib.line "Konnte keinen Speicher reservieren ...!"); exit_process 1]);
  main_starts;
  fopen_fz;
  when [fz] (λ _ m, bool_decide (var fz m = 0)) (block [
    puts (CLib.line "Konnte Datei filename nicht oeffnen"); exit_process 1]);
  quietly (λ _ m, set_mutex fz_mutex (-1) m);
  lock fz_mutex;
  create_or_exit 0;
  create_or_exit 1;
  pthread_join (thread 0) (into_int_array ret 0 1);
  pthread_join (thread 1) (into_int_array (S ret) 0 1);
  quietly (λ _ m, set_mutex fz_mutex (-2) m);
  for_each (seq 0 2) (λ i, say [thread i] (λ _ m,
    tab ++ str "<-Thread " ++ dec (var (thread i) m) ++ CLib.line " fertig"));
  main_ends;
  exit_process 0].

Definition program5 : prog := [main5 0; thread_schreiben5 0; thread_lesen5 0]%nat.
Definition program6 : prog := [main6 0; thread_schreiben6 0; thread_lesen6 0]%nat.
Definition program8 : prog := [main8 0; thread_schreiben8 0; thread_lesen8 0]%nat.
End programs.
Definition initial : conf := start 3 (replicate 8 0) [0] [-1] [].

(** The reader (thread 2) is the one that did something undefined: with its
    buffer, not initialised; or it has ended after printing the line. *)
Definition reader_undefined (c : conf) : bool :=
  undefined_in c && bool_decide (status (memory c) !!! 2%nat = READY).
Definition reader_done (c : conf) : bool :=
  defined_in c && bool_decide (status (memory c) !!! 2%nat = ENDED).

(** The mutex of thread6 does not bring the threads into an order, nor
    does anything in thread5: in both programs the reader may read what was
    written, or print a buffer nobody has initialised.  No run of either
    exits with 0: if nothing else goes wrong, main stores the second exit
    value, a pointer, behind the end of an array of two ints. *)
Theorem shared_file_not_ordered (line : list Z) :
  verdict (program5 false line) 60 initial (λ c, negb (racy (program5 false line) c))
    (λ c, undefined_in c || exited_with 1 c) anything ∧
  verdict (program6 false line) 60 initial (λ c, negb (racy (program6 false line) c))
    (λ c, undefined_in c || exited_with 1 c) anything ∧
  (∃ c, reachable (program5 false line) initial c ∧ reader_done c = true) ∧
  (∃ c, reachable (program5 false line) initial c ∧ reader_undefined c = true) ∧
  (∃ c, reachable (program6 false line) initial c ∧ reader_done c = true) ∧
  (∃ c, reachable (program6 false line) initial c ∧ reader_undefined c = true).
Proof. do 2 (split; [by_judge|]). split_and!; by_search 40%nat. Qed.

(** thread8 uses a mutex as a signal: main locks it and the writer should
    unlock it, which only the owner may do.  So the reader never gets past
    its loop: it never prints the line, and no run exits with 0; a run where
    the system refuses nothing comes to the undefined unlock. *)
Theorem thread8_unlock_by_other (eof : bool) (line : list Z) :
  (∀ c, reachable (program8 eof line) initial c →
     exited_with 0 c = false ∧ (undefined_in c = false → reader_done c = false) ∧
     (∀ out, may_say (program8 eof line) c out → is_prefix (str "Ausgabe Thread ") out = false)) ∧
  (∃ c, reachable (program8 eof line) initial c ∧ undefined_in c = true).
Proof.
  split.
  - intros c Hc.
    assert (H : (negb (exited_with 0 c) && (undefined_in c || negb (reader_done c)) &&
      only_says (program8 eof line) (never (str "Ausgabe Thread ")) c) = true).
    { revert c Hc. apply (always_sound 100). destruct eof; by vm_compute. }
    apply andb_true_iff in H as [[H1 H2]%andb_true_iff H3]. split; [by destruct exited_with|].
    split; [by intros H; rewrite H in H2; destruct reader_done|].
    intros out Ho. rewrite only_says_spec in H3. specialize (H3 _ Ho). unfold never in H3.
    by destruct is_prefix.
  - destruct eof; by_search 40%nat.
Qed.
End SharedFile.
