(* ===== verification/ThreadData.v ===== *)
(** * 10_Threads: data, results and priorities of threads

    thread1 gives each thread a structure that its cleanup handler frees,
    thread2 gets structures back, thread4 asks for scheduling parameters,
    thread17 keeps a stream per thread, thread20 sends signals to threads. *)
From S2P Require Import Prelude CLib Conc Threads.

(** ** Structures on the heap

    Object [i] is what the [i]-th call of [malloc] delivers; a pointer to it
    is the number [i + 1], 0 is NULL.  A member that holds a random number
    holds which call of [rand] it comes from: [wert rand n] is the value of
    the [n]-th. *)
Definition RAND_MAX : Z := 2147483647.
(** [1 + (int)(10.0 * rand() / (RAND_MAX + 1.0))] *)
Definition wert_of (rand : Z → Z) (n : Z) : Z := 1 + 10 * rand n / (RAND_MAX + 1).
Lemma wert_range rand n : 0 ≤ rand n ≤ RAND_MAX → 1 ≤ wert_of rand n ≤ 10.
Proof.
  intros H. unfold wert_of, RAND_MAX in *. split.
  - pose proof (Z.div_pos (10 * rand n) (2147483647 + 1)). lia.
  - pose proof (Z.div_lt_upper_bound (10 * rand n) (2147483647 + 1) 10). lia.
Qed.

Module Thread1.
(** Shared: the ids, [ret], how often [rand] has been called, and of each
    object whether it exists (0: no, 1: yes, 2: freed), [wert] and [msg]
    (the number in the text); local: the pointer [f]. *)
Definition MAX_THREADS : nat := 3.
Definition thread (i : nat) : nat := i.
Definition ret (i : nat) : nat := 3 + i.
Definition calls : nat := 6.
Definition alive (i : nat) : nat := 7 + i.
Definition wert (i : nat) : nat := 10 + i.
Definition msg (i : nat) : nat := 13 + i.
Definition f : nat := 0.
Definition ptr (i : nat) : Z := Z.of_nat i + 1.
(** The pointer [f] of thread [t] points to object [i]. *)
Definition valid (i t : nat) (m : mem) : bool := bool_decide (loc f t m = ptr i ∧ var (alive i) m = 1).
Definition deref (i : nat) (touch : list (nat * bool)) (acts : nat → mem → list act) : code := atom touch (λ t m,
  if valid i t m then acts t m else silently (set_undefd m)).
Definition malloc (i : nat) : code := atom [] (λ t m,
  [Act [] (set_local t f (ptr i) (set_shared (alive i) 1 m)) None; Act [] (set_local t f 0 m) None]).
Definition free (i : nat) : code := deref i [(wert i, true); (msg i, true)] (λ _ m, silently (set_shared (alive i) 2 m)).
(** [f->wert = 1 + (int)(10.0 * rand() ...)] *)
Definition set_wert (i : nat) : code := deref i [(wert i, true)] (λ _ m,
  silently (set_shared calls (var calls m + 1) (set_shared (wert i) (var calls m) m))).
Definition set_msg (i : nat) (v : nat → Z) : code := deref i [(msg i, true)] (λ t m, silently (set_shared (msg i) (v t) m)).
Definition say_member (i x : nat) (text : Z → list Z) : code := deref i [(x, false)] (λ _ m, [Act (text (var x m)) m None]).

Section random.
Variable rand : Z → Z.
Definition exit_handler_mem (i : nat) : code := block [
  puts (tab ++ line "Exit-Handler aufgerufen ...");
  free i;
  puts (tab ++ line "Speicher freigegeben")].
(** [pthread_cleanup_push], the body, and [pthread_cleanup_pop (1)]; nobody cancels the thread in between. *)
Definition with_cleanup (handler body : code) : code := block [body; handler].
Definition mythread (i : nat) : code := block [
  with_cleanup (exit_handler_mem i) (block [
    say_self (tab ++ str "-> Thread mit ID:") (line " gestartet");
    puts (tab ++ line "Daten empfangen: ");
    say_member i (wert i) (λ v, tab ++ tab ++ str "wert = " ++ DQ ++ dec (wert_of rand v) ++ DQ ++ [LF]);
    say_member i (msg i) (λ v, tab ++ tab ++ str "msg = " ++ DQ ++ str "Ich bin Thread Nr. " ++ dec v ++ DQ ++ [LF])]);
  pthread_exit (λ t _, tid t)].
(** [pthread_create] with the pointer [f] as the argument of the thread. *)
Definition create (i : nat) : code := block [
  quietly (λ t m, set_local (S i) f (loc f t m) m);
  pthread_create true (S i) (thread i) (block [puts (line "Konnte Thread nicht erzeugen ...!"); exit_process 1])].
Definition main : code := block [
  main_starts;
  for_each (seq 0 MAX_THREADS) (λ i, block [
    malloc i;
    when [] (λ t m, bool_decide (loc f t m = 0)) (block [
      puts (line "Konnte keinen Speicher reservieren ...!"); exit_process 1]);
    set_wert i;
    set_msg i (λ _, Z.of_nat (i + 1));
    create i]);
  for_each (seq 0 MAX_THREADS) (λ i, pthread_join (thread i) (λ v m, set_shared (ret i) v m));
  for_each (seq 0 MAX_THREADS) (λ i, say [ret i] (λ _ m, str "<-Thread " ++ dec (var (ret i) m) ++ line " ist fertig"));
  main_ends;
  exit_process 0].
Definition program : prog := [main 0; mythread 0 0; mythread 1 0; mythread 2 0]%nat.
End random.
Definition initial : conf := start 4 (replicate 16 0) [0] [] [].
(** All structures are freed, and main has got the thread's own id from each. *)
Definition all_freed (c : conf) : bool :=
  forallb (λ i, bool_decide (var (alive i) (memory c) = 2 ∧ var (ret i) (memory c) = tid (S i))) (seq 0 MAX_THREADS).

End Thread1.

Module Thread2.
(** Shared: the ids, the pointers [ret], how often [rand] has been called,
    and of each object [wert] and [msg] (the id in the text). *)
Definition MAX_THREADS : nat := 3.
Definition thread (i : nat) : nat := i.
Definition ret (i : nat) : nat := 3 + i.
Definition calls : nat := 6.
Definition wert (i : nat) : nat := 7 + i.
Definition msg (i : nat) : nat := 10 + i.
Definition arg : nat := 0.
Definition ptr (i : nat) : Z := Z.of_nat i + 1.
(** What a pointer points to: never freed, so any pointer [malloc] has delivered is valid. *)
Definition deref (touch : list (nat * bool)) (p : nat → mem → Z) (acts : nat → nat → mem → list act) : code := atom touch (λ t m,
  if decide (1 ≤ p t m ≤ Z.of_nat MAX_THREADS) then acts (Z.to_nat (p t m - 1)) t m else silently (set_undefd m)).
Definition malloc (i : nat) : code := atom [(ret i, true)] (λ t m,
  [Act [] (set_shared (ret i) (ptr i) m) None; Act [] (set_shared (ret i) 0 m) None]).

Section random.
Variable rand : Z → Z.
(** [rand] locks: the calls of all threads are in one order. *)
Definition mythread (i : nat) : code := block [
  deref [(wert i, true)] (λ t m, loc arg t m) (λ o _ m,
    silently (set_shared calls (var calls m + 1) (set_shared (wert o) (var calls m) m)));
  deref [(msg i, true)] (λ t m, loc arg t m) (λ o t m, silently (set_shared (msg o) (tid t) m));
  pthread_exit (λ t m, loc arg t m)].
Definition create (i : nat) : code := block [
  atom [(ret i, false)] (λ t m, silently (set_local (S i) arg (var (ret i) m) m));
  pthread_create true (S i) (thread i) (block [puts (line "Konnte Thread nicht erzeugen ...!"); exit_process 1])].
Definition main : code := block [
  main_starts;
  for_each (seq 0 MAX_THREADS) (λ i, block [
    malloc i;
    when [ret i] (λ _ m, bool_decide (var (ret i) m = 0)) (block [
      puts (line "Konnte keinen Speicher reservieren ...!"); exit_process 1])]);
  for_each (seq 0 MAX_THREADS) create;
  for_each (seq 0 MAX_THREADS) (λ i, pthread_join (thread i) (λ v m, set_shared (ret i) v m));
  for_each (seq 0 MAX_THREADS) (λ i, block [
    puts (line "Thread: Daten empfangen:");
    deref [(ret i, false); (wert i, false)] (λ _ m, var (ret i) m) (λ o _ m,
      [Act (tab ++ tab ++ str "wert = " ++ DQ ++ dec (wert_of rand (var (wert o) m)) ++ DQ ++ [LF]) m None]);
    deref [(ret i, false); (msg i, false)] (λ _ m, var (ret i) m) (λ o _ m,
      [Act (tab ++ tab ++ str "msg = " ++ DQ ++ str "Ich bin der Thread mit ID:" ++ dec (var (msg o) m) ++ DQ ++ [LF]) m None])]);
  main_ends;
  exit_process 0].
Definition program : prog := [main 0; mythread 0 0; mythread 1 0; mythread 2 0]%nat.
End random.
Definition initial : conf := start 4 (replicate 13 0) [0] [] [].
(** Each structure has the id of its own thread, and the first three random
    numbers are distributed over the structures. *)
Definition all_filled (c : conf) : bool :=
  let m := memory c in
  forallb (λ i, bool_decide (var (ret i) m = ptr i ∧ var (msg i) m = tid (S i))) (seq 0 MAX_THREADS) &&
  forallb (λ n, existsb (λ i, bool_decide (var (wert i) m = n)) (seq 0 MAX_THREADS)) [0; 1; 2].

(** In every run of thread2 main reads each structure after its thread
    has filled it, through the pointer that the thread returned: there is no
    data race and no wild pointer, every run ends, with 1 when memory or a
    thread could not be had and otherwise with 0; then the three random
    numbers are spread over the structures in some order. *)
Theorem thread2_returns (rand : Z → Z) :
  verdict (program rand) 60 initial (sound (program rand))
    (λ c, exited_with 1 c || exited_with 0 c && all_filled c) anything.
Proof. by_judge. Qed.
End Thread2.

Module Thread4.
(** Shared: the ids, the array [ret] of [int]s, and the policy and the
    priority of each thread; local: what [pthread_getschedparam] delivers. *)
Definition MAX_THREADS : nat := 5.
Definition thread (i : nat) : nat := i.
Definition ret (i : nat) : nat := 5 + i.
Definition policy_of (t : nat) : nat := 10 + t.
Definition prio_of (t : nat) : nat := 16 + t.
Definition policy : nat := 0.
Definition param : nat := 1.
Definition SCHED_OTHER : Z := 0.
Definition SCHED_FIFO : Z := 1.
Definition SCHED_RR : Z := 2.

(** [getprio (pthread_self ())] *)
Definition getprio : code := block [
  say_self (tab ++ str "->Thread ") (line ":");
  quietly (λ t m, set_local t policy (var (policy_of t) m) (set_local t param (var (prio_of t) m) m));
  puts (line "Zuteilung:");
  say [] (λ t m,
    if decide (loc policy t m = SCHED_OTHER) then line "SCHED_OTHER;"
    else if decide (loc policy t m = SCHED_FIFO) then line "SCHED_FIFO;"
    else if decide (loc policy t m = SCHED_RR) then line "SCHED_RR;"
    else line "Unbekannt;");
  say [] (λ t m, str "Prioritaet: " ++ dec (loc param t m) ++ [LF])].
(** [setprio (pthread_self (), pol, prio)]: the system may refuse. *)
Definition setprio (pol prio : Z) : code := λ a,
  let E := block [puts (line "Konnte Zuteilungsstrategie nicht aendern"); pthread_exit (λ t _, tid t)] (S a) in
  Instr [] (λ t m, [Act [] m None; Act [] (set_shared (policy_of t) pol (set_shared (prio_of t) prio m)) (Some (S a + length E)%nat)]) :: E.
Definition thread_prio_demo (uid : Z) : code := block [
  getprio;
  when [] (λ _ _, bool_decide (uid ≠ 0)) (block [
    puts (line "Veraendern kann nur Super-User");
    pthread_exit (λ t _, tid t)]);
  setprio SCHED_RR 2;
  getprio;
  pthread_exit (λ t _, tid t)].
Definition main : code := block [
  main_starts;
  for_each (seq 0 MAX_THREADS) (λ i, pthread_create true (S i) (thread i) (block [
    puts (line "Konnte Thread nicht erzeugen ...!"); exit_process 1]));
  for_each (seq 0 MAX_THREADS) (λ i, pthread_join (thread i) (into_int_array (ret 0) i MAX_THREADS));
  for_each (seq 0 MAX_THREADS) (λ i, say [ret i] (λ _ m,
    tab ++ str "<-Thread " ++ dec (var (ret i) m) ++ line " mit Arbeit fertig"));
  main_ends;
  exit_process 0].
Definition program (uid : Z) : prog :=
  [main 0; thread_prio_demo uid 0; thread_prio_demo uid 0; thread_prio_demo uid 0; thread_prio_demo uid 0; thread_prio_demo uid 0]%nat.
Definition initial : conf := start 6 (replicate 22 0) [0; 0] [] [].
Definition all_ended (c : conf) : bool := forallb (λ s, bool_decide (s = ENDED)) (tail (status (memory c))).

(** thread4 joins into an array of ints as thread3 does: after all threads
    have ended the last join writes behind it.  Who is not root keeps the
    policy of the threads; root may have all of them under [SCHED_RR]. *)
Theorem thread4_overflows :
  (∃ c, reachable (program 1000) initial c ∧ undefined_in c && all_ended c = true) ∧
  (∃ c, reachable (program 0) initial c ∧ undefined_in c && all_ended c = true).
Proof. split; by_first_run 120%nat. Qed.
End Thread4.

Module Thread17.
(** Shared: the ids, and of each thread's file whether it is open (0: no, 1:
    yes, 2: closed) and the texts written to it (the digits of a number);
    local: [th_fp] and the thread's value of [tsd_key]. *)
Definition MAX_THREADS : nat := 3.
Definition threads (i : nat) : nat := i.
Definition open (t : nat) : nat := 2 + t.
Definition texts (t : nat) : nat := 5 + t.
Definition th_fp : nat := 0.
Definition tsd_key : nat := 1.
(** 1: "Thread wurde gestartet ...", 2: "Thread is fertig" *)
Definition thread_write (text : Z) : code := quietly (λ t m,
  if decide (loc tsd_key t m = 1 ∧ var (open t) m = 1)
  then set_shared (texts t) (10 * var (texts t) m + text) m else set_undefd m).
Definition thread_close : code := quietly (λ t m,
  if decide (var (open t) m = 1) then set_shared (open t) 2 m else set_undefd m).
(** [pthread_exit (NULL)]: the destructor of the key is called when its value is not NULL. *)
Definition exit_thread : code := block [
  when [] (nonzero tsd_key) (block [assign_local tsd_key [] (λ _ _, 0); thread_close]);
  pthread_exit (λ _ _, 0)].
(** The name of the file: [char th_fpname[20]]. *)
Definition th_fpname (id : Z) : list Z := take 19 (str "thread" ++ dec id ++ str ".thread").
Definition fopen : code := atom [] (λ t m,
  [Act [] (set_local t th_fp 1 (set_shared (open t) 1 m)) None; Act [] (set_local t th_fp 0 m) None]).
Definition thread_tsd : code := block [
  fopen;
  when [] (λ t m, bool_decide (loc th_fp t m = 0)) exit_thread;
  assign_local tsd_key [] (λ t m, loc th_fp t m);
  thread_write 1;
  thread_write 2;
  exit_thread].
Definition main (failing : bool) : code := block [
  main_starts;
  for_each (seq 0 MAX_THREADS) (λ i, pthread_create failing (S i) (threads i) (block []));
  for_each (seq 0 MAX_THREADS) (λ i, pthread_join (threads i) ignored);
  main_ends;
  exit_process 0].
Definition program (failing : bool) : prog := [main failing 0; thread_tsd 0; thread_tsd 0; thread_tsd 0]%nat.
Definition initial : conf := start 4 (replicate 9 0) [0; 0] [] [].
(** Every file that could be opened has both texts and is closed. *)
Definition all_closed (c : conf) : bool :=
  forallb (λ t, bool_decide (var (open t) (memory c) = 0 ∧ var (texts t) (memory c) = 0 ∨
                             var (open t) (memory c) = 2 ∧ var (texts t) (memory c) = 12)) [1; 2; 3]%nat.

(** C21. When the threads of thread17 can be created, each writes both texts
    to its own stream, which the destructor of the key closes exactly once,
    also when some files cannot be opened, in every interleaving.  The results
    of pthread_create are not checked: when a thread cannot be created, main
    joins an id that was never stored. *)
Theorem thread17_closes :
  verdict (program false) 60 initial (sound (program false)) (λ c, exited_with 0 c && all_closed c) anything ∧
  ∃ c, reachable (program true) initial c ∧ undefined_in c = true.
Proof. split; [by_judge|by_search 14%nat]. Qed.
(** A long id does not fit into the name: its end and the suffix are lost. *)
Lemma th_fpname_cut : th_fpname 139637976727296 = str "thread1396379767272".
Proof. reflexivity. Qed.
End Thread17.

Module Thread20.
(** Shared: the ids, and for each thread whether SIGINT and SIGUSR1 are
    pending and whether they are blocked; local: [sig]. *)
Definition tid1 : nat := 0.
Definition tid2 : nat := 1.
Definition SIGINT : Z := 2.
Definition SIGUSR1 : Z := 10.
Definition signals : list Z := [SIGINT; SIGUSR1].
Definition slot (s : Z) : nat := if decide (s = SIGINT) then 0 else 3.
Definition pending (s : Z) (t : nat) : nat := 2 + slot s + t.
Definition blocked (s : Z) (t : nat) : nat := 8 + slot s + t.
Definition sig : nat := 0.
Definition int_handler (t : nat) : list Z := str "SIGINT erhalten von thread: " ++ dec (tid t) ++ [LF].
Definition usr1_handler (t : nat) : list Z := str "SIGUSR1 erhalten von thread: " ++ dec (tid t) ++ [LF].
Definition handler (s : Z) (t : nat) : list Z := if decide (s = SIGINT) then int_handler t else usr1_handler t.
(** A pending signal that is not blocked calls its handler before the next
    instruction of the thread. *)
Definition delivered (t : nat) (m : mem) : option Z :=
  head (filter (λ s, var (pending s t) m = 1 ∧ var (blocked s t) m = 0) signals).
Definition interruptible (c : code) : code := λ a,
  imap (λ k i, Instr (touches i) (λ t m,
    match delivered t m with
    | Some s => [Act (handler s t) (set_shared (pending s t) 0 m) (Some (a + k)%nat)]
    | None => run i t m
    end)) (c a).
Definition pthread_sigmask (block : Z) (set : list Z) : code :=
  quietly (λ t m, foldr (λ s m, set_shared (blocked s t) block m) m set).
(** [sigwait]: takes a pending signal of the set.  The signals of the set
    should be blocked: POSIX leaves it undefined when they are not
    ([strict]); Linux waits for them nevertheless. *)
Definition sigwait (strict : bool) (set : list Z) : code := block [
  interruptible (quietly (λ t m, if strict && existsb (λ s, bool_decide (var (blocked s t) m = 0)) set then set_undefd m else m));
  atom [] (λ t m,
    match filter (λ s, var (pending s t) m = 1) set with
    | [] => []
    | s :: _ => silently (set_local t sig s (set_shared (pending s t) 0 m))
    end)].
Definition pthread_kill (x : nat) (s : Z) : code := atom (reads [x]) (λ t m,
  if decide (var x m = 0) then silently (set_undefd m)
  else silently (set_shared (pending s (Z.to_nat (var x m - 1))) 1 m)).
Definition sends (x : nat) (s : list Z) : code := say [x] (λ t m,
  str "Thread " ++ dec (tid t) ++ str ": sende " ++ s ++ str " and " ++ dec (var x m) ++ [LF]).

Definition thrad_1 (strict : bool) : code := block [
  pthread_sigmask 0 signals;
  sigwait strict signals;
  interruptible (block [
    when [] (λ t m, bool_decide (loc sig t m = SIGINT)) (say [] (λ t _, int_handler t));
    sends tid2 (str "SIGINT");
    pthread_kill tid2 SIGINT;
    sends tid2 (str "SIGUSR1");
    pthread_kill tid2 SIGUSR1;
    pthread_join tid2 (into_int_array 14 0 1);
    say [tid2] (λ _ m, str "Thread " ++ dec (var tid2 m) ++ str ": Exit-Status = " ++ dec (var 14 m) ++ [LF]);
    say_self (str "Thread ") (line ": wird beendet");
    pthread_exit (λ _ _, 0)])].
Definition thread_2 (strict : bool) : code := block [
  pthread_sigmask 0 [SIGUSR1];
  sigwait strict [SIGUSR1];
  interruptible (block [
    when [] (λ t m, bool_decide (loc sig t m = SIGUSR1)) (say [] (λ t _, usr1_handler t));
    say_self (str "Thread ") (line ": wird beendet");
    pthread_exit (λ _ _, 99)])].
(** A new thread inherits the mask of main. *)
Definition inherit (t' : nat) : code := quietly (λ t m, foldr (λ s m, set_shared (blocked s t') (var (blocked s t) m) m) m signals).
Definition main : code := block [
  main_starts;
  pthread_sigmask 1 signals;
  inherit 1; pthread_create false 1 tid1 (block []);
  say [tid1] (λ _ m, str "Thread " ++ dec (var tid1 m) ++ line " erzeugt");
  inherit 2; pthread_create false 2 tid2 (block []);
  say [tid2] (λ _ m, str "Thread " ++ dec (var tid2 m) ++ line " erzeugt");
  sleep;
  say [tid2] (λ t m, str "Haupt-Thread " ++ dec (tid t) ++ str " sendet SIGINT and " ++ dec (var tid2 m) ++ [LF]);
  pthread_kill tid1 SIGINT;
  say [tid2] (λ t m, str "Haupt-Thread " ++ dec (tid t) ++ str " sendet SIGUSR and " ++ dec (var tid2 m) ++ [LF]);
  pthread_kill tid1 SIGUSR1;
  main_ends;
  pthread_exit (λ _ _, 0)].
Definition program (strict : bool) : prog := [main 0; thrad_1 strict 0; thread_2 strict 0]%nat.
Definition initial : conf := start 3 (replicate 16 0) [0] [] [].
Definition exit_status_text : list Z := Eval vm_compute in str "Thread 3: Exit-Status".

(** thread20 never shows the exit status of its second thread.  By the letter
    of POSIX every run is undefined, since the threads wait for signals that
    they have just unblocked; on Linux a signal that arrives before [sigwait]
    is taken by the handler and the thread waits for ever, and otherwise the
    exit value, a pointer, is stored in an [int]. *)
Theorem thread20_no_status :
  verdict (program true) 60 initial (λ c, negb (racy (program true) c)) undefined_in (never exit_status_text) ∧
  verdict (program false) 60 initial (λ c, negb (racy (program false) c))
    (λ c, undefined_in c || deadlocked (program false) c) (never exit_status_text) ∧
  (∃ c, reachable (program false) initial c ∧ deadlocked (program false) c = true).
Proof. split_and!; [by_judge|by_judge|by_search 60%nat]. Qed.
End Thread20.
