(* ===== verification/Signals.v ===== *)
(** * 08_Signals: sig_sync.c, sig.c and ping_pong.c

    [SigSync]: synchronising parent and child with signals (sig_sync.c).
    Parent and child are threads 0 and 1 of the interleaving machine of
    [Conc]; their local variables are the memory of each process and the
    signal state the kernel keeps for it.  Signals are blocked except in
    sigsuspend, so a handler runs only there; that no signal is ever pending
    and unblocked anywhere else is part of the theorem.

    [Sig] (sig.c): the table of signal actions of a process and its handler,
    driven by the delivery of signals.  [PingPong] (ping_pong.c): the main
    loop and its handler, which may run between any two of its statements. *)
From S2P Require Import Prelude CLib Conc Threads.

Module SigSync.
(** Local: [flag], [mask_alt], a result; kernel: blocked signals, pending
    signals, signals with the handler [sig_func].  Sets of signals are sums
    of the bits below. *)
Definition flag : nat := 0.
Definition mask_alt : nat := 1.
Definition ret : nat := 2.
Definition blocked : nat := 3.
Definition pending : nat := 4.
Definition handled : nat := 5.
Definition USR1 : Z := 1.
Definition USR2 : Z := 2.
Definition mask_null : Z := 0.
Definition mask_neu : Z := Z.lor USR1 USR2.
Definition MAX : nat := 5.

(** [my_signal(sig, sig_func)] *)
Definition install (t : nat) (sig : Z) (m : mem) : mem := set_local t handled (Z.lor (loc handled t m) sig) m.
(** [sigprocmask(SIG_BLOCK, &mask_neu, &mask_alt)] and [sigprocmask(SIG_BLOCK, &mask_alt, NULL)] *)
Definition block_neu (t : nat) (m : mem) : mem :=
  set_local t blocked (Z.lor (loc blocked t m) mask_neu) (set_local t mask_alt (loc blocked t m) m).
Definition block_alt (t : nat) (m : mem) : mem :=
  set_local t blocked (Z.lor (loc blocked t m) (loc mask_alt t m)) m.

Definition end_process (status : Z) : code := pthread_exit (λ _ _, status).
Definition failed : test := λ t m, bool_decide (loc ret t m < 0).
Definition sigprocmask_fails : code := when [] failed (block [
  puts (line "Fehler bei sigprocmask() ..."); end_process 1]).

Definition start_sync : code := block [
  quietly (λ t m, install t USR2 (install t USR1 m));
  returns ret (quietly block_neu);
  sigprocmask_fails].
(** The handler [sig_func], from signal mask [mask]; the mask it leaves is
    dropped when it returns. *)
Definition sig_func (t : nat) (mask : Z) (m : mem) : mem :=
  let m' := block_neu t (install t USR2 (install t USR1 (set_local t blocked mask m))) in
  set_local t flag 1 (set_local t blocked (loc blocked t m) m').
(** [sigsuspend(&mask_null)]: sleeps until a signal is pending that [mask_null]
    does not block, then runs its handler with the signal blocked; without a
    handler the process is killed. *)
Definition sigsuspend (mask : Z) : code := atom [] (λ t m,
  (λ sig, if decide (Z.land (loc handled t m) sig = 0) then Act [] (set_status t CANCELLED m) None
          else Act [] (sig_func t (Z.lor mask sig) (set_local t pending (Z.ldiff (loc pending t m) sig) m)) None)
  <$> filter (λ sig, Z.land (Z.ldiff (loc pending t m) mask) sig ≠ 0) [USR1; USR2]).

(** [kill]: to a process that has ended nothing happens. *)
Definition kill (t' : nat) (sig : Z) : code := quietly (λ t m,
  if over (status m !!! t') then m else set_local t' pending (Z.lor (loc pending t' m) sig) m).
Definition kind2eltern (pid : nat) : code := kill pid USR1.
Definition eltern2kind (pid : nat) : code := kill pid USR2.

Definition kind_wartet : code := block [
  while [] (λ t m, bool_decide (loc flag t m = 0)) (sigsuspend mask_null);
  assign_local flag [] (λ _ _, 0);
  returns ret (quietly block_alt);
  sigprocmask_fails].
Definition eltern_warten : code := block [
  while [] (λ t m, bool_decide (loc flag t m = 0)) (sigsuspend mask_null);
  assign_local flag [] (λ _ _, 0);
  returns ret (quietly block_alt);
  sigprocmask_fails].

(** [fork]: fails, or starts the child with a copy of the caller's memory and
    no pending signals. *)
Definition fork (child : nat) (err : code) : code := λ a,
  let E := err (S (S a)) in
  Instr [] (λ t m,
    [Act [] (set_status child READY (set_local child pending 0
       (Mem (shared m) (<[child := locals m !!! t]> (locals m)) (status m) (rets m) (mutexes m) (sems m)
          (requests m) (cancelable m) (undefd m) (exited m)))) (Some (S a + length E)%nat);
     Act [] m None]) :: E.

Definition kind : list Z := Eval vm_compute in str "Kind " ++ [LF].
Definition eltern : list Z := Eval vm_compute in str "Eltern " ++ [LF].
Definition child : code := block [
  for_each (seq 0 MAX) (λ _, block [kind_wartet; puts kind; kind2eltern 0]);
  puts (line "--- Kind Ende ---");
  end_process 0].
Definition main : code := block [
  start_sync;
  fork 1 (block [puts (line "fork()"); end_process 1]);
  for_each (seq 0 MAX) (λ _, block [puts eltern; eltern2kind 1; eltern_warten]);
  puts (line "-- Eltern Ende ---");
  end_process 0].
Definition program : prog := [main 0; child 0]%nat.
Definition initial : conf := start 2 [] (replicate 6 0) [] [].

(** No signal is pending and unblocked. *)
Definition nothing_to_deliver (c : conf) : bool :=
  forallb (λ t, bool_decide (Z.ldiff (loc pending t (memory c)) (loc blocked t (memory c)) = 0)) [0; 1]%nat.
Definition ended_with (t : nat) (v : Z) (c : conf) : bool :=
  bool_decide (status (memory c) !!! t = ENDED ∧ rets (memory c) !!! t = v).
(** How often a process has passed the instructions in front of [n] turns of
    its loop: [first] is the address of the first one, [len] the length of a turn. *)
Definition passed (t first len : nat) (c : conf) : Z :=
  Z.of_nat (length (filter (λ i, first + len * i < pcs c !!! t)%nat (seq 0 MAX))).
Definition eltern_count (c : conf) : Z := passed 0 8 10 c.
Definition kind_count (c : conf) : Z := passed 1 8 10 c.
Definition says_eltern (out : list Z) : bool := bool_decide (out = eltern).
Definition says_kind (out : list Z) : bool := bool_decide (out = kind).
Definition both_done (c : conf) : bool := ended_with 0 0 c && ended_with 1 0 c.
Definition in_turn (c : conf) : bool :=
  counted program says_eltern eltern_count c && counted program says_kind kind_count c &&
  bool_decide (kind_count c ≤ eltern_count c ≤ kind_count c + 1) &&
  implb (both_done c) (bool_decide (eltern_count c = Z.of_nat MAX ∧ kind_count c = Z.of_nat MAX)).

(** C8. The signals of sig_sync keep parent and child in step, in every
    interleaving: neither prints its line twice before the other one has
    printed its own, the parent first; every run ends, with both processes
    having printed MAX lines and ended with 0, or with 1 when fork fails; no
    signal is lost, and none arrives outside of sigsuspend. *)
Theorem sig_sync_alternates :
  verdict program 120 initial (λ c, sound program c && nothing_to_deliver c)
    (λ c, both_done c || ended_with 0 1 c) anything ∧
  ∀ tr c, trace program initial tr c →
    count_said says_kind tr ≤ count_said says_eltern tr ≤ count_said says_kind tr + 1 ∧
    (both_done c = true →
     count_said says_eltern tr = Z.of_nat MAX ∧ count_said says_kind tr = Z.of_nat MAX).
Proof.
  split; [by_judge|]. intros tr c Ht.
  destruct (explore 120 program in_turn initial) as [H _]; [by vm_compute|].
  assert (Hc : ∀ c1, reachable program initial c1 →
    counted program says_eltern eltern_count c1 = true ∧ counted program says_kind kind_count c1 = true ∧
    kind_count c1 ≤ eltern_count c1 ≤ kind_count c1 + 1 ∧
    (both_done c1 = true → eltern_count c1 = Z.of_nat MAX ∧ kind_count c1 = Z.of_nat MAX)).
  { intros c1 Hr. apply H in Hr. unfold in_turn in Hr.
    apply andb_true_iff in Hr as [[[He Hk]%andb_true_iff Ho%bool_decide_eq_true]%andb_true_iff Hd].
    do 2 (split; [done|]). split; [lia|]. intros Hb. rewrite Hb in Hd. by apply bool_decide_eq_true in Hd. }
  rewrite (count_trace program says_kind kind_count initial tr c), (count_trace program says_eltern eltern_count initial tr c);
    [|naive_solver..].
  destruct (Hc c (trace_reachable _ _ _ _ Ht)) as (_ & _ & Ho & Hd).
  change (kind_count initial) with 0. change (eltern_count initial) with 0. split; [lia|]. intros Hb. apply Hd in Hb. lia.
Qed.
End SigSync.

Module Sig.
(** An action: what is called, which signals are blocked meanwhile, flags. *)
Definition SIG_DFL : Z := 0.
Definition SIG_IGN : Z := 1.
Definition CHECK_SIG : Z := 2.   (* the address of [check_sig] *)
Definition SIG_ERR : Z := -1.
Definition SIGINT : Z := 2.
Definition SIGABRT : Z := 6.
Definition SIGFPE : Z := 8.
Definition SIGKILL : Z := 9.
Definition SIGALRM : Z := 14.
Definition SIGSTOP : Z := 19.
Definition SA_RESTART : Z := 0x10000000.
Record action := Action { sa_handler : Z; sa_mask : gset Z; sa_flags : Z }.
(** The process: its actions, a running alarm, the signal that has killed it,
    its input and output; [wrong] when something undefined has happened. *)
Record proc := Proc {
  actions : gmap Z action; alarm_in : option Z; killed : option Z; stdin : list Z; out : list Z; wrong : bool }.
Definition started (input : list Z) : proc := Proc ∅ None None input [] false.

Definition action_of (p : proc) (sig : Z) : action := default (Action SIG_DFL ∅ 0) (actions p !! sig).
Definition set_action (sig : Z) (a : action) (p : proc) : proc :=
  Proc (<[sig := a]> (actions p)) (alarm_in p) (killed p) (stdin p) (out p) (wrong p).
Definition print (s : list Z) (p : proc) : proc :=
  Proc (actions p) (alarm_in p) (killed p) (stdin p) (out p ++ s) (wrong p).
Definition kill (sig : Z) (p : proc) : proc :=
  Proc (actions p) (alarm_in p) (Some sig) (stdin p) (out p) (wrong p).
(** [sigaction]: the signal must exist, and SIGKILL and SIGSTOP keep their actions. *)
Definition sig_ok (sig : Z) : bool := bool_decide (1 ≤ sig ≤ 64).
Definition settable (sig : Z) : bool := sig_ok sig && bool_decide (sig ≠ SIGKILL ∧ sig ≠ SIGSTOP).

Definition my_signal (sig_nr signalhandler : Z) (p : proc) : Z * proc :=
  let neu_sig := Action signalhandler ∅ SA_RESTART in
  if settable sig_nr then (sa_handler (action_of p sig_nr), set_action sig_nr neu_sig p) else (SIG_ERR, p).
Definition signal_add (sig_nr signalhandler : Z) (p : proc) : Z * proc :=
  if sig_ok sig_nr then
    let add_sig := Action signalhandler ({[sig_nr]} ∪ sa_mask (action_of p sig_nr)) SA_RESTART in
    if settable sig_nr then (sa_handler add_sig, set_action sig_nr add_sig p) else (SIG_ERR, p)
  else (SIG_ERR, p).
Definition signal_del (sig_nr : Z) (p : proc) : Z * proc :=
  if sig_ok sig_nr then
    let del_sig := Action SIG_DFL (sa_mask (action_of p sig_nr) ∖ {[sig_nr]}) SA_RESTART in
    if settable sig_nr then (sa_handler del_sig, set_action sig_nr del_sig p) else (SIG_ERR, p)
  else (SIG_ERR, p).

Definition check_text (h : Z) : list Z :=
  if decide (h = SIG_DFL) then line "Standardaktion (default)"
  else if decide (h = SIG_IGN) then line "Wird ignoriert"
  else line "Signalhandler wird aufgerufeb".
Definition check_signal (sig_nr : Z) (p : proc) : proc :=
  if sig_ok sig_nr then
    print (check_text (sa_handler (action_of p sig_nr)))
      (print (str "Aktion beim Auftreten von Signal " ++ dec sig_nr ++ str ": ") p)
  else p.

Definition choices : list Z :=
  line "SIGINT ausgeloest" ++ line "- 1 - Signal aus Maske entfernen" ++ line "- 2 - Signal ignorieren" ++
  line "- 3 - SIGALARM in 5 Sek ausloesen" ++ line "- 4 - Programm beenden" ++ str "Ihre Wahl: ".
(** The handler.  Without a number in the input [nr] is not initialised. *)
Definition check_sig (signr : Z) (p : proc) : proc :=
  if decide (signr = SIGINT) then
    let p := print choices p in
    match scan_int (stdin p) with
    | Some (nr, rest) =>
        let p := Proc (actions p) (alarm_in p) (killed p) rest (out p) (wrong p) in
        if decide (nr = 1) then print (line "SIGINT wurde entfernt") (signal_del SIGINT p).2
        else if decide (nr = 2) then p
        else if decide (nr = 3) then Proc (actions p) (Some 5) (killed p) (stdin p) (out p) (wrong p)
        else if decide (nr = 4) then kill SIGKILL p
        else print (line "Unbekannte Eingabe!") p
    | None => Proc (actions p) (alarm_in p) (killed p) (stdin p) (out p) true
    end
  else if decide (signr = SIGALRM) then kill SIGKILL (print (line "SIGALRM ausgeloest") p)
  else p.

(** [main] up to its endless loop. *)
Definition main (p : proc) : proc :=
  let p := (my_signal SIGINT CHECK_SIG p).2 in
  let p := (signal_add SIGALRM CHECK_SIG p).2 in
  let p := (signal_add SIGABRT SIG_IGN p).2 in
  let p := check_signal SIGFPE (check_signal SIGABRT (check_signal SIGALRM (check_signal SIGINT p))) in
  print (str "<ctrl>-<c> druecken") p.
(** The loop is interrupted by a signal; the default action of all the
    signals here ends the process. *)
Definition deliver (sig : Z) (p : proc) : proc :=
  match killed p with
  | Some _ => p
  | None =>
      let h := sa_handler (action_of p sig) in
      if decide (h = SIG_DFL) then kill sig p
      else if decide (h = SIG_IGN) then p
      else check_sig sig p
  end.

Lemma signal_del_wrong sig p : wrong (signal_del sig p).2 = wrong p.
Proof. unfold signal_del. by destruct (sig_ok sig), (settable sig). Qed.
(** With a number to read the handler does nothing undefined. *)
Lemma check_sig_defined p nr r : scan_int (stdin p) = Some (nr, r) → wrong p = false → wrong (check_sig SIGINT p) = false.
Proof.
  intros Hs Hw. unfold check_sig. rewrite decide_True by done. cbv zeta.
  change (stdin (print choices p)) with (stdin p). rewrite Hs.
  case_decide; [cbn [wrong print]; by rewrite signal_del_wrong|]. by repeat case_decide.
Qed.
Lemma handler_defined input nr r :
  scan_int input = Some (nr, r) → wrong (deliver SIGINT (main (started input))) = false.
Proof.
  intros Hs.
  assert (Hm : killed (main (started input)) = None ∧ stdin (main (started input)) = input ∧
    wrong (main (started input)) = false ∧
    sa_handler (action_of (main (started input)) SIGINT) = CHECK_SIG) by (split_and!; by vm_compute).
  revert Hm. generalize (main (started input)). intros p (Hk & Hi & Hw & Ha).
  unfold deliver. rewrite Hk, Ha. rewrite !decide_False by done.
  apply (check_sig_defined p nr r); [by rewrite Hi|done].
Qed.

(** sig.c announces the actions it has set, and a SIGINT does what the
    user chooses: 1 resets the action, so that the next SIGINT ends the
    process; 2 leaves everything as it is; 3 starts an alarm, whose signal
    ends it with SIGKILL, as 4 does at once; SIGABRT is ignored throughout. *)
Theorem sig_choices (nr : Z) (rest : list Z) :
  let p := main (started (dec nr ++ LF :: rest)) in
  out p = str "Aktion beim Auftreten von Signal 2: " ++ line "Signalhandler wird aufgerufeb" ++
          str "Aktion beim Auftreten von Signal 14: " ++ line "Signalhandler wird aufgerufeb" ++
          str "Aktion beim Auftreten von Signal 6: " ++ line "Wird ignoriert" ++
          str "Aktion beim Auftreten von Signal 8: " ++ line "Standardaktion (default)" ++
          str "<ctrl>-<c> druecken" ∧
  deliver SIGABRT p = p ∧ wrong (deliver SIGINT p) = false ∧
  (nr = 1 → killed (deliver SIGINT p) = None ∧ killed (deliver SIGINT (deliver SIGINT p)) = Some SIGINT) ∧
  (nr = 2 → killed (deliver SIGINT p) = None ∧ actions (deliver SIGINT p) = actions p ∧ alarm_in (deliver SIGINT p) = None) ∧
  (nr = 3 → alarm_in (deliver SIGINT p) = Some 5 ∧ killed (deliver SIGALRM (deliver SIGINT p)) = Some SIGKILL) ∧
  (nr = 4 → killed (deliver SIGINT p) = Some SIGKILL).
Proof.
  intros p. split; [by vm_compute|]. split; [by vm_compute|]. split.
  - apply (handler_defined _ nr (LF :: rest)). apply scan_int_dec. by intros c r [= <- <-].
  - split; [|split; [|split]]; intros ->; vm_compute; auto.
Qed.
Lemma sig_choices_witness :
  killed (deliver SIGINT (main (started (dec 4 ++ [LF])))) = Some SIGKILL.
Proof. by apply (sig_choices 4 []). Defined.
End Sig.

Module PingPong.
(** Where the main loop is: before its test, before Ping, before Pong, behind
    the loop. *)
Inductive place := Test | Ping | Pong | End.
#[export] Instance place_eq : EqDecision place.
Proof. solve_decision. Defined.
Record state := State { at_ : place; sigint : Z; out : list Z }.
Definition start : state := State Test 1 [].

(** [while (--j);] : [None] when the fuel is used up. *)
Fixpoint spin (fuel : nat) (j : Z) {struct fuel} : option Z :=
  match fuel with
  | O => None
  | S fuel => let j := j - 1 in if decide (j = 0) then Some j else spin fuel j
  end.
(** The two delay loops, counting down from [i]. *)
Definition i : Z := 90000000.
Definition delay (fuel : nat) : option unit := _ ← spin fuel i; _ ← spin fuel i; Some tt.
Definition ping : list Z := str "Ping-".
Definition pong : list Z := line "Pong".

(** A part of the main loop; [None] while a delay loop has too little fuel. *)
Definition tick (fuel : nat) (s : state) : option state :=
  match at_ s with
  | Test => Some (State (if decide (sigint s = 0) then End else Ping) (sigint s) (out s))
  | Ping => _ ← delay fuel; Some (State Pong (sigint s) (out s ++ ping))
  | Pong => _ ← delay fuel; Some (State Test (sigint s) (out s ++ pong))
  | End => Some s
  end.
(** The handler of SIGINT; the process is gone once the loop is left. *)
Definition catch_sigint (s : state) : state :=
  match at_ s with End => s | _ => State (at_ s) (sigint s - 1) (out s) end.
(** A history: parts of the loop ([false]) and signals ([true]). *)
Fixpoint run (fuel : nat) (l : list bool) (s : state) : option state :=
  match l with
  | [] => Some s
  | true :: l => run fuel l (catch_sigint s)
  | false :: l => s ← tick fuel s; run fuel l s
  end.

Lemma spin_ok fuel : ∀ j, 0 < j → j ≤ Z.of_nat fuel → spin fuel j = Some 0.
Proof.
  induction fuel as [|fuel IH]; intros j Hj Hf; [lia|]. cbn [spin]. cbv zeta. case_decide; [by f_equal|].
  apply IH; lia.
Qed.
Definition enough : nat := Z.to_nat i.
Lemma delay_ok : delay enough = Some tt.
Proof.
  unfold delay. assert (H : spin enough i = Some 0); [|by rewrite H].
  apply spin_ok; [done|]. unfold enough. rewrite Z2Nat.id; done.
Qed.
#[global] Opaque enough i.
Definition next (s : state) : state :=
  match at_ s with
  | Test => State (if decide (sigint s = 0) then End else Ping) (sigint s) (out s)
  | Ping => State Pong (sigint s) (out s ++ ping)
  | Pong => State Test (sigint s) (out s ++ pong)
  | End => s
  end.
Lemma tick_next s : tick enough s = Some (next s).
Proof. unfold tick, next. by destruct (at_ s); rewrite ?delay_ok. Qed.
Definition go (b : bool) (s : state) : state := if b then catch_sigint s else next s.
Lemma run_go l : ∀ s, run enough l s = Some (foldl (λ s b, go b s) s l).
Proof.
  induction l as [|[] l IH]; intros s; cbn [run foldl]; [done|apply IH|].
  rewrite tick_next. apply IH.
Qed.

(** What has been printed: whole pairs, and perhaps a Ping. *)
Definition pairs (s : state) : Prop :=
  ∃ k, out s = concat (replicate k (ping ++ pong)) ++ match at_ s with Pong => ping | _ => [] end.
Lemma pairs_go b s : pairs s → pairs (go b s).
Proof.
  intros [k Hk]. destruct s as [a n o], b, a; unfold go, catch_sigint, next, pairs; cbn [at_ out sigint] in *; eauto.
  - exists k. by case_decide.
  - exists k. by rewrite Hk, app_nil_r.
  - exists (S k). by rewrite Hk, app_nil_r, <- app_assoc, replicate_S_end, concat_snoc.
Qed.
Definition signals (l : list bool) : Z := Z.of_nat (length (filter (λ b, b = true) l)).
Definition run_from (l : list bool) (s : state) : state := foldl (λ s b, go b s) s l.
Lemma run_from_app l1 l2 s : run_from (l1 ++ l2) s = run_from l2 (run_from l1 s).
Proof. apply foldl_app. Qed.
Lemma signals_snoc l b : signals (l ++ [b]) = signals l + (if b then 1 else 0).
Proof.
  unfold signals. rewrite filter_app, length_app.
  destruct b; [rewrite filter_cons_True by done|rewrite filter_cons_False by done]; rewrite filter_nil; cbn; lia.
Qed.
Lemma run_snoc l b s : run_from (l ++ [b]) s = go b (run_from l s).
Proof. apply run_from_app. Qed.
Lemma go_end b s : at_ s = End → go b s = s.
Proof. intros H. destruct b; unfold go, catch_sigint, next; by rewrite H. Qed.
Lemma sigint_run l : ∀ s, at_ (run_from l s) ≠ End → sigint (run_from l s) = sigint s - signals l.
Proof.
  induction l as [|b l IH] using rev_ind; intros s H; [change (signals []) with 0; cbn [run_from foldl]; lia|].
  rewrite run_snoc in *. rewrite signals_snoc.
  destruct (decide (at_ (run_from l s) = End)) as [He|Hn]; [by rewrite go_end in H|].
  specialize (IH s Hn). revert IH Hn. generalize (run_from l s). intros [a n o] IH Hn. cbn [sigint at_] in *.
  destruct b, a; unfold go, catch_sigint, next; cbn [at_ sigint]; done || lia.
Qed.
(** Once the counter is past 0 the loop is never left. *)
Lemma never_ends l : ∀ s, at_ s ≠ End → sigint s < 0 → at_ (run_from l s) ≠ End.
Proof.
  induction l as [|b l IH]; intros s Ha Hs; [done|]. cbn [run_from foldl]. apply IH.
  - destruct b; unfold go, catch_sigint, next; destruct (at_ s); try done. cbn. by rewrite decide_False by lia.
  - destruct b; unfold go, catch_sigint, next; destruct (at_ s); cbn; lia.
Qed.

(** Without a signal the loop is not left. *)
Lemma still_running l : signals l = 0 → at_ (run_from l start) ≠ End.
Proof.
  induction l as [|b l IH] using rev_ind; [done|]. rewrite signals_snoc. intros Hl.
  assert (0 ≤ signals l) by apply Nat2Z.is_nonneg. destruct b; [lia|].
  assert (H0 : signals l = 0) by lia. specialize (IH H0). pose proof (sigint_run l start IH) as Hs.
  rewrite H0 in Hs. rewrite run_snoc. revert Hs IH. generalize (run_from l start). intros [a n o] Hs IH.
  cbn [sigint at_ start] in *. destruct a; unfold go, next; cbn; try done. by rewrite decide_False by lia.
Qed.
Lemma stays_ended l s : at_ s = End → at_ (run_from l s) = End.
Proof. intros Hs. induction l as [|b l IH]; [done|]. cbn [run_from foldl]. rewrite go_end by done. apply IH. Qed.

End PingPong.
