(* ===== verification/Semaphores.v ===== *)
(** * 09_IPC: System V semaphores and shared memory

    Module [Sem] models the semaphore operations of the kernel with the
    adjustments that SEM_UNDO keeps for each process; module [Shm] models
    shm_header.h, shm_server.c and shm_client.c: one server and any number of
    clients as processes of a step relation over the shared segment; module
    [Critical] models sem.c run by any number of processes. *)
From S2P Require Import Prelude CLib.

(** ** Sums over the processes *)
Definition total {A} (w : A → Z) (l : list A) : Z := foldr (λ x s, w x + s) 0 l.
Section total.
Context {A : Type} (w : A → Z).
Lemma total_app l k : total w (l ++ k) = total w l + total w k.
Proof. induction l as [|x l IH]; simpl; [done|]. fold (total w) in *. lia. Qed.
Lemma total_insert l : ∀ i x y, l !! i = Some x → total w (<[i := y]> l) = total w l - w x + w y.
Proof.
  induction l as [|z l IH]; intros [|i] x y H; simpl in *; try done.
  - injection H as ->. lia.
  - rewrite (IH _ _ _ H). lia.
Qed.
Lemma total_nonneg l : (∀ x, 0 ≤ w x) → 0 ≤ total w l.
Proof. intros H. induction l as [|x l IH]; simpl; [lia|]. pose proof (H x). lia. Qed.
Lemma total_ge l : (∀ x, 0 ≤ w x) → ∀ i x, l !! i = Some x → w x ≤ total w l.
Proof.
  intros H. induction l as [|z l IH]; intros [|i] x Hx; simpl in *; try done.
  - injection Hx as ->. pose proof (total_nonneg l H). lia.
  - pose proof (IH _ _ Hx). pose proof (H z). lia.
Qed.
Lemma total_two l : (∀ x, 0 ≤ w x) → ∀ i j x y,
  l !! i = Some x → l !! j = Some y → i ≠ j → w x + w y ≤ total w l.
Proof.
  intros H. induction l as [|z l IH]; intros [|i] [|j] x y Hx Hy Hn; simpl in *; try done.
  - injection Hx as ->. pose proof (total_ge l H _ _ Hy). lia.
  - injection Hy as ->. pose proof (total_ge l H _ _ Hx). lia.
  - pose proof (IH i j x y Hx Hy ltac:(congruence)). pose proof (H z). lia.
Qed.
End total.

Lemma total_cons {A} (w : A → Z) x l : total w (x :: l) = w x + total w l.
Proof. done. Qed.
Lemma total_snoc {A} (w : A → Z) x l : total w (l ++ [x]) = total w l + w x.
Proof. rewrite total_app, total_cons. change (total w []) with 0. lia. Qed.
Arguments total : simpl never.

Module Sem.
(** The values of a set of semaphores; it may have been removed. *)
Record set := Set_ { vals : list Z; removed : bool }.
(** What an operation can do: block, fail with EIDRM, or succeed. *)
Inductive result := Blocks | Fails | Did (s : set) (adj : list Z).
(** [semop] with one [sembuf] and SEM_UNDO by a process with adjustments [adj]. *)
Definition semop (s : set) (adj : list Z) (num : nat) (op : Z) : result :=
  if removed s then Fails
  else if decide (vals s !!! num + op < 0) then Blocks
  else Did (Set_ (<[num := vals s !!! num + op]> (vals s)) false) (<[num := adj !!! num - op]> adj).
(** What the kernel does when a process ends: add its adjustments, not below 0. *)
Definition undo (s : set) (adj : list Z) : set :=
  if removed s then s else Set_ (zip_with (λ v a, Z.max 0 (v + a)) (vals s) adj) false.
Definition SETVAL (s : set) (num : nat) (v : Z) : set := Set_ (<[num := v]> (vals s)) (removed s).
End Sem.

Module Shm.
Definition SHMDATASIZE : Z := 1024.
Definition BUFFERSIZE : Z := SHMDATASIZE - 4.
Definition SN_EMPTY : nat := 0.
Definition SN_FULL : nat := 1.

(** Where the server is: before locksem, behind it, before unlocksem, ended. *)
Inductive sphase := SWaits | SPrints | SUnlocks | SGone.
(** Where a client is: at the menu, before locksem in clientwrite, before
    fgets, before unlocksem, ended, or in undefined behaviour. *)
Inductive cphase := CMenu | CAsks | CWrites | CUnlocks | CGone | CUndefined.
Record client := Client { phase : cphase; stdin : list Z; cadj : list Z }.
(** The semaphore set with id [semid], the message part of the segment, the processes. *)
Record world := World {
  sems : Sem.set; semid : Z; buffer : buf; sphase_of : sphase; sadj : list Z; clients : list client }.

(** What happens: a process prints (0 is the server, [S i] client [i]); a
    client has written into the buffer, which then holds the string [s]. *)
Inductive event := Says (p : nat) (text : list Z) | Wrote (i : nat) (s : list Z).

(** [safesemop]: reports an error and goes on. *)
Definition safesemop (p : nat) (w : world) (adj : list Z) (num : nat) (op : Z)
    : option (list event * Sem.set * list Z) :=
  match Sem.semop (sems w) adj num op with
  | Sem.Blocks => None
  | Sem.Fails => Some ([Says p (str "Fehler: Semaphor mit ID " ++ dec (semid w) ++ line ", (1 Operation)")], sems w, adj)
  | Sem.Did s adj => Some ([], s, adj)
  end.
Definition locksem (p : nat) (w : world) (adj : list Z) (num : nat) := safesemop p w adj num (-1).
Definition unlocksem (p : nat) (w : world) (adj : list Z) (num : nat) := safesemop p w adj num 1.

(** *** shm_server.c *)
Definition erhalten : list Z := str "Nachricht erhalten: ".
Definition server_step (w : world) : option (list event * world) :=
  match sphase_of w with
  | SWaits =>
      '(es, s, adj) ← locksem 0 w (sadj w) SN_FULL;
      Some (es ++ [Says 0 (LF :: line "... fertig.")],
            World s (semid w) (buffer w) SPrints adj (clients w))
  | SPrints =>
      m ← cstr (buffer w);
      Some ([Says 0 (erhalten ++ m ++ [LF])],
            World (sems w) (semid w) (buffer w) SUnlocks (sadj w) (clients w))
  | SUnlocks =>
      '(es, s, adj) ← unlocksem 0 w (sadj w) SN_EMPTY;
      Some (es ++ [Says 0 (str "Warte ...")],
            World s (semid w) (buffer w) SWaits adj (clients w))
  | SGone => None
  end.
(** SIGINT: [sigdelete] exits, [delete] removes the semaphores and the segment
    (which the clients keep until they detach). *)
Definition sigdelete (w : world) : list event * world :=
  ([Says 0 (LF :: str "Server wird beendet - Loesche Semaphor " ++ dec (semid w) ++ line ".")],
   World (Sem.Set_ (Sem.vals (sems w)) true) (semid w) (buffer w) SGone (sadj w) (clients w)).
(** The state in which [server] enters its loop: both semaphores set, a new
    segment, which is all zero. *)
Definition server_starts (id : Z) : world :=
  World (Sem.SETVAL (Sem.SETVAL (Sem.Set_ [0; 0] false) SN_EMPTY 1) SN_FULL 0) id
    (zeroed (Z.to_nat BUFFERSIZE)) SWaits [0; 0] [].

(** *** shm_client.c *)
Definition menu : list Z := LF :: LF :: line "Menu" ++ line "1. Eine Nachricht verschicken" ++ line "2. Client-Ende".
(** A client that attaches, and one that ends. *)
Definition client_starts (shmid : Z) (input : list Z) (w : world) : list event * world :=
  ([Says (S (length (clients w))) (str "Client: Shared-Memory-ID: " ++ dec shmid ++
      str ", Semaphor-ID: " ++ dec (semid w) ++ [LF]);
    Says (S (length (clients w))) menu],
   World (sems w) (semid w) (buffer w) (sphase_of w) (sadj w) (clients w ++ [Client CMenu input [0; 0]])).
Definition client_ends (i : nat) (c : client) (w : world) : list event * world :=
  ([], World (Sem.undo (sems w) (cadj c)) (semid w) (buffer w) (sphase_of w) (sadj w)
         (<[i := Client CGone (stdin c) (cadj c)]> (clients w))).
Definition with_client (i : nat) (w : world) (s : Sem.set) (b : buf) (c : client) : world :=
  World s (semid w) b (sphase_of w) (sadj w) (<[i := c]> (clients w)).

Definition client_step (i : nat) (w : world) : option (list event * world) :=
  c ← clients w !! i;
  match phase c with
  | CMenu =>
      let '(input, rest) := fgets_take 2 (stdin c) in
      match input with
      | [] => Some ([], with_client i w (sems w) (buffer w) (Client CUndefined rest (cadj c)))
      | x :: _ =>
          if decide (x = 49) then
            Some ([Says (S i) (str "Warte ...")], with_client i w (sems w) (buffer w) (Client CAsks rest (cadj c)))
          else if decide (x = 50) then Some (client_ends i c w)
          else Some ([Says (S i) menu], with_client i w (sems w) (buffer w) (Client CMenu rest (cadj c)))
      end
  | CAsks =>
      '(es, s, adj) ← locksem (S i) w (cadj c) SN_EMPTY;
      Some (es ++ [Says (S i) (LF :: line "... fertig"); Says (S i) (str "Eingabe machen: ")],
            with_client i w s (buffer w) (Client CWrites (stdin c) adj))
  | CWrites =>
      let '(input, rest) := fgets_take (Z.to_nat BUFFERSIZE - 1) (stdin c) in
      b ← match input with [] => Some (buffer w) | _ => blit (buffer w) 0 (input ++ [0]) end;
      m ← cstr b;
      Some ([Wrote i m], with_client i w (sems w) b (Client CUnlocks rest (cadj c)))
  | CUnlocks =>
      '(es, s, adj) ← unlocksem (S i) w (cadj c) SN_FULL;
      Some (es ++ [Says (S i) menu], with_client i w s (buffer w) (Client CMenu (stdin c) adj))
  | CGone | CUndefined => None
  end.

(** *** Steps *)
(** [quiet]: nobody ends. *)
Inductive step (quiet : bool) : world → list event → world → Prop :=
| step_server w es w' : server_step w = Some (es, w') → step quiet w es w'
| step_client w i es w' : client_step i w = Some (es, w') →
    (quiet = true → ∀ c, clients w' !! i = Some c → phase c ≠ CGone) → step quiet w es w'
| step_new w id input es w' : client_starts id input w = (es, w') → step quiet w es w'
| step_killed w i c es w' : quiet = false → clients w !! i = Some c → client_ends i c w = (es, w') → step quiet w es w'
| step_sigint w es w' : quiet = false → sigdelete w = (es, w') → step quiet w es w'.
Inductive steps (quiet : bool) : world → list event → world → Prop :=
| steps_nil w : steps quiet w [] w
| steps_snoc w es w1 es' w2 : steps quiet w es w1 → step quiet w1 es' w2 → steps quiet w (es ++ es') w2.

(** Who is between locksem and unlocksem. *)
Definition client_inside (c : client) : Z :=
  match phase c with CWrites | CUnlocks => 1 | _ => 0 end.
Definition server_inside (p : sphase) : Z := match p with SPrints | SUnlocks => 1 | _ => 0 end.
Definition inside (w : world) : Z := total client_inside (clients w) + server_inside (sphase_of w).

(** What the clients have written, and the messages the server has printed. *)
Definition report (m : list Z) : list Z := erhalten ++ m ++ [LF].
Definition written (es : list event) : list (list Z) :=
  omap (λ e, match e with Wrote _ s => Some s | _ => None end) es.
Definition printed (es : list event) : list (list Z) :=
  omap (λ e, match e with
             | Says O t => if is_prefix erhalten t then Some t else None
             | _ => None end) es.

(** *** The invariant while nobody ends *)
Definition client_unlocks (c : client) : Z := match phase c with CUnlocks => 1 | _ => 0 end.
(** A message is in the buffer that the server has not printed yet. *)
Definition pending (w : world) : Z :=
  Sem.vals (sems w) !!! SN_FULL + total client_unlocks (clients w)
  + match sphase_of w with SPrints => 1 | _ => 0 end.
Record inv (es : list event) (w : world) : Prop := {
  inv_alive : Sem.removed (sems w) = false ∧ sphase_of w ≠ SGone;
  inv_sems : ∃ e f, Sem.vals (sems w) = [e; f] ∧ 0 ≤ e ∧ 0 ≤ f ∧ e + f + inside w = 1;
  inv_buffer : Z.of_nat (length (buffer w)) = BUFFERSIZE;
  inv_messages : ∃ m, cstr (buffer w) = Some m ∧
    report <$> written es = printed es ++ (if decide (pending w = 0) then [] else [report m]) }.

Lemma inside_nonneg c : 0 ≤ client_inside c.
Proof. unfold client_inside. destruct (phase c); lia. Qed.
Lemma unlocks_nonneg c : 0 ≤ client_unlocks c.
Proof. unfold client_unlocks. destruct (phase c); lia. Qed.
Lemma unlocks_le l : total client_unlocks l ≤ total client_inside l.
Proof.
  induction l as [|c l IH]; [done|]. rewrite !total_cons.
  unfold client_unlocks at 1, client_inside at 1. destruct (phase c); lia.
Qed.
(** The ways a semaphore operation can go while the set exists. *)
Lemma safesemop_alive p w adj num op es s adj' :
  Sem.removed (sems w) = false → safesemop p w adj num op = Some (es, s, adj') →
  es = [] ∧ s = Sem.Set_ (<[num := Sem.vals (sems w) !!! num + op]> (Sem.vals (sems w))) false ∧
  0 ≤ Sem.vals (sems w) !!! num + op.
Proof.
  unfold safesemop, Sem.semop. intros ->. case_decide; [done|]. intros [= <- <- <-]. repeat split. lia.
Qed.
Lemma safesemop_free p w adj num op :
  Sem.removed (sems w) = false → 0 ≤ Sem.vals (sems w) !!! num + op → is_Some (safesemop p w adj num op).
Proof. unfold safesemop, Sem.semop. intros -> H. rewrite decide_False by lia. by eexists. Qed.

Lemma written_app es es' : written (es ++ es') = written es ++ written es'.
Proof. apply omap_app. Qed.
Lemma said_app es es' : printed (es ++ es') = printed es ++ printed es'.
Proof. apply omap_app. Qed.
Lemma printed_report m : printed [Says 0 (report m)] = [report m].
Proof.
  unfold printed, report. cbn [omap list_omap].
  assert (is_prefix erhalten (erhalten ++ m ++ [LF]) = true) as -> by (apply is_prefix_spec; eauto). done.
Qed.
(** Steps that neither print a message nor write one. *)
Lemma inv_quiet es es' w w' :
  inv es w → written es' = [] → printed es' = [] → buffer w' = buffer w →
  Sem.removed (sems w') = false → sphase_of w' ≠ SGone →
  (∃ e f, Sem.vals (sems w') = [e; f] ∧ 0 ≤ e ∧ 0 ≤ f ∧ e + f + inside w' = 1) →
  pending w' = pending w → inv (es ++ es') w'.
Proof.
  intros [_ _ Hb (m & Hm & Hmsg)] Hw Hp Hbuf Hr Hs Hsem Hpe. split; [done|done|by rewrite Hbuf|].
  exists m. rewrite Hbuf, written_app, said_app, Hw, Hp, !app_nil_r, Hpe. done.
Qed.

Lemma inv_server es w es' w' : inv es w → server_step w = Some (es', w') → inv (es ++ es') w'.
Proof.
  intros Hinv Hstep. pose proof Hinv as [[Hr Hg] (e & f & Hv & He & Hf & Hsum) Hb (m & Hm & Hmsg)].
  pose proof (total_nonneg client_inside (clients w) inside_nonneg).
  pose proof (total_nonneg client_unlocks (clients w) unlocks_nonneg).
  pose proof (unlocks_le (clients w)).
  unfold server_step in Hstep. destruct (sphase_of w) eqn:Ep; [| | |done].
  - destruct (locksem 0 w (sadj w) SN_FULL) as [[[es1 s1] adj1]|] eqn:El; [|done].
    apply safesemop_alive in El as (-> & -> & Hge); [|done]. injection Hstep as <- <-.
    rewrite Hv in Hge |- *. cbn in Hge |- *. unfold inside in Hsum. rewrite Ep in Hsum. cbn in Hsum.
    apply (inv_quiet es _ w); try done.
    + exists e, (f + -1). unfold inside; cbn. repeat split; lia.
    + unfold pending; cbn. rewrite Hv, Ep. cbn. lia.
  - rewrite Hm in Hstep. unfold mbind, option_bind in Hstep.
    fold (report m) in Hstep. set (t := report m) in Hstep. injection Hstep as <- <-. subst t. unfold inside in Hsum. rewrite Ep in Hsum. cbn in Hsum.
    split; [done| | done |].
    + exists e, f. unfold inside; cbn. repeat split; try done; lia.
    + exists m. split; [done|]. rewrite written_app, said_app, app_nil_r, Hmsg.
      assert (Hp1 : pending w = 1) by (unfold pending; rewrite Hv, Ep; cbn; lia).
      rewrite Hp1. rewrite decide_False by done.
      rewrite printed_report, decide_True;
        [by rewrite app_nil_r|]. unfold pending; cbn. rewrite Hv. cbn. lia.
  - destruct (unlocksem 0 w (sadj w) SN_EMPTY) as [[[es1 s1] adj1]|] eqn:El; [|done].
    apply safesemop_alive in El as (-> & -> & Hge); [|done]. injection Hstep as <- <-.
    rewrite Hv in Hge |- *. cbn in Hge |- *. unfold inside in Hsum. rewrite Ep in Hsum. cbn in Hsum.
    apply (inv_quiet es _ w); try done.
    + exists (e + 1), f. unfold inside; cbn. repeat split; lia.
    + unfold pending; cbn. rewrite Hv, Ep. cbn. lia.
Qed.

(** A step of client [i] that changes its weights and the semaphores alike. *)
Lemma client_quiet es es' w i c c' s :
  inv es w → clients w !! i = Some c → written es' = [] → printed es' = [] →
  Sem.removed s = false →
  (∀ e f, Sem.vals (sems w) = [e; f] → 0 ≤ e → 0 ≤ f → ∃ e' f', Sem.vals s = [e'; f'] ∧ 0 ≤ e' ∧ 0 ≤ f' ∧
     e' + f' + client_inside c' = e + f + client_inside c ∧ f' + client_unlocks c' = f + client_unlocks c) →
  inv (es ++ es') (with_client i w s (buffer w) c').
Proof.
  intros Hinv Hc Hw Hp Hr Hch. pose proof Hinv as [[_ Hg] (e & f & Hv & He & Hf & Hsum) _ _].
  destruct (Hch e f Hv He Hf) as (e' & f' & Hv' & He' & Hf' & Hin & Hun).
  apply (inv_quiet es _ w); try done.
  - exists e', f'. split; [done|]. unfold inside in *; cbn. rewrite (total_insert _ _ _ _ _ Hc). lia.
  - unfold pending; cbn. rewrite Hv, Hv', (total_insert _ _ _ _ _ Hc). cbn. lia.
Qed.

Lemma blit0_shape (b b' : buf) l : blit b 0 (l ++ [0]) = Some b' → ∃ t, b' = (Some <$> l) ++ Some 0 :: t.
Proof.
  unfold blit. case_decide; [|done]. intros [= <-]. rewrite fmap_app, <- app_assoc. by eexists.
Qed.
Lemma buffer_written (b b' : buf) input :
  Z.of_nat (length b) = BUFFERSIZE → (∃ m, cstr b = Some m) → (length input < Z.to_nat BUFFERSIZE)%nat →
  match input with [] => Some b | _ => blit b 0 (input ++ [0]) end = Some b' →
  length b' = length b ∧ ∃ m, cstr b' = Some m.
Proof.
  intros Hl [m Hm] Hi. destruct input as [|x input]; [intros [= ->]; eauto|].
  intros H. split; [by eapply blit_length|]. apply blit0_shape in H as [t ->]. apply cstr_stops.
Qed.
Lemma buffer_takes (b : buf) (l : list Z) :
  Z.of_nat (length b) = BUFFERSIZE →
  is_Some (match (fgets_take (Z.to_nat BUFFERSIZE - 1) l).1 with [] => Some b | _ => blit b 0 ((fgets_take (Z.to_nat BUFFERSIZE - 1) l).1 ++ [0]) end).
Proof.
  intros Hl. pose proof (fgets_take_length (Z.to_nat BUFFERSIZE - 1) l) as Hn.
  destruct (fgets_take _ l).1 as [|x r]; [by eexists|].
  rewrite blit_Some; [by eexists|]. rewrite length_app. cbn [length] in *.
  assert (0 < BUFFERSIZE) by done. lia.
Qed.

Lemma inv_client es w i es' w' :
  inv es w → client_step i w = Some (es', w') →
  (∀ c, clients w' !! i = Some c → phase c ≠ CGone) → inv (es ++ es') w'.
Proof.
  intros Hinv Hstep Hstay. pose proof Hinv as [[Hr Hg] (e & f & Hv & He & Hf & Hsum) Hb (m & Hm & Hmsg)].
  unfold client_step in Hstep. destruct (clients w !! i) as [c|] eqn:Hc; [|done].
  unfold mbind, option_bind in Hstep.
  destruct (phase c) eqn:Ep; [| | | |done..].
  - destruct (fgets_take 2 (stdin c)) as [input rest]. destruct input as [|x ?].
    2: destruct (decide (x = 49)); [|destruct (decide (x = 50))].
    3: { unfold client_ends in Hstep. injection Hstep as <- <-. cbn in Hstay. rewrite list_lookup_insert_eq in Hstay by (by eapply lookup_lt_Some).
         by destruct (Hstay _ eq_refl). }
    all: injection Hstep as <- <-; apply (client_quiet es _ w i c); try done; intros e1 f1 -> ? ?;
      exists e1, f1; unfold client_inside, client_unlocks; rewrite Ep; cbn; repeat split; lia.
  - destruct (locksem (S i) w (cadj c) SN_EMPTY) as [[[es1 s1] adj1]|] eqn:El; [|done].
    apply safesemop_alive in El as (-> & -> & Hge); [|done]. injection Hstep as <- <-.
    apply (client_quiet es _ w i c); try done. intros e1 f1 Hv1 ? ?. rewrite Hv1 in Hge |- *. cbn in Hge |- *.
    exists (e1 + -1), f1. unfold client_inside, client_unlocks; rewrite Ep; cbn; repeat split; lia.
  - pose proof (fgets_take_length (Z.to_nat BUFFERSIZE - 1) (stdin c)) as Hlen.
    destruct (fgets_take (Z.to_nat BUFFERSIZE - 1) (stdin c)) as [input rest]. cbn [fst] in Hlen.
    destruct (match input with [] => _ | _ => _ end) as [b|] eqn:Hblit; [|done]. cbn in Hstep.
    apply buffer_written in Hblit as [Hlb [m' Hm']]; [|done|eauto|assert (0 < BUFFERSIZE) by done; lia].
    rewrite Hm' in Hstep. cbn in Hstep. injection Hstep as <- <-.
    pose proof (total_ge client_inside _ inside_nonneg _ _ Hc) as Hge.
    assert (Hu : total client_unlocks (clients w) ≤ total client_inside (clients w) - 1).
    { pose proof (unlocks_le (<[i := Client CMenu [] []]> (clients w))) as H.
      rewrite !(total_insert _ _ _ _ _ Hc) in H. unfold client_unlocks at 2 3, client_inside at 2 3 in H.
      rewrite Ep in H. cbn in H. lia. }
    pose proof (total_nonneg client_unlocks (clients w) unlocks_nonneg).
    unfold inside in Hsum. unfold client_inside at 1 in Hge. rewrite Ep in Hge.
    assert (server_inside (sphase_of w) = 0 ∧ e = 0 ∧ f = 0) as (Hs0 & -> & ->)
      by (unfold server_inside in *; destruct (sphase_of w); lia).
    assert (Hu0 : total client_unlocks (clients w) = 0) by lia.
    split; [done| |cbn; lia|].
    + exists 0, 0. unfold inside; cbn. rewrite (total_insert _ _ _ _ _ Hc). cbn. unfold client_inside at 2. rewrite Ep.
      repeat split; try done; lia.
    + exists m'. split; [done|]. rewrite written_app, said_app, fmap_app, Hmsg, app_nil_r.
      assert (Hp0 : pending w = 0) by (unfold pending; rewrite Hv; cbn; unfold server_inside in Hs0; destruct (sphase_of w); lia).
      rewrite Hp0, decide_True, app_nil_r by done. f_equal. rewrite decide_False; [done|].
      unfold pending; cbn. rewrite Hv, (total_insert _ _ _ _ _ Hc). unfold client_unlocks at 2. rewrite Ep. cbn.
      unfold server_inside in Hs0. destruct (sphase_of w); lia.
  - destruct (unlocksem (S i) w (cadj c) SN_FULL) as [[[es1 s1] adj1]|] eqn:El; [|done].
    apply safesemop_alive in El as (-> & -> & Hge); [|done]. injection Hstep as <- <-.
    apply (client_quiet es _ w i c); try done. intros e1 f1 Hv1 ? ?. rewrite Hv1 in Hge |- *. cbn in Hge |- *.
    exists e1, (f1 + 1). unfold client_inside, client_unlocks; rewrite Ep; cbn; repeat split; lia.
Qed.

Lemma shm_start_inv id : inv [] (server_starts id).
Proof.
  split; [done|exists 1, 0; done|done|]. exists []. split; [done|]. by rewrite decide_True.
Qed.
Lemma inv_steps id es w : steps true (server_starts id) es w → inv es w.
Proof.
  intros Hs. remember (server_starts id) as w0 eqn:E0. induction Hs as [|w0 es w es' w' Hs IH Hstep]; subst; [apply shm_start_inv|].
  specialize (IH eq_refl). inversion Hstep; subst; try done.
  - by eapply inv_server.
  - eapply inv_client; eauto.
  - unfold client_starts in *. simplify_eq.
    pose proof IH as [[Hr Hg] (e & f & Hv & He & Hf & Hsum) _ _].
    apply (inv_quiet es _ w); try done.
    + exists e, f. unfold inside in *; cbn. rewrite total_snoc. cbn in *. repeat split; try done; lia.
    + unfold pending; cbn. rewrite total_snoc. cbn. lia.
Qed.

(** Two processes inside at once, or somebody inside while both are shut. *)
Lemma total_pos {A} (w : A → Z) l : 0 < total w l → ∃ i x, l !! i = Some x ∧ 0 < w x.
Proof.
  induction l as [|x l IH]; [done|]. rewrite total_cons. intros H.
  destruct (decide (0 < w x)) as [Hx|Hx]; [by exists 0%nat, x|].
  destruct IH as (i & y & Hy & Hp); [lia|]. by exists (S i), y.
Qed.

(** A client that wants to write never waits in vain: it or another process can go on. *)
Lemma inv_progress es w i c :
  inv es w → clients w !! i = Some c → phase c = CAsks →
  is_Some (server_step w) ∨ ∃ j, is_Some (client_step j w).
Proof.
  intros [[Hr Hg] (e & f & Hv & He & Hf & Hsum) Hb (m & Hm & _)] Hc Hp. unfold inside in Hsum.
  pose proof (total_nonneg client_inside (clients w) inside_nonneg).
  assert (Hfree : ∀ p adj num op, 0 ≤ [e; f] !!! num + op → is_Some (safesemop p w adj num op)).
  { intros p adj num op H'. apply safesemop_free; [done|]. by rewrite Hv. }
  destruct (decide (0 < total client_inside (clients w))) as [Ht|Ht].
  - right. apply total_pos in Ht as (j & c' & Hj & Hin). exists j. unfold client_step. rewrite Hj.
    unfold client_inside in Hin. unfold mbind, option_bind. destruct (phase c') eqn:Ep; try lia.
    + destruct (fgets_take (Z.to_nat BUFFERSIZE - 1) (stdin c')) as [input rest] eqn:Ef.
      destruct (buffer_takes (buffer w) (stdin c') Hb) as [b Hblit]. rewrite Ef in Hblit. cbn [fst] in Hblit.
      rewrite Hblit. apply buffer_written in Hblit as [_ [m' ->]]; [by eexists|done|eauto|].
      pose proof (fgets_take_length (Z.to_nat BUFFERSIZE - 1) (stdin c')) as Hl. rewrite Ef in Hl. cbn [fst] in Hl.
      assert (0 < BUFFERSIZE) by done. lia.
    + destruct (Hfree (S j) (cadj c') SN_FULL 1) as [[[es1 s1] a1] El]; [cbn; lia|]. unfold unlocksem. rewrite El. by eexists.
  - unfold server_step, mbind, option_bind. destruct (sphase_of w) eqn:Es; cbn in Hsum; [| | |done].
    + destruct (decide (e = 1)) as [->|].
      * right. exists i. unfold client_step. rewrite Hc. unfold mbind, option_bind. rewrite Hp.
        destruct (Hfree (S i) (cadj c) SN_EMPTY (-1)) as [[[es1 s1] a1] El]; [done|]. unfold locksem. rewrite El. by eexists.
      * left. destruct (Hfree 0%nat (sadj w) SN_FULL (-1)) as [[[es1 s1] a1] El]; [cbn; lia|]. unfold locksem. rewrite El. by eexists.
    + left. rewrite Hm. by eexists.
    + left. destruct (Hfree 0%nat (sadj w) SN_EMPTY 1) as [[[es1 s1] a1] El]; [cbn; lia|]. unfold unlocksem. rewrite El. by eexists.
Qed.


(** A schedule: whose turn it is ([O]: the server, [S i]: client [i]). *)
Fixpoint play (l : list nat) (w : world) : option (list event * world) :=
  match l with
  | [] => Some ([], w)
  | p :: l =>
      '(es, w) ← match p with O => server_step w | S i => client_step i w end;
      '(es', w) ← play l w; Some (es ++ es', w)
  end.
Lemma play_steps l : ∀ w es0 w0 es w',
  steps false w0 es0 w → play l w = Some (es, w') → steps false w0 (es0 ++ es) w'.
Proof.
  induction l as [|p l IH]; intros w es0 w0 es w' Hs Hp; cbn [play] in Hp.
  - injection Hp as <- <-. by rewrite app_nil_r.
  - destruct (match p with O => _ | S _ => _ end) as [[es1 w1]|] eqn:E1; [|done]. cbn in Hp.
    destruct (play l w1) as [[es2 w2]|] eqn:E2; [|done]. cbn in Hp. injection Hp as <- <-.
    rewrite app_assoc. eapply IH; [|done].
    eapply steps_snoc; [done|]. destruct p as [|i]; [by apply step_server|].
    by eapply step_client.
Qed.


(** What three clients type, and who is scheduled: client 0 sends a message,
    the server prints it, client 0 chooses 2, clients 1 and 2 ask to write. *)
Definition input0 : list Z := line "1" ++ line "hallo" ++ line "2".
Definition schedule : list nat := [1; 1; 1; 1; 0; 0; 0; 1; 2; 3; 2; 3]%nat.
Definition start_clients (inputs : list (list Z)) (w : world) : list event * world :=
  foldl (λ s input, let '(es, w) := client_starts 9 input s.2 in (s.1 ++ es, w)) ([], w) inputs.
Lemma start_clients_steps inputs : ∀ es0 w0 w s, steps false w0 es0 w → s.2 = w → s.1 = es0 →
  let s' := foldl (λ s input, let '(es, w) := client_starts 9 input s.2 in (s.1 ++ es, w)) s inputs in
  steps false w0 s'.1 s'.2.
Proof.
  induction inputs as [|i inputs IH]; intros es0 w0 w s Hs <- <-; [done|].
  cbn [foldl]. eapply IH; [|done..]. cbn. eapply steps_snoc; [done|]. by eapply step_new.
Qed.

(** SEM_UNDO breaks this handshake when a client ends: the kernel takes
    back its operations, although the server has answered them.  After one
    client has sent a message, which the server has printed, and has left
    the menu with 2, the empty-semaphore stands at 2, and two other clients
    can be in clientwrite at the same time, before the same buffer. *)
Theorem shm_exit_breaks_exclusion id :
  ∃ es w, steps false (server_starts id) es w ∧
    printed es = [report (line "hallo")] ∧ 1 < inside w ∧
    phase <$> clients w = [CGone; CWrites; CWrites].
Proof.
  set (s := start_clients [input0; line "1"; line "1"] (server_starts id)).
  assert (Hplay : ∃ es w, play schedule s.2 = Some (es, w) ∧
    printed (s.1 ++ es) = [report (line "hallo")] ∧ 1 < inside w ∧ phase <$> clients w = [CGone; CWrites; CWrites]).
  { subst s. eexists _, _. split; [vm_compute; reflexivity|]. split; [vm_compute; reflexivity|]. by vm_compute. }
  destruct Hplay as (es & w & Hplay & Hp & Hin & Hph). exists (s.1 ++ es), w.
  split; [|exact (conj Hp (conj Hin Hph))].
  eapply play_steps; [|exact Hplay]. eapply start_clients_steps; [apply steps_nil|reflexivity..].
Qed.
End Shm.

Module Critical.
(** sem.c: where a process is - before semget, before creating the set,
    before SETVAL, before LOCK, in the critical section, before UNLOCK, behind
    it, ended - and its adjustments. *)
Inductive phase := Starts | Creates | Sets | Locks | Inside | Unlocks | After | Gone.
Record proc := Proc { at_ : phase; adj : list Z }.
(** The set with KEY, if it exists, and the processes. *)
Record world := World { set : option Sem.set; procs : list proc }.
Definition semid : Z := 0.

(** [semaphore_operation]: [inl] is what perror prints before the process exits. *)
Definition LOCK : Z := -1.
Definition UNLOCK : Z := 1.
Definition semaphore_operation (s : Sem.set) (adj : list Z) (op : Z) : option (list Z + Sem.set * list Z) :=
  match Sem.semop s adj 0 op with
  | Sem.Blocks => None
  | Sem.Fails => Some (inl (line "semop(): Identifier removed"))
  | Sem.Did s adj => Some (inr (s, adj))
  end.

Definition exits (s : option Sem.set) (p : proc) : option Sem.set * proc :=
  ((λ s, Sem.undo s (adj p)) <$> s, Proc Gone [0]).
Definition update (i : nat) (w : world) (sp : option Sem.set * proc) : world :=
  World sp.1 (<[i := sp.2]> (procs w)).
Definition vor : list Z := line "Vor dem kritischen Codeabschnitt ...".

(** The next step of process [i], and what it prints. *)
Definition proc_step (i : nat) (w : world) : option (list Z * world) :=
  p ← procs w !! i;
  match at_ p with
  | Starts =>
      match set w with
      | Some _ => Some (vor, update i w (set w, Proc Locks (adj p)))
      | None => Some ([], update i w (None, Proc Creates (adj p)))
      end
  | Creates =>
      match set w with
      | Some _ => Some (line "Fehler beim Anlegen des semaphors ...", update i w (exits (set w) p))
      | None => Some (str "(angelegt) Semaphor-ID : " ++ dec semid ++ [LF],
                      update i w (Some (Sem.Set_ [0] false), Proc Sets (adj p)))
      end
  | Sets =>
      (* SETVAL clears the adjustments of all processes *)
      s ← set w;
      let w' := World (set w) ((λ q, Proc (at_ q) [0]) <$> procs w) in
      Some (vor, update i w' (Some (Sem.SETVAL s 0 1), Proc Locks [0]))
  | Locks =>
      s ← set w;
      r ← semaphore_operation s (adj p) LOCK;
      match r with
      | inl e => Some (e, update i w (exits (set w) p))
      | inr (s, a) => Some (str "PID " ++ dec (Z.of_nat i) ++ str " verwendet Semaphor " ++ dec semid ++ [LF]
                            ++ line "Im kritischen Codeabschnitt ...", update i w (Some s, Proc Inside a))
      end
  | Inside => Some ([], update i w (set w, Proc Unlocks (adj p)))
  | Unlocks =>
      s ← set w;
      r ← semaphore_operation s (adj p) UNLOCK;
      match r with
      | inl e => Some (e, update i w (exits (set w) p))
      | inr (s, a) => Some (line "Nach dem kritischen Codeabschnitt ...", update i w (Some s, Proc After a))
      end
  | After => Some ([], update i w (exits (set w) p))
  | Gone => None
  end.

(** A process goes on, is started, or is killed. *)
Inductive step : world → world → Prop :=
| step_proc w i out w' : proc_step i w = Some (out, w') → step w w'
| step_start w : step w (World (set w) (procs w ++ [Proc Starts [0]]))
| step_kill w i p : procs w !! i = Some p → step w (update i w (exits (set w) p)).
Definition reachable : world → Prop := rtc step (World None []).

Definition inside (p : proc) : Z := match at_ p with Inside | Unlocks => 1 | _ => 0 end.
Definition sets (p : proc) : Z := match at_ p with Sets => 1 | _ => 0 end.
(** Those that know the set: it must exist. *)
Definition knows (p : proc) : Prop := match at_ p with Starts | Creates | Gone => False | _ => True end.

Definition inv (w : world) : Prop :=
  Forall (λ p, adj p = [inside p]) (procs w) ∧
  match set w with
  | None => Forall (λ p, ¬ knows p) (procs w)
  | Some s => Sem.removed s = false ∧ ∃ v, Sem.vals s = [v] ∧ 0 ≤ v ∧
      v + total inside (procs w) + total sets (procs w) ≤ 1
  end.

Lemma inside_pos p : 0 ≤ inside p.
Proof. unfold inside. destruct (at_ p); lia. Qed.
Lemma sets_pos p : 0 ≤ sets p.
Proof. unfold sets. destruct (at_ p); lia. Qed.
Lemma nobody l : Forall (λ p, ¬ knows p) l → total inside l = 0 ∧ total sets l = 0.
Proof.
  induction 1 as [|p l Hp Hl [IH1 IH2]]; [done|]. rewrite !total_cons, IH1, IH2.
  unfold knows in Hp. unfold inside, sets. destruct (at_ p); tauto || done.
Qed.

(** The sum after process [i] became [q]. *)
Lemma inv_update i w p q v' :
  inv w → procs w !! i = Some p → adj q = [inside q] →
  (∀ s v, set w = Some s → Sem.vals s = [v] → 0 ≤ v → v + inside p + sets p ≤ 1 →
     0 ≤ v' ∧ v' + inside q + sets q ≤ v + inside p + sets p) →
  (set w = None → v' + inside q + sets q ≤ 1 ∧ 0 ≤ v') →
  inv (update i w (Some (Sem.Set_ [v'] false), q)).
Proof.
  intros [Hadj Hset] Hp Hq Hs Hn. unfold inv, update; cbn. split; [by apply Forall_insert|].
  split; [done|]. exists v'. rewrite !(total_insert _ _ _ _ _ Hp).
  destruct (set w) as [s|] eqn:Es.
  - destruct Hset as (Hr & v & Hv & H0 & Hsum).
    pose proof (total_ge inside _ inside_pos _ _ Hp). pose proof (total_ge sets _ sets_pos _ _ Hp).
    destruct (Hs s v eq_refl Hv H0) as [? ?]; [lia|]. repeat split; lia.
  - apply nobody in Hset as Hz. destruct Hz as [Hz1 Hz2].
    rewrite Hz1, Hz2. rewrite Forall_lookup in Hset. specialize (Hset _ _ Hp).
    assert (inside p = 0 ∧ sets p = 0) as [-> ->]
      by (unfold knows in Hset; unfold inside, sets; destruct (at_ p); tauto || done).
    destruct (Hn eq_refl). repeat split; lia.
Qed.

(** A process that keeps away from the set. *)
Lemma inv_stay i w p q :
  inv w → procs w !! i = Some p → adj q = [inside q] → inside q = inside p → sets q = sets p →
  (set w = None → ¬ knows q) → inv (update i w (set w, q)).
Proof.
  intros Hinv Hp Hq Hi Hs Hk. destruct (set w) as [s|] eqn:Es.
  - pose proof Hinv as [Hadj Hset]. rewrite Es in Hset. destruct Hset as (Hr & v & Hv & H0 & Hsum).
    destruct s as [vs r]; cbn in *. subst. apply (inv_update i w p); try done.
    + intros s' v' Hs' Hv' ? ?. rewrite Es in Hs'. injection Hs' as <-. cbn in Hv'. injection Hv' as <-. lia.
    + by rewrite Es.
  - destruct Hinv as [Hadj Hset]. rewrite Es in Hset. unfold inv, update; cbn.
    split; apply Forall_insert; auto.
Qed.
Lemma inv_exits i w p : inv w → procs w !! i = Some p → inv (update i w (exits (set w) p)).
Proof.
  intros Hinv Hp. pose proof Hinv as [Hadj Hset]. rewrite Forall_lookup in Hadj. specialize (Hadj _ _ Hp).
  unfold exits. destruct (set w) as [s|] eqn:Es; cbn [fmap option_fmap option_map].
  - destruct Hset as (Hr & v & Hv & H0 & Hsum). unfold Sem.undo. rewrite Hr, Hv, Hadj. cbn [zip_with].
    apply (inv_update i w p); try done; [|by rewrite Es].
    intros s' v' Hs' Hv' ? ?. rewrite Es in Hs'. injection Hs' as <-. rewrite Hv in Hv'. injection Hv' as <-.
    pose proof (inside_pos p). pose proof (sets_pos p). change (inside (Proc Gone [0])) with 0. change (sets (Proc Gone [0])) with 0. lia.
  - rewrite <- Es. rewrite Forall_lookup in Hset. specialize (Hset _ _ Hp).
    apply (inv_stay i w p); try done; unfold knows in Hset; unfold inside, sets; destruct (at_ p); tauto || done.
Qed.
Lemma inv_clear w : inv w → (∀ p, p ∈ procs w → inside p = 0) →
  inv (World (set w) ((λ q, Proc (at_ q) [0]) <$> procs w)).
Proof.
  intros [Hadj Hset] H0. enough (((λ q, Proc (at_ q) [0]) <$> procs w) = procs w) as -> by (by destruct w).
  rewrite <- (list_fmap_id (procs w)) at 2. apply list_fmap_ext. intros i p Hp. cbn.
  rewrite Forall_lookup in Hadj. specialize (Hadj _ _ Hp).
  rewrite (H0 p) in Hadj by (by eapply list_elem_of_lookup_2). destruct p as [a b]; cbn in *. by subst.
Qed.

Lemma semop_did s a op s' a' v :
  Sem.vals s = [v] → Sem.removed s = false → semaphore_operation s a op = Some (inr (s', a')) →
  s' = Sem.Set_ [v + op] false ∧ a' = <[0%nat := a !!! 0%nat - op]> a ∧ 0 ≤ v + op.
Proof.
  unfold semaphore_operation, Sem.semop. intros Hv ->. rewrite Hv. cbn.
  case_decide; [done|]. intros [= <- <-]. repeat split. lia.
Qed.
Lemma semop_never_fails s a op e : Sem.removed s = false → semaphore_operation s a op ≠ Some (inl e).
Proof. unfold semaphore_operation, Sem.semop. intros ->. by case_decide. Qed.

(** The semaphore operation [op] takes process [i] from [p] to the phase [ph]. *)
Lemma inv_semop i w p s a s' a' ph op :
  inv w → procs w !! i = Some p → set w = Some s →
  semaphore_operation s (adj p) op = Some (inr (s', a')) →
  inside (Proc ph a') = inside p - op → sets (Proc ph a') = sets p → a = adj p →
  inv (update i w (Some s', Proc ph a')).
Proof.
  intros Hinv Hp Es Hop Hi Hs ->. pose proof Hinv as [Hadj Hset]. rewrite Es in Hset.
  destruct Hset as (Hr & v & Hv & H0 & Hsum). rewrite Forall_lookup in Hadj. specialize (Hadj _ _ Hp).
  apply (semop_did _ _ _ _ _ v Hv Hr) in Hop as (-> & -> & Hge). rewrite Hadj in *. cbn in *.
  apply (inv_update i w p); try done; [cbn; by rewrite Hi| |by rewrite Es].
  intros s1 v1 Hs1 Hv1 ? ?. rewrite Es in Hs1. injection Hs1 as <-. rewrite Hv in Hv1. injection Hv1 as <-. lia.
Qed.

Lemma inv_proc w i out w' : inv w → proc_step i w = Some (out, w') → inv w'.
Proof.
  intros Hinv Hstep. unfold proc_step in Hstep. destruct (procs w !! i) as [p|] eqn:Hp; [|done].
  unfold mbind, option_bind in Hstep. pose proof Hinv as [Hadj Hset].
  rewrite Forall_lookup in Hadj. pose proof (Hadj _ _ Hp) as Hap.
  assert (Hin : inside p = inside (Proc (at_ p) [])) by done.
  assert (Hse : sets p = sets (Proc (at_ p) [])) by done.
  destruct (at_ p) eqn:Ep; cbn in Hin, Hse; [| | | | | | |done].
  - destruct (set w) as [s|] eqn:Es; injection Hstep as <- <-; rewrite <- Es;
      apply (inv_stay i w p); try done; try (by rewrite Hap, Hin); cbn; [by rewrite Es|tauto].
  - destruct (set w) as [s|] eqn:Es; injection Hstep as <- <-; rewrite <- ?Es; [by apply inv_exits|].
    apply (inv_update i w p); try done; [by rewrite Hap, Hin|by rewrite Es].
  - destruct (set w) as [s|] eqn:Es; [|done]. injection Hstep as <- <-.
    destruct Hset as (Hr & v & Hv & H0 & Hsum). unfold Sem.SETVAL. rewrite Hv, Hr. change (<[0%nat:=1]> [v]) with [1].
    pose proof (total_ge sets _ sets_pos _ _ Hp) as Hs1. rewrite Hse in Hs1.
    pose proof (total_nonneg inside (procs w) inside_pos).
    assert (Hz : ∀ q, q ∈ procs w → inside q = 0).
    { intros q [j Hj]%list_elem_of_lookup_1. pose proof (total_ge inside _ inside_pos _ _ Hj).
      pose proof (inside_pos q). change (sets (Proc Sets [])) with 1 in Hs1. lia. }
    apply (inv_update i (World (Some s) ((λ q, Proc (at_ q) [0]) <$> procs w)) (Proc Sets [0])); try done.
    + rewrite <- Es. by apply inv_clear.
    + cbn. by rewrite list_lookup_fmap, Hp; cbn; rewrite Ep.
    + intros s' v' Hs' Hv' ? ?. cbn. lia.
  - destruct (set w) as [s|] eqn:Es; [|done]. destruct Hset as (Hr & _).
    destruct (semaphore_operation s (adj p) LOCK) as [[e|[s' a']]|] eqn:Eo; [by apply semop_never_fails in Eo| |done].
    injection Hstep as <- <-. eapply inv_semop; eauto; cbn; rewrite ?Hin, ?Hse; done.
  - injection Hstep as <- <-. apply (inv_stay i w p); try done; [by rewrite Hap, Hin|].
    intros Hn. rewrite Hn in Hset. rewrite Forall_lookup in Hset. specialize (Hset _ _ Hp). unfold knows in Hset. by rewrite Ep in Hset.
  - destruct (set w) as [s|] eqn:Es; [|done]. destruct Hset as (Hr & _).
    destruct (semaphore_operation s (adj p) UNLOCK) as [[e|[s' a']]|] eqn:Eo; [by apply semop_never_fails in Eo| |done].
    injection Hstep as <- <-. eapply inv_semop; eauto; cbn; rewrite ?Hin, ?Hse; done.
  - injection Hstep as <- <-. by apply inv_exits.
Qed.

Lemma inv_reachable w : reachable w → inv w.
Proof.
  intros Hr. unfold reachable in Hr.
  cut (∀ w0, rtc step w0 w → inv w0 → inv w).
  { intros H. apply (H _ Hr). split; constructor. }
  clear Hr. intros w0 Hr. induction Hr as [w0|w0 w1 w2 Hs Hr IH]; [done|]. intros H0. apply IH.
  destruct Hs as [w0 i out w1 Hs|w0|w0 i p Hp]; [by eapply inv_proc| |by apply inv_exits].
  destruct H0 as [Ha Hset]. split; cbn; [by apply Forall_app_2; [|repeat constructor]|].
  destruct (set w0) as [s|]; [|apply Forall_app_2; [done|by apply Forall_singleton; intros ?]].
  destruct Hset as (Hr0 & v & Hv & H0 & Hsum). split; [done|]. exists v. rewrite !total_snoc. cbn. repeat split; try done; lia.
Qed.

(** C6. sem.c keeps its critical section exclusive: however many processes
    run it, and whichever of them are killed at whatever point, at most one is
    between LOCK and UNLOCK; when that one is killed SEM_UNDO opens the
    semaphore again. *)
Theorem critical_exclusion w :
  reachable w →
  (∀ i j p q, procs w !! i = Some p → procs w !! j = Some q →
     inside p = 1 → inside q = 1 → i = j) ∧
  (∀ i p, procs w !! i = Some p → inside p = 1 →
     Sem.vals <$> set (update i w (exits (set w) p)) = Some [1]).
Proof.
  intros Hr. apply inv_reachable in Hr. pose proof Hr as [Hadj Hset]. split.
  - intros i j p q Hp Hq Hip Hiq. destruct (decide (i = j)) as [|Hn]; [done|exfalso].
    pose proof (total_two inside _ inside_pos _ _ _ _ Hp Hq Hn). destruct (set w) as [s|].
    + destruct Hset as (_ & v & _ & H0 & Hsum). pose proof (total_nonneg sets (procs w) sets_pos). lia.
    + apply nobody in Hset. lia.
  - intros i p Hp Hi. rewrite Forall_lookup in Hadj. specialize (Hadj _ _ Hp).
    pose proof (total_ge inside _ inside_pos _ _ Hp). destruct (set w) as [s|].
    + destruct Hset as (Hrm & v & Hv & H0 & Hsum). pose proof (total_nonneg sets (procs w) sets_pos).
      cbn. unfold Sem.undo. rewrite Hrm, Hv, Hadj, Hi. cbn. by replace v with 0 by lia.
    + apply nobody in Hset. lia.
Qed.

Lemma run_procs (l : list nat) : ∀ w w',
  foldl (λ o i, w ← o; snd <$> proc_step i w) (Some w) l = Some w' → rtc step w w'.
Proof.
  induction l as [|i l IH]; intros w w' H; cbn [foldl] in H; [injection H as ->; apply rtc_refl|].
  unfold mbind at 2, option_bind in H. destruct (proc_step i w) as [[out w1]|] eqn:E.
  - eapply rtc_l; [by eapply step_proc|]. by apply IH.
  - exfalso. clear -H. induction l as [|j l IH]; [done|]. by apply IH.
Qed.

(** Two processes; the first creates the semaphore and enters the section. *)
Definition two : world := World None [Proc Starts [0]; Proc Starts [0]].
Lemma two_reachable : reachable two.
Proof. eapply rtc_l; [apply step_start|]. eapply rtc_l; [apply step_start|]. apply rtc_refl. Qed.
Lemma critical_exclusion_witness :
  let w := World (Some (Sem.Set_ [0] false)) [Proc Inside [1]; Proc Locks [0]] in
  reachable w ∧ ∀ j q, procs w !! j = Some q → inside q = 1 → 0%nat = j.
Proof.
  assert (Hr : reachable (World (Some (Sem.Set_ [0] false)) [Proc Inside [1]; Proc Locks [0]])).
  { unfold reachable. etrans; [apply two_reachable|]. apply (run_procs [0; 0; 0; 1; 0]%nat). reflexivity. }
  split; [done|]. intros j q Hq Hi.
  exact (proj1 (critical_exclusion _ Hr) 0%nat j (Proc Inside [1]) q eq_refl Hq eq_refl Hi).
Defined.

(** Nobody has anything to give back, and the semaphore is 0. *)
Definition idle (p : proc) : Prop :=
  adj p = [0] ∧ match at_ p with Starts | Creates | Locks | Gone => True | _ => False end.
Definition shut (w : world) : Prop := set w = Some (Sem.Set_ [0] false) ∧ Forall idle (procs w).
Lemma shut_update w i p : shut w → idle p → shut (update i w (set w, p)).
Proof. intros [Hs Hf] Hp. split; [done|]. by apply Forall_insert. Qed.
Lemma shut_exits w i p : shut w → idle p → shut (update i w (exits (set w) p)).
Proof.
  intros [Hs Hf] [Ha _]. unfold exits. rewrite Hs. cbn. rewrite Ha. unfold Sem.undo; cbn.
  split; [done|]. by apply Forall_insert.
Qed.
Lemma shut_forever w w' : rtc step w w' → shut w → shut w'.
Proof.
  induction 1 as [w|w w1 w2 Hs Hr IH]; [done|]. intros Hw. apply IH. pose proof Hw as [Hset Hall].
  rewrite Forall_lookup in Hall. destruct Hs as [w i out w1 Hs|w|w i p Hp].
  - unfold proc_step in Hs. destruct (procs w !! i) as [p|] eqn:Hp; [|done]. pose proof (Hall _ _ Hp) as [Ha Hat].
    unfold mbind, option_bind in Hs. destruct (at_ p) eqn:Ep; try done; rewrite Hset in Hs.
    + injection Hs as <- <-. rewrite <- Hset. by apply shut_update.
    + injection Hs as <- <-. rewrite <- Hset. apply shut_exits; [done|]. split; [done|by rewrite Ep].
    + by rewrite Ha in Hs.
  - split; [done|]. apply Forall_app_2; [by apply Forall_lookup|by repeat constructor].
  - apply shut_exits; [done|]. by apply (Hall i).
Qed.

(** The creation of the semaphore and SETVAL are two steps.  When the
    creating process is killed between them the semaphore exists with the
    value 0, and no process, whenever it is started, ever gets into its
    critical section. *)
Theorem killed_creator_blocks_all :
  ∃ w, reachable w ∧ procs w = [Proc Gone [0]; Proc Locks [0]] ∧
    ∀ w', rtc step w w' → ∀ i p, procs w' !! i = Some p → inside p = 0 ∧ (at_ p = Locks → proc_step i w' = None).
Proof.
  exists (World (Some (Sem.Set_ [0] false)) [Proc Gone [0]; Proc Locks [0]]). split; [|split; [done|]].
  - unfold reachable. etrans; [apply two_reachable|]. etrans; [apply (run_procs [0; 0; 1]%nat); reflexivity|].
    eapply rtc_l; [by eapply (step_kill _ 0%nat)|]. apply rtc_refl.
  - intros w' Hr i p Hp. destruct (shut_forever _ _ Hr) as [Hset Hall]; [by repeat constructor|].
    rewrite Forall_lookup in Hall. pose proof (Hall _ _ Hp) as [Ha Hat]. split.
    + unfold inside. by destruct (at_ p).
    + intros Hl. unfold proc_step. rewrite Hp. unfold mbind, option_bind. by rewrite Hl, Hset, Ha.
Qed.
End Critical.
