(* ===== verification/ShmSetup.v ===== *)
(** * 09_IPC: the set-up of shm_server.c and shm_client.c

    What the two programs do before their loops, which [Shm] in Semaphores.v
    models as processes: making the semaphores and the segment, attaching to
    it, and removing both at the end, with every error branch.  The answer of
    [shmat] carries the number at the beginning of the segment. *)
From S2P Require Import Prelude CLib Machine FileIO Semaphores.

(** ** shm_server.c *)
Module ServerSetup.
Definition IPC_PRIVATE : Z := 0.
Definition SHM_R : Z := 256.
Definition SHM_W : Z := 128.
Definition IPC_CREAT : Z := 512.
Definition IPC_RMID : Z := 0.
Definition SETVAL : Z := 16.
Definition SA_RESTART : Z := 0x10000000.
(** DeleteSemid and DeleteShmid *)
Record globals := Globals { DeleteSemid : Z; DeleteShmid : Z }.
Abbreviation M := (Machine.M globals).
Definition safesemget (key nsems semflg : Z) : M Z :=
  retval ← lib "semget" [key; nsems; semflg] [];
  (if decide (retval = -1) then
     printf (str "Semaphor-Schluessel " ++ dec key ++ str ", nsems " ++ dec nsems ++ line " konnte nicht erstellt werden")
   else mret ());;
  mret retval.
Definition safesemctl (semid semnum cmd arg : Z) : M Z :=
  retval ← lib "semctl" [semid; semnum; cmd; arg] [];
  (if decide (retval = -1) then
     printf (str "Fehler: Semaphor mit ID " ++ dec semid ++ str ", semnum " ++ dec semnum ++ str ", Kommando " ++ dec cmd ++ [LF])
   else mret ());;
  mret retval.
(** The handler is not called here; the old one is in the answer, SIG_ERR is -1. *)
Definition my_signal (sig_nr : Z) (signalhandler : list Z) : M Z :=
  a ← sys (Clib "sigaction" [sig_nr; SA_RESTART] signalhandler);
  if decide (rv a < 0) then mret (-1) else mret (default 0 (head (rwords a))).
Definition delete : M unit :=
  g ← get;
  printf (LF :: str "Server wird beendet - Loesche Semaphor " ++ dec (DeleteSemid g) ++ line ".");;
  r ← lib "semctl" [DeleteSemid g; 0; IPC_RMID; 0] [];
  (if decide (r = -1) then printf (line "Fehler beim loeschen des Semaphors.") else mret ());;
  res ← lib "shmctl" [DeleteShmid g; IPC_RMID] [];
  if decide (res = -1) then printf (str "Fehler bei shmctl() shmid " ++ dec (DeleteShmid g) ++ str ", Kommando " ++ dec IPC_RMID ++ [LF])
  else mret ().
(** [exit] runs the function that [atexit] registered. *)
Definition sigdelete (signum : Z) : M unit := delete;; exit EXIT_FAILURE.
(** The first part of [server]; it returns [semid] and the first number of the
    segment, and writing that number is undefined where there is no segment. *)
Definition server_setup : M (Z * Z) :=
  semid ← safesemget IPC_PRIVATE 2 (Z.lor SHM_R SHM_W);
  g ← get; put (Globals semid (DeleteShmid g));;
  lib "atexit" [] (str "delete");;
  my_signal 2 (str "sigdelete");;
  safesemctl semid (Z.of_nat Shm.SN_EMPTY) SETVAL 1;;
  safesemctl semid (Z.of_nat Shm.SN_FULL) SETVAL 0;;
  shmid ← lib "shmget" [IPC_PRIVATE; Shm.SHMDATASIZE; Z.lor IPC_CREAT (Z.lor SHM_R SHM_W)] [];
  (if decide (shmid = -1) then printf (str "Fehler bei key " ++ dec IPC_PRIVATE ++ str ", mit Groesse " ++ dec Shm.SHMDATASIZE ++ [LF]) else mret ());;
  g ← get; put (Globals (DeleteSemid g) shmid);;
  shmdata ← lib "shmat" [shmid] [];
  (if decide (shmdata = -1) then printf (str "Fehler bei shmat(): shmid " ++ dec shmid ++ [LF]) else mret ());;
  first ← mem (if decide (shmdata = -1) then None else Some semid);
  printf (str "Server laeuft mit Shared-Memory-ID " ++ dec shmid ++ [LF]);;
  mret (semid, first).
End ServerSetup.

(** ** shm_client.c *)
Module ClientSetup.
Abbreviation M := (Machine.M unit).
(** The value of a number outside of [int] is not defined. *)
Definition atoi (s : list Z) : option Z :=
  match scan_int s with
  | Some (z, _) => if decide (INT_MIN ≤ z ≤ INT_MAX) then Some z else None
  | None => Some 0
  end.
(** The first part of [client]; it returns the number of the semaphores. *)
Definition client_setup (shmid : Z) : M Z :=
  shmdata ← sys (Clib "shmat" [shmid] []);
  (if decide (rv shmdata = -1) then printf (str "Fehler bei shmat(): shmid " ++ dec shmid ++ [LF]) else mret ());;
  semid ← mem (if decide (rv shmdata = -1) then None else head (rwords shmdata));
  printf (str "Client: Shared-Memory-ID: " ++ dec shmid ++ str ", Semaphor-ID: " ++ dec semid ++ [LF]);;
  mret semid.
(** [client]: the loop of the client. *)
Definition client_main (client : Z → M unit) (argv : list (list Z)) : M Z :=
  (if decide (length argv < 2)%nat then a ← arg argv 0; printf (str "Aufruf: " ++ a ++ line " Shared-Memory-ID")
   else a ← arg argv 1; z ← mem (atoi a); client z);;
  mret EXIT_SUCCESS.
End ClientSetup.

(** ** Theorems *)
Module Ready.
Import ServerSetup ClientSetup.
(** What the calls of semctl in a history do to a set of semaphores. *)
Definition set_by (id : Z) (s : Sem.set) (ev : event) : Sem.set :=
  match ev with
  | Sys (Clib fn [id'; num; cmd; v] _) a =>
      if decide (fn = "semctl"%string ∧ id' = id ∧ cmd = SETVAL ∧ rv a ≠ -1) then Sem.SETVAL s (Z.to_nat num) v else s
  | _ => s
  end.
Definition replay (id : Z) (h : list event) : Sem.set := foldl (set_by id) (Sem.Set_ [0; 0] false) h.
(** The answers to the calls of the set-up. *)
Record answered (e : env) (semid c0 c1 shmid at_ : Z) : Prop := {
  by_semget h : rv (kern e h (Clib "semget" [0; 2; 384] [])) = semid;
  by_ctl0 h : rv (kern e h (Clib "semctl" [semid; 0; SETVAL; 1] [])) = c0;
  by_ctl1 h : rv (kern e h (Clib "semctl" [semid; 1; SETVAL; 0] [])) = c1;
  by_shmget h : rv (kern e h (Clib "shmget" [0; 1024; 896] [])) = shmid;
  by_shmat h : rv (kern e h (Clib "shmat" [shmid] [])) = at_ }.
Definition when_failed (r : Z) (msg : list Z) : list Z := if decide (r = -1) then msg else [].
Definition setup_text (semid c0 c1 shmid at_ : Z) : list Z :=
  when_failed semid (line "Semaphor-Schluessel 0, nsems 2 konnte nicht erstellt werden") ++
  when_failed c0 (str "Fehler: Semaphor mit ID " ++ dec semid ++ line ", semnum 0, Kommando 16") ++
  when_failed c1 (str "Fehler: Semaphor mit ID " ++ dec semid ++ line ", semnum 1, Kommando 16") ++
  when_failed shmid (line "Fehler bei key 0, mit Groesse 1024") ++
  (if decide (at_ = -1) then str "Fehler bei shmat(): shmid " ++ dec shmid ++ [LF]
   else str "Server laeuft mit Shared-Memory-ID " ++ dec shmid ++ [LF]).
(** [m] returns [a], prints [d] and leaves the globals [g]. *)
Lemma wp_semget e semid s (Q : post globals Z) : (∀ h, rv (kern e h (Clib "semget" [0; 2; 384] [])) = semid) →
  (∀ s', glob s' = glob s → printed Stdout (hist s') = printed Stdout (hist s) ++ when_failed semid (line "Semaphor-Schluessel 0, nsems 2 konnte nicht erstellt werden") →
    (∀ i, replay i (hist s') = replay i (hist s)) → Q (Val semid) s') →
  wp (safesemget IPC_PRIVATE 2 (Z.lor SHM_R SHM_W)) e s Q.
Proof.
  intros H HQ. unfold safesemget. change (Z.lor SHM_R SHM_W) with 384. wp_steps.
  assert (rv a = semid) as -> by (subst a; apply H). unfold when_failed in HQ. case_decide; wp_steps; apply HQ; st_simpl; try done.
  - by hist_norm.
  - intros i. unfold replay. by rewrite !foldl_app.
  - by hist_norm.
  - intros i. unfold replay. by rewrite foldl_app.
Qed.
Lemma wp_semctl e id num v r s (Q : post globals Z) : (∀ h, rv (kern e h (Clib "semctl" [id; num; SETVAL; v] [])) = r) →
  (∀ s', glob s' = glob s → printed Stdout (hist s') = printed Stdout (hist s) ++
      when_failed r (str "Fehler: Semaphor mit ID " ++ dec id ++ str ", semnum " ++ dec num ++ line ", Kommando 16") →
    (r ≠ -1 → replay id (hist s') = Sem.SETVAL (replay id (hist s)) (Z.to_nat num) v) → Q (Val r) s') →
  wp (safesemctl id num SETVAL v) e s Q.
Proof.
  intros H HQ. unfold safesemctl. wp_steps. assert (rv a = r) as E by (subst a; apply H). rewrite E. unfold when_failed in HQ.
  case_decide; wp_steps; apply HQ; st_simpl; try done.
  - by hist_norm.
  - by hist_norm.
  - intros _. unfold replay. rewrite foldl_app. cbn [foldl set_by]. rewrite decide_True by (by rewrite E). done.
Qed.
Lemma wp_my_signal e n f s (Q : post globals Z) :
  (∀ r s', glob s' = glob s → printed Stdout (hist s') = printed Stdout (hist s) → (∀ i, replay i (hist s') = replay i (hist s)) → Q (Val r) s') →
  wp (my_signal n f) e s Q.
Proof.
  intros HQ. unfold my_signal. wp_steps. case_decide; wp_steps; apply HQ; st_simpl; try done; try by hist_norm.
  all: intros i; unfold replay; by rewrite foldl_app.
Qed.
(** A call other than semctl, and a message when it fails. *)
Lemma wp_report e fn args t r msg {B} (f : Z → Machine.M globals B) s (Q : post globals B) : fn ≠ "semctl"%string →
  (∀ h, rv (kern e h (Clib fn args t)) = r) →
  (∀ s', glob s' = glob s → printed Stdout (hist s') = printed Stdout (hist s) ++ when_failed r msg →
    (∀ i, replay i (hist s') = replay i (hist s)) → wp (f r) e s' Q) →
  wp (x ← lib fn args t; (if decide (x = -1) then printf msg else mret ());; f x) e s Q.
Proof.
  intros Hfn H HQ. wp_steps. assert (rv a = r) as -> by (subst a; apply H). unfold when_failed in HQ.
  assert (Hx : ∀ i l, set_by i l (Sys (Clib fn args t) a) = l).
  { intros i l. destruct args as [|? [|? [|? [|? [|]]]]]; cbn [set_by]; rewrite ?decide_False by tauto; done. }
  case_decide; wp_steps; apply HQ; st_simpl; try done; try by hist_norm.
  all: intros i; unfold replay; rewrite !foldl_app; cbn [foldl]; by rewrite Hx.
Qed.
Definition e_shm : env := Env (λ _ c, answer (match c with Clib "shmat" _ _ => 4096 | Clib "semctl" _ _ => 0 | _ => 3 end)) (λ _, []) (λ _, None) (λ _, None) (λ _, []).

(** What a process of the model says, as one text. *)
Definition says (p : nat) (es : list Shm.event) : list Z :=
  concat (omap (λ ev, match ev with Shm.Says q t => if decide (q = p) then Some t else None | _ => None end) es).
End Ready.
