(* ===== verification/Devices.v ===== *)
(** * 05_Devices: the CD-ROM program

    [cdrom.c] drives a CD-ROM drive with ioctl.  The drive is part of the
    environment: [Cioctl fd req args] carries the fields the caller has set in
    the structure it passes, the words of the answer are the fields the drive
    fills in.  The contract [Disc] states what a drive with a table of
    contents answers. *)
From S2P Require Import Prelude CLib Machine.

Module Cdrom.
(** Constants of <linux/cdrom.h> and <errno.h>. *)
Definition CDROMPAUSE : Z := 0x5301.
Definition CDROMRESUME : Z := 0x5302.
Definition CDROMPLAYMSF : Z := 0x5303.
Definition CDROMREADTOCHDR : Z := 0x5305.
Definition CDROMREADTOCENTRY : Z := 0x5306.
Definition CDROMSTOP : Z := 0x5307.
Definition CDROMEJECT : Z := 0x5309.
Definition CDROMSUBCHNL : Z := 0x530b.
Definition CDROMCLOSETRAY : Z := 0x5319.
Definition CDROM_GET_CAPABILITY : Z := 0x5331.
Definition CDROM_MSF : Z := 2.
Definition CDROM_LEADOUT : Z := 0xAA.
Definition CDROM_DATA_TRACK : Z := 4.
Definition CDC_CD_R : Z := 0x2000.
Definition CDC_CD_RW : Z := 0x4000.
Definition CDC_DVD : Z := 0x8000.
Definition CDC_DVD_R : Z := 0x10000.
Definition CDC_DVD_RAM : Z := 0x20000.
Definition ENOMEDIUM : Z := 123.
Definition CDROM : list Z := str "/dev/cdrom".
Definition FULL : Z := 0.
(** [%02d] and [%06d]. *)
Definition zeros (w : nat) (z : Z) : list Z :=
  if decide (z < 0) then 45 :: replicate (w - 1 - length (dec (- z))) 48 ++ dec (- z)
  else replicate (w - length (dec z)) 48 ++ dec z.
Definition percent_02d : Z → list Z := zeros 2.
Definition percent_06d : Z → list Z := zeros 6.

Definition open_cdrom : M unit Z :=
  fd ← sys (Copen CDROM (Z.lor O_RDONLY O_NONBLOCK) 0);
  if decide (rv fd = -1) then
    errno ← get_errno;
    (if decide (errno = ENOMEDIUM) then printf (line "Keine CD im Laufwerk!")
     else printf (str "Fehler bei open()"));;
    exit EXIT_FAILURE
  else mret (rv fd).

Definition open_tray (cdrom : Z) : M unit unit :=
  r ← sys (Cioctl cdrom CDROMEJECT []);
  if decide (rv r = -1) then perror (line "Eject yourself");; exit EXIT_FAILURE else mret ().

Definition close_tray (cdrom : Z) : M unit unit :=
  r ← sys (Cioctl cdrom CDROMCLOSETRAY []);
  if decide (rv r = -1) then perror (line "Close by hand") else mret ().

(** [j[!!(caps & bit)]] *)
Definition ja_nein (caps bit : Z) : list Z := if decide (Z.land caps bit = 0) then str "nein" else str "ja".
Definition capability_cdrom (cdrom : Z) : M unit unit :=
  r ← sys (Cioctl cdrom CDROM_GET_CAPABILITY []);
  let caps := rv r in
  if decide (caps = -1) then perror (str "CDROM_GET_CAPABILITY")
  else printf (line "CDROM-Faehigkeiten:" ++
    [TAB] ++ str "CD-R      : " ++ ja_nein caps CDC_CD_R ++ [LF; TAB] ++
    str "CD-RW     : " ++ ja_nein caps CDC_CD_RW ++ [LF; TAB] ++
    str "DVD       : " ++ ja_nein caps CDC_DVD ++ [LF; TAB] ++
    str "DVD-R     : " ++ ja_nein caps CDC_DVD_R ++ [LF; TAB] ++
    str "DVD-RAM   : " ++ ja_nein caps CDC_DVD_RAM ++ [LF]).

(** The fields of [struct cdrom_subchnl]; an uninitialised one is [None].
    The structure is passed by value, so the ioctl cannot fill it in. *)
Record subchnl := SubChnl {
  cdsc_format : option Z; cdsc_audiostatus : option Z; cdsc_trk : option Z;
  abs_minute : option Z; abs_second : option Z; rel_minute : option Z; rel_second : option Z }.
Definition CDROM_AUDIO_INVALID : Z := 0.
Definition CDROM_AUDIO_PLAY : Z := 0x11.
Definition CDROM_AUDIO_PAUSED : Z := 0x12.
Definition CDROM_AUDIO_COMPLETED : Z := 0x13.
Definition CDROM_AUDIO_ERROR : Z := 0x14.
Definition CDROM_AUDIO_NO_STATUS : Z := 0x15.
Definition audio_text (status : Z) : list Z :=
  if decide (status = CDROM_AUDIO_INVALID) then line "Invalid"
  else if decide (status = CDROM_AUDIO_PLAY) then line "Playing"
  else if decide (status = CDROM_AUDIO_PAUSED) then line "Pause"
  else if decide (status = CDROM_AUDIO_COMPLETED) then line "Completed"
  else if decide (status = CDROM_AUDIO_ERROR) then line "Error"
  else if decide (status = CDROM_AUDIO_NO_STATUS) then line "No status"
  else line "Oops: unknown".
Definition get_audio_status (cdrom : Z) : M unit unit :=
  let sub := SubChnl (Some CDROM_MSF) None None None None None None in
  printf (str "Audio Status: ");;
  r ← sys (Cioctl cdrom CDROMSUBCHNL []);
  if decide (rv r ≠ 0) then printf (line "FAILED!")
  else
    status ← mem (cdsc_audiostatus sub);
    printf (audio_text status);;
    if decide (status = CDROM_AUDIO_PLAY ∨ status = CDROM_AUDIO_PAUSED) then
      am ← mem (abs_minute sub); az ← mem (abs_second sub);
      rm ← mem (rel_minute sub); rs ← mem (rel_second sub); trk ← mem (cdsc_trk sub);
      printf (str "At: " ++ percent_02d am ++ str ":" ++ percent_02d az ++ str " abs/  " ++
        percent_02d rm ++ str ":" ++ percent_02d rs ++ str " track " ++ dec trk ++ [LF])
    else mret ().

(** CDROMREADTOCENTRY for [track], which is stored in an 8-bit field: minute,
    second, frame and control flags, or [None] after an error. *)
Definition read_tocentry (cdrom track : Z) : M unit (option (Z * Z * Z * Z)) :=
  a ← sys (Cioctl cdrom CDROMREADTOCENTRY [uwrap 8 track; CDROM_MSF]);
  if decide (rv a = -1) then mret None
  else
    m ← mem (rwords a !! 0%nat); z ← mem (rwords a !! 1%nat); f ← mem (rwords a !! 2%nat); c ← mem (rwords a !! 3%nat);
    mret (Some (m, z, f, c)).

Definition toc_line (track m z f ctrl : Z) : list Z :=
  pad_left 3 (dec (uwrap 8 track)) ++ str ": " ++ percent_02d m ++ str ":" ++ percent_02d z ++ str ":" ++ percent_02d f ++
  str " (" ++ percent_06d (f + z * 75) ++ str ", " ++ percent_06d (m * 75 * 60 - 150) ++ str ") " ++
  (if decide (Z.land ctrl CDROM_DATA_TRACK = 0) then str "audio" else str "data") ++
  (if decide (CDROM_LEADOUT = track) then str " (leadout)" else []) ++ [LF].
Definition content_cdrom (fuel : nat) (cdrom : Z) : M unit unit :=
  hdr ← sys (Cioctl cdrom CDROMREADTOCHDR []);
  if decide (rv hdr = -1) then perror (str "Kann den Header nicht holen");; exit EXIT_FAILURE
  else
    trk0 ← mem (rwords hdr !! 0%nat); trk1 ← mem (rwords hdr !! 1%nat);
    printf (LF :: str "Inhalt " ++ dec trk1 ++ line " Tracks:");;
    loop fuel (λ track,
      if decide (track ≤ trk1) then
        t ← read_tocentry cdrom track;
        match t with
        | None => perror (str "Kann den Inhalt der CD nicht ermitteln");; exit EXIT_FAILURE
        | Some (m, z, f, c) => printf (toc_line track m z f c);; mret (inl (track + 1))
        end
      else mret (inr ())) trk0.

Definition nicht_ermitteln : list Z := line "Kann Inhalt der CD nicht ermitteln".
Definition play_cdrom (cdrom flag : Z) : M unit unit :=
  '(track, lead) ← (if decide (flag = FULL) then mret (1, CDROM_LEADOUT)
                    else lead ← mem (iadd flag 1); mret (flag, lead));
  a ← read_tocentry cdrom track;
  match a with
  | None => perror nicht_ermitteln;; exit EXIT_FAILURE
  | Some (min0, sec0, frame0, _) =>
      b ← read_tocentry cdrom lead;
      match b with
      | None => perror nicht_ermitteln;; exit EXIT_FAILURE
      | Some (min1, sec1, frame1, _) =>
          r ← sys (Cioctl cdrom CDROMPLAYMSF [min0; sec0; frame0; min1; sec1; frame1]);
          if decide (rv r = -1) then perror (line "Kann CD nicht abspielen");; exit EXIT_FAILURE
          else mret ()
      end
  end.

Definition stop_cdrom (cdrom : Z) : M unit unit :=
  r ← sys (Cioctl cdrom CDROMSTOP []);
  if decide (rv r = -1) then perror (line "Kann CD nicht anhalten") else mret ().
Definition pause_cdrom (cdrom : Z) : M unit unit :=
  r ← sys (Cioctl cdrom CDROMPAUSE []);
  if decide (rv r = -1) then perror (line "Kann CD nicht pausieren") else mret ().
Definition resume_cdrom (cdrom : Z) : M unit unit :=
  r ← sys (Cioctl cdrom CDROMRESUME []);
  if decide (rv r = -1) then perror (line "Kann CD nicht fortsetzen") else mret ().

Definition menu : list Z :=
  line "-1- CD-Tray oeffnen" ++ line "-2- CD-Tray schliessen" ++ line "-3- CDROM-Faehigkeiten" ++
  line "-4- Audio-CD abspielen (komplett)" ++ line "-5- Einzelnen Track abspielen" ++ line "-6- <PAUSE>" ++
  line "-7- <FORTFAHREN>" ++ line "-8- <STOP>" ++ line "-9- Aktuellen Status ermitteln" ++
  line "-10- CD-Inhalt ausgeben" ++ line "-11- Programmende" ++ str "Auswahl: ".
(** [scanf("%d", &x)]: a variable keeps its value when nothing matches. *)
Definition scanf_into (x : option Z) : M unit (option Z) :=
  r ← scanf_d; mret (match r with Some z => Some z | None => x end).
(** The switch: [track] is the variable of case 5. *)
Definition dispatch (fuel : nat) (fd select : Z) (track : option Z) : M unit (option Z) :=
  if decide (select = 1) then open_tray fd;; mret track
  else if decide (select = 2) then close_tray fd;; mret track
  else if decide (select = 3) then capability_cdrom fd;; mret track
  else if decide (select = 4) then play_cdrom fd FULL;; mret track
  else if decide (select = 5) then
    printf (str "Welchen Track: ");; track ← scanf_into track;
    t ← mem track; play_cdrom fd t;; mret track
  else if decide (select = 6) then pause_cdrom fd;; mret track
  else if decide (select = 7) then resume_cdrom fd;; mret track
  else if decide (select = 8) then stop_cdrom fd;; mret track
  else if decide (select = 9) then get_audio_status fd;; mret track
  else if decide (select = 10) then content_cdrom fuel fd;; mret track
  else if decide (select = 11) then printf (line "Bye!");; mret track
  else printf (str "Was?");; mret track.
Definition menu_body (fuel : nat) (fd : Z) (v : option Z * option Z) : M unit ((option Z * option Z) + unit) :=
  printf menu;;
  select ← scanf_into v.1;
  choice ← mem select;
  track ← dispatch fuel fd choice v.2;
  if decide (choice = 11) then mret (inr ()) else mret (inl (select, track)).
Definition cdrom_main (fuel : nat) : M unit Z :=
  fd ← open_cdrom;
  loop fuel (menu_body fuel fd) (None, None);;
  stop_cdrom fd;;
  sys (Cclose fd);;
  mret 0.

(** ** What a drive with a disc of tracks 1 to [n] and table of contents [toc] answers *)
Definition has_entry (n t : Z) : Prop := 1 ≤ t ≤ n ∨ t = CDROM_LEADOUT.
#[export] Instance has_entry_dec n t : Decision (has_entry n t).
Proof. unfold has_entry. apply _. Defined.
Definition entry_answer (x : Z * Z * Z * Z) : ans :=
  let '(m, z, f, c) := x in Ans 0 0 [] [m; z; f; c] [].
Class Disc (e : env) (fd n : Z) (toc : Z → Z * Z * Z * Z) : Prop := {
  disc_tracks : 1 ≤ n ≤ 99;
  disc_entry h t : has_entry n t → kern e h (Cioctl fd CDROMREADTOCENTRY [t; CDROM_MSF]) = entry_answer (toc t);
  disc_no_entry h t : ¬ has_entry n t → rv (kern e h (Cioctl fd CDROMREADTOCENTRY [t; CDROM_MSF])) = -1;
  disc_header h : kern e h (Cioctl fd CDROMREADTOCHDR []) = Ans 0 0 [] [1; n] [] }.

(** The play commands a history shows. *)
Definition played_of (fd : Z) (ev : event) : list (list Z) :=
  match ev with
  | Sys (Cioctl fd' r args) _ => if decide (fd' = fd ∧ r = CDROMPLAYMSF) then [args] else []
  | _ => []
  end.
Definition played (fd : Z) (h : list event) : list (list Z) := concat (played_of fd <$> h).
Definition msf (x : Z * Z * Z * Z) : list Z := let '(m, z, f, _) := x in [m; z; f].

Lemma played_snoc fd h ev : played fd (h ++ [ev]) = played fd h ++ played_of fd ev.
Proof. unfold played. rewrite fmap_app. apply concat_snoc. Qed.

Section disc.
Context (e : env) (fd n : Z) (toc : Z → Z * Z * Z * Z) {H : Disc e fd n toc}.

(** The event of reading the entry of track [t]. *)
Definition toc_event (t : Z) : event :=
  Sys (Cioctl fd CDROMREADTOCENTRY [t; CDROM_MSF]) (entry_answer (toc t)).
Lemma read_tocentry_ok t s (Q : post unit (option (Z * Z * Z * Z))) :
  0 ≤ t < 256 → has_entry n t →
  (∀ s', hist s' = hist s ++ [toc_event t] → Q (Val (Some (toc t))) s') →
  wp (read_tocentry fd t) e s Q.
Proof.
  intros Ht Hn HQ. unfold read_tocentry. unfold uwrap. rewrite Z.mod_small by done.
  do 2 wp_step. rewrite (disc_entry _ _ Hn) in Ha. destruct (toc t) as [[[m z] f] c] eqn:E.
  subst a. cbn [rv entry_answer]. rewrite decide_False by done. wp_steps. apply HQ.
  rewrite hist_after. unfold toc_event. by rewrite E.
Qed.
Lemma read_tocentry_none t s (Q : post unit (option (Z * Z * Z * Z))) :
  0 ≤ t < 256 → ¬ has_entry n t →
  (∀ s' a, hist s' = hist s ++ [Sys (Cioctl fd CDROMREADTOCENTRY [t; CDROM_MSF]) a] → Q (Val None) s') →
  wp (read_tocentry fd t) e s Q.
Proof.
  intros Ht Hn HQ. unfold read_tocentry. unfold uwrap. rewrite Z.mod_small by done.
  do 2 wp_step. assert (Hr : rv a = -1) by (rewrite Ha; by apply disc_no_entry).
  rewrite Hr. rewrite decide_True by done. wp_steps. eapply HQ. apply hist_after.
Qed.
Lemma played_toc h t : played fd (h ++ [toc_event t]) = played fd h.
Proof.
  rewrite played_snoc. unfold toc_event, played_of. rewrite decide_False by (intros [_ ?]; done). apply app_nil_r.
Qed.

(** Playing between two entries that exist. *)
Lemma play_between flag track lead s :
  (flag = FULL ∧ track = 1 ∧ lead = CDROM_LEADOUT ∨ flag ≠ FULL ∧ track = flag ∧ lead = flag + 1 ∧ flag < 100) →
  0 ≤ track < 256 → 0 ≤ lead < 256 → has_entry n track → has_entry n lead →
  wp (play_cdrom fd flag) e s (λ o s',
    played fd (hist s') = played fd (hist s) ++ [msf (toc track) ++ msf (toc lead)] ∧
    (o = Val () ∨ o = Exit EXIT_FAILURE)).
Proof.
  intros Hflag Ht Hl Het Hel. unfold play_cdrom. wp_step.
  apply wp_mono with (P := λ o s', o = Val (track, lead) ∧ s' = s).
  { destruct Hflag as [(-> & -> & ->)|(Hf & -> & -> & Hb)].
    - rewrite decide_True by done. by wp_steps.
    - rewrite decide_False by done. wp_step. unfold iadd.
      rewrite decide_True by (unfold INT_MIN, INT_MAX; lia). by wp_steps. }
  intros o s' [-> ->]. cbn [bpost]. wp_step.
  apply read_tocentry_ok; [done..|]. intros s1 H1. cbn [bpost]. destruct (toc track) as [[[m z] f] c].
  wp_step. apply read_tocentry_ok; [done..|]. intros s2 H2. cbn [bpost]. destruct (toc lead) as [[[m' z'] f'] c'].
  assert (Hp : ∀ ev, played_of fd ev = [[m; z; f; m'; z'; f']] →
    played fd (hist s2 ++ [ev]) = played fd (hist s) ++ [[m; z; f; m'; z'; f']]).
  { intros ev Hev. by rewrite played_snoc, H2, played_toc, H1, played_toc, Hev. }
  do 2 wp_step. wp_if; wp_steps; st_simpl; (split; [|by auto]).
  - rewrite played_snoc, app_nil_r. apply Hp. unfold played_of. by rewrite decide_True.
  - apply Hp. unfold played_of. by rewrite decide_True.
Qed.

(** C33. With a disc of [n] tracks in the drive, playing all plays from the
    beginning of track 1 to the lead-out, and playing track [k] from the
    beginning of [k] to the beginning of the next one, except for the last
    track: its end is looked for in track [n + 1], which no disc has, and the
    program ends with 1 without playing.  A number above 255 plays the track
    with the same last eight bits. *)
Theorem play_cdrom_tracks s :
  wp (play_cdrom fd FULL) e s (λ o s',
    played fd (hist s') = played fd (hist s) ++ [msf (toc 1) ++ msf (toc CDROM_LEADOUT)] ∧
    (o = Val () ∨ o = Exit EXIT_FAILURE)) ∧
  (∀ k, 1 ≤ k < n → wp (play_cdrom fd k) e s (λ o s',
    played fd (hist s') = played fd (hist s) ++ [msf (toc k) ++ msf (toc (k + 1))] ∧
    (o = Val () ∨ o = Exit EXIT_FAILURE))) ∧
  wp (play_cdrom fd n) e s (λ o s',
    o = Exit EXIT_FAILURE ∧ played fd (hist s') = played fd (hist s)) ∧
  (∀ k, 1 ≤ k ≤ INT_MAX - 257 → play_cdrom fd (k + 256) e s = play_cdrom fd k e s).
Proof.
  pose proof disc_tracks as Hn. split; [|split; [|split]].
  - apply play_between; [by left|done..|left; lia|by right].
  - intros k Hk. unfold FULL. apply play_between; [right; unfold FULL; lia|lia|lia|left; lia|left; lia].
  - unfold play_cdrom, FULL. rewrite decide_False by lia. do 2 wp_step. unfold iadd.
    rewrite decide_True by (unfold INT_MIN, INT_MAX; lia). wp_steps.
    apply read_tocentry_ok; [lia|left; lia|]. intros s1 H1. cbn [bpost]. destruct (toc n) as [[[m z] f] c].
    wp_step. apply read_tocentry_none; [lia|unfold has_entry, CDROM_LEADOUT; lia|].
    intros s2 a H2. wp_steps. split; [done|]. st_simpl. rewrite played_snoc, H2, played_snoc, H1, played_toc.
    unfold played_of. rewrite decide_False by (intros [_ ?]; done). by rewrite !app_nil_r.
  - intros k Hk. unfold INT_MAX in Hk. unfold play_cdrom, FULL.
    rewrite !(decide_False (P := _ = 0)) by lia. unfold iadd.
    rewrite !decide_True by (unfold INT_MIN, INT_MAX; lia). unfold mbind, M_bind, bind, mem, mret, M_ret, ret.
    assert (Hu : ∀ x, read_tocentry fd (x + 256) = read_tocentry fd x).
    { intros x. unfold read_tocentry, uwrap. replace (x + 256) with (x + 1 * 2 ^ 8) by lia.
      by rewrite Z.mod_add. }
    replace (k + 256 + 1) with (k + 1 + 256) by lia. by rewrite !Hu.
Qed.

Lemma toc_lines_loop k s : 1 ≤ k ≤ n + 1 → ∀ fuel, (Z.to_nat (n + 1 - k) < fuel)%nat →
  wp (loop fuel (λ track,
      if decide (track ≤ n) then
        t ← read_tocentry fd track;
        match t with
        | None => perror (str "Kann den Inhalt der CD nicht ermitteln");; exit EXIT_FAILURE
        | Some (m, z, f, c) => printf (toc_line track m z f c);; mret (inl (track + 1))
        end
      else mret (inr ())) k) e s (λ o s',
    o = Val () ∧ printed Stdout (hist s') = printed Stdout (hist s) ++
      concat ((λ t, let '(m, z, f, c) := toc t in toc_line t m z f c) <$> seqZ k (n + 1 - k))).
Proof.
  pose proof disc_tracks as Hn. intros Hk fuel. revert k s Hk.
  induction fuel as [|fuel IH]; intros k s Hk Hf; [lia|]. apply wp_loop_S. wp_if.
  - wp_step. apply read_tocentry_ok; [lia|left; lia|]. intros s1 H1. cbn [bpost].
    rewrite (seqZ_cons k) by lia. rewrite fmap_cons. cbn [concat]. destruct (toc k) as [[[m z] f] c].
    wp_steps. eapply wp_mono; [apply IH; lia|]. intros o s' [-> Hp]. split; [done|]. rewrite Hp. st_simpl.
    rewrite !printed_app, H1, printed_app, !printed_1. cbn [put_of]. rewrite app_nil_r, <- app_assoc. repeat f_equal; lia.
  - wp_steps. split; [done|]. replace (n + 1 - k) with 0 by lia. cbn. by rewrite app_nil_r.
Qed.

(** With a disc in the drive and fuel for more than its tracks,
    content_cdrom returns and has printed the number of tracks and one line
    for each track in order. *)
Theorem content_cdrom_lists fuel s :
  n < Z.of_nat fuel →
  wp (content_cdrom fuel fd) e s (λ o s', o = Val () ∧
    printed Stdout (hist s') = printed Stdout (hist s) ++
      LF :: str "Inhalt " ++ dec n ++ line " Tracks:" ++
      concat ((λ t, let '(m, z, f, c) := toc t in toc_line t m z f c) <$> seqZ 1 n)).
Proof.
  intros Hf. pose proof disc_tracks as Hn. unfold content_cdrom. do 2 wp_step. rewrite disc_header in Ha. subst a.
  cbn [rv]. rewrite decide_False by done. do 4 wp_step. cbn [rwords lookup list_lookup].
  wp_steps. eapply wp_mono; [apply toc_lines_loop; lia|]. intros o s' [-> Hp]. split; [done|].
  rewrite Hp. st_simpl. rewrite !printed_app, !printed_1. cbn [put_of]. rewrite app_nil_r.
  replace (n + 1 - 1) with n by lia. rewrite <- app_assoc. f_equal. cbn [app]. f_equal. by rewrite <- !app_assoc.
Qed.
End disc.

(** A drive with a disc of three tracks. *)
Definition demo_toc (t : Z) : Z * Z * Z * Z := (t, 2, 3, 4).
Definition demo_kern (h : list event) (c : call) : ans :=
  match c with
  | Cioctl _ r args =>
      if decide (r = CDROMREADTOCHDR) then Ans 0 0 [] [1; 3] []
      else if decide (r = CDROMREADTOCENTRY) then
        match args with
        | t :: _ => if decide (has_entry 3 t) then entry_answer (demo_toc t) else answer_err 22
        | [] => answer_err 22
        end
      else answer 0
  | _ => answer 0
  end.
Lemma demo_disc : Disc (env_of demo_kern) 5 3 demo_toc.
Proof.
  split; [lia| | |done].
  - intros h t Ht. unfold env_of, kern, demo_kern.
    rewrite decide_False, decide_True by done. by rewrite decide_True.
  - intros h t Ht. unfold env_of, kern, demo_kern.
    rewrite decide_False, decide_True by done. by rewrite decide_False.
Qed.
Lemma play_cdrom_tracks_witness :
  wp (play_cdrom 5 3) (env_of demo_kern) (init () []) (λ o s',
    o = Exit EXIT_FAILURE ∧ played 5 (hist s') = []).
Proof. exact (proj1 (proj2 (proj2 (@play_cdrom_tracks _ 5 3 demo_toc demo_disc (init () []))))). Defined.
Lemma content_cdrom_lists_witness :
  3 < Z.of_nat 5 ∧
  wp (content_cdrom 5 5) (env_of demo_kern) (init () []) (λ o s', o = Val () ∧
    printed Stdout (hist s') = LF :: str "Inhalt " ++ dec 3 ++ line " Tracks:" ++
      toc_line 1 1 2 3 4 ++ toc_line 2 2 2 3 4 ++ toc_line 3 3 2 3 4 ++ []).
Proof. split; [lia|]. exact (@content_cdrom_lists _ 5 3 demo_toc demo_disc 5%nat (init () []) ltac:(lia)). Defined.
End Cdrom.
