(* ===== verification/Tools.v ===== *)
(** * 17_Tools: libraries, make and the memory checker

    [myequal.c] of the static and the dynamic library with their tests, the
    program that loads the dynamic library ([dynamisch.c]), the program that
    make builds, and [memory.c], whose errors are for the memory checker to
    find.  The dynamic loader is the environment's; the function it finds is
    [my_equal]. *)
From S2P Require Import Prelude CLib Machine FileIO.

(** ** libraries/static and libraries/dynamic: myequal.c, testlist.c *)
Module MyEqual.
Definition MYTRUE : Z := 1.
Definition MYFALSE : Z := 0.
Definition my_equal (a b : Z) : Z := if decide (a = b) then MYTRUE else MYFALSE.
Definition testlist_main : Machine.M unit Z :=
  let ret := my_equal 5 5 in
  (if decide (ret = MYTRUE) then printf (line "Beide Werte sind gleich") else printf (line "Die Werte sind nich gleich"));;
  mret 0.
End MyEqual.

(** ** libraries/dynamic/dynamisch.c *)
Module Dynamic.
Import MyEqual.
Abbreviation M := (Machine.M unit).
Definition LIBEQUAL : list Z := str "libmyequal.so".
Definition RTLD_NOW : Z := 2.
Definition dlerror : M (list Z) := a ← sys (Clib "dlerror" [] []); mret (rdata a).
Definition my_load_dyn (name : list Z) : M Z :=
  handle ← lib "dlopen" [RTLD_NOW] name;
  if decide (handle = 0) then d ← dlerror; printf (str "Fehler bei dlopen(): " ++ d ++ [LF]);; exit EXIT_FAILURE
  else mret handle.
Definition my_load_func (handle : Z) (func : list Z) : M Z :=
  funcptr ← lib "dlsym" [handle] func;
  if decide (funcptr = 0) then d ← dlerror; printf (str "Fehler bei dlsym(): " ++ d ++ [LF]);; exit EXIT_FAILURE
  else mret funcptr.
Definition my_close_func (handle : Z) : M unit :=
  r ← lib "dlclose" [handle] [];
  if decide (r ≠ 0) then d ← dlerror; printf (str "Fehler bei dlclose(): " ++ d ++ [LF]) else mret ().
(** [scanf("%d", &x)]: what is not a number leaves the variable as it is. *)
Definition scanf_into (x : Z) : M Z := r ← scanf_d; mret (default x r).
Definition verdict (ret : Z) : list Z := if decide (ret = MYTRUE) then line "Die Werte sind gleich" else line "Die Werte sind nicht gleich".
Definition turn '(val1, val2) : M (Z * Z + unit) :=
  printf (str "Zahl 1 eingeben: ");;
  val1 ← scanf_into val1;
  printf (str "Zahl 2 eingeben: ");;
  val2 ← scanf_into val2;
  if decide (val1 = 0 ∨ val2 = 0) then mret (inr ())
  else
    lib_handle ← my_load_dyn LIBEQUAL;
    my_load_func lib_handle (str "my_equal");;
    printf (verdict (my_equal val1 val2));;
    my_close_func lib_handle;;
    mret (inl (val1, val2)).
Definition dynamisch_main (fuel : nat) : M Z := loop fuel turn (1, 2);; mret EXIT_SUCCESS.
End Dynamic.

(** ** make: main.c, test1.c, test2.c *)
Module Make.
Abbreviation M := (Machine.M unit).
Definition TEST : Z := 2.
Definition test1 : M unit := printf (line "Test1").
Definition test2 : M unit := printf (str "Test2: " ++ dec TEST ++ [LF]).
(** [f]: the text of the floating-point number sqrt(3.43) *)
Definition main (f : list Z) : M Z := test1;; test2;; printf f;; mret 0.
End Make.

(** ** memory/memory.c: the state is the set of the live blocks *)
Module Memory.
Abbreviation MM := (Machine.M (gset Z)).
Definition BUF : nat := 10.
Definition alloc_memory (mem : Z) : MM Z :=
  p ← lib "malloc" [mem] [];
  (if decide (p = 0) then mret () else g ← get; put ({[p]} ∪ g));;
  mret p.
(** A block that is not live cannot be freed. *)
Definition free (p : Z) : MM unit :=
  if decide (p = 0) then mret () else g ← get; if decide (p ∈ g) then put (g ∖ {[p]}) else undef.
Definition free_loop (ptr : Z) : MM unit := for_range BUF 0 (λ _, alloc_memory (Z.of_nat (BUF * BUF));; free ptr).
Definition memory_main : MM Z :=
  ptr ← alloc_memory (Z.of_nat BUF);
  printf (str "Eingabe machen: ");;
  b ← mem (if decide (ptr = 0) then None else Some (uninit BUF));
  r ← fgets_stdin BUF;
  b ← mem (match r with Some d => blit b 0 (d ++ [0]) | None => Some b end);
  d ← mem (cstr b);
  printf (str "Die Eingabe lautet: " ++ d);;
  b ← mem (strcat b (str " 123456789"));
  d ← mem (cstr b);
  printf (d ++ [LF]);;
  free_loop ptr;;
  mret EXIT_SUCCESS.
End Memory.

(** ** Theorems *)

Lemma my_equal_spec a b : MyEqual.my_equal a b = MyEqual.MYTRUE ↔ a = b.
Proof. unfold MyEqual.my_equal. by case_decide. Qed.

(** *** dynamisch.c *)
Module Compares.
Import MyEqual Dynamic.
Lemma scan_int_nl l : scan_int (LF :: l) = scan_int l.
Proof. done. Qed.
Lemma wp_scanf x z r e s (Q : post unit Z) : stdin s = LF :: dec z ++ LF :: r ∨ stdin s = dec z ++ LF :: r → INT_MIN ≤ z ≤ INT_MAX →
  Q (Val z) (set_stdin (LF :: r) s) → wp (scanf_into x) e s Q.
Proof.
  intros Hs Hz HQ. apply wp_bind. unfold wp at 1, scanf_d.
  assert (scan_int (stdin s) = Some (z, LF :: r)) as -> by (destruct Hs as [-> | ->]; rewrite ?scan_int_nl; apply scan_int_dec; by intros ? ? [= <- _]).
  rewrite decide_True by done. cbn [bpost fst snd]. by wp_steps.
Qed.
Lemma wp_scanf_eof x e s (Q : post unit Z) : stdin s = [] → Q (Val x) (set_stdin [] s) → wp (scanf_into x) e s Q.
Proof. intros Hs HQ. apply wp_bind. unfold wp at 1, scanf_d. rewrite Hs. cbn. by wp_steps. Qed.
(** The loader finds the library and the function. *)
Record loads (e : env) : Prop := {
  loads_open h : rv (kern e h (Clib "dlopen" [RTLD_NOW] LIBEQUAL)) ≠ 0;
  loads_sym h p : rv (kern e h (Clib "dlsym" [p] (str "my_equal"))) ≠ 0;
  loads_close h p : rv (kern e h (Clib "dlclose" [p] [])) = 0 }.
Lemma wp_load_lib e s (Q : post unit Z) : loads e → (∀ p s', stdin s' = stdin s → printed Stdout (hist s') = printed Stdout (hist s) → Q (Val p) s') →
  wp (my_load_dyn LIBEQUAL) e s Q.
Proof.
  intros L HQ. unfold my_load_dyn. wp_steps. subst a. rewrite decide_False by apply (loads_open _ L). wp_steps. apply HQ; [by st_simpl|by hist_norm].
Qed.
Lemma wp_func p e s (Q : post unit Z) : loads e → (∀ q s', stdin s' = stdin s → printed Stdout (hist s') = printed Stdout (hist s) → Q (Val q) s') →
  wp (my_load_func p (str "my_equal")) e s Q.
Proof.
  intros L HQ. unfold my_load_func. wp_steps. subst a. rewrite decide_False by apply (loads_sym _ L). wp_steps. apply HQ; [by st_simpl|by hist_norm].
Qed.
Lemma wp_close p e s (Q : post unit unit) : loads e → (∀ s', stdin s' = stdin s → printed Stdout (hist s') = printed Stdout (hist s) → Q (Val ()) s') →
  wp (my_close_func p) e s Q.
Proof.
  intros L HQ. unfold my_close_func. wp_steps. subst a. rewrite decide_False by (rewrite (loads_close _ L); lia). wp_steps. apply HQ; [by st_simpl|by hist_norm].
Qed.
Definition prompts : list Z := str "Zahl 1 eingeben: " ++ str "Zahl 2 eingeben: ".
(** What comes after the two numbers have been read. *)
Lemma wp_verdict v1 v2 e s (Q : post unit (Z * Z + unit)) : loads e → v1 ≠ 0 → v2 ≠ 0 →
  (∀ s', stdin s' = stdin s → printed Stdout (hist s') = printed Stdout (hist s) ++ verdict (my_equal v1 v2) → Q (Val (inl (v1, v2))) s') →
  wp (if decide (v1 = 0 ∨ v2 = 0) then mret (inr ())
      else lib_handle ← my_load_dyn LIBEQUAL; my_load_func lib_handle (str "my_equal");; printf (verdict (my_equal v1 v2));;
        my_close_func lib_handle;; mret (inl (v1, v2))) e s Q.
Proof.
  intros L H1 H2 HQ. rewrite decide_False by tauto.
  apply wp_bind, (wp_load_lib _ _ _ L). intros p s1 Hi1 Hp1. cbn [bpost]. apply wp_bind, (wp_func _ _ _ _ L). intros q s2 Hi2 Hp2. cbn [bpost].
  wp_steps. apply (wp_close _ _ _ _ L). intros s3 Hi3 Hp3. wp_steps. apply HQ; [rewrite Hi3; st_simpl; congruence|].
  rewrite Hp3. hist_norm. by rewrite Hp2, Hp1.
Qed.
(** The input: pairs of numbers, one number to a line. *)
Definition pair_text (p : Z * Z) : list Z := dec p.1 ++ [LF] ++ dec p.2 ++ [LF].
Definition is_int (z : Z) : Prop := INT_MIN ≤ z ≤ INT_MAX.
Definition answers (ps : list (Z * Z)) : list Z :=
  concat ((λ p, prompts ++ (if decide (p.1 = p.2) then line "Die Werte sind gleich" else line "Die Werte sind nicht gleich")) <$> ps).
Lemma verdict_eq a b : verdict (my_equal a b) = if decide (a = b) then line "Die Werte sind gleich" else line "Die Werte sind nicht gleich".
Proof. unfold verdict, my_equal. by destruct (decide (a = b)). Qed.
(** Reading one pair. *)
Lemma wp_turn v p r e s (Q : post unit (Z * Z + unit)) : is_int p.1 → is_int p.2 →
  stdin s = LF :: pair_text p ++ r ∨ stdin s = pair_text p ++ r →
  (∀ s', stdin s' = LF :: r → printed Stdout (hist s') = printed Stdout (hist s) ++ prompts →
    wp (if decide (p.1 = 0 ∨ p.2 = 0) then mret (inr ())
      else lib_handle ← my_load_dyn LIBEQUAL; my_load_func lib_handle (str "my_equal");; printf (verdict (my_equal p.1 p.2));;
        my_close_func lib_handle;; mret (inl (p.1, p.2))) e s' Q) →
  wp (turn v) e s Q.
Proof.
  intros H1 H2 Hs HQ. destruct v as [v1 v2]. unfold turn. wp_steps. unfold pair_text in Hs. rewrite <- !app_assoc in Hs.
  apply (wp_scanf _ p.1 (dec p.2 ++ [LF] ++ r)); [by st_simpl|done|]. wp_steps.
  apply (wp_scanf _ p.2 r); [left; by st_simpl|done|]. cbn [bpost]. apply HQ; [by st_simpl|]. hist_norm. done.
Qed.
(** dynamisch.c answers every pair of numbers in the input, says that they
    are equal exactly when they are, and ends at the first pair with a zero. *)
Theorem dynamisch_answers e ps p0 rest fuel : loads e →
  Forall (λ p, is_int p.1 ∧ is_int p.2 ∧ p.1 ≠ 0 ∧ p.2 ≠ 0) ps → is_int p0.1 → is_int p0.2 → p0.1 = 0 ∨ p0.2 = 0 → (length ps < fuel)%nat →
  wp (dynamisch_main fuel) e (init () (concat (pair_text <$> ps) ++ pair_text p0 ++ rest)) (λ o s,
    o = Val EXIT_SUCCESS ∧ printed Stdout (hist s) = answers ps ++ prompts).
Proof.
  intros L Hps H01 H02 Hz Hf. unfold dynamisch_main. apply wp_bind.
  enough (G : ∀ fuel ps s v, Forall (λ p, is_int p.1 ∧ is_int p.2 ∧ p.1 ≠ 0 ∧ p.2 ≠ 0) ps → (length ps < fuel)%nat →
    stdin s = LF :: concat (pair_text <$> ps) ++ pair_text p0 ++ rest ∨ stdin s = concat (pair_text <$> ps) ++ pair_text p0 ++ rest →
    wp (loop fuel turn v) e s (λ o s', o = Val () ∧ printed Stdout (hist s') = printed Stdout (hist s) ++ answers ps ++ prompts)).
  { eapply wp_mono; [apply (G fuel ps _ (1, 2) Hps Hf); by right|]. intros o s [-> Hp]. wp_steps. by split. }
  clear -L H01 H02 Hz. induction fuel as [|fuel IH]; intros ps s v Hps Hf Hs; [lia|]. apply wp_loop_S.
  destruct ps as [|p ps].
  - apply (wp_turn _ p0 rest); [done|done|done|]. intros s' Hi Hp. rewrite decide_True by done. wp_steps. by split.
  - cbn [fmap list_fmap concat] in Hs. rewrite <- app_assoc in Hs. apply Forall_cons in Hps as [(H1 & H2 & H3 & H4) Hps].
    apply (wp_turn _ p (concat (pair_text <$> ps) ++ pair_text p0 ++ rest)); [done|done|done|]. intros s' Hi Hp.
    apply (wp_verdict _ _ _ _ _ L H3 H4). intros s'' Hi' Hp'. cbn [bpost].
    eapply wp_mono; [apply (IH ps s'' _ Hps); [cbn in Hf; lia|left; by rewrite Hi', Hi]|]. intros o t [-> Ht]. split; [done|].
    rewrite Ht, Hp', Hp, verdict_eq. unfold answers. cbn [fmap list_fmap concat]. by rewrite <- !app_assoc.
Qed.
Definition e_dl : env := Env (λ _ c, answer (match c with Clib "dlclose" _ _ => 0 | _ => 1 end)) (λ _, []) (λ _, None) (λ _, None) (λ _, []).
Lemma dynamisch_answers_witness :
  wp (dynamisch_main 3) e_dl (init () (concat (pair_text <$> [(3, 3); (3, 4)]) ++ pair_text (0, 1) ++ [])) (λ o s,
    o = Val EXIT_SUCCESS ∧ printed Stdout (hist s) = answers [(3, 3); (3, 4)] ++ prompts).
Proof.
  apply (dynamisch_answers e_dl [(3, 3); (3, 4)] (0, 1) [] 3); [by split|by repeat constructor|done|done|by left|cbn; lia].
Defined.
(** At the end of the input the last numbers stay, and the loop never ends. *)
Lemma dynamisch_spins e fuel : loads e → (dynamisch_main fuel e (init () [])).1 = Running.
Proof.
  intros L. change (wp (dynamisch_main fuel) e (init () []) (λ o _, o = Running)). unfold dynamisch_main. apply wp_bind.
  apply (wp_loop_safe _ _ (λ l s, l = (1, 2) ∧ stdin s = [])); [done| |done].
  intros l s [-> Hs]. unfold turn. wp_steps.
  apply wp_scanf_eof; [by st_simpl|]. wp_steps. apply wp_scanf_eof; [by st_simpl|]. cbn [bpost].
  apply wp_verdict; [done|done|done|]. intros s' Hi Hp. cbn [bpost]. split; [done|]. rewrite Hi. by st_simpl.
Qed.
End Compares.

(** *** memory.c *)
Module Blocks.
Import Memory.
Lemma blit_BUF b off l b' : length b = BUF → blit b off l = Some b' → length b' = BUF.
Proof. intros H Hb. by rewrite (blit_length _ _ _ _ Hb). Qed.
(** Ten characters and the null behind them never fit in the block. *)
Lemma strcat_full b : length b = BUF → strcat b (str " 123456789") = None.
Proof.
  intros Hb. destruct (cstr b) as [d|] eqn:E; [|unfold strcat; by rewrite E].
  apply (strcat_None _ d); [done|]. rewrite Hb. change (length (str " 123456789")) with 10%nat. unfold BUF. lia.
Qed.
(** memory.c writes behind its block for every input, or before that prints
    what nobody has written: its behaviour is never defined. *)
Lemma memory_undefined e inp : (memory_main e (init ∅ inp)).1 = Undef.
Proof.
  change (wp memory_main e (init ∅ inp) (λ o _, o = Undef)). unfold memory_main. apply wp_bind. unfold alloc_memory. wp_steps.
  apply (wp_mono _ _ _ (λ o s, o = Val ())); [by case_decide; wp_steps|]. intros o s1 ->. wp_steps.
  apply wp_mem. case_decide; [done|]. cbn [bpost]. apply wp_bind. unfold wp at 1.
  destruct (fgets_stdin BUF e (log (Put Stdout (str "Eingabe machen: ")) s1)) as [r s2] eqn:E. cbn [fst snd].
  assert (Hr : ∃ r', r = Val r') by (unfold fgets_stdin in E; destruct (stdin _); [|destruct (fgets_take _ _)]; injection E as <- <-; by eexists).
  destruct Hr as [r' ->]. cbn [bpost]. apply wp_bind, wp_mem.
  destruct (match r' with Some d => blit (uninit BUF) 0 (d ++ [0]) | None => Some (uninit BUF) end) as [b|] eqn:Eb; [|done].
  assert (length b = BUF) by (destruct r'; [by apply (blit_BUF (uninit BUF)) in Eb|by injection Eb as <-]).
  cbn [bpost]. apply wp_bind, wp_mem. destruct (cstr b) as [d|]; [|done]. cbn [bpost]. wp_steps.
  rewrite strcat_full by done. by wp_steps.
Qed.
(** And the block would be freed twice, unless malloc hands it out again. *)
Lemma free_loop_undefined e s ptr : ptr ≠ 0 → (∀ h, rv (kern e h (Clib "malloc" [100] [])) ≠ ptr) →
  (free_loop ptr e s).1 = Undef.
Proof.
  intros H0 Hm. set (Q := λ (o : outcome unit) (_ : st (gset Z)), o = Undef). change (wp (free_loop ptr) e s Q).
  assert (T : ∀ s', wp (alloc_memory 100;; free ptr) e s' (λ o s'', o = Undef ∨ o = Val () ∧ ptr ∉ glob s'') ∧
    (ptr ∉ glob s' → wp (alloc_memory 100;; free ptr) e s' (λ o _, o = Undef))).
  { intros s'. split; [|intros Hp]; unfold alloc_memory, free; wp_steps; subst a; (case_decide; wp_steps; rewrite decide_False by done; wp_steps;
      st_simpl; case_decide; wp_steps); st_simpl; try (by left); try (right; split; [done|]; set_solver); try done; specialize (Hm (hist s')); set_solver. }
  unfold free_loop. change (alloc_memory (Z.of_nat (BUF * BUF))) with (alloc_memory 100). unfold BUF. cbn [for_range].
  apply wp_bind. eapply wp_mono; [exact (proj1 (T s))|]. intros o s1 [-> |[-> Hp]]; [done|]. cbn [bpost].
  apply wp_bind. eapply wp_mono; [exact (proj2 (T s1) Hp)|]. by intros o s2 ->.
Qed.
End Blocks.
